(* ===== verification/_CoqProject ===== *)
-Q . S2P
Prelude.v
CStr.v
StateM.v
Sandbox.v
Fs.v
Compression.v
Filenames.v
Util.v
Wordfnmatch.v
Mydbm.v
Xdbm.v
Backends.v
DbContent.v
DbLookup.v
DbGroup.v
DbKeys.v
DbPattern.v
DbStore.v
DbDelete.v
Encodings.v
Utf8.v
Regex.v
Manconv.v
ManconvLoop.v
Pipe.v
Decompress.v
ManconvClient.v
Convert.v
Recode.v
Preproc.v
Globbing.v
GlobbingTest.v
Descriptions.v
Lexgrog.v
Cleanup.v
Security.v
CatDirs.v
UltSrc.v
Purge.v
CheckMandirs.v
FindName.v
OrderFiles.v
Manp.v
Straycats.v
Manpath.v
Accessdb.v
ManpathMain.v
Zsoelim.v
LexgrogMain.v
Candidates.v
Whatis.v
WhatisIndex.v
ManArgs.v
Catman.v
ManSearch.v
ManLoop.v
ManMain.v
ManOpts.v
Roff.v
Pager.v
ManStart.v
CatFile.v
Display.v
IndexFiles.v
Mandb.v
MandbIndex.v
MandbFile.v
IndexSteps.v
MandbMain.v
