(* ===== verification/Prelude.v ===== *)
(** * man-db: a verification development

    man-db finds, formats and displays manual pages.  Its core is an index of
    the pages of a hierarchy (a database of names, sections and descriptions),
    the program mandb that keeps it up to date, the search path of hierarchies
    and the files found in them, the programs man, whatis and apropos that
    search both, and the pipelines that decompress, recode, format and show a
    page.  This development models these as functions on explicit state,
    translated from the C and lex sources under src/, and proves what makes
    them correct.

    ** The parts and the files

    Foundations:

    - CStr, StateM, Fs: C strings and the [ctype.h] and [string.h] functions
      the sources call; the state monad of the larger programs; the read-only
      file system.
    - Compression, Filenames (lib/compression.c, lib/filenames.c): the table of
      compression extensions; [filename_info] takes a path apart,
      [make_filename] builds it.
    - Util, Wordfnmatch (lib/util.c, lib/appendstr.c, lib/linelength.c,
      lib/pathsearch.c, lib/wordfnmatch.c, [init_debug] of lib/debug.c).
    - Cleanup, Security, Sandbox (lib/cleanup.c, lib/security.c,
      lib/sandbox.c): the stack of cleanup functions and the signal handler;
      the dropping and regaining of privileges; the seccomp filter.
    - Regex: the regular expressions of the two lexers and flex's choice of a
      rule, by derivatives.
    - OrderFiles (lib/orderfiles.c): the order in which files are read.

    The index:

    - Mydbm, Xdbm (libdb/mydbm.h, libdb/db_xdbm.c): the interface of the
      database library as a class with laws; the traversal in key order.
    - Backends (libdb/db_btree.c, db_gdbm.c, db_ndbm.c): opening and locking an
      index over the three libraries; the traversal of a btree with its check
      for loops.
    - DbContent, DbLookup, DbGroup, DbKeys, DbPattern, DbStore, DbDelete
      (libdb/db_lookup.c, db_store.c, db_delete.c, db_ver.c): the contents of
      the index, lookups by name and by pattern, storing, deleting, the version
      entry.  DbGroup and DbKeys hold no code: they split the contents into the
      groups of keys that belong to one name.
    - IndexSteps holds no code: the index as a state machine whose steps are
      the operations of DbStore, DbDelete and Purge.

    Pages and their text:

    - Encodings, Utf8, Manconv, ManconvLoop (lib/encodings.c, src/utf8.c,
      src/manconv.c): the encodings of pages, locales and devices; the
      validation of UTF-8; the encoding declaration of a page's first line; the
      conversion of a page block by block.
    - Pipe: pipelines as data, the commands and options of libpipeline.
    - Decompress, ManconvClient, Convert, Recode (src/decompress.c,
      src/manconv_client.c, src/manconv_main.c, src/convert.c,
      src/man-recode.c): reading compressed pages in memory or through a
      pipeline; adding conversions to a pipeline; descriptions in the locale's
      encoding; converting pages in place.
    - Globbing, GlobbingTest (src/globbing.c, src/globbing_test.c):
      [look_for_file], with its directory cache.
    - Lexgrog, FindName, LexgrogMain (src/lexgrog.l, src/lexgrog_test.c): the
      scanner for NAME sections, rule by rule; the page it is given; the
      program lexgrog.
    - Zsoelim (src/zsoelim.l, src/zsoelim_main.c): the scanner that replaces
      .so requests by files.
    - Descriptions (src/descriptions.c, src/descriptions_store.c): the names and
      descriptions of a NAME section, and how they enter the index.
    - UltSrc (src/ult_src.c): the page a page comes down to through links and
      inclusions.
    - Preproc (src/man.c): the preprocessors a page asks for.

    mandb and its relatives:

    - Purge, CheckMandirs, CatDirs (src/check_mandirs.c): removing what is gone
      from the index, scanning changed directories for pages, making cat
      directories.
    - Straycats (src/straycats.c): cat pages without a source.
    - Manp, Manpath, ManpathMain (src/manp.c, src/manpath.c): the configuration
      file and what is looked up in it; the search path.
    - Accessdb (src/accessdb.c): the listing of an index.
    - IndexFiles, Mandb, MandbIndex, MandbFile, MandbMain (src/mandb.c): the
      files of an index and their replacement; one hierarchy; the transaction
      on its index; the update of one file; the hierarchies of a run and their
      cat directories.
    - Catman (src/catman.c): the commands that make cat pages.

    Searching and showing:

    - Whatis, WhatisIndex (src/whatis.c): matching and display; the search of
      whatis and apropos through an index.
    - Candidates, ManArgs, ManSearch, ManLoop, ManMain (src/man.c): the list of
      candidates for a page and its order; the reading of words of the shell
      and of cat file names; the search through files and index; the loop over
      the arguments; the whole search for an argument.
    - ManOpts, ManStart (src/man.c): the options; [main] from the locales and
      options to the pager, the terminal, and the program as a whole.
    - Roff, Pager, CatFile, Display (src/man.c, lib/tempfile.c): the pipeline
      that formats a page; the one that shows it; the cat file, written to a
      temporary file and renamed; the display of one page.

    A scan ([CheckMandirs.test_manfile]) calls [filename_info], looks the page
    up in the index, follows it with [ult_src], reads its NAME section with
    [find_name] and [parse_descriptions] and stores the result with
    [store_descriptions], which calls [dbstore] for each name; a purge calls
    [look_for_file] and [dbdelete].  A run of mandb ([MandbMain]) takes the
    directories of the search path, and for each hierarchy copies the index to
    a temporary file, purges and scans it and renames it back
    ([MandbIndex.process_manpath]).  man ([ManStart.main]) reads its options,
    splits its arguments, searches the directories with [look_for_file] and the
    index with [dblookup_all], sorts the candidates and displays them; whatis
    and apropos walk the index with the traversal of Xdbm.  The clients'
    theorems use only the laws of [Mydbm] and the theorems of the components
    below them.

    ** How state and effects are modelled

    A C string is the list of its bytes before the NUL ([cstr]); a null pointer
    is [None].  Functions take the state they read and return the state they
    leave (the database, the caches, the globals of their file).  A computation
    ends in an [outcome]: [Ret], [Fatal] (the program ends through [fatal],
    [error (FAIL, ...)] or a failed assertion) or [Undef] (behaviour that C
    leaves undefined, such as a read past a string).  Warnings, debugging output
    and the freeing of memory are left out, except where freed memory is read
    again ([Manpath.pathappend], [Catman.mansect_freed]).

    The database is any type with the operations of [Mydbm]; its documented
    behaviour is stated on a finite map of keys to contents ([db_view]).
    [DbLookup.wf] says which contents are an index: entries, lists of
    references that do not dangle, and nothing else.  [DbLookup.page_at] is the
    abstraction: the page stored for a name and an extension.  [store_spec] and
    [del] are what storing and deleting mean on it, and [dbstore_correct],
    [dbdelete_correct], [dblookup_correct] and [purge_missing_correct] are
    refinements of it.

    Starting a pipeline is a value (Pipe); where its result matters, what it
    prints and how it exits is a parameter.

    ** What is taken as given

    Code that is not part of the repository enters as a class or an argument,
    with its documented behaviour as hypotheses where a theorem needs it: the
    database libraries ([Mydbm], [MydbmLaws], [DbLib]), [fnmatch] and [regexec]
    ([Matcher]), the file system ([FileSystem]), gnulib's [dir_name] and
    [base_name] ([Dirname]) and idpriv ([IdPriv]), locales ([locale_env]),
    [iconv] ([Iconv], [IconvLaws]), zlib and the output of pipelines, argp's
    reading of a command line.  Of [iconv] only this is assumed: how much a call
    reads, and that it gets on.  [ManEnv] is what man's search takes from
    outside: the configuration, the settings, the display of a page and the
    runs of mandb.  flex is taken to choose the longest match and among those
    the first rule; [Regex.longest_match_correct] shows that the model does.
    gnulib's lists are Rocq's, its hash maps [gmap]s; [timespec_cmp] and
    [gl_sortedlist_add] are determined by their documentation.

    The classes that stand between components are implemented within the
    development: [FindName.page_lexgrog] gives the scans their reader of NAME
    sections, [OrderFiles] the order of files, [ManMain.man_actions] the loop
    over the arguments its search.

    ** What the theorems show

    - The index: encoding and decoding are inverse; lookups, stores and
      deletions implement the abstract operations, keep the invariant and never
      end the program on a well-formed index; the traversal ends and sees every
      key once, also over a cursor that runs in circles; the search by pattern
      finds exactly what matches; purging leaves exactly the pages whose files
      exist; scanning adds what the pages and stray cats describe.  Every state
      reached by these operations is well-formed ([index_steps_safe]).
    - mandb: the index of a hierarchy is replaced as a whole or not at all and
      no temporary file stays; beside the indexes only the CACHEDIR.TAG files of
      cat directories are made, only these and the indexes change their owner,
      and every directory removed is an entry of a cat directory of the run; a
      run that stores nothing leaves exactly the pages that are not gone;
      updating one file leaves other names alone; the cat directories removed
      are those whose pages are known to be missing and those of languages
      without a hierarchy in the run, and the ones made belong where they are
      put.  catman names every page once.
    - whatis and apropos: what is displayed is what matches, in the order of
      the keys; pointers are followed to an end; keywords match as words; a line
      fits the terminal.
    - man: options that depend on each other agree; the loop over the
      arguments ends; the candidates were asked for and are free of duplicates;
      main reaches the search with the user's ids; every program of the
      formatting pipeline is sandboxed or unprivileged and in groff's order;
      another process sees the old or the whole new cat file, and no display
      changes another file or leaves a temporary one, except the directory of
      HTML output when its file cannot be created or no browser works; the
      prompt of less cannot be broken out of; the terminal is restored by man
      alone.
    - Files: paths are taken apart and rebuilt; the binary search over sorted
      listings finds what the pattern matches; caches are transparent; chains
      of inclusions end.
    - Text: a NAME section is read as written, whatever surrounds it, within
      its buffer and in linear time; zsoelim expands as a recursive reference
      definition says, and ends on every page; shell quoting, UTF-8, locale
      names, the configuration file and encoding declarations are read back as
      written; a page converted to UTF-8 is read in consecutive pieces by the
      encodings in turn, and nothing of it is lost as long as the last of them
      can be opened; a page decompressed in memory is the stream of its bytes;
      converting in place replaces a page by all that its decompressor
      delivered, or not at all.
    - Processes: the cleanup stack stays within its array, and a signal kills
      the program after the safe cleanups; privileges are dropped and regained
      in balance; the sandbox lets no process gain privileges or reach the
      network, and the strict one lets it open files with the access mode of
      reading only and change none by its name (though one can be made or
      emptied by opening it).
    - The path and the candidates: no directory twice, no duplicate shown, a
      total order on consistent candidates.
    - Where the code does not do what it means to, a theorem or an [Example]
      shows it on a concrete input (for instance [dbstore_dangling],
      [dbdelete_other_page], [recode_truncates], [manconv_opens_nothing],
      [purge_pointers_stops], [pathappend_use_after_free],
      [compare_candidates_cycle], [try_db_stale],
      [manconv_repeats_the_beginning], [catman_debug_unlinks_dev_null],
      [apropos_survives_default]).

    ** Fuel and bounds

    [list_extensions], [parse_descriptions] and [pathappend] turn at most once
    per character and get the length of their text plus one; [bsearch] gets the
    length of the array; the loop of [ult_src] has the bound of 10 of the code;
    the loops of [Xdbm] end by [traversal_sorted], which states that the number
    of keys is enough.  File times are [long]s ([is_long]), written and read in
    decimal; [size_t] minus one stands for a missing index in
    [compare_candidates].

    The loop of a conversion to UTF-8 gets two turns per byte, which
    [manconv_utf8_pieces] shows to be enough for every [iconv] with
    [IconvLaws], also one that keeps a state; that of a description
    ([Convert.convert_loop]) one more than its length; the traversal of a btree
    is bounded by the number of its keys ([btree_traversal]), the loop over
    man's arguments by their number ([args_loop_ends]), the following of
    pointers by the ten turns of the code, links of the file system by the 40
    of the kernel.  The scanner for NAME sections gets three turns per byte and
    three more ([find_name_safe]); the one of zsoelim has the fuel that
    [zsoelim_ends] shows to exist; the search for preprocessors reads blocks of
    4096 bytes and ends by [preprocessors_behind_prefixes]; the prompt of less
    is substituted at most once per dollar sign ([setenv_less_prompt]); a page
    is decompressed in memory up to the limit of the code
    ([Decompress.MAX_INPROCESS]).

    ** What is not modelled

    Messages, debugging output and help texts other than [help_filter]; the
    code of man.c that is compiled only for external formatters in the cat
    hierarchy (ALT_EXT_FORMAT) and for the Heirloom tools; errors in writing
    the output of [squeeze_blank_lines]; the file descriptors of
    [format_display] for HTML; the umask and the text domains set at the start
    of the programs.  The runs of mandb keep the indexes, the tags and the
    owners in their state; the cat directories that are made or repaired before
    a scan are the subject of CatDirs, and those removed at the end are a list.
    lib/fatal.c, lib/glcontainers.c and lib/xregcomp.c wrap
    library functions; lib/mp.h, a third-party header, holds the macros behind
    the loops over lists and maps.
    ManSearch takes the display of a page as a parameter and records the
    request; Display models it, and the two meet only in that record. *)

From Stdlib Require Export Ascii.
From Stdlib Require Export ZArith Lia Sorted.
From stdpp Require Export base tactics list gmap strings sorting.

#[export] Set Default Goal Selector "!".

(** ** Scope and notations *)

Declare Scope mandb_scope.
Delimit Scope mandb_scope with mandb.
Open Scope mandb_scope.

(** A C string is the list of the bytes before its terminating NUL. *)
Abbreviation cstr := (list ascii).

(** [lit "x"] is the C string literal ["x"]. *)
Definition lit (s : string) : cstr := String.list_ascii_of_string s.
Arguments lit : simpl never.

(** ** Outcomes

    [Ret] is a normal return, [Fatal] the program ending through [fatal ()],
    [error (FAIL, ...)] or a failed [assert ()], and [Undef] an access the C
    standard leaves undefined (a read past the end of a string, a read of
    freed memory, a null pointer dereference). *)
Inductive outcome (A : Type) : Type :=
| Ret (a : A)
| Fatal (msg : string)
| Undef (why : string).
Arguments Ret {A} a.
Arguments Fatal {A} msg.
Arguments Undef {A} why.

#[export] Instance outcome_ret : MRet outcome := fun A a => Ret a.
#[export] Instance outcome_bind : MBind outcome := fun A B f m =>
  match m with
  | Ret a => f a
  | Fatal s => Fatal s
  | Undef s => Undef s
  end.
#[export] Instance outcome_fmap : FMap outcome := fun A B f m =>
  match m with
  | Ret a => Ret (f a)
  | Fatal s => Fatal s
  | Undef s => Undef s
  end.

#[export] Instance outcome_eq_dec {A} `{EqDecision A} : EqDecision (outcome A).
Proof. solve_decision. Defined.

(** The outcome of a computation is a value satisfying [P]. *)
Definition returns {A} (m : outcome A) (P : A → Prop) : Prop :=
  match m with Ret a => P a | _ => False end.

Definition is_ret {A} (m : outcome A) : bool :=
  match m with Ret _ => true | _ => false end.

Lemma bind_Ret {A B} (a : A) (f : A → outcome B) : (Ret a ≫= f) = f a.
Proof. done. Qed.

Lemma bind_Ret_inv {A B} (m : outcome A) (f : A → outcome B) b :
  m ≫= f = Ret b → ∃ a, m = Ret a ∧ f a = Ret b.
Proof. destruct m; naive_solver. Qed.

(** An option read where [None] is undefined behaviour. *)
Definition or_undef {A} (why : string) (o : option A) : outcome A :=
  match o with Some a => Ret a | None => Undef why end.

(** ** Shared tactics *)

(** Simplify hypotheses that equate the result of a bind with a value. *)
Ltac bind_inv :=
  repeat match goal with
  | H : mbind _ ?m = Ret _ |- _ =>
      apply bind_Ret_inv in H; destruct H as (? & ? & ?)
  | H : Ret _ = Ret _ |- _ => injection H as H
  | H : Fatal _ = Ret _ |- _ => discriminate H
  | H : Undef _ = Ret _ |- _ => discriminate H
  end.

(** Destruct the scrutinee of every match in the goal or a hypothesis. *)
Ltac split_match :=
  repeat case_match; simplify_eq/=; try done.

(** Solve [c ∉ l] for a list built from constants, appends and hypotheses. *)
Ltac not_in :=
  repeat first
    [ rewrite not_elem_of_app | rewrite not_elem_of_cons ];
  repeat match goal with |- _ ∧ _ => split end;
  first [ assumption | apply not_elem_of_nil | discriminate | done | congruence | set_solver ].

(** Normalise the nesting of appends and conses. *)
Ltac app_norm := unfold lit; repeat (progress (simpl; rewrite <-?app_assoc, ?app_nil_r)).

(** ** Generic list lemmas *)

Lemma NoDup_fmap_filter {A B} (f : A → B) (P : A → Prop) `{∀ x, Decision (P x)} (l : list A) :
  NoDup (f <$> l) → NoDup (f <$> filter P l).
Proof.
  induction l as [|x l IH]; [done|]. cbn [fmap list_fmap]. intros [Hx Hl]%NoDup_cons. rewrite filter_cons.
  destruct (decide (P x)); [|by apply IH]. cbn [fmap list_fmap]. apply NoDup_cons. split; [|by apply IH].
  contradict Hx. apply list_elem_of_fmap in Hx as (y & -> & [_ Hy]%list_elem_of_filter). by apply list_elem_of_fmap_2.
Qed.

Section lists.
Context {A : Type}.
Implicit Types l : list A.

Lemma take_prefix_eq l1 l2 :
  take (length l1) l2 = l1 ↔ l1 `prefix_of` l2.
Proof.
  split.
  - intros <-. apply prefix_take.
  - intros [k ->]. by rewrite take_app_length.
Qed.

Lemma StronglySorted_filter (R : A → A → Prop) (P : A → Prop) `{!∀ x, Decision (P x)} l :
  StronglySorted R l → StronglySorted R (filter P l).
Proof.
  induction 1 as [|x l Hl IH Hx]; [constructor|]. rewrite filter_cons. case_decide; [|done].
  constructor; [done|]. rewrite Forall_forall in *. intros y [_ Hy]%list_elem_of_filter. auto.
Qed.
Lemma filter_all (P : A → Prop) `{!∀ x, Decision (P x)} l : Forall P l → filter P l = l.
Proof. induction 1 as [|x l Hx Hl IH]; [done|]. by rewrite filter_cons, decide_True, IH. Qed.

Lemma filter_none (P : A → Prop) `{!∀ x, Decision (P x)} l : (∀ x, x ∈ l → ¬ P x) → filter P l = [].
Proof.
  induction l as [|x l IH]; intros Hl; [done|]. rewrite filter_cons, decide_False by (apply Hl; by left).
  apply IH. intros y Hy. apply Hl. by right.
Qed.
End lists.

(** ** Comparison functions

    C code orders things with functions that return a negative, zero or
    positive [int].  Only the sign is ever used, so a comparison function is
    modelled with result [comparison].  [CmpWeak] says the function is a
    total preorder, [CmpTotal] that it also separates distinct elements. *)

Class CmpWeak {A} (cmp : A → A → comparison) : Prop := {
  cmp_antisym a b : cmp b a = CompOpp (cmp a b);
  cmp_le_trans a b c : cmp a b ≠ Gt → cmp b c ≠ Gt → cmp a c ≠ Gt;
}.
Class CmpTotal {A} (cmp : A → A → comparison) : Prop := {
  cmp_total_weak :: CmpWeak cmp;
  cmp_eq a b : cmp a b = Eq → a = b;
}.

(** First compare with [c1]; if it says equal, use [c2]. *)
Definition lex_cmp (c1 c2 : comparison) : comparison :=
  match c1 with Eq => c2 | _ => c1 end.

Section cmp.
Context {A : Type} (cmp : A → A → comparison) `{!CmpWeak cmp}.

Lemma cmp_refl a : cmp a a = Eq.
Proof. pose proof (cmp_antisym a a). by destruct (cmp a a). Qed.

(** Each of the next lemmas follows from the finitely many sign patterns the
    class laws allow on the three elements. *)
Local Ltac cmp_cases a b c :=
  pose proof (cmp_antisym a b); pose proof (cmp_antisym b c); pose proof (cmp_antisym a c);
  pose proof (cmp_le_trans a b c); pose proof (cmp_le_trans c b a);
  pose proof (cmp_le_trans b c a); pose proof (cmp_le_trans c a b);
  destruct (cmp a b), (cmp b c), (cmp a c), (cmp b a), (cmp c b), (cmp c a);
  simpl in *; try congruence; exfalso; intuition congruence.

Lemma cmp_eq_trans a b c : cmp a b = Eq → cmp b c = Eq → cmp a c = Eq.
Proof. cmp_cases a b c. Qed.

Lemma cmp_lt_le_trans a b c : cmp a b = Lt → cmp b c ≠ Gt → cmp a c = Lt.
Proof. cmp_cases a b c. Qed.

Lemma cmp_le_lt_trans a b c : cmp a b ≠ Gt → cmp b c = Lt → cmp a c = Lt.
Proof. cmp_cases a b c. Qed.

Lemma cmp_lt_trans a b c : cmp a b = Lt → cmp b c = Lt → cmp a c = Lt.
Proof. intros H1 H2. eapply cmp_lt_le_trans; [done|]. by rewrite H2. Qed.

Lemma cmp_gt_lt a b : cmp a b = Gt ↔ cmp b a = Lt.
Proof. rewrite (cmp_antisym b a). destruct (cmp b a); naive_solver. Qed.

Lemma cmp_contramap {B} (f : B → A) : CmpWeak (λ x y, cmp (f x) (f y)).
Proof. split; intros; [apply cmp_antisym | eauto using cmp_le_trans]. Qed.
End cmp.

Lemma lex_cmp_weak {A} (f g : A → A → comparison) :
  CmpWeak f → CmpWeak g → CmpWeak (λ a b, lex_cmp (f a b) (g a b)).
Proof.
  intros Hf Hg. split.
  - intros a b. unfold lex_cmp. rewrite (cmp_antisym (cmp:=f) a b), (cmp_antisym (cmp:=g) a b).
    by destruct (f a b).
  - intros a b c. unfold lex_cmp.
    destruct (f a b) eqn:E1; [|intros _|done].
    + destruct (f b c) eqn:E2; [|intros _ _|done].
      * rewrite (cmp_eq_trans f a b c E1 E2). apply cmp_le_trans.
      * rewrite (cmp_le_lt_trans f a b c); [done|by rewrite E1|done].
    + intros H2. rewrite (cmp_lt_le_trans f a b c); [done|done|].
      by destruct (f b c).
Qed.

(** The order a comparison function induces. *)
Definition cmp_le {A} (cmp : A → A → comparison) (a b : A) : Prop := cmp a b ≠ Gt.

#[export] Instance cmp_le_dec {A} (cmp : A → A → comparison) : RelDecision (cmp_le cmp).
Proof. intros a b. unfold cmp_le. apply _. Defined.
#[export] Instance cmp_le_transitive {A} (cmp : A → A → comparison) `{!CmpWeak cmp} :
  Transitive (cmp_le cmp).
Proof. intros a b c. apply cmp_le_trans. Qed.
#[export] Instance cmp_le_total {A} (cmp : A → A → comparison) `{!CmpWeak cmp} :
  Total (cmp_le cmp).
Proof.
  intros a b. unfold cmp_le. rewrite (cmp_antisym (cmp:=cmp) a b). by destruct (cmp a b); naive_solver.
Qed.
#[export] Instance cmp_le_antisymm {A} (cmp : A → A → comparison) `{!CmpTotal cmp} :
  AntiSymm (=) (cmp_le cmp).
Proof.
  intros a b. unfold cmp_le. rewrite (cmp_antisym (cmp:=cmp) a b).
  intros H1 H2. apply (cmp_eq (cmp:=cmp)). by destruct (cmp a b).
Qed.

(** ** gnulib's sorted lists

    The source keeps sorted [gl_list_t]s with [gl_sortedlist_add].  Elements
    that compare equal are interchangeable wherever the source does so, which
    is why fixing the position among equals loses nothing. *)
Section sortedlist.
Context {A : Type} (cmp : A → A → comparison).

Fixpoint gl_sortedlist_add (x : A) (l : list A) : list A :=
  match l with
  | [] => [x]
  | y :: l' =>
    match cmp y x with
    | Lt => y :: gl_sortedlist_add x l'
    | _ => x :: l
    end
  end.

Lemma gl_sortedlist_add_perm x l : gl_sortedlist_add x l ≡ₚ x :: l.
Proof.
  induction l as [|y l IH]; simpl; [done|].
  destruct (cmp y x); [done| |done].
  rewrite IH. apply Permutation_swap.
Qed.

Lemma elem_of_gl_sortedlist_add x y l :
  y ∈ gl_sortedlist_add x l ↔ y = x ∨ y ∈ l.
Proof. by rewrite gl_sortedlist_add_perm, elem_of_cons. Qed.

Context `{!CmpWeak cmp}.

Lemma gl_sortedlist_add_sorted x l :
  StronglySorted (cmp_le cmp) l → StronglySorted (cmp_le cmp) (gl_sortedlist_add x l).
Proof.
  induction 1 as [|y l Hl IH Hy]; simpl; [repeat constructor|].
  destruct (cmp y x) eqn:E.
  1, 3: assert (cmp_le cmp x y) as Hxy
    by (unfold cmp_le; rewrite (cmp_antisym (cmp:=cmp) y x), E; done);
    repeat constructor; try done;
    eapply Forall_impl; [done|]; intros z Hz; by etrans.
  constructor; [done|]. rewrite gl_sortedlist_add_perm. constructor; [|done].
  unfold cmp_le. by rewrite E.
Qed.

(** Appending a greatest element is what [gl_sortedlist_add] does with it. *)
Lemma gl_sortedlist_add_last x l :
  Forall (λ y, cmp y x = Lt) l → gl_sortedlist_add x l = l ++ [x].
Proof. induction 1 as [|y l Hy Hl IH]; simpl; [done|]. by rewrite Hy, IH. Qed.
End sortedlist.

(** [GL_LIST_FOREACH ... gl_sortedlist_add]: insertion one by one. *)
Definition gl_sorted_of {A} (cmp : A → A → comparison) (l : list A) : list A :=
  fold_left (λ acc x, gl_sortedlist_add cmp x acc) l [].

Section sorted_of.
Context {A : Type} (cmp : A → A → comparison).

Lemma gl_sorted_of_perm l : gl_sorted_of cmp l ≡ₚ l.
Proof.
  unfold gl_sorted_of.
  assert (∀ acc, fold_left (λ acc x, gl_sortedlist_add cmp x acc) l acc ≡ₚ acc ++ l) as H.
  { induction l as [|x l IH]; intros acc; simpl; [by rewrite app_nil_r|].
    rewrite IH, gl_sortedlist_add_perm. by rewrite <-Permutation_middle. }
  by rewrite H.
Qed.

Lemma gl_sorted_of_sorted l `{!CmpWeak cmp} : StronglySorted (cmp_le cmp) (gl_sorted_of cmp l).
Proof.
  unfold gl_sorted_of.
  assert (∀ acc, StronglySorted (cmp_le cmp) acc →
    StronglySorted (cmp_le cmp) (fold_left (λ acc x, gl_sortedlist_add cmp x acc) l acc)) as H.
  { induction l as [|x l IH]; intros acc Hacc; simpl; [done|].
    apply IH. by apply gl_sortedlist_add_sorted. }
  apply H. constructor.
Qed.

Lemma gl_sorted_of_id l `{!CmpTotal cmp} :
  StronglySorted (cmp_le cmp) l → gl_sorted_of cmp l = l.
Proof.
  intros Hl. eapply (StronglySorted_unique (cmp_le cmp)).
  - apply gl_sorted_of_sorted, _.
  - done.
  - apply gl_sorted_of_perm.
Qed.
End sorted_of.

(** ** Hint database of the development *)
Create HintDb mandb discriminated.
#[export] Hint Resolve gl_sortedlist_add_sorted gl_sorted_of_sorted cmp_refl : mandb.
