(* ===== verification/CStr.v ===== *)
(** * C strings

    The byte-level [<ctype.h>], [<string.h>] and [<stdlib.h>] functions the
    sources call, in the "C" character classification (which UTF-8 locales
    share for single bytes), with the lemmas about them that the components
    use.  A string is the list of bytes before its NUL; a pointer into a
    string is an index or the remaining suffix. *)

From S2P Require Import Prelude.

(** ** Characters *)

Definition NUL : ascii := "000"%char.
Definition TAB : ascii := "009"%char.
Definition NL : ascii := "010"%char.
Definition DQUOTE : ascii := "034"%char.

(** The value of a byte as [unsigned char]. *)
Definition uchar (c : ascii) : Z := Z.of_N (N_of_ascii c).

Definition in_range (lo hi : Z) (c : ascii) : bool := (lo <=? uchar c)%Z && (uchar c <=? hi)%Z.

Definition isdigit (c : ascii) : bool := in_range 48 57 c.
Definition isupper (c : ascii) : bool := in_range 65 90 c.
Definition islower (c : ascii) : bool := in_range 97 122 c.
Definition isalpha (c : ascii) : bool := isupper c || islower c.
Definition isalnum (c : ascii) : bool := isalpha c || isdigit c.
Definition isspace (c : ascii) : bool := in_range 9 13 c || bool_decide (c = " "%char).
Definition tolower (c : ascii) : ascii :=
  if isupper c then ascii_of_N (N_of_ascii c + 32) else c.
Definition toupper (c : ascii) : ascii :=
  if islower c then ascii_of_N (N_of_ascii c - 32) else c.

(** Decide a property of one byte by running through all of them. *)
Ltac all_bytes c := destruct c as [[] [] [] [] [] [] [] []]; vm_compute; try done.

Lemma tolower_idemp c : tolower (tolower c) = tolower c.
Proof. all_bytes c. Qed.
Lemma tolower_inj_tab c : tolower c = TAB ↔ c = TAB.
Proof. by all_bytes c. Qed.
Lemma tolower_nul c : tolower c = NUL ↔ c = NUL.
Proof. by all_bytes c. Qed.
Lemma uchar_inj a b : uchar a = uchar b → a = b.
Proof.
  intros H. apply N2Z.inj in H.
  by rewrite <-(ascii_N_embedding a), <-(ascii_N_embedding b), H.
Qed.
Lemma uchar_range c : (0 <= uchar c < 256)%Z.
Proof. by all_bytes c. Qed.

(** ** Reading a character: the terminator can be read, nothing past it *)
Definition cget (s : cstr) (i : nat) : option ascii :=
  if decide (i < length s) then s !! i
  else if decide (i = length s) then Some NUL else None.

Lemma cget_lt s i : i < length s → cget s i = s !! i.
Proof. intros. unfold cget. by rewrite decide_True. Qed.
Lemma cget_end s : cget s (length s) = Some NUL.
Proof. unfold cget. rewrite decide_False by lia. by rewrite decide_True. Qed.
Lemma cget_past s i : length s < i → cget s i = None.
Proof. intros. unfold cget. rewrite !decide_False by lia. done. Qed.
Lemma cget_is_Some s i : is_Some (cget s i) ↔ i ≤ length s.
Proof.
  unfold cget. repeat case_decide.
  - rewrite lookup_lt_is_Some. lia.
  - split; [lia|by eexists].
  - split; [by intros [??]|lia].
Qed.

(** A list of bytes is a C string when no byte of it is NUL. *)
Definition nonul (s : cstr) : Prop := NUL ∉ s.
#[export] Instance nonul_dec s : Decision (nonul s).
Proof. unfold nonul. apply _. Defined.

(** ** Comparison *)

Definition uchar_cmp (a b : ascii) : comparison := Z.compare (uchar a) (uchar b).

(** The operators [<] and [>] on [char], which is signed. *)
Definition schar (c : ascii) : Z := if (uchar c <? 128)%Z then uchar c else (uchar c - 256)%Z.
Definition char_cmp (a b : ascii) : comparison := Z.compare (schar a) (schar b).

Fixpoint strcmp (a b : cstr) : comparison :=
  match a, b with
  | [], [] => Eq
  | [], _ :: _ => Lt
  | _ :: _, [] => Gt
  | x :: a', y :: b' => lex_cmp (uchar_cmp x y) (strcmp a' b')
  end.

Definition STREQ (a b : cstr) : bool := match strcmp a b with Eq => true | _ => false end.
(** [STRNEQ (a, b, n)]: the first [n] bytes agree. *)
Definition STRNEQ (a b : cstr) (n : nat) : bool :=
  match strcmp (take n a) (take n b) with Eq => true | _ => false end.
Definition strcasecmp (a b : cstr) : comparison := strcmp (tolower <$> a) (tolower <$> b).
Definition strncasecmp (a b : cstr) (n : nat) : comparison :=
  strcasecmp (take n a) (take n b).

#[export] Instance uchar_cmp_total : CmpTotal uchar_cmp.
Proof.
  unfold uchar_cmp. split; [split|].
  - intros a b. apply Z.compare_antisym.
  - intros a b c. rewrite !Z.compare_ngt_iff. lia.
  - intros a b H. apply uchar_inj. by apply Z.compare_eq.
Qed.

Lemma strcmp_antisym a b : strcmp b a = CompOpp (strcmp a b).
Proof.
  revert b. induction a as [|x a IH]; intros [|y b]; simpl; try done.
  rewrite (cmp_antisym (cmp:=uchar_cmp) x y), IH. by destruct (uchar_cmp x y).
Qed.

#[export] Instance strcmp_total : CmpTotal strcmp.
Proof.
  split; [split|].
  - intros a b. apply strcmp_antisym.
  - intros a. induction a as [|x a IH]; intros [|y b] [|z c]; simpl; try done.
    destruct (uchar_cmp x y) eqn:E1; [|intros _|done]; simpl.
    + apply (cmp_eq (cmp:=uchar_cmp)) in E1 as ->.
      destruct (uchar_cmp y z) eqn:E2; simpl; [|done|done]. apply IH.
    + intros H. rewrite (cmp_lt_le_trans uchar_cmp x y z); [done|done|].
      by destruct (uchar_cmp y z).
  - intros a. induction a as [|x a IH]; intros [|y b]; simpl; try done.
    destruct (uchar_cmp x y) eqn:E; simpl; [|done|done].
    apply (cmp_eq (cmp:=uchar_cmp)) in E as ->. intros H. by rewrite (IH b H).
Qed.

Lemma strcmp_refl a : strcmp a a = Eq.
Proof. apply (cmp_refl strcmp). Qed.

Lemma STREQ_spec a b : STREQ a b = bool_decide (a = b).
Proof.
  unfold STREQ. case_bool_decide as H.
  - subst. by rewrite strcmp_refl.
  - destruct (strcmp a b) eqn:E; [|done|done]. by apply (cmp_eq (cmp:=strcmp)) in E.
Qed.
Lemma STREQ_true a b : STREQ a b = true ↔ a = b.
Proof. rewrite STREQ_spec. apply bool_decide_eq_true. Qed.
Lemma STREQ_false a b : STREQ a b = false ↔ a ≠ b.
Proof. rewrite STREQ_spec. apply bool_decide_eq_false. Qed.
Lemma STREQ_refl a : STREQ a a = true.
Proof. by apply STREQ_true. Qed.

Lemma STRNEQ_true a b n : STRNEQ a b n = true ↔ take n a = take n b.
Proof. change (STRNEQ a b n) with (STREQ (take n a) (take n b)). apply STREQ_true. Qed.
(** The idiom [STRNEQ (prefix, s, strlen (prefix))] tests for a prefix. *)
Lemma STRNEQ_prefix p s : STRNEQ p s (length p) = true ↔ p `prefix_of` s.
Proof. rewrite STRNEQ_true, firstn_all, <-take_prefix_eq. naive_solver. Qed.
Lemma STRNEQ_prefix_r p s : STRNEQ s p (length p) = true ↔ p `prefix_of` s.
Proof. rewrite STRNEQ_true, firstn_all. apply take_prefix_eq. Qed.

#[export] Instance strcasecmp_weak : CmpWeak strcasecmp.
Proof. exact (cmp_contramap strcmp (fmap tolower)). Qed.

Lemma strcasecmp_eq a b : strcasecmp a b = Eq ↔ tolower <$> a = tolower <$> b.
Proof.
  unfold strcasecmp. split.
  - apply (cmp_eq (cmp:=strcmp)).
  - intros ->. apply strcmp_refl.
Qed.

(** ** Searching *)

(** [strchr (s, c)]: index of the first [c]; the terminator counts. *)
Fixpoint strchr (s : cstr) (c : ascii) : option nat :=
  match s with
  | [] => if decide (c = NUL) then Some 0 else None
  | x :: s' => if decide (x = c) then Some 0 else S <$> strchr s' c
  end.

(** [strrchr (s, c)] for [c] not NUL: index of the last [c]. *)
Fixpoint strrchr (s : cstr) (c : ascii) : option nat :=
  match s with
  | [] => None
  | x :: s' =>
    match strrchr s' c with
    | Some n => Some (S n)
    | None => if decide (x = c) then Some 0 else None
    end
  end.

Definition starts_with (p s : cstr) : bool := bool_decide (p `prefix_of` s).

(** [strstr (s, p)]: index of the first occurrence of [p]. *)
Fixpoint strstr (s p : cstr) : option nat :=
  if starts_with p s then Some 0
  else match s with [] => None | _ :: s' => S <$> strstr s' p end.

Definition strcasestr (s p : cstr) : option nat := strstr (tolower <$> s) (tolower <$> p).

Fixpoint strspn (p : ascii → bool) (s : cstr) : nat :=
  match s with [] => 0 | x :: s' => if p x then S (strspn p s') else 0 end.

(** [xstrndup]: the bytes up to a NUL. *)
Definition xstrndup (s : list ascii) : cstr := take (strspn (λ c, negb (bool_decide (c = NUL))) s) s.
Definition strcspn (p : ascii → bool) (s : cstr) : nat := strspn (λ c, negb (p c)) s.
Definition strpbrk (p : ascii → bool) (s : cstr) : option nat :=
  if decide (strcspn p s < length s) then Some (strcspn p s) else None.

(** Membership in a literal set of characters. *)
Definition one_of (set : cstr) (c : ascii) : bool := bool_decide (c ∈ set).

Lemma strchr_Some s c n :
  c ≠ NUL → strchr s c = Some n ↔ s !! n = Some c ∧ c ∉ take n s.
Proof.
  intros Hc. revert n. induction s as [|x s IH]; intros n; simpl.
  - rewrite decide_False by done. by rewrite lookup_nil; naive_solver.
  - case_decide as E.
    + subst. split.
      * intros [= <-]. split; [done|]. simpl. apply not_elem_of_nil.
      * intros [H1 H2]. destruct n; [done|]. simpl in H2. set_solver.
    + rewrite fmap_Some. split.
      * intros (m & [Hm1 Hm2]%IH & ->). split; [done|]. simpl. set_solver.
      * intros [H1 H2]. destruct n as [|n]; simpl in *; [congruence|].
        exists n. split; [|done]. apply IH. set_solver.
Qed.

Lemma strchr_None s c : c ≠ NUL → strchr s c = None ↔ c ∉ s.
Proof.
  intros Hc. induction s as [|x s IH]; simpl.
  - rewrite decide_False by done. set_solver.
  - case_decide as E; [set_solver|]. rewrite fmap_None, IH. set_solver.
Qed.
Lemma strchr_lt s c n : c ≠ NUL → strchr s c = Some n → n < length s.
Proof.
  intros Hc [Hn _]%strchr_Some; [|done]. by eapply lookup_lt_Some.
Qed.

Lemma strrchr_None s c : strrchr s c = None ↔ c ∉ s.
Proof.
  induction s as [|x s IH]; simpl; [set_solver|].
  destruct (strrchr s c) as [m|].
  - split; [done|]. intros H. exfalso. assert (c ∉ s) as H' by set_solver.
    by apply IH in H'.
  - case_decide; set_solver.
Qed.

Lemma strrchr_Some s c n :
  strrchr s c = Some n ↔ s !! n = Some c ∧ c ∉ drop (S n) s.
Proof.
  revert n. induction s as [|x s IH]; intros n; simpl.
  - rewrite lookup_nil. naive_solver.
  - destruct (strrchr s c) as [m|] eqn:E.
    + split.
      * intros [= <-]. by apply IH.
      * intros [H1 H2]. destruct n as [|n]; simpl in *.
        { destruct H2. rewrite drop_0. destruct (proj1 (IH m) eq_refl) as [Hm _].
          by eapply list_elem_of_lookup_2. }
        assert (Some m = Some n) by by apply IH. congruence.
    + apply strrchr_None in E. split.
      * case_decide; [|done]. intros [= <-]. subst. split; [done|]. simpl. by rewrite drop_0.
      * intros [H1 H2]. destruct n as [|n]; simpl in *.
        { rewrite decide_True; [done|congruence]. }
        destruct E. by eapply list_elem_of_lookup_2.
Qed.

Lemma strrchr_app_sep a b c : c ∉ b → strrchr (a ++ c :: b) c = Some (length a).
Proof.
  intros Hb. apply strrchr_Some. split.
  - rewrite lookup_app_r by lia. by rewrite Nat.sub_diag.
  - rewrite drop_app_ge by lia.
    replace (S (length a) - length a) with 1 by lia. done.
Qed.

Lemma strchr_app_sep a b c : c ≠ NUL → c ∉ a → strchr (a ++ c :: b) c = Some (length a).
Proof.
  intros Hc Ha. apply strchr_Some; [done|]. split.
  - rewrite lookup_app_r by lia. by rewrite Nat.sub_diag.
  - by rewrite take_app_length.
Qed.

Lemma starts_with_spec p s : starts_with p s = true ↔ p `prefix_of` s.
Proof. apply bool_decide_eq_true. Qed.

Lemma strstr_prefix s p n : strstr s p = Some n → p `prefix_of` drop n s.
Proof.
  revert n. induction s as [|x s IH]; intros n; simpl; destruct (starts_with p _) eqn:E; try done.
  1, 2: intros [= <-]; by apply starts_with_spec in E.
  rewrite fmap_Some. intros (m & Hm & ->). simpl. by apply IH.
Qed.

Lemma strstr_None s p n : strstr s p = None → ¬ p `prefix_of` drop n s.
Proof.
  revert n. induction s as [|x s IH]; intros n; simpl; destruct (starts_with p _) eqn:E; try done.
  - intros _ Hp. rewrite drop_nil in Hp. apply starts_with_spec in Hp. congruence.
  - rewrite fmap_None. intros Hs. destruct n as [|n]; [|by apply IH].
    rewrite drop_0. intros Hp%starts_with_spec. congruence.
Qed.

Lemma strstr_here s p : p `prefix_of` s → strstr s p = Some 0.
Proof. intros Hp%starts_with_spec. destruct s; simpl; by rewrite Hp. Qed.
Lemma strstr_next x s p : ¬ p `prefix_of` x :: s → strstr (x :: s) p = S <$> strstr s p.
Proof.
  intros Hp. assert (starts_with p (x :: s) = false) as E by by apply bool_decide_eq_false_2.
  simpl. by rewrite E.
Qed.

(** A search does not stop among characters other than the first searched. *)
Lemma strstr_skip c p a s :
  c ∉ a → strstr (a ++ s) (c :: p) = (λ n, length a + n) <$> strstr s (c :: p).
Proof.
  induction a as [|x a IH]; intros Ha; cbn [app]; [by destruct (strstr s (c :: p))|].
  rewrite strstr_next by (intros [k [= -> _]]; set_solver).
  rewrite IH by set_solver. by destruct (strstr s (c :: p)).
Qed.

Lemma xstrndup_id s : NUL ∉ s → xstrndup s = s.
Proof.
  intros Hs. unfold xstrndup. apply take_ge. induction s as [|c s IH]; [done|]. apply not_elem_of_cons in Hs as [Hc Hs].
  cbn [strspn]. rewrite bool_decide_false by congruence. simpl. specialize (IH Hs). lia.
Qed.

Lemma strspn_le p s : strspn p s ≤ length s.
Proof. induction s as [|x s IH]; simpl; [done|]. destruct (p x); lia. Qed.

Lemma strspn_take p s : Forall (λ c, p c = true) (take (strspn p s) s).
Proof.
  induction s as [|x s IH]; simpl; [constructor|].
  destruct (p x) eqn:E; simpl; constructor; done.
Qed.

Lemma strspn_drop_head p s : match drop (strspn p s) s with c :: _ => p c = false | [] => True end.
Proof.
  induction s as [|x s IH]; simpl; [done|]. destruct (p x) eqn:E; simpl; [done|]. done.
Qed.

(** ** Splitting *)

(** Pieces between the characters satisfying [p] (empty pieces kept), which is
    what repeated [strsep] yields. *)
Fixpoint split_by (p : ascii → bool) (s : cstr) : list cstr :=
  match s with
  | [] => [[]]
  | x :: s' =>
    if p x then [] :: split_by p s'
    else match split_by p s' with
         | t :: ts => (x :: t) :: ts
         | [] => [[x]]
         end
  end.
Definition split_on (c : ascii) : cstr → list cstr := split_by (λ x, bool_decide (x = c)).

(** One call [strsep (&s, "c")]: the token and the new value of [s] ([None] is
    the null pointer). *)
Fixpoint strsep (c : ascii) (s : cstr) : cstr * option cstr :=
  match s with
  | [] => ([], None)
  | x :: s' =>
    if decide (x = c) then ([], Some s')
    else let '(t, r) := strsep c s' in (x :: t, r)
  end.

(** The tokens [strtok] yields: maximal runs of non-delimiters. *)
Definition strtok (p : ascii → bool) (s : cstr) : list cstr :=
  filter (λ t, t ≠ []) (split_by p s).

(** Join with a separator character. *)
Fixpoint join (c : ascii) (l : list cstr) : cstr :=
  match l with
  | [] => []
  | [t] => t
  | t :: l' => t ++ c :: join c l'
  end.

Lemma split_by_nonnil p s : split_by p s ≠ [].
Proof. destruct s as [|x s]; simpl; [done|]. destruct (p x); [done|]. by destruct (split_by p s). Qed.

Lemma split_on_strsep c s :
  split_on c s = (strsep c s).1 :: match (strsep c s).2 with
                                   | Some r => split_on c r
                                   | None => []
                                   end.
Proof.
  unfold split_on. induction s as [|x s IH]; simpl; [done|].
  repeat case_decide; case_bool_decide; try done.
  destruct (strsep c s) as [t r]; simpl in *. by rewrite IH.
Qed.

Lemma split_on_free c s : c ∉ s → split_on c s = [s].
Proof.
  unfold split_on. induction s as [|x s IH]; intros Hs; simpl; [done|].
  rewrite bool_decide_eq_false_2 by set_solver. by rewrite IH by set_solver.
Qed.

Lemma split_on_app c a b : c ∉ a → split_on c (a ++ c :: b) = a :: split_on c b.
Proof.
  unfold split_on. induction a as [|x a IH]; intros Ha; simpl.
  - by rewrite bool_decide_eq_true_2.
  - rewrite bool_decide_eq_false_2 by set_solver. by rewrite IH by set_solver.
Qed.

Lemma strsep_app c a b : c ∉ a → strsep c (a ++ c :: b) = (a, Some b).
Proof.
  induction a as [|x a IH]; intros Ha; simpl.
  - by rewrite decide_True.
  - rewrite decide_False by set_solver. by rewrite IH by set_solver.
Qed.
Lemma strsep_free c a : c ∉ a → strsep c a = (a, None).
Proof.
  induction a as [|x a IH]; intros Ha; simpl; [done|].
  rewrite decide_False by set_solver. by rewrite IH by set_solver.
Qed.
Lemma strsep_length c s t r : strsep c s = (t, Some r) → length r < length s.
Proof.
  revert t. induction s as [|x s IH]; intros t; simpl; [done|].
  case_decide; [intros; simplify_eq; lia|].
  destruct (strsep c s) as [t' r'] eqn:E. intros; simplify_eq.
  specialize (IH _ eq_refl). lia.
Qed.
Lemma strsep_inv c s t r : strsep c s = (t, Some r) → s = t ++ c :: r ∧ c ∉ t.
Proof.
  revert t. induction s as [|x s IH]; intros t; simpl; [done|].
  case_decide; [intros; simplify_eq; split; [done|set_solver]|].
  destruct (strsep c s) as [t' r'] eqn:E. intros; simplify_eq.
  destruct (IH _ eq_refl) as [-> ?]. split; [done|set_solver].
Qed.
Lemma strsep_inv_None c s t : strsep c s = (t, None) → s = t ∧ c ∉ t.
Proof.
  revert t. induction s as [|x s IH]; intros t; simpl; [intros; simplify_eq; set_solver|].
  case_decide; [done|].
  destruct (strsep c s) as [t' r'] eqn:E. intros; simplify_eq.
  destruct (IH _ eq_refl) as [-> ?]. set_solver.
Qed.

Lemma split_join c l : l ≠ [] → Forall (λ t, c ∉ t) l → split_on c (join c l) = l.
Proof.
  intros Hl. induction 1 as [|t l Ht Hts IH]; [done|]. simpl.
  destruct l as [|u l].
  - by apply split_on_free.
  - rewrite split_on_app by done. by rewrite IH.
Qed.

Lemma join_split c s : join c (split_on c s) = s.
Proof.
  unfold split_on. induction s as [|x s IH]; simpl; [done|].
  pose proof (split_by_nonnil (λ x, bool_decide (x = c)) s).
  destruct (split_by _ s) as [|t ts]; [done|].
  case_bool_decide as Hx.
  - rewrite Hx. simpl. by rewrite <-IH.
  - rewrite <-IH. by destruct ts.
Qed.

Lemma split_by_elem p s t : t ∈ split_by p s → Forall (λ c, p c = false) t.
Proof.
  revert t. induction s as [|x s IH]; intros t; simpl.
  - intros ->%list_elem_of_singleton. constructor.
  - destruct (p x) eqn:E.
    + intros [->|]%elem_of_cons; [constructor|auto].
    + pose proof (split_by_nonnil p s). destruct (split_by p s) as [|u us]; [done|].
      intros [->|H1]%elem_of_cons.
      * constructor; [done|]. apply IH. by left.
      * apply IH. by right.
Qed.

Lemma split_by_sub p s t c : t ∈ split_by p s → c ∈ t → c ∈ s.
Proof.
  revert t. induction s as [|x s IH]; intros t; simpl.
  - intros ->%list_elem_of_singleton. done.
  - pose proof (split_by_nonnil p s). destruct (p x).
    + intros [->|Ht]%elem_of_cons Hc; [by apply elem_of_nil in Hc|]. right. by eapply IH.
    + destruct (split_by p s) as [|u us]; [done|]. intros [->|Ht]%elem_of_cons Hc.
      * apply elem_of_cons in Hc as [->|Hc]; [by left|]. right. by apply (IH u); [left|].
      * right. by apply (IH t); [right|].
Qed.

Lemma strtok_elem p s t : t ∈ strtok p s → t ≠ [] ∧ Forall (λ c, p c = false) t.
Proof.
  unfold strtok. rewrite list_elem_of_filter. intros [? ?]. split; [done|]. by eapply split_by_elem.
Qed.

(** ** Numbers *)

Definition digit (n : Z) : ascii := ascii_of_N (Z.to_N (48 + n)).

(** Decimal digits of a non-negative number, most significant first, in front
    of [acc]; [fuel] bounds the number of digits. *)
Fixpoint digits (fuel : nat) (n : Z) (acc : cstr) : cstr :=
  match fuel with
  | 0 => acc
  | S fuel =>
    let acc := digit (n mod 10)%Z :: acc in
    if decide (n < 10)%Z then acc else digits fuel (n / 10)%Z acc
  end.

Definition LONG_MIN : Z := (- 2 ^ 63)%Z.
Definition LONG_MAX : Z := (2 ^ 63 - 1)%Z.
Definition is_long (n : Z) : Prop := (LONG_MIN <= n <= LONG_MAX)%Z.
#[export] Instance is_long_dec n : Decision (is_long n).
Proof. unfold is_long. apply _. Defined.

(** [printf ("%ld", n)]; a [long] has at most 19 digits. *)
Definition print_ld (n : Z) : cstr :=
  if decide (n < 0)%Z then "-"%char :: digits 19 (- n) [] else digits 19 n [].

Fixpoint read_digits (s : cstr) (acc : Z) : Z :=
  match s with
  | x :: s' => if isdigit x then read_digits s' (10 * acc + (uchar x - 48))%Z else acc
  | [] => acc
  end.

(** [atol]: skip white space, an optional sign, then digits.  A value out of
    the range of [long] is undefined behaviour. *)
Definition atol (s : cstr) : outcome Z :=
  let s := drop (strspn isspace s) s in
  let v := match s with
           | "-"%char :: s' => (- read_digits s' 0)%Z
           | "+"%char :: s' => read_digits s' 0
           | _ => read_digits s 0
           end in
  if decide (is_long v) then Ret v else Undef "atol: value out of range".

Lemma uchar_digit n : (0 <= n < 10)%Z → uchar (digit n) = (48 + n)%Z.
Proof.
  intros. unfold uchar, digit. rewrite N_ascii_embedding by lia. lia.
Qed.
Lemma isdigit_digit n : (0 <= n < 10)%Z → isdigit (digit n) = true.
Proof. intros. unfold isdigit, in_range. rewrite uchar_digit by done. lia. Qed.

Lemma digits_spec fuel n acc :
  (0 < fuel) → (0 <= n < 10 ^ Z.of_nat fuel)%Z →
  ∃ x ds, digits fuel n acc = x :: ds ++ acc ∧ Forall (λ c, isdigit c = true) (x :: ds) ∧
  read_digits (digits fuel n acc) 0 = read_digits acc n.
Proof.
  revert n acc. induction fuel as [|fuel IH]; intros n acc Hf Hn; [lia|]. simpl.
  assert (0 <= n mod 10 < 10)%Z as Hm by (apply Z.mod_pos_bound; lia).
  case_decide as Hlt.
  - exists (digit (n mod 10)), []. split; [done|].
    split; [repeat constructor; by apply isdigit_digit|].
    cbn [read_digits]. rewrite isdigit_digit, uchar_digit by done.
    rewrite Z.mod_small by lia. f_equal. lia.
  - destruct fuel as [|fuel]; [simpl in Hn; lia|].
    assert (0 <= n / 10 < 10 ^ Z.of_nat (S fuel))%Z as Hd.
    { split; [apply Z.div_pos; lia|]. apply Z.div_lt_upper_bound; [lia|].
      rewrite <-Z.pow_succ_r by lia. rewrite <-Nat2Z.inj_succ. lia. }
    destruct (IH (n / 10)%Z (digit (n mod 10) :: acc)) as (x & ds & Heq & Hall & Hread); [lia|done|].
    exists x, (ds ++ [digit (n mod 10)]). rewrite Heq, <-app_assoc. split; [done|]. split.
    + inversion Hall; subst. constructor; [done|]. apply Forall_app. split; [done|].
      repeat constructor. by apply isdigit_digit.
    + rewrite <-Heq, Hread. cbn [read_digits].
      rewrite isdigit_digit, uchar_digit by done. f_equal.
      pose proof (Z.div_mod n 10). lia.
Qed.

(** Printing a [long] and reading it back. *)
Lemma atol_print_ld n : is_long n → atol (print_ld n) = Ret n.
Proof.
  intros Hn. pose proof Hn as [H1 H2]. change LONG_MIN with (-9223372036854775808)%Z in *.
  change LONG_MAX with 9223372036854775807%Z in *.
  unfold atol, print_ld. destruct (decide (n < 0)%Z) as [Hneg|Hneg].
  - destruct (digits_spec 19 (- n) []) as (x & ds & Heq & Hall & Hread); [lia|split; [lia|]|].
    { by apply Z.le_lt_trans with 9223372036854775808%Z; [lia|]. }
    generalize dependent (digits 19 (- n) []). intros d _ Hread. simpl.
    rewrite Hread. simpl. rewrite Z.opp_involutive. by rewrite decide_True.
  - destruct (digits_spec 19 n []) as (x & ds & Heq & Hall & Hread); [lia|split; [lia|]|].
    { by apply Z.le_lt_trans with 9223372036854775808%Z; [lia|]. }
    inversion Hall as [|?? Hx _]; subst.
    rewrite Heq in Hread. rewrite Heq.
    assert (strspn isspace (x :: ds ++ []) = 0) as ->.
    { simpl. destruct (isspace x) eqn:E; [|done].
      exfalso. revert Hx E. by all_bytes x. }
    rewrite drop_0.
    assert (∀ A (a b c : A), match x with "-"%char => a | "+"%char => b | _ => c end = c) as Hsign.
    { intros. revert Hx. by all_bytes x. }
    rewrite Hsign.
    rewrite Hread. simpl. by rewrite decide_True.
Qed.

Lemma print_ld_chars n :
  is_long n → Forall (λ c, isdigit c = true ∨ c = "-"%char) (print_ld n).
Proof.
  intros [H1 H2]. change LONG_MIN with (-9223372036854775808)%Z in *.
  change LONG_MAX with 9223372036854775807%Z in *. unfold print_ld. case_decide as Hneg.
  - destruct (digits_spec 19 (- n) []) as (x & ds & -> & Hall & _); [lia|split; [lia|]|].
    { by apply Z.le_lt_trans with 9223372036854775808%Z; [lia|]. }
    rewrite app_nil_r. constructor; [by right|]. eapply Forall_impl; [done|]. by left.
  - destruct (digits_spec 19 n []) as (x & ds & -> & Hall & _); [lia|split; [lia|]|].
    { by apply Z.le_lt_trans with 9223372036854775808%Z; [lia|]. }
    rewrite app_nil_r. eapply Forall_impl; [done|]. by left.
Qed.

Lemma print_ld_no_tab n : is_long n → TAB ∉ print_ld n.
Proof.
  intros Hn Hin. pose proof (print_ld_chars n Hn) as Hall.
  rewrite Forall_forall in Hall. by destruct (Hall _ Hin).
Qed.

#[export] Hint Resolve strcmp_refl STREQ_refl print_ld_no_tab : mandb.
