(* ===== verification/StateM.v ===== *)
(** * Operations on a state that can end the program

    The monad of the parts of man that share static variables: an operation
    takes the state to an outcome, which holds a value and the new state. *)

From S2P Require Import Prelude.

Definition stateM (S A : Type) : Type := S → outcome (A * S).
#[export] Instance stateM_ret {S} : MRet (stateM S) := λ A a s, Ret (a, s).
#[export] Instance stateM_bind {S} : MBind (stateM S) := λ A B f m s, '(a, s) ← m s; f a s.

Section stateM.
Context {S : Type}.

Definition get : stateM S S := λ s, Ret (s, s).
Definition modify (f : S → S) : stateM S unit := λ s, Ret (tt, f s).
Definition lift {A} (m : outcome A) : stateM S A := λ s, a ← m; Ret (a, s).
Definition when (b : bool) (m : stateM S unit) : stateM S unit := if b then m else mret tt.

Lemma bind_inv {A B} (m : stateM S A) (f : A → stateM S B) s b s' :
  (m ≫= f) s = Ret (b, s') → ∃ a s1, m s = Ret (a, s1) ∧ f a s1 = Ret (b, s').
Proof. intros Hb. apply bind_Ret_inv in Hb as ([a s1] & ? & ?). eauto. Qed.

Lemma bind_run {A B} (m : stateM S A) (f : A → stateM S B) s a s1 : m s = Ret (a, s1) → (m ≫= f) s = f a s1.
Proof. intros Hm. unfold mbind, stateM_bind. by rewrite Hm. Qed.

(** Every run of [m] that returns relates the state before it to its value and
    the state after it. *)
Definition yields {A} (m : stateM S A) (Q : S → A → S → Prop) : Prop := ∀ s a s', m s = Ret (a, s') → Q s a s'.
(** The same for a relation of the two states. *)
Definition keeps (R : S → S → Prop) {A} (m : stateM S A) : Prop := yields m (λ s _ s', R s s').

Context (R : S → S → Prop) `{!PreOrder R}.

Lemma keeps_ret {A} (a : A) : keeps R (mret a).
Proof using Type*. intros s b s' [= <- <-]. reflexivity. Qed.
Lemma keeps_get : keeps R get.
Proof using Type*. intros s b s' [= <- <-]. reflexivity. Qed.
Lemma keeps_lift {A} (o : outcome A) : keeps R (lift o).
Proof using Type*. intros s b s' Hl. unfold lift in Hl. apply bind_Ret_inv in Hl as (x & _ & Hl). simplify_eq. reflexivity. Qed.
Lemma keeps_modify f : (∀ s, R s (f s)) → keeps R (modify f).
Proof. intros Hf s b s' [= <- <-]. apply Hf. Qed.
Lemma keeps_bind {A B} (m : stateM S A) (f : A → stateM S B) :
  keeps R m → (∀ a, keeps R (f a)) → keeps R (m ≫= f).
Proof using Type*.
  intros Hm Hf s b s' Hb. apply bind_inv in Hb as (a & s1 & H1 & H2). transitivity s1; [by eapply Hm|by eapply Hf].
Qed.
Lemma keeps_when (b : bool) m : keeps R m → keeps R (when b m).
Proof using Type*. intros Hm. destruct b; [done|apply keeps_ret]. Qed.
End stateM.
Arguments get {S}.

(** Two results of the same run. *)
Lemma yields_and {S A} (m : stateM S A) Q1 Q2 : yields m Q1 → yields m Q2 → yields m (λ s a s', Q1 s a s' ∧ Q2 s a s').
Proof. intros H1 H2 s a s' Hr. split; [by apply H1|by apply H2]. Qed.

Create HintDb state_keeps.

(** Take [H : m s = Ret (a, s')] apart at its first operation. *)
Ltac run_inv H a s1 Hm := apply bind_inv in H as (a & s1 & Hm & H).

(** One step through the code of an operation. *)
Ltac keeps_state_step :=
  match goal with
  | |- keeps _ (mbind _ _) => apply keeps_bind
  | |- keeps _ (mret _) => apply keeps_ret
  | |- keeps _ get => apply keeps_get
  | |- keeps _ (lift _) => apply keeps_lift
  | |- keeps _ (modify _) => apply keeps_modify
  | |- keeps _ (when _ _) => apply keeps_when
  | |- PreOrder _ => apply _
  | |- ∀ _, _ => intro
  | |- keeps _ (if ?b then _ else _) => destruct b
  | |- keeps _ (match ?x with _ => _ end) => destruct x
  | |- keeps _ _ => solve [eauto with state_keeps]
  end.
Ltac keeps_state := repeat keeps_state_step.

(** ** Operations whose state survives the end of the program

    A state the program leaves behind when it ends (files, for example) is
    part of the result in every case. *)

Definition exitM (S A : Type) : Type := S → outcome A * S.
#[export] Instance exitM_ret {S} : MRet (exitM S) := λ A a s, (Ret a, s).
#[export] Instance exitM_bind {S} : MBind (exitM S) := λ A B f m s,
  match m s with
  | (Ret a, s) => f a s
  | (Fatal e, s) => (Fatal e, s)
  | (Undef e, s) => (Undef e, s)
  end.

Section exitM.
Context {S : Type}.

Definition exit_get : exitM S S := λ s, (Ret s, s).
Definition exit_modify (f : S → S) : exitM S unit := λ s, (Ret tt, f s).
Definition exit_lift {A} (o : outcome A) : exitM S A := λ s, (o, s).

Lemma exit_bind_inv {A B} (m : exitM S A) (f : A → exitM S B) s r s' :
  (m ≫= f) s = (r, s') →
  (∃ a s1, m s = (Ret a, s1) ∧ f a s1 = (r, s')) ∨ (∃ e, m s = (Fatal e, s') ∧ r = Fatal e) ∨ (∃ e, m s = (Undef e, s') ∧ r = Undef e).
Proof. unfold mbind, exitM_bind. destruct (m s) as [[a|e|e] s1]; intros Hr; simplify_eq; eauto 10. Qed.

(** Every run of [m], however it ends, relates the states before and after. *)
Definition exit_keeps (R : S → S → Prop) {A} (m : exitM S A) : Prop := ∀ s r s', m s = (r, s') → R s s'.

Context (R : S → S → Prop) `{!PreOrder R}.
Lemma exit_keeps_ret {A} (a : A) : exit_keeps R (mret a).
Proof using Type*. intros s r s' [= _ <-]. reflexivity. Qed.
Lemma exit_keeps_get : exit_keeps R exit_get.
Proof using Type*. intros s r s' [= _ <-]. reflexivity. Qed.
Lemma exit_keeps_lift {A} (o : outcome A) : exit_keeps R (exit_lift o).
Proof using Type*. intros s r s' [= _ <-]. reflexivity. Qed.
Lemma exit_keeps_modify f : (∀ s, R s (f s)) → exit_keeps R (exit_modify f).
Proof. intros Hf s r s' [= _ <-]. apply Hf. Qed.
Lemma exit_keeps_bind {A B} (m : exitM S A) (f : A → exitM S B) :
  exit_keeps R m → (∀ a, exit_keeps R (f a)) → exit_keeps R (m ≫= f).
Proof using Type*.
  intros Hm Hf s r s' Hr. apply exit_bind_inv in Hr as [(a & s1 & H1 & H2)|[(e & H1 & _)|(e & H1 & _)]]; [|by eapply Hm..].
  transitivity s1; [by eapply Hm|by eapply Hf].
Qed.
End exitM.

(** One step through the code of such an operation. *)
Ltac exit_keeps_step :=
  match goal with
  | |- exit_keeps _ (mbind _ _) => apply exit_keeps_bind
  | |- exit_keeps _ (mret _) => apply exit_keeps_ret
  | |- exit_keeps _ exit_get => apply exit_keeps_get
  | |- exit_keeps _ (exit_lift _) => apply exit_keeps_lift
  | |- exit_keeps _ (exit_modify _) => apply exit_keeps_modify
  | |- PreOrder _ => apply _
  | |- ∀ _, _ => intro
  | |- exit_keeps _ (if ?b then _ else _) => destruct b
  | |- exit_keeps _ (match ?x with _ => _ end) => destruct x
  | |- exit_keeps _ _ => solve [eauto with state_keeps]
  end.
Ltac exit_keeps_auto := repeat exit_keeps_step.

(** Take [Hr : m s = (r, s')] apart at its first operation. *)
Ltac exit_step Hr a s1 H := apply exit_bind_inv in Hr as [(a & s1 & H & Hr)|[(? & H & ?)|(? & H & ?)]].
