(* ===== verification/Sandbox.v ===== *)
(** * lib/sandbox.c: the seccomp filters of the programs that read pages

    A filter is built once, rule by rule, and loaded by a process before it
    runs a program.  libseccomp is a parameter (class [Seccomp], with what its
    manual promises as [SeccompLaws]); the rules are those of
    [make_seccomp_filter], with the numbers Linux gives its flags on x86-64. *)

From S2P Require Import Prelude CStr StateM.

(** ** Calls and rules *)

(** What a rule says of an argument. *)
Inductive scmp_compare :=
  | SCMP_CMP_EQ (datum : Z)
  | SCMP_CMP_MASKED_EQ (mask datum : Z).
#[export] Instance scmp_compare_eq_dec : EqDecision scmp_compare.
Proof. solve_decision. Defined.

Record arg_cmp := SCMP_A { ac_arg : nat; ac_cmp : scmp_compare }.
#[export] Instance arg_cmp_eq_dec : EqDecision arg_cmp.
Proof. solve_decision. Defined.

Definition arg_of (args : list Z) (i : nat) : Z := default 0%Z (args !! i).

Definition cmp_holds (args : list Z) (c : arg_cmp) : bool :=
  let x := arg_of args (ac_arg c) in
  match ac_cmp c with
  | SCMP_CMP_EQ datum => (x =? datum)%Z
  | SCMP_CMP_MASKED_EQ mask datum => (Z.land x mask =? datum)%Z
  end.

Definition rule : Type := string * list arg_cmp.

Definition SC_ALLOW (name : string) : rule := (name, []).
Definition SC_ALLOW_ARG_1 (name : string) (cmp1 : arg_cmp) : rule := (name, [cmp1]).
Definition SC_ALLOW_ARG_2 (name : string) (cmp1 cmp2 : arg_cmp) : rule := (name, [cmp1; cmp2]).
Definition SC_ALLOW_PERMISSIVE (permissive : bool) (name : string) : list rule :=
  if permissive then [SC_ALLOW name] else [].

(** *** Constants of the C library *)

Definition O_ACCMODE : Z := 3.
Definition O_RDONLY : Z := 0.
Definition O_CREAT : Z := 64.
Definition O_TRUNC : Z := 512.
Definition O_DIRECTORY : Z := 65536.
Definition O_TMPFILE : Z := Z.lor 4194304 O_DIRECTORY.
Definition S_ISUID : Z := 2048.
Definition S_ISGID : Z := 1024.
Definition S_IXUSR : Z := 64.
Definition S_IXGRP : Z := 8.
Definition S_IXOTH : Z := 1.
Definition TCGETS : Z := 21505.
Definition TIOCGWINSZ : Z := 21523.
Definition SHM_RDONLY : Z := 4096.
Definition IPC_STAT : Z := 2.
Definition AF_UNIX : Z := 1.

Definition mode_mask : Z := Z.lor S_ISUID (Z.lor S_ISGID (Z.lor S_IXUSR (Z.lor S_IXGRP S_IXOTH))).
Definition create_mask : Z := Z.lor O_CREAT O_TMPFILE.

(** *** The rules *)

Definition default_rules : list rule := SC_ALLOW <$>
  ["arch_prctl"; "brk"; "cacheflush"; "clock_getres"; "clock_getres_time64"; "clock_gettime"; "clock_gettime64";
   "clock_nanosleep"; "clock_nanosleep_time64"; "execve"; "exit"; "exit_group"; "futex"; "futex_time64";
   "futex_waitv"; "get_robust_list"; "get_thread_area"; "getegid"; "getegid32"; "geteuid"; "geteuid32"; "getgid";
   "getgid32"; "getgroups"; "getgroups32"; "getpgid"; "getpgrp"; "getpid"; "getppid"; "getrandom"; "getresgid";
   "getresgid32"; "getresuid"; "getresuid32"; "getrlimit"; "getsid"; "gettid"; "gettimeofday"; "getuid"; "getuid32";
   "membarrier"; "mmap"; "mmap2"; "mprotect"; "munmap"; "nanosleep"; "pause"; "prlimit64"; "restart_syscall";
   "riscv_flush_icache"; "riscv_hwprobe"; "rseq"; "rt_sigreturn"; "sched_getaffinity"; "sched_yield";
   "set_robust_list"; "set_thread_area"; "set_tid_address"; "set_tls"; "sigreturn"; "time"; "ugetrlimit"]%string.

Definition basic_io_rules : list rule := SC_ALLOW <$>
  ["_llseek"; "close"; "close_range"; "dup"; "dup2"; "dup3"; "lseek"; "pread64"; "preadv"; "preadv2"; "pwrite64";
   "pwritev"; "pwritev2"; "read"; "readv"; "write"; "writev"]%string.

Definition no_mode (i : nat) : arg_cmp := SCMP_A i (SCMP_CMP_MASKED_EQ mode_mask 0).

Definition open_rules (permissive : bool) : list rule :=
  if permissive then
    [ SC_ALLOW_ARG_2 "open" (SCMP_A 1 (SCMP_CMP_MASKED_EQ O_CREAT O_CREAT)) (no_mode 2);
      SC_ALLOW_ARG_2 "openat" (SCMP_A 2 (SCMP_CMP_MASKED_EQ O_CREAT O_CREAT)) (no_mode 3);
      SC_ALLOW_ARG_2 "open" (SCMP_A 1 (SCMP_CMP_MASKED_EQ O_TMPFILE O_TMPFILE)) (no_mode 2);
      SC_ALLOW_ARG_2 "openat" (SCMP_A 2 (SCMP_CMP_MASKED_EQ O_TMPFILE O_TMPFILE)) (no_mode 3);
      SC_ALLOW_ARG_1 "open" (SCMP_A 1 (SCMP_CMP_MASKED_EQ create_mask 0));
      SC_ALLOW_ARG_1 "openat" (SCMP_A 2 (SCMP_CMP_MASKED_EQ create_mask 0)) ]
  else
    [ SC_ALLOW_ARG_1 "open" (SCMP_A 1 (SCMP_CMP_MASKED_EQ O_ACCMODE O_RDONLY));
      SC_ALLOW_ARG_1 "openat" (SCMP_A 2 (SCMP_CMP_MASKED_EQ O_ACCMODE O_RDONLY)) ].

Definition file_system_rules (permissive : bool) : list rule :=
  (SC_ALLOW <$> ["access"; "chdir"]%string) ++
  (if permissive then [SC_ALLOW_ARG_1 "chmod" (no_mode 1); SC_ALLOW_ARG_1 "creat" (no_mode 1)] else []) ++
  (SC_ALLOW <$> ["faccessat"; "faccessat2"; "fallocate"; "fchdir"]%string) ++
  (if permissive then
     [SC_ALLOW_ARG_1 "fchmod" (no_mode 1); SC_ALLOW_ARG_1 "fchmodat" (no_mode 2); SC_ALLOW_ARG_1 "fchmodat2" (no_mode 2)]
   else []) ++
  (SC_ALLOW <$> ["fcntl"; "fcntl64"; "fstat"; "fstat64"; "fstatat64"; "fstatfs"; "fstatfs64"; "ftruncate"; "ftruncate64"]%string) ++
  SC_ALLOW_PERMISSIVE permissive "futimesat" ++
  (SC_ALLOW <$> ["getcwd"; "getdents"; "getdents64"]%string) ++
  SC_ALLOW_PERMISSIVE permissive "link" ++ SC_ALLOW_PERMISSIVE permissive "linkat" ++
  (SC_ALLOW <$> ["lstat"; "lstat64"]%string) ++
  SC_ALLOW_PERMISSIVE permissive "mkdir" ++ SC_ALLOW_PERMISSIVE permissive "mkdirat" ++
  (SC_ALLOW <$> ["newfstatat"; "oldfstat"; "oldlstat"; "oldstat"]%string) ++
  open_rules permissive ++
  (SC_ALLOW <$> ["readlink"; "readlinkat"]%string) ++
  (["rename"; "renameat"; "renameat2"; "rmdir"]%string ≫= SC_ALLOW_PERMISSIVE permissive) ++
  (SC_ALLOW <$> ["stat"; "stat64"; "statfs"; "statfs64"; "statx"]%string) ++
  (["symlink"; "symlinkat"; "truncate"; "truncateat"; "unlink"; "unlinkat"; "utime"; "utimensat"; "utimensat_time64"; "utimes"]%string
     ≫= SC_ALLOW_PERMISSIVE permissive).

Definition io_event_rules : list rule := SC_ALLOW <$>
  ["_newselect"; "epoll_create"; "epoll_create1"; "epoll_ctl"; "epoll_ctl_old"; "epoll_pwait"; "epoll_pwait2";
   "epoll_wait"; "epoll_wait_old"; "eventfd"; "eventfd2"; "poll"; "ppoll"; "ppoll_time64"; "pselect6";
   "pselect6_time64"; "select"]%string.

Definition ipc_rules : list rule := SC_ALLOW <$> ["pipe"; "pipe2"]%string.

Definition process_rules : list rule := SC_ALLOW <$>
  ["capget"; "clone"; "clone3"; "execveat"; "fork"; "getrusage"; "pidfd_open"; "pidfd_send_signal"; "prctl"; "vfork";
   "wait4"; "waitid"; "waitpid"]%string.

Definition signal_rules : list rule := SC_ALLOW <$>
  ["rt_sigaction"; "rt_sigpending"; "rt_sigprocmask"; "rt_sigsuspend"; "rt_sigtimedwait"; "rt_sigtimedwait_time64";
   "sigaction"; "sigaltstack"; "signal"; "signalfd"; "signalfd4"; "sigpending"; "sigprocmask"; "sigsuspend"]%string.

Definition sync_rules : list rule := SC_ALLOW <$>
  ["fdatasync"; "fsync"; "msync"; "sync"; "sync_file_range"; "sync_file_range2"; "syncfs"]%string.

Definition system_service_rules (permissive : bool) : list rule :=
  (SC_ALLOW <$> ["arm_fadvise64_64"; "fadvise64"; "fadvise64_64"]%string) ++
  (if permissive then [SC_ALLOW "ioctl"]
   else [SC_ALLOW_ARG_1 "ioctl" (SCMP_A 1 (SCMP_CMP_EQ TCGETS)); SC_ALLOW_ARG_1 "ioctl" (SCMP_A 1 (SCMP_CMP_EQ TIOCGWINSZ))]) ++
  (SC_ALLOW <$> ["madvise"; "mremap"; "sysinfo"; "uname"]%string).

(** Calls outside the sets of systemd. *)
Definition extra_rules : list rule :=
  (SC_ALLOW <$> ["arm_fadvise64_64"; "arm_sync_file_range"; "kill"; "tgkill"]%string) ++
  [ SC_ALLOW_ARG_1 "shmat" (SCMP_A 2 (SCMP_CMP_EQ SHM_RDONLY)); SC_ALLOW_ARG_1 "shmctl" (SCMP_A 1 (SCMP_CMP_EQ IPC_STAT));
    SC_ALLOW "shmdt"; SC_ALLOW "shmget" ].

Definition static_rules (permissive : bool) : list rule :=
  default_rules ++ basic_io_rules ++ file_system_rules permissive ++ io_event_rules ++ ipc_rules ++ process_rules ++
  signal_rules ++ sync_rules ++ system_service_rules permissive ++ extra_rules.

(** Calls of libraries that were preloaded. *)
Definition socket_rules : list rule :=
  (SC_ALLOW <$> ["connect"; "recvmsg"; "sendmsg"; "sendto"; "setsockopt"]%string) ++
  [SC_ALLOW_ARG_1 "socket" (SCMP_A 0 (SCMP_CMP_EQ AF_UNIX))].
Definition queue_rules : list rule := [SC_ALLOW_ARG_1 "msgget" (SCMP_A 1 (SCMP_CMP_EQ 0)); SC_ALLOW "msgsnd"].

Definition socket_libs : list string := ["libesets_pac.so"; "libfirebuild.so"; "libscep_pac.so"; "libsnoopy.so"]%string.
Definition queue_libs : list string := ["libesets_pac.so"; "libscep_pac.so"]%string.

(** ** libseccomp and the kernel *)

Inductive scmp_arch := SCMP_ARCH_X86 | SCMP_ARCH_X86_64 | SCMP_ARCH_X32 | SCMP_ARCH_OTHER.

(** Loading a filter fails for lack of support (EINVAL, EFAULT) or otherwise. *)
Inductive load_result := LOADED | EINVAL_or_EFAULT | OTHER_ERRNO.

Class Seccomp := {
  scmp_filter_ctx : Type;
  (** for the default action SCMP_ACT_ERRNO (ENOSYS) *)
  seccomp_init : option scmp_filter_ctx;
  seccomp_arch_native : scmp_arch;
  seccomp_arch_add : scmp_filter_ctx → scmp_arch → scmp_filter_ctx;
  (** -1 is __NR_SCMP_ERROR *)
  seccomp_syscall_resolve_name : string → Z;
  (** for the action SCMP_ACT_ALLOW; [None] is an error *)
  seccomp_rule_add : scmp_filter_ctx → Z → list arg_cmp → option scmp_filter_ctx;
  seccomp_optimize : scmp_filter_ctx → scmp_filter_ctx;
  seccomp_load : scmp_filter_ctx → load_result;
  (** whether a process that loaded the filter can make a call *)
  seccomp_allows : scmp_filter_ctx → Z → list Z → bool;
}.

Definition SCMP_ERROR : Z := -1.

Class SeccompLaws `{Seccomp} : Prop := {
  init_allows ctx nr args : seccomp_init = Some ctx → seccomp_allows ctx nr args = false;
  arch_allows ctx a nr args : seccomp_allows (seccomp_arch_add ctx a) nr args = seccomp_allows ctx nr args;
  optimize_allows ctx nr args : seccomp_allows (seccomp_optimize ctx) nr args = seccomp_allows ctx nr args;
  rule_allows ctx nr cmps ctx' nr' args : seccomp_rule_add ctx nr cmps = Some ctx' →
    seccomp_allows ctx' nr' args = seccomp_allows ctx nr' args || ((nr' =? nr)%Z && forallb (cmp_holds args) cmps);
  resolve_inj a b : seccomp_syscall_resolve_name a = seccomp_syscall_resolve_name b →
    seccomp_syscall_resolve_name a ≠ SCMP_ERROR → a = b;
}.

(** The environment of the program, and what PR_GET_SECCOMP answers in a
    process that loaded no filter itself. *)
Class SandboxEnv := {
  se_getenv : string → option cstr;
  se_preload : option (list ascii);
  se_mmap_ok : bool;
  se_status : Z;
}.

(** The static variables, and the filter this process loaded. *)
Record sandbox_state (C : Type) := SandboxState {
  seccomp_filter_unavailable : bool;
  ld_preload_file : option cstr;
  sb_loaded : option C;
}.
Arguments SandboxState {C}. Arguments seccomp_filter_unavailable {C}. Arguments ld_preload_file {C}. Arguments sb_loaded {C}.

Record man_sandbox (C : Type) := ManSandbox {
  ctx : option C;
  permissive_ctx : option C;
}.
Arguments ManSandbox {C}. Arguments ctx {C}. Arguments permissive_ctx {C}.

Section sandbox.
Context `{Seccomp} `{SandboxEnv}.
Abbreviation sand := (stateM (sandbox_state scmp_filter_ctx)).

(** [mmap] is compared with NULL, although it fails with MAP_FAILED. *)
Definition read_preload_file : outcome cstr :=
  match se_preload with
  | None | Some [] => Ret []
  | Some text => if se_mmap_ok then Ret (xstrndup text) else Undef "xstrndup of MAP_FAILED"
  end.

Definition search_ld_preload (needle : string) : sand bool :=
  let in_env := match se_getenv "LD_PRELOAD" with Some env => bool_decide (is_Some (strstr env (lit needle))) | None => false end in
  if in_env then mret true
  else
    s ← get;
    file ← (match ld_preload_file s with Some f => mret f | None => lift read_preload_file end);
    _ ← modify (λ s, SandboxState (seccomp_filter_unavailable s) (Some file) (sb_loaded s));
    mret (bool_decide (is_Some (strstr file (lit needle)))).

(** [||] over [search_ld_preload]. *)
Fixpoint any_preloaded (needles : list string) : sand bool :=
  match needles with
  | [] => mret false
  | n :: needles => b ← search_ld_preload n; if (b : bool) then mret true else any_preloaded needles
  end.

(** PR_GET_SECCOMP in this process: 2 once it has a filter. *)
Definition prctl_get_seccomp (s : sandbox_state scmp_filter_ctx) : Z := if sb_loaded s is Some _ then 2%Z else se_status.

Definition disabled_by_user : bool := match se_getenv "MAN_DISABLE_SECCOMP" with Some (_ :: _) => true | _ => false end.

Definition can_load_seccomp : sand bool :=
  s ← get;
  if seccomp_filter_unavailable s then mret false
  else if disabled_by_user then mret false
  else
    valgrind ← search_ld_preload "/vgpreload";
    if (valgrind : bool) then mret false
    else
      s ← get;
      mret (prctl_get_seccomp s =? 0)%Z.

(** A call this architecture does not have is left out. *)
Definition sc_allow (ctx : scmp_filter_ctx) (r : rule) : outcome scmp_filter_ctx :=
  let nr := seccomp_syscall_resolve_name r.1 in
  if (nr =? SCMP_ERROR)%Z then Ret ctx
  else match seccomp_rule_add ctx nr r.2 with Some ctx => Ret ctx | None => Fatal "can't add seccomp rule" end.

Fixpoint sc_allow_all (ctx : scmp_filter_ctx) (rs : list rule) : outcome scmp_filter_ctx :=
  match rs with
  | [] => Ret ctx
  | r :: rs => ctx ← sc_allow ctx r; sc_allow_all ctx rs
  end.

Definition add_archs (ctx : scmp_filter_ctx) : scmp_filter_ctx :=
  match seccomp_arch_native with
  | SCMP_ARCH_X86 => seccomp_arch_add (seccomp_arch_add ctx SCMP_ARCH_X86_64) SCMP_ARCH_X32
  | SCMP_ARCH_X86_64 => seccomp_arch_add (seccomp_arch_add ctx SCMP_ARCH_X86) SCMP_ARCH_X32
  | SCMP_ARCH_X32 => seccomp_arch_add (seccomp_arch_add ctx SCMP_ARCH_X86) SCMP_ARCH_X86_64
  | SCMP_ARCH_OTHER => ctx
  end.

Definition make_seccomp_filter (permissive : bool) : sand (option scmp_filter_ctx) :=
  ok ← can_load_seccomp;
  if negb ok then mret None
  else
    ctx ← lift (match seccomp_init with Some ctx => Ret ctx | None => Fatal "can't initialise seccomp filter" end);
    ctx ← lift (sc_allow_all (add_archs ctx) (static_rules permissive));
    sockets ← any_preloaded socket_libs;
    ctx ← lift (sc_allow_all ctx (if sockets : bool then socket_rules else []));
    queues ← any_preloaded queue_libs;
    ctx ← lift (sc_allow_all ctx (if queues : bool then queue_rules else []));
    mret (Some (seccomp_optimize ctx)).

Definition sandbox_init : sand (man_sandbox scmp_filter_ctx) :=
  ctx ← make_seccomp_filter false;
  permissive_ctx ← make_seccomp_filter true;
  mret (ManSandbox ctx permissive_ctx).

Definition _sandbox_load (sandbox : man_sandbox scmp_filter_ctx) (permissive : bool) : sand unit :=
  ok ← can_load_seccomp;
  if negb ok then mret tt
  else
    match (if permissive then permissive_ctx sandbox else ctx sandbox) with
    | None => mret tt
    | Some c =>
      match seccomp_load c with
      | LOADED => modify (λ s, SandboxState (seccomp_filter_unavailable s) (ld_preload_file s) (Some c))
      | EINVAL_or_EFAULT => modify (λ s, SandboxState true (ld_preload_file s) (sb_loaded s))
      | OTHER_ERRNO => lift (Fatal "can't load seccomp filter")
      end
    end.

Definition sandbox_load (sandbox : man_sandbox scmp_filter_ctx) : sand unit := _sandbox_load sandbox false.
Definition sandbox_load_permissive (sandbox : man_sandbox scmp_filter_ctx) : sand unit := _sandbox_load sandbox true.
End sandbox.

(** ** What the filters allow *)

(** Calls that change the file system beyond open files. *)
Definition changing_calls : list string :=
  ["chmod"; "fchmod"; "fchmodat"; "fchmodat2"; "creat"; "link"; "linkat"; "symlink"; "symlinkat"; "mkdir"; "mkdirat";
   "rename"; "renameat"; "renameat2"; "rmdir"; "unlink"; "unlinkat"; "truncate"; "truncateat"; "utime"; "utimes";
   "utimensat"; "utimensat_time64"; "futimesat"]%string.

(** Calls that no program needs to read or to format a page. *)
Definition privileged_calls : list string :=
  ["openat2"; "open_by_handle_at"; "mknod"; "mknodat"; "chown"; "chown32"; "lchown"; "lchown32"; "fchown"; "fchown32";
   "fchownat"; "setxattr"; "fsetxattr"; "lsetxattr"; "mount"; "umount"; "umount2"; "chroot"; "pivot_root"; "setuid"; "setgid";
   "setreuid"; "setregid"; "setresuid"; "setresgid"; "setgroups"; "setns"; "unshare"; "capset"; "ptrace"; "process_vm_writev";
   "bpf"; "perf_event_open"; "init_module"; "finit_module"; "kexec_load"; "reboot"; "keyctl"; "personality"; "bind"; "listen";
   "accept"; "accept4"; "io_uring_setup"; "userfaultfd"; "rt_sigqueueinfo"; "tkill"]%string.

Definition socket_calls : list string := ["socket"; "connect"; "sendto"; "sendmsg"; "recvmsg"; "setsockopt"]%string.

(** The mode of the file that a call makes, or that it sets. *)
Definition given_mode (name : string) (args : list Z) : option Z :=
  let creates flags := negb (Z.land flags O_CREAT =? 0)%Z || (Z.land flags O_TMPFILE =? O_TMPFILE)%Z in
  if bool_decide (name ∈ ["chmod"; "fchmod"; "creat"]%string) then Some (arg_of args 1)
  else if bool_decide (name ∈ ["fchmodat"; "fchmodat2"]%string) then Some (arg_of args 2)
  else if bool_decide (name = "open"%string) then if creates (arg_of args 1) then Some (arg_of args 2) else None
  else if bool_decide (name = "openat"%string) then if creates (arg_of args 2) then Some (arg_of args 3) else None
  else None.

(** None of the bits for execution (user, group, others), setgid, setuid. *)
Definition plain_mode (mode : Z) : Prop := Forall (λ i, Z.testbit mode i = false) [6; 3; 0; 10; 11]%Z.

Lemma plain_mode_masked mode : Z.land mode mode_mask = 0%Z → plain_mode mode.
Proof.
  intros Hm. assert (∀ i, Z.testbit mode_mask i = true → Z.testbit mode i = false) as Hi.
  { intros i Hi. pose proof (Z.land_spec mode mode_mask i) as E. rewrite Hm, Z.bits_0, Hi, andb_true_r in E. done. }
  by repeat constructor; apply Hi.
Qed.

Definition open_flags (name : string) (args : list Z) : option Z :=
  if bool_decide (name = "open"%string) then Some (arg_of args 1)
  else if bool_decide (name = "openat"%string) then Some (arg_of args 2) else None.

(** *** Rules that match *)

Definition rule_matches (name : string) (args : list Z) (r : rule) : bool :=
  bool_decide (name = r.1) && forallb (cmp_holds args) r.2.

(** The comparisons of the rules for a name. *)
Definition rules_of (name : string) (rs : list rule) : list (list arg_cmp) :=
  snd <$> filter (λ r, name = r.1) rs.

Lemma matches_of name args rs : existsb (rule_matches name args) rs = existsb (forallb (cmp_holds args)) (rules_of name rs).
Proof.
  unfold rules_of, rule_matches. induction rs as [|r rs IH]; [done|]. rewrite filter_cons. cbn [existsb].
  destruct (decide (name = r.1)); [rewrite bool_decide_true by done; cbn; by rewrite IH|by rewrite bool_decide_false].
Qed.

(** All rules, with those for sockets and queues or without. *)
Definition rules_with (permissive sockets queues : bool) : list rule :=
  static_rules permissive ++ (if sockets then socket_rules else []) ++ (if queues then queue_rules else []).

(** What no rule names. *)
Lemma unnamed_calls p b1 b2 name : name ∈ privileged_calls → rules_of name (rules_with p b1 b2) = [].
Proof.
  intros Hn. assert (Forall (λ n, rules_of n (rules_with p b1 b2) = []) privileged_calls) as Hall.
  { apply (bool_decide_unpack _). destruct p, b1, b2; vm_compute; exact I. }
  by apply (proj1 (Forall_forall _ _) Hall).
Qed.

Lemma unnamed_changes b1 b2 name : name ∈ changing_calls → rules_of name (rules_with false b1 b2) = [].
Proof.
  intros Hn. assert (Forall (λ n, rules_of n (rules_with false b1 b2) = []) changing_calls) as Hall.
  { apply (bool_decide_unpack _). destruct b1, b2; vm_compute; exact I. }
  by apply (proj1 (Forall_forall _ _) Hall).
Qed.

Lemma unnamed_sockets p b2 name : name ∈ socket_calls → rules_of name (rules_with p false b2) = [].
Proof.
  intros Hn. assert (Forall (λ n, rules_of n (rules_with p false b2) = []) socket_calls) as Hall.
  { apply (bool_decide_unpack _). destruct p, b2; vm_compute; exact I. }
  by apply (proj1 (Forall_forall _ _) Hall).
Qed.

(** The rules for the calls that are looked into. *)
Lemma socket_rules_of p b1 b2 : rules_of "socket" (rules_with p b1 b2) = if b1 then [[SCMP_A 0 (SCMP_CMP_EQ AF_UNIX)]] else [].
Proof. by destruct p, b1, b2; vm_compute. Qed.
Lemma ioctl_rules_of b1 b2 :
  rules_of "ioctl" (rules_with false b1 b2) = [[SCMP_A 1 (SCMP_CMP_EQ TCGETS)]; [SCMP_A 1 (SCMP_CMP_EQ TIOCGWINSZ)]].
Proof. by destruct b1, b2; vm_compute. Qed.
Lemma open_rules_of b1 b2 :
  rules_of "open" (rules_with false b1 b2) = [[SCMP_A 1 (SCMP_CMP_MASKED_EQ O_ACCMODE O_RDONLY)]] ∧
  rules_of "openat" (rules_with false b1 b2) = [[SCMP_A 2 (SCMP_CMP_MASKED_EQ O_ACCMODE O_RDONLY)]].
Proof. by destruct b1, b2; vm_compute. Qed.
(** Permissive rules for opening, for the positions of flags and mode. *)
Definition creation_rules (flags mode : nat) : list (list arg_cmp) :=
  [[SCMP_A flags (SCMP_CMP_MASKED_EQ O_CREAT O_CREAT); no_mode mode];
   [SCMP_A flags (SCMP_CMP_MASKED_EQ O_TMPFILE O_TMPFILE); no_mode mode];
   [SCMP_A flags (SCMP_CMP_MASKED_EQ create_mask 0)]].
Lemma creation_rules_of b1 b2 :
  rules_of "open" (rules_with true b1 b2) = creation_rules 1 2 ∧ rules_of "openat" (rules_with true b1 b2) = creation_rules 2 3.
Proof. by destruct b1, b2; vm_compute. Qed.
Lemma mode_rules_of b1 b2 :
  Forall (λ n, rules_of n (rules_with true b1 b2) = [[no_mode 1]]) ["chmod"; "fchmod"; "creat"]%string ∧
  Forall (λ n, rules_of n (rules_with true b1 b2) = [[no_mode 2]]) ["fchmodat"; "fchmodat2"]%string.
Proof. apply (bool_decide_unpack _). destruct b1, b2; vm_compute; exact I. Qed.

(** Opening without one of the bits of [create_mask] makes no file. *)
Lemma no_creation x : Z.land x create_mask = 0%Z → Z.land x O_CREAT = 0%Z ∧ Z.land x O_TMPFILE = 0%Z.
Proof. unfold create_mask. rewrite Z.land_lor_distr_r. by intros [??]%Z.lor_eq_0_iff. Qed.

Lemma creation_rules_mode args flags mode :
  existsb (forallb (cmp_holds args)) (creation_rules flags mode) = true →
  negb (Z.land (arg_of args flags) O_CREAT =? 0)%Z || (Z.land (arg_of args flags) O_TMPFILE =? O_TMPFILE)%Z = true →
  Z.land (arg_of args mode) mode_mask = 0%Z.
Proof.
  intros Hr Hc. unfold creation_rules, no_mode in Hr. cbn -[Z.land O_CREAT O_TMPFILE create_mask mode_mask] in Hr.
  rewrite !orb_true_iff, !andb_true_iff, !Z.eqb_eq in Hr.
  destruct Hr as [(_ & Hm & _)|[(_ & Hm & _)|[[Hf _]|[=]]]]; [done|done|].
  apply no_creation in Hf as [H1 H2]. rewrite H1, H2 in Hc. discriminate Hc.
Qed.

(** *** What a matching rule says *)

Lemma allowed_sockets p b1 b2 name args :
  existsb (forallb (cmp_holds args)) (rules_of name (rules_with p b1 b2)) = true →
  name ∈ socket_calls → b1 = true ∧ (name = "socket"%string → arg_of args 0 = AF_UNIX).
Proof.
  intros Ha Hn. destruct b1; [|by rewrite unnamed_sockets in Ha]. split; [done|]. intros ->. rewrite socket_rules_of in Ha.
  cbn -[AF_UNIX] in Ha. by apply orb_true_iff in Ha as [[?%Z.eqb_eq _]%andb_true_iff|[=]].
Qed.

Lemma allowed_strict b1 b2 name args :
  existsb (forallb (cmp_holds args)) (rules_of name (rules_with false b1 b2)) = true →
  (name ∉ changing_calls) ∧ (∀ flags, open_flags name args = Some flags → Z.land flags O_ACCMODE = O_RDONLY) ∧
  (name = "ioctl"%string → arg_of args 1 ∈ [TCGETS; TIOCGWINSZ]).
Proof.
  intros Ha. destruct (open_rules_of b1 b2) as [Ho Hoa]. split_and!.
  - intros Hn. by rewrite unnamed_changes in Ha.
  - unfold open_flags. intros flags Hf. destruct (bool_decide_reflect (name = "open"%string)) as [->|_];
      [|destruct (bool_decide_reflect (name = "openat"%string)) as [->|_]; [|done]]; injection Hf as <-; rewrite ?Ho, ?Hoa in Ha;
      cbn -[Z.land O_ACCMODE O_RDONLY] in Ha; by apply orb_true_iff in Ha as [[?%Z.eqb_eq _]%andb_true_iff|[=]].
  - intros ->. rewrite ioctl_rules_of in Ha. cbn -[TCGETS TIOCGWINSZ] in Ha. rewrite !orb_true_iff, !andb_true_iff, !Z.eqb_eq in Ha.
    destruct Ha as [[-> _]|[[-> _]|[=]]]; [by left|by right; left].
Qed.

Lemma opens_strict b1 b2 name args flags :
  open_flags name args = Some flags →
  existsb (forallb (cmp_holds args)) (rules_of name (rules_with false b1 b2)) = true ↔ Z.land flags O_ACCMODE = O_RDONLY.
Proof.
  intros Hf. split; [intros Ha; by eapply allowed_strict|]. destruct (open_rules_of b1 b2) as [Ho Hoa]. unfold open_flags in Hf.
  destruct (bool_decide_reflect (name = "open"%string)) as [->|_];
    [|destruct (bool_decide_reflect (name = "openat"%string)) as [->|_]; [|done]]; injection Hf as <-; rewrite ?Ho, ?Hoa;
    intros E; cbn -[Z.land O_ACCMODE O_RDONLY]; by rewrite E.
Qed.

Lemma allowed_modes b1 b2 name args :
  existsb (forallb (cmp_holds args)) (rules_of name (rules_with true b1 b2)) = true →
  ∀ mode, given_mode name args = Some mode → Z.land mode mode_mask = 0%Z.
Proof.
  intros Ha mode Hm. destruct (creation_rules_of b1 b2) as [Ho Hoa], (mode_rules_of b1 b2) as [H1 H2]. unfold given_mode in Hm.
  rewrite Forall_forall in H1, H2.
  destruct (bool_decide_reflect (name ∈ ["chmod"; "fchmod"; "creat"]%string)) as [Hn|_];
    [|destruct (bool_decide_reflect (name ∈ ["fchmodat"; "fchmodat2"]%string)) as [Hn|_];
    [|destruct (bool_decide_reflect (name = "open"%string)) as [->|_]; [|destruct (bool_decide_reflect (name = "openat"%string)) as [->|_]; [|done]]]].
  - rewrite H1 in Ha by done. injection Hm as <-. cbn -[Z.land mode_mask] in Ha. by apply orb_true_iff in Ha as [[?%Z.eqb_eq _]%andb_true_iff|[=]].
  - rewrite H2 in Ha by done. injection Hm as <-. cbn -[Z.land mode_mask] in Ha. by apply orb_true_iff in Ha as [[?%Z.eqb_eq _]%andb_true_iff|[=]].
  - rewrite Ho in Ha. destruct (_ || _) eqn:Ec in Hm; [|done]. injection Hm as <-. by eapply creation_rules_mode.
  - rewrite Hoa in Ha. destruct (_ || _) eqn:Ec in Hm; [|done]. injection Hm as <-. by eapply creation_rules_mode.
Qed.

(** The rules of the strict filter that the permissive one lacks. *)
Lemma strict_only b1 b2 :
  Forall (λ r, r ∈ rules_with true b1 b2 ∨ r ∈ open_rules false ∨ r.1 = "ioctl"%string) (rules_with false b1 b2) ∧
  SC_ALLOW "ioctl" ∈ rules_with true b1 b2.
Proof. apply (bool_decide_unpack _). destruct b1, b2; vm_compute; exact I. Qed.

Lemma existsb_elem {A} (f : A → bool) x l : x ∈ l → f x = true → existsb f l = true.
Proof. intros Hx Hf. apply existsb_exists. exists x. split; [by apply list_elem_of_In|done]. Qed.

Lemma strict_then_permissive b1 b2 name args :
  existsb (rule_matches name args) (rules_with false b1 b2) = true →
  existsb (rule_matches name args) (rules_with true b1 b2) = true ∨
  ∃ flags, open_flags name args = Some flags ∧ Z.land flags create_mask ≠ 0%Z.
Proof.
  intros Ha. destruct (strict_only b1 b2) as [Hr Hi], (creation_rules_of b1 b2) as [Ho Hoa].
  assert (∀ i j, open_flags name args = Some (arg_of args i) →
    rules_of name (rules_with true b1 b2) = creation_rules i j →
    existsb (rule_matches name args) (rules_with true b1 b2) = true ∨
    ∃ flags, open_flags name args = Some flags ∧ Z.land flags create_mask ≠ 0%Z) as Hopen.
  { intros i j Hf Hc. destruct (decide (Z.land (arg_of args i) create_mask = 0%Z)) as [E|E]; [left|right; eauto].
    rewrite matches_of, Hc. apply (existsb_elem _ [SCMP_A i (SCMP_CMP_MASKED_EQ create_mask 0)]); [by right; right; left|].
    cbn -[Z.land create_mask]. by rewrite E. }
  apply existsb_exists in Ha as (r & Hin%list_elem_of_In & Hm). rewrite Forall_forall in Hr.
  pose proof Hm as Hname. unfold rule_matches in Hname. apply andb_true_iff in Hname as [Hname%bool_decide_eq_true _].
  destruct (Hr r Hin) as [Hp|[Hp|Hp]]; [left; by eapply existsb_elem| |].
  - cbn [open_rules] in Hp. apply elem_of_cons in Hp as [->|Hp]; [|apply list_elem_of_singleton in Hp as ->]; cbn in Hname; subst name;
      [by eapply (Hopen 1 2)|by eapply (Hopen 2 3)].
  - left. rewrite Hp in Hname. subst name. by eapply existsb_elem.
Qed.

Section spec.
Context `{SeccompLaws} `{SandboxEnv}.
Abbreviation state := (sandbox_state scmp_filter_ctx).

Definition preloaded (needle : string) : bool :=
  match se_getenv "LD_PRELOAD" with Some env => bool_decide (is_Some (strstr env (lit needle))) | None => false end ||
  match read_preload_file with Ret f => bool_decide (is_Some (strstr f (lit needle))) | _ => false end.

(** What the static copy of the file holds. *)
Definition cache_ok (s : state) : Prop := ∀ f, ld_preload_file s = Some f → read_preload_file = Ret f.

(** Only the copy of the file has changed. *)
Definition looked (s s' : state) : Prop :=
  cache_ok s → cache_ok s' ∧ sb_loaded s' = sb_loaded s ∧ seccomp_filter_unavailable s' = seccomp_filter_unavailable s.
#[local] Instance looked_preorder : PreOrder looked.
Proof.
  split; [by intros s|]. intros s1 s2 s3 H12 H23 Hs. apply H12 in Hs as (Hs & ? & ?).
  apply H23 in Hs as (? & ? & ?). split_and!; [done|congruence..].
Qed.

Lemma search_ld_preload_spec needle :
  yields (search_ld_preload needle) (λ s b s', looked s s' ∧ (cache_ok s → b = preloaded needle)).
Proof.
  intros s b s' Hr. unfold search_ld_preload in Hr. unfold preloaded.
  destruct (match se_getenv "LD_PRELOAD" with Some _ => _ | None => false end); [by injection Hr as <- <-|].
  run_inv Hr s0 s1 Hg. injection Hg as <- <-. run_inv Hr f s1 Hf. run_inv Hr u s2 Hm. injection Hm as _ <-. injection Hr as <- <-.
  assert (s1 = s) as ->.
  { destruct (ld_preload_file s); [by injection Hf as _ <-|]. unfold lift in Hf. by apply bind_Ret_inv in Hf as (? & _ & [= _ <-]). }
  assert (cache_ok s → read_preload_file = Ret f) as Hread.
  { intros Hs. destruct (ld_preload_file s) eqn:E; [injection Hf as <-; by apply Hs|].
    unfold lift in Hf. apply bind_Ret_inv in Hf as (x & Hx & [= <-]). done. }
  split; [intros Hs; split_and!; [|done..]; intros f' [= <-]; auto|]. intros Hs. by rewrite Hread.
Qed.

Lemma any_preloaded_spec needles :
  yields (any_preloaded needles) (λ s b s', looked s s' ∧ (cache_ok s → b = existsb preloaded needles)).
Proof.
  induction needles as [|n ns IH]; intros s b s' Hr; cbn [any_preloaded] in Hr; [by injection Hr as <- <-|].
  run_inv Hr x s1 Hx. apply search_ld_preload_spec in Hx as [Hl Hx]. destruct x.
  - injection Hr as <- <-. split; [done|]. intros Hs. cbn. by rewrite <-Hx.
  - apply IH in Hr as [Hl' Hr]. split; [by etrans|]. intros Hs. cbn. rewrite <-Hx by done. by apply Hr, Hl.
Qed.

(** The reasons not to load a filter that are not in the state. *)
Definition seccomp_wanted : bool := negb disabled_by_user && negb (preloaded "/vgpreload") && (se_status =? 0)%Z.

Lemma can_load_spec :
  yields can_load_seccomp (λ s b s', looked s s' ∧
    (cache_ok s → b = negb (seccomp_filter_unavailable s) && bool_decide (sb_loaded s = None) && seccomp_wanted)).
Proof.
  intros s b s' Hr. unfold can_load_seccomp in Hr. run_inv Hr s0 s1 Hg. injection Hg as <- <-. unfold seccomp_wanted.
  destruct (seccomp_filter_unavailable s) eqn:Eu; [by injection Hr as <- <-|].
  destruct disabled_by_user; [injection Hr as <- <-; split; [done|intros _; by rewrite andb_false_r]|].
  run_inv Hr x s1 Hx. apply search_ld_preload_spec in Hx as [Hl Hx].
  assert (s' = s1 ∧ b = negb x && (prctl_get_seccomp s1 =? 0)%Z) as [-> ->].
  { destruct x; [by injection Hr as <- <-|]. run_inv Hr s2 s3 Hg. injection Hg as <- <-. by injection Hr as <- <-. }
  split; [done|]. intros Hs. rewrite Hx by done. destruct (Hl Hs) as (_ & Hld & _). unfold prctl_get_seccomp. rewrite Hld.
  destruct (sb_loaded s); [by rewrite bool_decide_false, andb_false_r|by rewrite bool_decide_true].
Qed.

(** *** The filters *)

Lemma sc_allow_all_spec rs ctx ctx' name args :
  sc_allow_all ctx rs = Ret ctx' → seccomp_syscall_resolve_name name ≠ SCMP_ERROR →
  seccomp_allows ctx' (seccomp_syscall_resolve_name name) args =
    seccomp_allows ctx (seccomp_syscall_resolve_name name) args || existsb (rule_matches name args) rs.
Proof.
  intros Hr Hn. revert ctx Hr. induction rs as [|r rs IH]; intros c Hr; cbn [sc_allow_all existsb] in *.
  { injection Hr as ->. by rewrite orb_false_r. }
  apply bind_Ret_inv in Hr as (c1 & Hc & Hr). rewrite (IH _ Hr). unfold sc_allow in Hc.
  destruct (Z.eqb_spec (seccomp_syscall_resolve_name r.1) SCMP_ERROR) as [E|E].
  { injection Hc as ->. unfold rule_matches at 2. rewrite (bool_decide_false (name = r.1)) by congruence. done. }
  destruct (seccomp_rule_add c _ _) as [c2|] eqn:Ea; [|done]. injection Hc as ->. rewrite (rule_allows _ _ _ _ _ _ Ea), <-orb_assoc. f_equal. f_equal.
  unfold rule_matches. f_equal. apply eq_true_iff_eq. rewrite Z.eqb_eq, bool_decide_eq_true. split; [by intros ?%resolve_inj|congruence].
Qed.

(** The rules of a filter, under what is preloaded. *)
Definition filter_rules (permissive : bool) : list rule :=
  rules_with permissive (existsb preloaded socket_libs) (existsb preloaded queue_libs).

(** A filter allows what one of its rules allows. *)
Definition filters (permissive : bool) (c : scmp_filter_ctx) : Prop := ∀ name args,
  seccomp_syscall_resolve_name name ≠ SCMP_ERROR →
  seccomp_allows c (seccomp_syscall_resolve_name name) args = existsb (rule_matches name args) (filter_rules permissive).

Lemma make_seccomp_filter_spec permissive :
  yields (make_seccomp_filter permissive) (λ s c s', looked s s' ∧ (cache_ok s → ∀ c', c = Some c' → filters permissive c')).
Proof.
  intros s c s' Hr. unfold make_seccomp_filter in Hr. run_inv Hr ok s1 Hok. apply can_load_spec in Hok as [Hl1 _].
  destruct ok; cbn [negb] in Hr; [|by injection Hr as <- <-].
  run_inv Hr c1 s2 Hr1. unfold lift in Hr1. apply bind_Ret_inv in Hr1 as (c1' & Hr1 & [= -> ->]). destruct seccomp_init as [c0|] eqn:Ei; [|done]. injection Hr1 as ->.
  run_inv Hr c2 s1 Hr2. unfold lift in Hr2. apply bind_Ret_inv in Hr2 as (c2' & Hr2 & [= -> ->]).
  run_inv Hr b1 s3 Hb1. apply any_preloaded_spec in Hb1 as [Hl2 Hb1].
  run_inv Hr c3 s4 Hr3. unfold lift in Hr3. apply bind_Ret_inv in Hr3 as (c3' & Hr3 & [= -> ->]).
  run_inv Hr b2 s5 Hb2. apply any_preloaded_spec in Hb2 as [Hl3 Hb2].
  run_inv Hr c4 s6 Hr4. unfold lift in Hr4. apply bind_Ret_inv in Hr4 as (c4' & Hr4 & [= -> ->]). injection Hr as <- <-.
  split; [by etrans; [|etrans]|]. intros Hs c' [= <-] name args Hn.
  rewrite optimize_allows, (sc_allow_all_spec _ _ _ _ _ Hr4 Hn), (sc_allow_all_spec _ _ _ _ _ Hr3 Hn), (sc_allow_all_spec _ _ _ _ _ Hr2 Hn).
  assert (seccomp_allows (add_archs c1) (seccomp_syscall_resolve_name name) args = false) as ->.
  { unfold add_archs. destruct seccomp_arch_native; rewrite ?arch_allows; by apply init_allows. }
  destruct (Hl1 Hs) as [Hs1 _]. destruct (Hl2 Hs1) as [Hs2 _]. rewrite Hb1, Hb2 by done.
  unfold filter_rules, rules_with. by rewrite !existsb_app, orb_assoc.
Qed.

Lemma sandbox_init_spec :
  yields sandbox_init (λ s sandbox s', looked s s' ∧
    (cache_ok s → ∀ (p : bool) c, (if p then permissive_ctx sandbox else ctx sandbox) = Some c → filters p c)).
Proof.
  intros s sb s' Hr. unfold sandbox_init in Hr. run_inv Hr c1 s1 Hr1. run_inv Hr c2 s2 Hr2. injection Hr as <- <-.
  apply make_seccomp_filter_spec in Hr1 as [Hl1 Hr1], Hr2 as [Hl2 Hr2]. split; [by etrans|].
  intros Hs [] c Hc; cbn in Hc; [|by apply Hr1]. apply Hr2; [by apply Hl1|done].
Qed.

(** Loading leaves a process with the filter it had, with that of the
    sandbox, or says why it has none. *)
Lemma sandbox_load_spec sandbox (p : bool) s s' :
  _sandbox_load sandbox p s = Ret (tt, s') → cache_ok s →
  cache_ok s' ∧ (seccomp_filter_unavailable s = true → seccomp_filter_unavailable s' = true) ∧
  match sb_loaded s with
  | Some c => sb_loaded s' = Some c
  | None => sb_loaded s' = (if p then permissive_ctx sandbox else ctx sandbox) ∨
      sb_loaded s' = None ∧ (seccomp_filter_unavailable s' = true ∨ seccomp_wanted = false)
  end.
Proof.
  intros Hr Hs. unfold _sandbox_load in Hr. run_inv Hr ok s1 Hok. apply can_load_spec in Hok as [Hl Hok].
  rewrite (Hok Hs) in Hr. clear Hok ok. destruct (Hl Hs) as (Hs1 & Hld & Hun).
  destruct (seccomp_filter_unavailable s) eqn:Eu; cbn [negb andb] in Hr.
  { injection Hr as <-. split_and!; [done|by rewrite Hun|]. rewrite Hld. destruct (sb_loaded s); [done|]. right. rewrite Hun. auto. }
  destruct (sb_loaded s) as [c0|]; [rewrite bool_decide_false in Hr by done; by injection Hr as <-|].
  rewrite bool_decide_true in Hr by done. cbn [andb] in Hr.
  destruct seccomp_wanted; cbn [negb] in Hr; [|injection Hr as <-; split_and!; [done..|rewrite Hld; auto]].
  destruct (if p then permissive_ctx sandbox else ctx sandbox) as [c|] eqn:Ec; [|injection Hr as <-; split_and!; [done..|rewrite Hld; auto]].
  destruct (seccomp_load c); [injection Hr as <-|injection Hr as <-|done]; (split_and!; [done|done|]); [by left|right; rewrite <-Hld; cbn; auto].
Qed.

(** *** The properties *)

Lemma allowed_rules p c name args :
  filters p c → seccomp_syscall_resolve_name name ≠ SCMP_ERROR →
  seccomp_allows c (seccomp_syscall_resolve_name name) args = true →
  existsb (forallb (cmp_holds args)) (rules_of name (filter_rules p)) = true.
Proof. intros Hf Hn. by rewrite Hf, matches_of. Qed.

Lemma sandbox_filter sandbox s s1 s2 (p : bool) c :
  cache_ok s → sb_loaded s = None → sandbox_init s = Ret (sandbox, s1) → _sandbox_load sandbox p s1 = Ret (tt, s2) →
  sb_loaded s2 = Some c → filters p c.
Proof.
  intros Hs Hld Hi Hl Hc. apply sandbox_init_spec in Hi as [Hlk Hi]. destruct (Hlk Hs) as (Hs1 & Hld1 & _).
  apply sandbox_load_spec in Hl as (_ & _ & Hl); [|done]. rewrite Hld1, Hld in Hl. destruct Hl as [Hl|[Hl _]]; [|congruence].
  eapply Hi; [done|congruence].
Qed.

(** Several loads, one after the other. *)
Fixpoint sandbox_loads (sandbox : man_sandbox scmp_filter_ctx) (ps : list bool) : stateM state unit :=
  match ps with
  | [] => mret tt
  | p :: ps => _ ← _sandbox_load sandbox p; sandbox_loads sandbox ps
  end.

Lemma sandbox_loads_spec sandbox ps s s' :
  sandbox_loads sandbox ps s = Ret (tt, s') → cache_ok s →
  (seccomp_filter_unavailable s = true → seccomp_filter_unavailable s' = true) ∧
  match sb_loaded s with
  | Some c => sb_loaded s' = Some c
  | None => ∀ c, sb_loaded s' = Some c → permissive_ctx sandbox = Some c ∨ ctx sandbox = Some c
  end.
Proof.
  revert s. induction ps as [|p ps IH]; intros s Hr Hs; cbn [sandbox_loads] in Hr.
  { injection Hr as <-. split; [done|]. by destruct (sb_loaded s). }
  run_inv Hr u s1 Hp. destruct u. apply sandbox_load_spec in Hp as (Hs1 & Hu1 & Hp); [|done]. apply IH in Hr as [Hu Hr]; [|done].
  split; [auto|]. destruct (sb_loaded s) as [c|]; [by rewrite Hp in Hr|]. intros c Hc.
  destruct Hp as [Hp|[Hp _]]; rewrite Hp in Hr; [|by apply Hr].
  destruct p; [destruct (permissive_ctx sandbox)|destruct (ctx sandbox)]; try (by apply Hr); rewrite Hr in Hc; simplify_eq; auto.
Qed.

(** C15: a process that entered the sandbox gains no privileges, uses sockets
    only when a library that needs them is preloaded, and then only those of
    this machine.  The strict filter lets it open files exactly when the access
    mode is that of reading, and refuses every call that makes, removes,
    renames or links files by their names or changes their modes and times;
    it does not look at the other flags of open, and so a file can still be
    made or emptied by opening it, and what is open already can be written.
    Under the permissive filter no call gives a file a mode with a bit for
    execution, setuid or setgid, neither a new file nor an old one. *)
Theorem sandboxed_calls sandbox s s1 s2 (permissive : bool) c name args :
  cache_ok s → sb_loaded s = None → sandbox_init s = Ret (sandbox, s1) → _sandbox_load sandbox permissive s1 = Ret (tt, s2) →
  sb_loaded s2 = Some c → seccomp_syscall_resolve_name name ≠ SCMP_ERROR →
  seccomp_allows c (seccomp_syscall_resolve_name name) args = true →
  (name ∉ privileged_calls) ∧
  (name ∈ socket_calls → existsb preloaded socket_libs = true ∧ (name = "socket"%string → arg_of args 0 = AF_UNIX)) ∧
  (if permissive then ∀ mode, given_mode name args = Some mode → plain_mode mode
  else
    (name ∉ changing_calls) ∧
    (∀ args' flags, open_flags name args' = Some flags →
      seccomp_allows c (seccomp_syscall_resolve_name name) args' = true ↔ Z.land flags O_ACCMODE = O_RDONLY) ∧
    (name = "ioctl"%string → arg_of args 1 ∈ [TCGETS; TIOCGWINSZ])).
Proof.
  intros Hs Hld Hi Hl Hc Hn Ha. assert (filters permissive c) as Hf by by eapply sandbox_filter.
  eapply allowed_rules in Ha; [|done..]. unfold filter_rules in Ha.
  split; [intros Hp; by rewrite unnamed_calls in Ha|]. split; [by eapply allowed_sockets|].
  destruct permissive; [intros mode Hm; by eapply plain_mode_masked, allowed_modes|].
  pose proof (allowed_strict _ _ _ _ Ha) as (Hch & _ & Hio). split; [done|]. split; [|done]. intros args' flags Hfl. rewrite Hf by done.
  rewrite matches_of. by apply opens_strict.
Qed.

(** What the strict filter allows the permissive one allows too, except to
    open a file with a bit that makes a new one (or demands a directory). *)
Theorem permissive_extends_strict c c' name args :
  filters false c → filters true c' → seccomp_syscall_resolve_name name ≠ SCMP_ERROR →
  seccomp_allows c (seccomp_syscall_resolve_name name) args = true →
  seccomp_allows c' (seccomp_syscall_resolve_name name) args = true ∨
  ∃ flags, open_flags name args = Some flags ∧ Z.land flags create_mask ≠ 0%Z.
Proof.
  intros Hc Hc' Hn Ha. rewrite Hc in Ha by done. rewrite Hc' by done. unfold filter_rules in *. exact (strict_then_permissive _ _ _ _ Ha).
Qed.

(** A process keeps the first filter it enters, whatever is loaded
    afterwards; and entering a sandbox only fails to confine it when seccomp
    is not available or not wanted. *)
Theorem first_filter_stays sandbox (p : bool) ps s s' :
  cache_ok s → sb_loaded s = None → sandbox_loads sandbox (p :: ps) s = Ret (tt, s') →
  let chosen := if p then permissive_ctx sandbox else ctx sandbox in
  (is_Some chosen → sb_loaded s' = chosen ∨ seccomp_filter_unavailable s' = true ∨ seccomp_wanted = false) ∧
  ∀ c, sb_loaded s' = Some c → permissive_ctx sandbox = Some c ∨ ctx sandbox = Some c.
Proof.
  intros Hs Hld Hl. cbv zeta. cbn [sandbox_loads] in Hl. run_inv Hl u s1 Hp. destruct u.
  apply sandbox_load_spec in Hp as (Hs1 & Hu1 & Hp); [|done]. rewrite Hld in Hp. clear Hs Hld Hu1. apply sandbox_loads_spec in Hl as (Hu & Hl); [|done].
  destruct Hp as [Hp|[Hp Hwhy]]; rewrite Hp in Hl.
  - destruct p; [destruct (permissive_ctx sandbox)|destruct (ctx sandbox)]; (split; [intros [c' Hc']; try done; auto|]);
      intros c Hc; try (destruct (Hl c Hc); auto); rewrite Hl in Hc; simplify_eq; auto.
  - split; [|intros c Hc; by apply Hl]. intros _. destruct Hwhy as [Hw|Hw]; auto.
Qed.
End spec.

(** ** Evaluation *)

(** A filter as the list of its rules, newest first; every call has a number. *)
#[local] Instance rule_list : Seccomp := {|
  scmp_filter_ctx := list (Z * list arg_cmp);
  seccomp_init := Some [];
  seccomp_arch_native := SCMP_ARCH_X86_64;
  seccomp_arch_add c _ := c;
  seccomp_syscall_resolve_name n := Z.pos (encode n);
  seccomp_rule_add c nr cmps := Some ((nr, cmps) :: c);
  seccomp_optimize c := c;
  seccomp_load _ := LOADED;
  seccomp_allows c nr args := existsb (λ r, (nr =? r.1)%Z && forallb (cmp_holds args) r.2) c;
|}.
#[local] Instance rule_list_laws : SeccompLaws.
Proof.
  split; cbn; try done; try by intros ? ? ? [= <-].
  - intros c nr cmps c' nr' args [= <-]. cbn. apply orb_comm.
  - intros a b [= E] _. by apply (inj encode).
Qed.
Definition plain_env (status : Z) : SandboxEnv := {| se_getenv _ := None; se_preload := None; se_mmap_ok := true; se_status := status |}.
#[local] Instance plain : SandboxEnv := plain_env 0.

Definition sb_start : sandbox_state (list (Z * list arg_cmp)) := SandboxState false None None.
Definition demo_sandbox : man_sandbox (list (Z * list arg_cmp)) :=
  match sandbox_init sb_start with Ret (sb, _) => sb | _ => ManSandbox None None end.
Definition demo_filter (permissive : bool) : list (Z * list arg_cmp) :=
  default [] (if permissive then permissive_ctx demo_sandbox else ctx demo_sandbox).
Definition looked_up : sandbox_state (list (Z * list arg_cmp)) := SandboxState false (Some []) None.
Definition demo_allows (permissive : bool) (name : string) (args : list Z) : bool :=
  seccomp_allows (demo_filter permissive) (seccomp_syscall_resolve_name name) args.

Lemma demo_init : sandbox_init sb_start = Ret (demo_sandbox, looked_up).
Proof. by vm_compute. Qed.

Lemma sandboxed_calls_witness :
  ("open"%string ∉ privileged_calls) ∧
  ("open"%string ∈ socket_calls → existsb preloaded socket_libs = true ∧ ("open" = "socket" → arg_of [7; 0; 0]%Z 0 = AF_UNIX)%string) ∧
  ("open"%string ∉ changing_calls) ∧
  (∀ args' flags, open_flags "open" args' = Some flags →
    seccomp_allows (demo_filter false) (seccomp_syscall_resolve_name "open") args' = true ↔ Z.land flags O_ACCMODE = O_RDONLY) ∧
  ("open"%string = "ioctl"%string → arg_of [7; 0; 0]%Z 1 ∈ [TCGETS; TIOCGWINSZ]).
Proof.
  apply (@sandboxed_calls rule_list rule_list_laws plain demo_sandbox sb_start looked_up (SandboxState false (Some []) (Some (demo_filter false))) false (demo_filter false));
    [by intros ?|done|exact demo_init|by vm_compute|done|done|by vm_compute].
Defined.

Lemma first_filter_stays_witness :
  (is_Some (ctx demo_sandbox) →
    Some (demo_filter false) = ctx demo_sandbox ∨ false = true ∨ seccomp_wanted = false) ∧
  ∀ c, Some (demo_filter false) = Some c → permissive_ctx demo_sandbox = Some c ∨ ctx demo_sandbox = Some c.
Proof.
  apply (@first_filter_stays rule_list plain demo_sandbox false [true; false] looked_up (SandboxState false (Some []) (Some (demo_filter false))));
    [by intros ? [= <-]|done|by vm_compute].
Defined.

(** Reading is allowed, writing is not; but the strict filter looks at the
    access mode only, so that a new file, even an executable one, can be made,
    and Linux empties a file opened so with O_TRUNC. *)
Example strict_makes_files :
  demo_allows false "openat" [100; 7; O_RDONLY; 0]%Z = true ∧ demo_allows false "openat" [100; 7; 1; 0]%Z = false ∧
  demo_allows false "openat" [100; 7; O_CREAT; 493]%Z = true ∧ demo_allows true "openat" [100; 7; O_CREAT; 493]%Z = false ∧
  demo_allows true "openat" [100; 7; O_CREAT; 420]%Z = true ∧
  demo_allows false "open" [7; O_TRUNC; 0]%Z = true ∧ demo_allows false "write" [1; 7; 9]%Z = true.
Proof. by vm_compute. Qed.

(** O_TMPFILE contains O_DIRECTORY: the permissive filter refuses what opendir asks for. *)
Example permissive_refuses_directories :
  demo_allows false "openat" [100; 7; O_DIRECTORY]%Z = true ∧ demo_allows true "openat" [100; 7; O_DIRECTORY]%Z = false.
Proof. by vm_compute. Qed.

(** In a kernel without seccomp nothing is loaded. *)
Example no_seccomp :
  fst <$> @sandbox_init rule_list (plain_env (-1)) sb_start = Ret (ManSandbox None None).
Proof. by vm_compute. Qed.
