(* ===== verification/Fs.v ===== *)
(** * The file system as the sources see it

    System calls are an environment: a record of functions from paths to
    results.  The operations that change the file system are modelled where a
    component performs them; everything else only reads through this record. *)

From S2P Require Import Prelude CStr.

Record timespec := Timespec { tv_sec : Z; tv_nsec : Z }.
#[export] Instance timespec_eq_dec : EqDecision timespec.
Proof. solve_decision. Defined.

(** [timespec_cmp]: seconds first, then nanoseconds. *)
Definition timespec_cmp (a b : timespec) : comparison :=
  lex_cmp (Z.compare (tv_sec a) (tv_sec b)) (Z.compare (tv_nsec a) (tv_nsec b)).

#[export] Instance Zcompare_total : CmpTotal Z.compare.
Proof.
  split; [split|].
  - intros. apply Z.compare_antisym.
  - intros a b c. rewrite !Z.compare_ngt_iff. lia.
  - intros a b. apply Z.compare_eq.
Qed.

#[export] Instance timespec_cmp_total : CmpTotal timespec_cmp.
Proof.
  split.
  - exact (lex_cmp_weak (λ a b, Z.compare (tv_sec a) (tv_sec b))
      (λ a b, Z.compare (tv_nsec a) (tv_nsec b))
      (cmp_contramap Z.compare tv_sec) (cmp_contramap Z.compare tv_nsec)).
  - intros [s1 n1] [s2 n2]. unfold timespec_cmp. simpl.
    destruct (Z.compare s1 s2) eqn:E; simpl; try done.
    intros ?%Z.compare_eq. apply Z.compare_eq in E. by subst.
Qed.

(** [struct stat], the members the sources read. *)
Record stat := Stat {
  st_mode : Z;
  st_size : Z;
  st_nlink : Z;
  st_ino : Z;
  st_mtim : timespec;
}.

Definition S_IFMT : Z := 61440%Z.   (* 0170000 *)
Definition S_IFDIR : Z := 16384%Z.  (* 0040000 *)
Definition S_IFBLK : Z := 24576%Z.  (* 0060000 *)
Definition S_IFREG : Z := 32768%Z.  (* 0100000 *)
Definition S_IFLNK : Z := 40960%Z.  (* 0120000 *)
Definition S_IFSOCK : Z := 49152%Z. (* 0140000 *)

Definition S_ISDIR (m : Z) : bool := (Z.land m S_IFMT =? S_IFDIR)%Z.
Definition S_ISREG (m : Z) : bool := (Z.land m S_IFMT =? S_IFREG)%Z.
Definition S_ISLNK (m : Z) : bool := (Z.land m S_IFMT =? S_IFLNK)%Z.

Record dirent := Dirent { d_name : cstr; d_ino : Z }.

(** The read-only view of the file system; [None] is a failed call. *)
Class FileSystem := {
  fs_stat : cstr → option stat;
  fs_lstat : cstr → option stat;
  fs_readdir : cstr → option (list dirent);
  fs_access_R : cstr → bool;
  fs_access_F : cstr → bool;
  fs_canonicalize : cstr → option cstr;
  fs_glob : cstr → option (list cstr);
}.

(** gnulib's [base_name] and [dir_name], with what the sources rely on: they
    take a path with a directory part apart at its last slash. *)
Class Dirname := {
  base_name : cstr → cstr;
  dir_name : cstr → cstr;
}.
Class DirnameLaws `{Dirname} : Prop := {
  base_name_split d b :
    d ≠ [] → last d ≠ Some "/"%char → b ≠ [] → "/"%char ∉ b →
    base_name (d ++ "/"%char :: b) = b;
  dir_name_split d b :
    d ≠ [] → last d ≠ Some "/"%char → b ≠ [] → "/"%char ∉ b →
    dir_name (d ++ "/"%char :: b) = d;
}.

(** An instance that satisfies the laws, for evaluating examples. *)
#[export] Instance simple_dirname : Dirname | 100 := {|
  base_name s := match strrchr s "/"%char with Some i => drop (S i) s | None => s end;
  dir_name s := match strrchr s "/"%char with Some i => take i s | None => lit "." end;
|}.
#[export] Instance simple_dirname_laws : DirnameLaws.
Proof.
  split; intros d b _ _ _ Hb; simpl; rewrite strrchr_app_sep by done.
  - rewrite drop_app_ge by lia. by replace (S (length d) - length d) with 1 by lia.
  - by rewrite take_app_length.
Qed.
