(* ===== verification/Compression.v ===== *)
(** * lib/compression.c: recognising compressed files by their extension *)

From S2P Require Import Prelude CStr Fs.

(** The result of [./configure] that [comp_list] depends on: which
    decompressors exist and how they are called. *)
Record comp_config := CompConfig {
  HAVE_GZIP : bool; HAVE_COMPRESS : bool; HAVE_BZIP2 : bool; HAVE_XZ : bool;
  HAVE_LZMA : bool; HAVE_LZIP : bool; HAVE_ZSTD : bool;
  PROG_GUNZIP : cstr; PROG_UNCOMPRESS : cstr; PROG_BUNZIP2 : cstr;
  PROG_UNXZ : cstr; PROG_UNLZMA : cstr; PROG_UNLZIP : cstr; PROG_UNZSTD : cstr;
}.

Record compression := Compression {
  comp_prog : cstr;
  comp_ext : cstr;
  comp_stem : option cstr;
}.
#[export] Instance compression_eq_dec : EqDecision compression.
Proof. solve_decision. Defined.

Definition when {A} (b : bool) (l : list A) : list A := if b then l else [].

(** The static table [comp_list], without its sentinel. *)
Definition comp_list (cfg : comp_config) : list compression :=
  let e p x := Compression p (lit x) None in
  when (HAVE_GZIP cfg) [e (PROG_GUNZIP cfg) "gz"; e (PROG_GUNZIP cfg) "z"] ++
  (if HAVE_COMPRESS cfg then [e (PROG_UNCOMPRESS cfg) "Z"]
   else when (HAVE_GZIP cfg) [e (PROG_GUNZIP cfg) "Z"]) ++
  when (HAVE_BZIP2 cfg) [e (PROG_BUNZIP2 cfg) "bz2"] ++
  (if HAVE_XZ cfg then [e (PROG_UNXZ cfg) "xz"; e (PROG_UNXZ cfg) "lzma"]
   else when (HAVE_LZMA cfg) [e (PROG_UNLZMA cfg) "lzma"]) ++
  when (HAVE_LZIP cfg) [e (PROG_UNLZIP cfg) "lz"] ++
  when (HAVE_ZSTD cfg) [e (PROG_UNZSTD cfg) "zst"; e (PROG_UNZSTD cfg) "zstd"].

Fixpoint comp_find (l : list compression) (x : cstr) : option compression :=
  match l with
  | [] => None
  | c :: l' => if STREQ (comp_ext c) x then Some c else comp_find l' x
  end.

Definition with_stem (want_stem : bool) (stem : cstr) (c : compression) : compression :=
  Compression (comp_prog c) (comp_ext c) (if want_stem then Some stem else None).

Section compression.
Context (cfg : comp_config).

(** [comp_info]: the table entry for the text after the last dot; failing
    that, HP-UX's [.Z] directories. *)
Definition comp_info (filename : cstr) (want_stem : bool) : option compression :=
  let in_table :=
    match strrchr filename "."%char with
    | Some e =>
      with_stem want_stem (take e filename) <$>
        comp_find (comp_list cfg) (drop (S e) filename)
    | None => None
    end in
  match in_table with
  | Some c => Some c
  | None =>
    if bool_decide (PROG_GUNZIP cfg ≠ []) then
      match strstr filename (lit ".Z/") with
      | Some e =>
        Some (with_stem want_stem (take e filename)
                (Compression (PROG_GUNZIP cfg ++ [" "; "-"; "S"; " "; "034"; "034"]%char) [] None))
      | None => None
      end
    else None
  end.

(** [comp_file]: the first compressed variant of [filename] that exists. *)
Fixpoint comp_file_loop `{FileSystem} (l : list compression) (filename : cstr)
    : option compression :=
  match l with
  | [] => None
  | c :: l' =>
    let compfile := filename ++ lit "." ++ comp_ext c in
    if bool_decide (is_Some (fs_stat compfile))
    then Some (Compression (comp_prog c) (comp_ext c) (Some compfile))
    else comp_file_loop l' filename
  end.
Definition comp_file `{FileSystem} (filename : cstr) : option compression :=
  comp_file_loop (comp_list cfg) filename.
End compression.

Lemma comp_find_Some l x c : comp_find l x = Some c → c ∈ l ∧ comp_ext c = x.
Proof.
  induction l as [|c' l IH]; simpl; [done|].
  destruct (STREQ (comp_ext c') x) eqn:E.
  - intros [= ->]. apply STREQ_true in E. split; [by left|done].
  - intros [??]%IH. split; [by right|done].
Qed.

(** The extensions of the table, whatever the configuration. *)
Definition known_exts : list cstr :=
  lit <$> ["gz"; "z"; "Z"; "bz2"; "xz"; "lzma"; "lz"; "zst"; "zstd"]%string.

Lemma comp_list_known cfg c : c ∈ comp_list cfg → comp_ext c ∈ known_exts.
Proof.
  unfold comp_list, when. rewrite !elem_of_app.
  assert (∀ l, Forall (λ c, comp_ext c ∈ known_exts) l → c ∈ l → comp_ext c ∈ known_exts) as Hl.
  { intros l Hl Hc. rewrite Forall_forall in Hl. by apply Hl. }
  intros [Hc|[Hc|[Hc|[Hc|[Hc|Hc]]]]]; revert Hc; apply Hl; repeat case_match;
    repeat constructor; unfold known_exts; compute_done.
Qed.

(** No extension of the table is empty, contains a dot or a slash, or starts
    with a dash, which marks an unset field in the database. *)
Lemma comp_list_ext cfg c :
  c ∈ comp_list cfg → comp_ext c ≠ [] ∧ ("."%char ∉ comp_ext c) ∧ ("/"%char ∉ comp_ext c).
Proof.
  intros Hc%comp_list_known.
  assert (Forall (λ e, e ≠ [] ∧ ("."%char ∉ e) ∧ ("/"%char ∉ e)) known_exts) as Hall by compute_done.
  rewrite Forall_forall in Hall. by apply Hall.
Qed.
Lemma comp_list_head cfg c : c ∈ comp_list cfg → head (comp_ext c) ≠ Some "-"%char.
Proof.
  intros Hc%comp_list_known.
  assert (Forall (λ e, head e ≠ Some "-"%char) known_exts) as Hall by compute_done.
  rewrite Forall_forall in Hall. by apply Hall.
Qed.

(** A file compressed with a known method: the stem is what is left when the
    dot and the extension are removed. *)
Lemma comp_info_stem cfg stem c :
  comp_find (comp_list cfg) (comp_ext c) = Some c → "."%char ∉ comp_ext c →
  comp_info cfg (stem ++ "."%char :: comp_ext c) true =
    Some (Compression (comp_prog c) (comp_ext c) (Some stem)).
Proof.
  intros Hf Hdot. unfold comp_info.
  rewrite strrchr_app_sep by done.
  rewrite drop_app_ge by lia.
  replace (S (length stem) - length stem) with 1 by lia. simpl. rewrite drop_0, Hf. simpl.
  unfold with_stem. by rewrite take_app_length.
Qed.
