(* ===== verification/Filenames.v ===== *)
(** * lib/filenames.c and lib/filenames.h: page files and their names *)

From S2P Require Import Prelude CStr Fs Compression.

(** [struct mandata].  [None] is a null pointer. *)
Record mandata := Mandata {
  md_name : option cstr;      (* name of page, if not equal to the key *)
  md_ext : cstr;              (* extension without compression extension *)
  md_sec : cstr;              (* section name/number *)
  md_id : ascii;              (* type of this entry *)
  md_pointer : option cstr;   (* id-related file pointer *)
  md_comp : option cstr;      (* compression extension *)
  md_filter : option cstr;    (* filters needed for the page *)
  md_whatis : option cstr;    (* whatis description *)
  md_mtime : timespec;        (* modification time of the file *)
}.
#[export] Instance mandata_eq_dec : EqDecision mandata.
Proof. solve_decision. Defined.

Definition set_name (n : option cstr) (i : mandata) : mandata :=
  Mandata n (md_ext i) (md_sec i) (md_id i) (md_pointer i) (md_comp i)
    (md_filter i) (md_whatis i) (md_mtime i).

Section filenames.
Context (cfg : comp_config) `{FileSystem} `{Dirname}.

(** [make_filename]: the path of the page [name] described by [info], or
    [None] when it cannot be read.  With [name] null, [info]'s own name is
    used, which must then be set. *)
Definition make_filename (path : cstr) (name : option cstr) (info : mandata) (type : cstr)
    : outcome (option cstr) :=
  n ← match name with
      | Some n => Ret n
      | None => or_undef "make_filename: name is null" (md_name info)
      end;
  let file := path ++ lit "/" ++ type ++ md_sec info ++ lit "/" ++ n ++ lit "." ++ md_ext info in
  let file :=
    match md_comp info with
    | Some c => if bool_decide (head c = Some "-"%char) then file else file ++ lit "." ++ c
    | None => file
    end in
  Ret (if fs_access_R file then Some file else None).

(** [filename_info]: take a page's path apart.  [Ret None] is the null
    result for a bogus file name.  The section is what follows [/man] or
    [/cat] in the last directory; a directory too short for that is read
    past its end. *)
Definition filename_info (file : cstr) : outcome (option mandata) :=
  let basename := base_name file in
  let comp := comp_info cfg basename true in
  let basename :=
    match comp with
    | Some c => take (length (default [] (comp_stem c))) basename
    | None => basename
    end in
  match strrchr basename "."%char with
  | None => Ret None
  | Some i =>
    let ext := drop (S i) basename in
    let basename := take i basename in
    if bool_decide (ext = []) then Ret None
    else
      let dirname := dir_name file in
      j ← or_undef "filename_info: no slash in directory" (strrchr dirname "/"%char);
      if decide (length dirname < j + 4)
      then Undef "filename_info: read past the end of the directory"
      else
        let sec := drop (j + 4) dirname in
        if bool_decide (1 ≤ length sec) && bool_decide (1 ≤ length ext)
           && negb (bool_decide (head sec = head ext))
        then Ret None
        else
          Ret (Some (Mandata (Some basename) ext sec NUL None (comp_ext <$> comp)
                       None None (Timespec 0 0)))
  end.
End filenames.

(** The path of a page source file in hierarchy [path]. *)
Definition page_path (path type sec name ext : cstr) (comp : option cstr) : cstr :=
  path ++ "/"%char :: (type ++ sec) ++ "/"%char ::
    name ++ "."%char :: ext ++ match comp with Some c => "."%char :: c | None => [] end.

Section theorems.
Context (cfg : comp_config) `{FileSystem} `{Dirname} `{!DirnameLaws}.
Context (path sec name ext : cstr).
Hypotheses (Hpath : path ≠ []) (Hsec : sec ≠ []) (Hsec' : "/"%char ∉ sec)
  (Hname : "/"%char ∉ name) (Hext : "."%char ∉ ext) (Hext' : "/"%char ∉ ext)
  (Hmatch : head sec = head ext).

Lemma page_path_split type comp :
  length type = 3 → "/"%char ∉ type → "/"%char ∉ default [] comp →
  let base := name ++ "."%char :: ext ++ match comp with Some c => "."%char :: c | None => [] end in
  let dir := path ++ "/"%char :: (type ++ sec) in
  base_name (page_path path type sec name ext comp) = base ∧
  dir_name (page_path path type sec name ext comp) = dir.
Proof.
  intros Htype Htype' Hcomp base dir.
  assert (page_path path type sec name ext comp = dir ++ "/"%char :: base) as ->.
  { unfold page_path, dir, base. by app_norm. }
  assert ("/"%char ∉ base).
  { unfold base. destruct comp; simpl in Hcomp; not_in. }
  assert (base ≠ []) by (unfold base; by destruct name).
  assert (last dir ≠ Some "/"%char).
  { unfold dir. change (path ++ "/"%char :: (type ++ sec))
      with (path ++ ["/"%char] ++ (type ++ sec)).
    rewrite !app_assoc, last_app. destruct (last sec) as [c|] eqn:E.
    - intros [= ->]. apply Hsec'. by apply last_Some_elem_of.
    - by apply last_None in E. }
  assert (dir ≠ []) by (unfold dir; by destruct path).
  split; [by apply base_name_split|by apply dir_name_split].
Qed.

(** What [filename_info] finds in a well-formed path. *)
Lemma filename_info_page type comp :
  length type = 3 → "/"%char ∉ type →
  match comp with
  | None => comp_find (comp_list cfg) ext = None
  | Some c => ∃ p, comp_find (comp_list cfg) c = Some p
  end →
  filename_info cfg (page_path path type sec name ext comp) =
    Ret (Some (Mandata (Some name) ext sec NUL None comp None None (Timespec 0 0))).
Proof.
  intros Htype Htype' Hcomp.
  assert ("/"%char ∉ default [] comp) as Hslash.
  { destruct comp as [c|]; [|set_solver]. destruct Hcomp as [p Hp].
    apply comp_find_Some in Hp as [Hp <-]. by apply comp_list_ext in Hp as (_ & _ & ?). }
  destruct (page_path_split type comp Htype Htype' Hslash) as [Hb Hd].
  unfold filename_info. rewrite Hb, Hd. clear Hb Hd.
  assert (ext ≠ []) as Hne by (intros ->; by destruct sec).
  set (stem := name ++ "."%char :: ext).
  assert (∃ q, comp_info cfg (name ++ "."%char :: ext ++
      match comp with Some c => "."%char :: c | None => [] end) true = q ∧
    comp_ext <$> q = comp ∧
    match q with Some c => take (length (default [] (comp_stem c))) (name ++ "."%char :: ext ++
      match comp with Some c => "."%char :: c | None => [] end)
    | None => name ++ "."%char :: ext ++
      match comp with Some c => "."%char :: c | None => [] end end = stem) as (q & -> & Hq & ->).
  { destruct comp as [c|].
    - destruct Hcomp as [p Hp]. pose proof (comp_find_Some _ _ _ Hp) as [Hin <-].
      eexists. split; [|split].
      + rewrite (app_comm_cons ext), app_assoc. fold stem.
        apply comp_info_stem; [done|]. by apply comp_list_ext in Hin as (_ & ? & _).
      + done.
      + simpl. rewrite (app_comm_cons ext), app_assoc. fold stem. by rewrite take_app_length.
    - rewrite app_nil_r. fold stem. exists None. split; [|done].
      unfold comp_info, stem. rewrite strrchr_app_sep by done.
      rewrite drop_app_ge by lia. replace (S (length name) - length name) with 1 by lia.
      simpl. rewrite drop_0, Hcomp. simpl. case_bool_decide; [|done].
      destruct (strstr _ _) as [n|] eqn:E; [|done].
      apply strstr_prefix in E as [k Hk]. exfalso.
      assert ("/"%char ∈ drop n (name ++ "."%char :: ext)) as Hin by (rewrite Hk; vm_compute; set_solver).
      assert ("/"%char ∈ name ++ "."%char :: ext) by (by eapply (subseteq_drop n)). set_solver. }
  unfold stem at 1. rewrite strrchr_app_sep by done.
  unfold stem. rewrite drop_app_ge by lia.
  replace (S (length name) - length name) with 1 by lia.
  rewrite take_app_length. simpl. rewrite drop_0, bool_decide_eq_false_2 by done.
  rewrite strrchr_app_sep by set_solver. simpl.
  rewrite decide_False by (rewrite length_app; simpl; rewrite length_app; lia).
  replace (drop (length path + 4) (path ++ "/"%char :: type ++ sec)) with sec.
  2: { rewrite drop_app_ge by lia. replace (length path + 4 - length path) with (S 3) by lia.
       simpl. rewrite drop_app_ge by lia. rewrite Htype. by rewrite Nat.sub_diag. }
  rewrite Hmatch, (bool_decide_eq_true_2 (head ext = head ext)), andb_false_r by done.
  by rewrite Hq.
Qed.

(** Taking a page's path apart with [filename_info] and rebuilding it
    with [make_filename] gives the path back, compressed or not, whatever
    dots the page's name contains. *)
Theorem filename_info_roundtrip type comp :
  length type = 3 → "/"%char ∉ type →
  match comp with
  | None => comp_find (comp_list cfg) ext = None
  | Some c => ∃ p, comp_find (comp_list cfg) c = Some p
  end →
  fs_access_R (page_path path type sec name ext comp) = true →
  ∃ i, filename_info cfg (page_path path type sec name ext comp) = Ret (Some i) ∧
    md_ext i = ext ∧ md_sec i = sec ∧ md_comp i = comp ∧
    make_filename path None i type = Ret (Some (page_path path type sec name ext comp)).
Proof.
  intros Htype Htype' Hcomp Hread. eexists. split; [by apply filename_info_page|].
  simpl. repeat split. unfold make_filename. simpl.
  match goal with |- Ret (if fs_access_R ?f then _ else _) = _ =>
    enough (f = page_path path type sec name ext comp) as -> by by rewrite Hread end.
  unfold page_path. destruct comp as [c|]; [|by app_norm].
  destruct Hcomp as [p [Hp <-]%comp_find_Some].
  rewrite bool_decide_eq_false_2 by by apply (comp_list_head cfg).
  by app_norm.
Qed.
End theorems.

(** ** Evaluation *)

(** The configuration the examples use: every decompressor available. *)
Definition all_comp : comp_config :=
  CompConfig true true true true true true true (lit "gzip -dc") (lit "uncompress -c")
    (lit "bzip2 -dc") (lit "xz -dc") (lit "lzma -dc") (lit "lzip -dc") (lit "zstd -dc").

(** A file system where every path names a readable empty regular file. *)
Definition full_fs : FileSystem := {|
  fs_stat _ := Some (Stat S_IFREG 0 1 1 (Timespec 0 0));
  fs_lstat _ := Some (Stat S_IFREG 0 1 1 (Timespec 0 0));
  fs_readdir _ := None;
  fs_access_R _ := true;
  fs_access_F _ := true;
  fs_canonicalize p := Some p;
  fs_glob _ := None;
|}.

Lemma filename_info_roundtrip_witness :
  ∃ i, @filename_info all_comp simple_dirname
         (page_path (lit "/usr/man") (lit "man") (lit "1") (lit "a.b") (lit "1x") (Some (lit "gz")))
       = Ret (Some i) ∧ md_ext i = lit "1x" ∧ md_sec i = lit "1" ∧ md_comp i = Some (lit "gz") ∧
    @make_filename full_fs (lit "/usr/man") None i (lit "man") =
      Ret (Some (page_path (lit "/usr/man") (lit "man") (lit "1") (lit "a.b") (lit "1x") (Some (lit "gz")))).
Proof.
  apply (@filename_info_roundtrip all_comp full_fs simple_dirname _).
  all: try (vm_compute; by not_in).
Defined.
