(* ===== verification/Util.v ===== *)
(** * lib/util.c, lib/appendstr.c, lib/linelength.c, lib/pathsearch.c: helpers

    File tests, shell quoting, directory removal, trimming, the language of a
    page's path, the width of the output line and searches along [$PATH]. *)

From S2P Require Import Prelude CStr Fs.

(** ** Definitions *)

(** [appendstr (str, ..., nullptr)]: [str] may be null. *)
Definition appendstr (str : option cstr) (args : list cstr) : cstr :=
  fold_left app args (default [] str).

Section files.
Context `{FileSystem}.

(** [is_changed]: a set of bits, or minus the set of failed [stat]s. *)
Definition is_changed (fa fb : cstr) : Z :=
  let fa_sb := fs_stat fa in
  let fb_sb := fs_stat fb in
  let status := (if fa_sb is Some _ then 0 else 1)%Z in
  let status := (if fb_sb is Some _ then status else Z.lor status 2)%Z in
  match fa_sb, fb_sb with
  | Some a, Some b =>
    let status := (if decide (st_size a = 0) then Z.lor status 2 else status)%Z in
    let status := (if decide (st_size b = 0) then Z.lor status 4 else status)%Z in
    Z.lor status (match timespec_cmp (st_mtim a) (st_mtim b) with Eq => 0 | _ => 1 end)%Z
  | _, _ => (- status)%Z
  end.

(** [is_directory]: -1 when [stat] fails, else whether the mode has the bit
    of [S_IFDIR]. *)
Definition is_directory (path : cstr) : Z :=
  match fs_stat path with
  | None => -1
  | Some sb => if decide (Z.land (st_mode sb) S_IFDIR = 0)%Z then 0 else 1
  end.
End files.

Definition shell_safe (c : ascii) : bool :=
  isdigit c || isupper c || islower c || one_of (lit ",-./:@_") c.

Definition escape_shell (unesc : option cstr) : option cstr :=
  (λ s, concat ((λ c, if shell_safe c then [c] else ["\"; c]%char) <$> s)) <$> unesc.

Definition trim_spaces (s : cstr) : cstr :=
  let s := drop (strspn (λ c, bool_decide (c = " "%char)) s) s in
  take (length s - strspn (λ c, bool_decide (c = " "%char)) (reverse s)) s.

(** [lang_dir]: [fm] and [sm] are indices into the file name. *)
Definition lang_dir (filename : option cstr) : outcome cstr :=
  match filename with
  | None => Ret []
  | Some f =>
    let fm := if STRNEQ f (lit "man/") 4 then Some 0
              else S <$> strstr f (lit "/man/") in
    match fm with
    | None => Ret []
    | Some fm =>
      match strstr (drop (fm + 2) f) (lit "/man") with
      | None => Ret []
      | Some d =>
        let sm := fm + 2 + d in
        c5 ← or_undef "lang_dir: sm[5]" (cget f (sm + 5));
        if negb (bool_decide (c5 = "/"%char)) then Ret []
        else
          c4 ← or_undef "lang_dir: sm[4]" (cget f (sm + 4));
          match strchr (lit "123456789lno") c4 with
          | None => Ret []
          | Some _ =>
            if bool_decide (sm = fm + 3) then Ret (lit "C")
            else
              let fm := fm + 4 in
              match strchr (drop fm f) "/"%char with
              | None => Ret []
              | Some n => Ret (take n (drop fm f))
              end
          end
      end
    end
  end.

(** ** The start of every program

    [init_locale] of lib/util.c and [init_debug] of lib/debug.c.  The
    environment is a function from names to values. *)

Definition setenv {A} (name : string) (value : A) (getenv : string → option A) (n : string) : option A :=
  if decide (n = name) then Some value else getenv n.

(** Whether the warning about the locale is given, and the environment left.
    [setlocale_ok]: the C library knows the locale of the environment. *)
Definition init_locale (setlocale_ok : bool) (getenv : string → option cstr) : bool * (string → option cstr) :=
  (negb setlocale_ok && bool_decide (getenv "MAN_NO_LOCALE_WARNING"%string = None)
   && bool_decide (getenv "DPKG_RUNNING_VERSION"%string = None),
   setenv "MAN_NO_LOCALE_WARNING" (lit "1") getenv).

(** The new [debug_level]. *)
Definition init_debug (getenv : string → option cstr) (debug_level : bool) : bool :=
  match getenv "MAN_DEBUG"%string with
  | Some man_debug => if STREQ man_debug (lit "1") then true else debug_level
  | None => debug_level
  end.

(** ** Removing a directory

    A directory as [readdir] lists it, without [.] and [..]: regular files,
    other files, entries on which [stat] fails, and directories. *)
#[warnings="-register-all"]
Inductive node :=
| Reg
| Other
| Broken
| Dir (entries : list (cstr * node)).

Section remove.
Context (unlink_ok : cstr → bool) (recurse : bool).

(** The loop over the entries, [rm] removing a directory.  The result is 0
    with nothing left, or -1 with what is left.  [rmdir] removes an empty
    directory only. *)
Section loop.
Context (rm : node → Z * option (list (cstr * node))).
Fixpoint remove_loop (es kept : list (cstr * node)) : Z * option (list (cstr * node)) :=
  match es with
  | [] => match kept with [] => (0%Z, None) | _ => ((-1)%Z, Some kept) end
  | (name, nd) :: es' =>
    match nd with
    | Broken => ((-1)%Z, Some (kept ++ es))
    | Other => remove_loop es' (kept ++ [(name, nd)])
    | Reg => if unlink_ok name then remove_loop es' kept else ((-1)%Z, Some (kept ++ es))
    | Dir _ =>
      if recurse then
        match rm nd with
        | (_, None) => remove_loop es' kept
        | (_, Some sub') => ((-1)%Z, Some (kept ++ (name, Dir sub') :: es'))
        end
      else remove_loop es' (kept ++ [(name, nd)])
    end
  end.
End loop.

Fixpoint remove_node (n : node) : Z * option (list (cstr * node)) :=
  match n with
  | Dir entries => remove_loop remove_node entries []
  | _ => ((-1)%Z, None)
  end.
Definition remove_directory (entries : list (cstr * node)) := remove_node (Dir entries).
End remove.

(** ** The width of the line *)

(** [atoi] is [strtol] cut to an [int]; out of range is undefined. *)
Definition atoi (s : cstr) : outcome Z :=
  v ← atol s;
  if decide (- 2 ^ 31 <= v < 2 ^ 31)%Z then Ret v else Undef "atoi: value out of range".

Definition env_width (columns : option cstr) : outcome (option Z) :=
  match columns with
  | None => Ret None
  | Some s => width ← atoi s; Ret (if decide (0 < width)%Z then Some width else None)
  end.

(** [get_line_length]: [line_length] is the static variable, [ws_col] the
    columns of the terminal when there is one and [ioctl] succeeds.  The
    result is the new value of the variable, which is also returned. *)
Definition get_line_length (MANWIDTH COLUMNS : option cstr) (ws_col : option Z) (line_length : Z)
    : outcome Z :=
  if negb (bool_decide (line_length = (-1)%Z)) then Ret line_length
  else
    w ← env_width MANWIDTH;
    match w with
    | Some width => Ret width
    | None =>
      w ← env_width COLUMNS;
      match w with
      | Some width => Ret width
      | None =>
        match ws_col with
        | Some c => Ret (if decide (c = 0)%Z then 80%Z else c)
        | None => Ret 80%Z
        end
      end
    end.

(** ** Searching the path *)

Section path.
Context `{FileSystem} (PATH cwd : option cstr).

Definition executable (bits : Z) (file : cstr) : bool :=
  match fs_stat file with
  | Some st => S_ISREG (st_mode st) && negb (bool_decide (Z.land (st_mode st) bits = 0%Z))
  | None => false
  end.

(** The loop over the elements; an empty element is the current directory. *)
Fixpoint path_loop (found : cstr → bool) (elements : list cstr) : outcome bool :=
  match elements with
  | [] => Ret false
  | e :: elements =>
    dir ← (if bool_decide (e = []) then
             match cwd with Some c => Ret c | None => Fatal "can't determine current directory" end
           else Ret e);
    if found dir then Ret true else path_loop found elements
  end.

Definition pathsearch (name : cstr) (bits : Z) : outcome bool :=
  match PATH with
  | None => Ret false
  | Some path =>
    if bool_decide (is_Some (strchr name "/"%char)) then Ret (executable bits name)
    else path_loop (λ dir, executable bits (dir ++ lit "/" ++ name)) (split_on ":"%char path)
  end.
Definition pathsearch_executable (name : cstr) : outcome bool := pathsearch name 73%Z. (* 0111 *)

Definition directory_on_path (dir : cstr) : outcome bool :=
  match PATH with
  | None => Ret false
  | Some path => path_loop (λ element, STREQ element dir) (split_on ":"%char path)
  end.
End path.

(** ** Quoting for the shell *)

(** How a POSIX shell reads one word of unquoted text: a backslash quotes the
    next character, backslash and newline together vanish, and a character
    that may have a meaning to the shell must be quoted. *)
Fixpoint sh_word (s : cstr) : option cstr :=
  match s with
  | [] => Some []
  | c :: s' =>
    if bool_decide (c = "\"%char) then
      match s' with
      | [] => None
      | d :: s'' => if bool_decide (d = NL) then sh_word s'' else cons d <$> sh_word s''
      end
    else if shell_safe c then cons c <$> sh_word s' else None
  end.

(** The shell reads the output of [escape_shell] as one word, with nothing
    left to interpret: the original string without its newlines.  The buffer
    of twice the length is enough. *)
Theorem escape_shell_word s :
  ∃ e, escape_shell (Some s) = Some e ∧ length e ≤ 2 * length s ∧
    sh_word e = Some (filter (λ c, c ≠ NL) s).
Proof.
  eexists. split; [done|]. induction s as [|c s [IHl IHs]]; [done|].
  cbn [fmap list_fmap concat]. destruct (shell_safe c) eqn:E.
  - assert (c ≠ NL ∧ c ≠ "\"%char) as [Hnl Hbs] by (split; intros ->; by vm_compute in E).
    split; [rewrite length_app; cbn [length] in *; lia|].
    cbn [app sh_word]. rewrite bool_decide_eq_false_2, E, IHs by done.
    by rewrite filter_cons, decide_True.
  - split; [rewrite length_app; cbn [length] in *; lia|]. cbn [app sh_word]. rewrite bool_decide_eq_true_2 by done. rewrite IHs.
    rewrite filter_cons. case_bool_decide as Hc.
    + by rewrite decide_False by by intros [].
    + by rewrite decide_True.
Qed.

(** ** Trimming *)

Lemma trim_spaces_parts s :
  ∃ a b, s = a ++ trim_spaces s ++ b ∧
    Forall (λ c, c = " "%char) a ∧ Forall (λ c, c = " "%char) b ∧
    head (trim_spaces s) ≠ Some " "%char ∧ last (trim_spaces s) ≠ Some " "%char.
Proof.
  unfold trim_spaces. cbv zeta. set (p := λ c, bool_decide (c = " "%char)).
  assert (∀ l, Forall (λ c, p c = true) l → Forall (λ c, c = " "%char) l) as Hsp.
  { intros l Hl. eapply Forall_impl; [done|]. intros c Hc. by apply bool_decide_eq_true in Hc. }
  set (t := drop (strspn p s) s). set (n := strspn p (reverse t)).
  assert (n ≤ length t) as Hn by (rewrite <-length_reverse; apply strspn_le).
  exists (take (strspn p s) s), (drop (length t - n) t).
  assert (Forall (λ c, p c = true) (drop (length t - n) t)) as Hb.
  { rewrite <-Forall_reverse, <-take_reverse. apply strspn_take. }
  split; [by rewrite take_drop; unfold t; rewrite take_drop|].
  split; [apply Hsp, strspn_take|]. split; [by apply Hsp|]. split.
  - pose proof (strspn_drop_head p s) as Hh. fold t in Hh. destruct t as [|c t']; [by rewrite take_nil|].
    destruct (length (c :: t') - n); simpl; [done|]. intros [= ->]. by vm_compute in Hh.
  - pose proof (strspn_drop_head p (reverse t)) as Hh. fold n in Hh.
    rewrite drop_reverse in Hh.
    destruct (take (length t - n) t) as [|c l] eqn:E using rev_ind; [done|].
    rewrite reverse_snoc in Hh. rewrite last_snoc. intros [= ->]. by vm_compute in Hh.
Qed.

Lemma trim_spaces_id s : head s ≠ Some " "%char → last s ≠ Some " "%char → trim_spaces s = s.
Proof.
  intros Hh Hl. unfold trim_spaces.
  assert (strspn (λ c, bool_decide (c = " "%char)) s = 0) as ->.
  { destruct s as [|c s]; simpl; [done|]. rewrite bool_decide_eq_false_2; [done|]. by intros ->. }
  rewrite drop_0.
  assert (strspn (λ c, bool_decide (c = " "%char)) (reverse s) = 0) as ->.
  { destruct (reverse s) as [|c l] eqn:E; simpl; [done|].
    rewrite bool_decide_eq_false_2; [done|]. intros ->. apply Hl.
    rewrite <-(reverse_involutive s), E, reverse_cons. apply last_snoc. }
  by rewrite Nat.sub_0_r, firstn_all.
Qed.

Lemma trim_spaces_cons s : trim_spaces (" "%char :: s) = trim_spaces s.
Proof. done. Qed.

(** [trim_spaces] removes exactly the spaces at both ends. *)
Theorem trim_spaces_spec s :
  ∃ a b, s = a ++ trim_spaces s ++ b ∧
    Forall (λ c, c = " "%char) a ∧ Forall (λ c, c = " "%char) b ∧
    head (trim_spaces s) ≠ Some " "%char ∧ last (trim_spaces s) ≠ Some " "%char.
Proof. apply trim_spaces_parts. Qed.

(** ** The language of a page *)

Lemma prefix_before_sep (p a b : cstr) c :
  c ∉ p → p `prefix_of` a ++ c :: b → p `prefix_of` a.
Proof.
  revert a. induction p as [|x p IH]; intros a Hp Hpre; [apply prefix_nil|].
  destruct a as [|y a]; destruct Hpre as [k Hk]; simpl in Hk; injection Hk as -> Hk.
  - set_solver.
  - apply prefix_cons, IH; [set_solver|]. by exists k.
Qed.

Lemma cget_app a c b n : n = length a → cget (a ++ c :: b) n = Some c.
Proof.
  intros ->. rewrite cget_lt by (rewrite length_app; simpl; lia).
  rewrite lookup_app_r by done. by rewrite Nat.sub_diag.
Qed.

(** For a page under [.../man/LANG/manN/...], where [/man/] is the first
    such component and the language does not begin with [man], [lang_dir]
    reads within the string and returns the language. *)
Theorem lang_dir_page pre lang n rest :
  let f := pre ++ lit "/man/" ++ lang ++ lit "/man" ++ n :: "/"%char :: rest in
  STRNEQ f (lit "man/") 4 = false → strstr f (lit "/man/") = Some (length pre) →
  "/"%char ∉ lang → ¬ lit "man" `prefix_of` lang → one_of (lit "123456789lno") n = true →
  lang_dir (Some f) = Ret lang.
Proof.
  intros f Hfm Hman Hlang Hnoman Hn. unfold lang_dir. rewrite Hfm, Hman. cbn [fmap option_fmap option_map].
  assert (f = (pre ++ lit "/ma") ++ lit "n" ++ "/"%char :: lang ++ lit "/man" ++ n :: "/"%char :: rest) as Hf
    by (unfold f; by app_norm).
  assert (drop (S (length pre) + 2) f = lit "n" ++ "/"%char :: lang ++ lit "/man" ++ n :: "/"%char :: rest)
    as ->.
  { rewrite Hf. rewrite drop_app_length'; [done|]. rewrite length_app. simpl. lia. }
  match goal with |- context [strstr ?s (lit "/man")] =>
    change (strstr s (lit "/man")) with (strstr s ("/"%char :: lit "man")) end.
  rewrite strstr_skip by (vm_compute; by not_in).
  assert (strstr ("/"%char :: lang ++ lit "/man" ++ n :: "/"%char :: rest) ("/"%char :: lit "man") =
          Some (S (length lang))) as ->.
  { rewrite strstr_next.
    - rewrite strstr_skip by done. rewrite strstr_here by (by eexists). simpl. f_equal. lia.
    - intros Hp%prefix_cons_inv_2. apply Hnoman.
      eapply (prefix_before_sep _ _ (lit "man" ++ n :: "/"%char :: rest) "/"%char); [vm_compute; by not_in|].
      done. }
  cbn [fmap option_fmap option_map].
  assert (f = (pre ++ lit "/man/" ++ lang ++ lit "/man") ++ n :: "/"%char :: rest) as Hf4
    by (unfold f; by app_norm).
  assert (f = (pre ++ lit "/man/" ++ lang ++ lit "/man" ++ [n]) ++ "/"%char :: rest) as Hf5
    by (unfold f; by app_norm).
  rewrite Hf5 at 1. rewrite cget_app by (rewrite !length_app; simpl; lia). cbn [or_undef].
  rewrite bind_Ret, bool_decide_eq_true_2 by done. cbn [negb].
  rewrite Hf4 at 1. rewrite cget_app by (rewrite !length_app; simpl; lia). cbn [or_undef].
  rewrite bind_Ret.
  assert (n ∈ lit "123456789lno") as Hin by by apply bool_decide_eq_true in Hn.
  destruct (strchr (lit "123456789lno") n) as [j|] eqn:E.
  2: { apply strchr_None in E; [done|]. intros ->. by vm_compute in Hn. }
  rewrite bool_decide_eq_false_2 by (change (length (lit "n")) with 1; lia).
  assert (drop (S (length pre) + 4) f = lang ++ "/"%char :: lit "man" ++ n :: "/"%char :: rest) as ->.
  { unfold f. rewrite app_assoc. rewrite drop_app_length'; [by app_norm|]. rewrite length_app. simpl. lia. }
  rewrite strchr_app_sep by done. cbn beta iota. by rewrite take_app_length.
Qed.

(** ** The width of the line *)

(** The width is always positive, and computed once. *)
Theorem get_line_length_positive MANWIDTH COLUMNS ws_col w :
  (∀ c, ws_col = Some c → (0 <= c < 2 ^ 16)%Z) →
  get_line_length MANWIDTH COLUMNS ws_col (-1) = Ret w →
  (0 < w)%Z ∧ ∀ M C t, get_line_length M C t w = Ret w.
Proof.
  intros Hws Hw. assert (0 < w)%Z as Hpos.
  { unfold get_line_length in Hw. simpl in Hw. bind_inv.
    assert (∀ col o, env_width col = Ret o → ∀ v, o = Some v → (0 < v)%Z) as Henv.
    { intros [col|] o Ho v ->; unfold env_width in Ho; bind_inv; [|done]. by case_decide; simplify_eq. }
    match goal with Hx : (match ?x with Some _ => _ | None => _ end) = Ret w, He : env_width MANWIDTH = Ret ?x |- _ =>
      destruct x; [bind_inv; subst; by eapply Henv|] end.
    bind_inv.
    match goal with Hx : (match ?x with Some _ => _ | None => _ end) = Ret w, He : env_width COLUMNS = Ret ?x |- _ =>
      destruct x; [bind_inv; subst; by eapply Henv|] end.
    destruct ws_col as [c|]; bind_inv; subst; [|done].
    case_decide; [lia|]. specialize (Hws c eq_refl). lia. }
  split; [done|]. intros M C t. unfold get_line_length.
  rewrite bool_decide_eq_false_2 by lia. done.
Qed.

(** ** Searching the path *)

Section path_theorems.
Context `{FileSystem} (path cwd : cstr).

Definition path_dirs : list cstr :=
  (λ e, if bool_decide (e = []) then cwd else e) <$> split_on ":"%char path.

Lemma path_loop_existsb found es :
  path_loop (Some cwd) found es =
    Ret (existsb found ((λ e, if bool_decide (e = []) then cwd else e) <$> es)).
Proof.
  induction es as [|e es IH]; simpl; [done|]. rewrite IH.
  case_bool_decide; simpl; by destruct (found _).
Qed.

(** An unqualified program is found exactly when a directory of [$PATH]
    (an empty element standing for the current directory) holds an
    executable regular file of that name. *)
Theorem pathsearch_spec name bits :
  "/"%char ∉ name →
  pathsearch (Some path) (Some cwd) name bits =
    Ret (existsb (λ dir, executable bits (dir ++ lit "/" ++ name)) path_dirs).
Proof.
  intros Hn. unfold pathsearch. rewrite bool_decide_eq_false_2.
  - apply path_loop_existsb.
  - apply strchr_None in Hn as ->; [|done]. by intros [].
Qed.
End path_theorems.

(** ** Removing directories *)

Section remove_theorems.
Context (unlink_ok : cstr → bool) (recurse : bool).

(** A directory that can be removed completely. *)
Fixpoint removable (n : node) : bool :=
  match n with
  | Dir entries =>
    forallb (λ e, match e.2 with
                  | Reg => unlink_ok e.1
                  | Dir _ => recurse && removable e.2
                  | _ => false
                  end) entries
  | _ => false
  end.

(** Induction on a directory through its entries. *)
Lemma node_ind' (P : node → Prop) :
  P Reg → P Other → P Broken → (∀ es, Forall (λ e, P e.2) es → P (Dir es)) → ∀ n, P n.
Proof.
  intros HR HO HB HD. fix IH 1. intros [| | |es]; [done..|]. apply HD.
  induction es as [|[name nd] es IHes]; constructor; [apply IH|done].
Qed.

Definition entry_removable (e : cstr * node) : bool :=
  match e.2 with
  | Reg => unlink_ok e.1
  | Dir _ => recurse && removable e.2
  | _ => false
  end.

Lemma remove_loop_spec rm es kept :
  Forall (λ e, match e.2 with
               | Dir _ => if removable e.2 then rm e.2 = (0%Z, None) else is_Some (rm e.2).2
               | _ => True
               end) es →
  if bool_decide (kept = []) && forallb entry_removable es
  then remove_loop unlink_ok recurse rm es kept = (0%Z, None)
  else ∃ left, left ≠ [] ∧ remove_loop unlink_ok recurse rm es kept = ((-1)%Z, Some left).
Proof.
  intros Hall. revert kept. induction Hall as [|[name nd] es Hnd Hall IH]; intros kept.
  { destruct kept as [|e kept]; [done|]. rewrite bool_decide_eq_false_2 by done. by exists (e :: kept). }
  assert (∀ x, ∃ left : list (cstr * node), left ≠ [] ∧ ((-1)%Z, Some (kept ++ x :: es)) = ((-1)%Z, Some left))
    as Hstop by (intros x; eexists; split; [|done]; by destruct kept).
  assert (∃ left, left ≠ [] ∧
    remove_loop unlink_ok recurse rm es (kept ++ [(name, nd)]) = ((-1)%Z, Some left)) as Hkeep.
  { specialize (IH (kept ++ [(name, nd)])). by rewrite bool_decide_eq_false_2 in IH by by destruct kept. }
  simpl in *. unfold entry_removable at 1. simpl. destruct nd as [| | |sub].
  - destruct (unlink_ok name); simpl; [apply IH|]. rewrite andb_false_r. apply Hstop.
  - rewrite andb_false_r. apply Hkeep.
  - rewrite andb_false_r. apply Hstop.
  - destruct recurse; simpl; [|rewrite andb_false_r; apply Hkeep].
    destruct (removable (Dir sub)) eqn:E; simpl in *; rewrite E in *.
    + rewrite Hnd. apply IH.
    + rewrite andb_false_r. destruct (rm (Dir sub)) as [z [sub'|]]; [apply Hstop|by destruct Hnd].
Qed.

(** [remove_directory] succeeds exactly when everything below the
    directory can be removed (only regular files, and directories when it
    recurses), and then nothing is left; otherwise it returns -1 and something
    is left. *)
Theorem remove_directory_spec es :
  if removable (Dir es)
  then remove_directory unlink_ok recurse es = (0%Z, None)
  else ∃ left, left ≠ [] ∧ remove_directory unlink_ok recurse es = ((-1)%Z, Some left).
Proof.
  unfold remove_directory.
  enough (∀ n, match n with
               | Dir _ => if removable n then remove_node unlink_ok recurse n = (0%Z, None)
                          else ∃ left, left ≠ [] ∧ remove_node unlink_ok recurse n = ((-1)%Z, Some left)
               | _ => True end) as Hall by apply (Hall (Dir es)).
  clear es. induction n as [| | |es Hes] using node_ind'; try done.
  change (removable (Dir es)) with (forallb entry_removable es).
  apply (remove_loop_spec (remove_node unlink_ok recurse) es []).
  eapply Forall_impl; [done|]. intros [name nd]. simpl. destruct nd; try done.
  destruct (removable _); [done|]. intros (left & _ & ->). by eexists.
Qed.
End remove_theorems.

(** The programs a program starts inherit its environment: they are silent
    about a locale that the first of them has reported. *)
Lemma locale_reported_once ok ok' getenv : (init_locale ok' (init_locale ok getenv).2).1 = false.
Proof. unfold init_locale, setenv. cbn [fst snd]. rewrite decide_True by done. by rewrite andb_false_r. Qed.

(** ** Evaluation *)

Lemma lang_dir_page_witness :
  lang_dir (Some (lit "/usr/share" ++ lit "/man/" ++ lit "pt_BR" ++ lit "/man" ++ "1"%char :: "/"%char :: lit "ls.1"))
  = Ret (lit "pt_BR").
Proof.
  apply (lang_dir_page (lit "/usr/share") (lit "pt_BR") "1"%char (lit "ls.1")); try by vm_compute.
  - compute_done.
  - compute_done.
Defined.

Lemma get_line_length_positive_witness :
  (0 < 100)%Z ∧ ∀ M C t, get_line_length M C t 100 = Ret 100%Z.
Proof.
  apply (get_line_length_positive (Some (lit "-3")) (Some (lit "100")) (Some 132%Z)).
  - intros c [= <-]. lia.
  - by vm_compute.
Defined.

(** A file system with the executable [/bin/ls] only. *)
Definition bin_fs : FileSystem := {|
  fs_stat p := if STREQ p (lit "/bin/ls") then Some (Stat (S_IFREG + 493) 1 1 1 (Timespec 0 0)) else None;
  fs_lstat _ := None; fs_readdir _ := None; fs_access_R _ := false; fs_access_F _ := false;
  fs_canonicalize p := Some p; fs_glob _ := None;
|}.

Lemma pathsearch_spec_witness :
  @pathsearch bin_fs (Some (lit "/usr/bin:")) (Some (lit "/bin")) (lit "ls") 73 = Ret true.
Proof.
  rewrite (@pathsearch_spec bin_fs (lit "/usr/bin:") (lit "/bin") (lit "ls") 73).
  - by vm_compute.
  - compute_done.
Defined.

(** [lang_dir] reads past the end of a path that ends in [/man]. *)
Example lang_dir_past_end : lang_dir (Some (lit "/usr/man/man")) = Undef "lang_dir: sm[5]".
Proof. by vm_compute. Qed.

(** [is_directory] holds of block devices and sockets. *)
Example is_directory_block_device :
  let fs := {| fs_stat _ := Some (Stat S_IFBLK 0 1 1 (Timespec 0 0)); fs_lstat _ := None;
               fs_readdir _ := None; fs_access_R _ := false; fs_access_F _ := false;
               fs_canonicalize p := Some p; fs_glob _ := None |} in
  @is_directory fs (lit "/dev/sda") = 1%Z ∧ S_ISDIR S_IFBLK = false.
Proof. by vm_compute. Qed.
