(* ===== verification/Wordfnmatch.v ===== *)
(** * lib/wordfnmatch.c: matching a pattern against the words of a string *)

From S2P Require Import Prelude CStr.

(** The C library's [fnmatch] and [regexec], the flag being [FNM_CASEFOLD] or
    [REG_ICASE]. *)
Class Matcher := {
  fnmatch : bool → cstr → cstr → bool;
  regexec : bool → cstr → cstr → bool;
}.

Section word_fnmatch.
Context `{Matcher} (pattern : cstr).

Definition word_char (c : ascii) : bool := isalpha c || bool_decide (c = "_"%char).

(** The loop: [rest] is what [p] points to, [begin] an index into [s]. *)
Fixpoint word_loop (s rest : cstr) (p begin : nat) : bool :=
  match rest with
  | [] => false
  | c :: rest =>
    if word_char c then word_loop s rest (S p) begin
    else if decide (p ≤ begin + 1) then word_loop s rest (S p) (begin + 1)
    else if fnmatch true pattern (take (p - begin) (drop begin s)) then true
    else word_loop s rest (S p) (p + 1)
  end.

Definition word_fnmatch (s : cstr) : bool := word_loop s s 0 0.

(** [s] as words of at least two letters with one separator after each. *)
Definition words_text (ws : list (cstr * ascii)) : cstr := concat ((λ w, w.1 ++ [w.2]) <$> ws).
Definition word_ok (w : cstr * ascii) : Prop :=
  Forall (λ c, word_char c = true) w.1 ∧ 2 ≤ length w.1 ∧ word_char w.2 = false.

Lemma word_loop_letters s w rest p begin :
  Forall (λ c, word_char c = true) w →
  word_loop s (w ++ rest) p begin = word_loop s rest (length w + p) begin.
Proof.
  intros Hw. revert p. induction Hw as [|c w Hc Hw IH]; intros p; simpl; [done|].
  rewrite Hc, IH. f_equal. lia.
Qed.

Lemma word_loop_words pre ws last :
  Forall word_ok ws → Forall (λ c, word_char c = true) last →
  word_loop (pre ++ words_text ws ++ last) (words_text ws ++ last) (length pre) (length pre) =
    existsb (λ w, fnmatch true pattern w.1) ws.
Proof.
  intros Hws Hlast. revert pre.
  induction Hws as [|[w c] ws (Hw & Hlen & Hc) Hws IH]; intros pre.
  - simpl. rewrite <-(app_nil_r last) at 2. by rewrite word_loop_letters.
  - simpl in Hw, Hlen, Hc. unfold words_text. cbn [fmap list_fmap concat]. fold (words_text ws).
    cbn [fst snd]. rewrite <-!app_assoc. rewrite word_loop_letters by done.
    cbn [app word_loop]. rewrite Hc, decide_False by lia.
    replace (length w + length pre - length pre) with (length w) by lia.
    rewrite drop_app_length, take_app_length. cbn [existsb fst].
    destruct (fnmatch true pattern w); [done|]. simpl.
    specialize (IH (pre ++ w ++ [c])). rewrite <-!app_assoc in IH.
    rewrite !length_app in IH. simpl in IH.
    replace (length w + length pre + 1) with (length pre + (length w + 1)) by lia.
    replace (S (length w + length pre)) with (length pre + (length w + 1)) by lia.
    done.
Qed.

(** On a text of words of two letters or more, each followed by one
    separator, [word_fnmatch] says whether one of them matches; the letters
    after the last separator are never tried. *)
Theorem word_fnmatch_words ws last :
  Forall word_ok ws → Forall (λ c, word_char c = true) last →
  word_fnmatch (words_text ws ++ last) = existsb (λ w, fnmatch true pattern w.1) ws.
Proof. apply (word_loop_words []). Qed.
End word_fnmatch.

(** A matcher that compares the pattern literally, for evaluating examples. *)
Definition literal_matcher : Matcher := {|
  fnmatch icase p s := if icase then match strcasecmp p s with Eq => true | _ => false end else STREQ p s;
  regexec icase p s := bool_decide (is_Some (strstr (if icase then tolower <$> s else s) p));
|}.

Lemma word_fnmatch_words_witness :
  @word_fnmatch literal_matcher (lit "files") (words_text [(lit "list", " "%char); (lit "files", ","%char)] ++ lit "now")
  = existsb (λ w, @fnmatch literal_matcher true (lit "files") w.1) [(lit "list", " "%char); (lit "files", ","%char)].
Proof.
  apply (@word_fnmatch_words literal_matcher (lit "files")
           [(lit "list", " "%char); (lit "files", ","%char)] (lit "now")).
  - repeat constructor.
  - repeat constructor.
Defined.

(** The last word of a description is not matched, and a word after a word of
    one letter is matched with its separator in front. *)
Example word_fnmatch_last :
  @word_fnmatch literal_matcher (lit "files") (lit "list files") = false ∧
  @word_fnmatch literal_matcher (lit "file") (lit "a file.") = false ∧
  @word_fnmatch literal_matcher (lit " file") (lit "a file.") = true.
Proof. by vm_compute. Qed.
