(* ===== verification/Mydbm.v ===== *)
(** * libdb/mydbm.h: the database interface

    man-db stores its index through one of GNU dbm, ndbm and Berkeley DB,
    chosen at build time behind the [MYDBM_*] macros.  The backing library is
    the class [Mydbm], its documented behaviour the classes [MydbmLaws] (what a
    call that succeeds or fails does to the contents) and [MydbmReliable] (the
    medium has no I/O errors).  Keys and contents are stored with their
    terminating NUL, so they are modelled as C strings. *)

From S2P Require Import Prelude CStr.

Class Mydbm (db : Type) := {
  MYDBM_FETCH : db → cstr → option cstr;
  MYDBM_INSERT : db → cstr → cstr → bool * db;   (* [true]: non-zero return *)
  MYDBM_REPLACE : db → cstr → cstr → bool * db;
  MYDBM_EXISTS : db → cstr → bool;
  MYDBM_DELETE : db → cstr → db;
  (* the keys in the order of the library's own traversal *)
  unsorted_keys : db → list cstr;
}.

Class MydbmLaws (db : Type) `{Mydbm db} := {
  db_view : db → gmap cstr cstr;
  fetch_view d k : MYDBM_FETCH d k = db_view d !! k;
  exists_view d k : MYDBM_EXISTS d k = bool_decide (is_Some (db_view d !! k));
  delete_view d k : db_view (MYDBM_DELETE d k) = delete k (db_view d);
  insert_view d k c :
    match MYDBM_INSERT d k c with
    | (false, d') => db_view d !! k = None ∧ db_view d' = <[k:=c]> (db_view d)
    | (true, d') => db_view d' = db_view d
    end;
  replace_view d k c :
    match MYDBM_REPLACE d k c with
    | (false, d') => db_view d' = <[k:=c]> (db_view d)
    | (true, d') => db_view d' = db_view d
    end;
  unsorted_keys_view d : unsorted_keys d ≡ₚ (map_to_list (db_view d)).*1;
}.

Class MydbmReliable (db : Type) `{MydbmLaws db} : Prop := {
  insert_reliable d k c : (MYDBM_INSERT d k c).1 = true → is_Some (db_view d !! k);
  replace_reliable d k c : (MYDBM_REPLACE d k c).1 = false;
}.

(** The keys in the order [MYDBM_FIRSTKEY] and [MYDBM_NEXTKEY] deliver them:
    the ordered wrapper of db_xdbm.c (file [Xdbm]) sorts them. *)
Definition db_keys {db} `{Mydbm db} (d : db) : list cstr :=
  gl_sorted_of strcmp (unsorted_keys d).

Section laws.
Context {db : Type} `{MydbmLaws db}.
Implicit Types d : db.

Lemma db_keys_perm d : db_keys d ≡ₚ (map_to_list (db_view d)).*1.
Proof. unfold db_keys. by rewrite gl_sorted_of_perm, unsorted_keys_view. Qed.

Lemma elem_of_db_keys d k : k ∈ db_keys d ↔ is_Some (db_view d !! k).
Proof.
  rewrite db_keys_perm, list_elem_of_fmap. split.
  - intros ([k' c] & -> & Hin%elem_of_map_to_list). by exists c.
  - intros [c Hc]. exists (k, c). split; [done|]. by apply elem_of_map_to_list.
Qed.

Lemma db_keys_NoDup d : NoDup (db_keys d).
Proof. rewrite db_keys_perm. apply NoDup_fst_map_to_list. Qed.

Lemma db_keys_sorted d : StronglySorted (cmp_le strcmp) (db_keys d).
Proof. apply gl_sorted_of_sorted, _. Qed.

Lemma replace_Ret d k c d' : MYDBM_REPLACE d k c = (false, d') → db_view d' = <[k:=c]> (db_view d).
Proof. intros E. pose proof (replace_view d k c) as Hr. by rewrite E in Hr. Qed.
Lemma insert_false d k c d' :
  MYDBM_INSERT d k c = (false, d') →
  db_view d !! k = None ∧ db_view d' = <[k:=c]> (db_view d).
Proof. intros E. pose proof (insert_view d k c) as Hr. by rewrite E in Hr. Qed.
Lemma insert_true d k c d' : MYDBM_INSERT d k c = (true, d') → db_view d' = db_view d.
Proof. intros E. pose proof (insert_view d k c) as Hr. by rewrite E in Hr. Qed.

Lemma insert_true_present `{!MydbmReliable db} d k c d' :
  MYDBM_INSERT d k c = (true, d') → is_Some (db_view d !! k).
Proof. intros E. apply (insert_reliable d k c). by rewrite E. Qed.

Lemma insert_absent `{!MydbmReliable db} d k c :
  db_view d !! k = None →
  ∃ d', MYDBM_INSERT d k c = (false, d') ∧ db_view d' = <[k:=c]> (db_view d).
Proof.
  intros Hk. pose proof (insert_view d k c). pose proof (insert_reliable d k c) as Hr.
  destruct (MYDBM_INSERT d k c) as [[] d'].
  - destruct Hr as [? ?]; [done|congruence].
  - naive_solver.
Qed.

Lemma insert_present d k c :
  is_Some (db_view d !! k) →
  ∃ d', MYDBM_INSERT d k c = (true, d') ∧ db_view d' = db_view d.
Proof.
  intros [c' Hk]. pose proof (insert_view d k c).
  destruct (MYDBM_INSERT d k c) as [[] d']; [eauto|naive_solver].
Qed.

Lemma replace_ok `{!MydbmReliable db} d k c :
  ∃ d', MYDBM_REPLACE d k c = (false, d') ∧ db_view d' = <[k:=c]> (db_view d).
Proof.
  pose proof (replace_view d k c). pose proof (replace_reliable d k c).
  destruct (MYDBM_REPLACE d k c) as [[] d']; naive_solver.
Qed.
End laws.

(** The traversal depends on the contents only. *)
Lemma db_keys_view_eq {db db'} `{MydbmLaws db} `{MydbmLaws db'} (d : db) (d' : db') :
  db_view d = db_view d' → db_keys d = db_keys d'.
Proof.
  intros Heq. eapply (StronglySorted_unique (cmp_le strcmp)).
  - apply db_keys_sorted.
  - apply db_keys_sorted.
  - by rewrite db_keys_perm, Heq, <-db_keys_perm.
Qed.

(** ** A database in memory *)

#[export] Instance map_db : Mydbm (gmap cstr cstr) := {|
  MYDBM_FETCH d k := d !! k;
  MYDBM_INSERT d k c :=
    match d !! k with Some _ => (true, d) | None => (false, <[k:=c]> d) end;
  MYDBM_REPLACE d k c := (false, <[k:=c]> d);
  MYDBM_EXISTS d k := bool_decide (is_Some (d !! k));
  MYDBM_DELETE d k := delete k d;
  unsorted_keys d := (map_to_list d).*1;
|}.
#[export, refine] Instance map_db_laws : MydbmLaws (gmap cstr cstr) := {| db_view d := d |}.
Proof.
  all: intros; simpl; try done.
  by destruct (d !! k) eqn:E.
Defined.
#[export] Instance map_db_reliable : MydbmReliable (gmap cstr cstr).
Proof. split; intros; simpl in *; [|done]. by destruct (d !! k) eqn:E; [eexists|]. Qed.
