(* ===== verification/Xdbm.v ===== *)
(** * libdb/db_xdbm.c: traversal of the database in key order

    gdbm and ndbm enumerate keys in hash order.  The wrapper reads all of them
    on [man_xdbm_firstkey], keeps them sorted in the global map [parent_keys]
    under the name of the database, and [man_xdbm_nextkey] searches that list.
    The theorems say that the [while] loop every client writes visits every
    key exactly once, in order, and ends; and that what it visits is the
    sequence [db_keys] of the file [Mydbm] over which the clients' models
    fold. *)

From S2P Require Import Prelude CStr Mydbm.

(** [datum]: the bytes at [dptr], [dsize] of them; [None] is a null [dptr]. *)
Abbreviation datum := (option (list ascii)).

Definition cstr_datum (s : cstr) : datum := Some (s ++ [NUL]).

Fixpoint strncmp (n : nat) (a b : list ascii) : comparison :=
  match n, a, b with
  | S n, x :: a, y :: b =>
    match uchar_cmp x y with
    | Eq => if decide (x = NUL) then Eq else strncmp n a b
    | c => c
    end
  | _, _, _ => Eq
  end.

Definition datum_compare (a b : datum) : comparison :=
  match a, b with
  | None, _ => Gt
  | _, None => Lt
  | Some l, Some r =>
    let minsize := if decide (length l < length r) then length l else length r in
    match strncmp minsize l r with
    | Eq => if decide (length l < length r) then Gt
            else if decide (length r < length l) then Lt else Eq
    | c => c
    end
  end.

Definition parent_keys := gmap cstr (list datum).

Section xdbm.
(** The traversal of the backing library. *)
Context (unsorted_firstkey : datum) (unsorted_nextkey : datum → datum).

(** The loop that builds the sorted list; [None] when the fuel runs out. *)
Fixpoint sort_keys (fuel : nat) (key : datum) (keys : list datum) : option (list datum) :=
  match key with
  | None => Some keys
  | Some _ =>
    match fuel with
    | 0 => None
    | S fuel => sort_keys fuel (unsorted_nextkey key) (gl_sortedlist_add datum_compare key keys)
    end
  end.

Definition man_xdbm_firstkey (fuel : nat) (name : cstr) (pk : parent_keys)
    : option (datum * parent_keys) :=
  keys ← sort_keys fuel unsorted_firstkey [];
  Some (match keys with k :: _ => k | [] => None end, <[name:=keys]> pk).

(** [gl_list_next_node] of the node [gl_sortedlist_search] finds. *)
Fixpoint next_after (key : datum) (keys : list datum) : option datum :=
  match keys with
  | [] => None
  | k :: keys' =>
    match datum_compare k key with
    | Eq => head keys'
    | _ => next_after key keys'
    end
  end.

Definition man_xdbm_nextkey (name : cstr) (pk : parent_keys) (key : datum) : datum :=
  match pk !! name with
  | None => None
  | Some keys => match next_after key keys with Some k => k | None => None end
  end.

Definition man_xdbm_free (name : cstr) (pk : parent_keys) : parent_keys := delete name pk.

(** The loop of the clients:
    [key = FIRSTKEY; while (key) { ...; key = NEXTKEY (key); }], as the list
    of the keys its body sees. *)
Fixpoint client_loop (fuel : nat) (name : cstr) (pk : parent_keys) (key : datum)
    : option (list datum) :=
  match key with
  | None => Some []
  | Some _ =>
    match fuel with
    | 0 => None
    | S fuel => cons key <$> client_loop fuel name pk (man_xdbm_nextkey name pk key)
    end
  end.

(** The library's traversal from [key] on yields the list. *)
Inductive visits : datum → list (list ascii) → Prop :=
| visits_end : visits None []
| visits_key b l : visits (unsorted_nextkey (Some b)) l → visits (Some b) (b :: l).

Lemma sort_keys_visits fuel key l acc :
  visits key l → length l ≤ fuel →
  sort_keys fuel key acc =
    Some (fold_left (λ acc x, gl_sortedlist_add datum_compare x acc) (Some <$> l) acc).
Proof.
  intros Hv. revert fuel acc. induction Hv as [|b l Hv IH]; intros fuel acc Hf; simpl in *.
  - by destruct fuel.
  - destruct fuel as [|fuel]; [lia|]. simpl. apply IH. lia.
Qed.

End xdbm.

Lemma strncmp_cstr n a b :
  nonul a → nonul b → S (length a) ≤ n ∨ S (length b) ≤ n →
  strncmp n (a ++ [NUL]) (b ++ [NUL]) = strcmp a b.
Proof.
  revert n b. induction a as [|x a IH]; intros n b Ha Hb Hn.
  - destruct n as [|n]; [simpl in *; lia|]. destruct b as [|y b]; [done|]. simpl.
    assert (y ≠ NUL) by (intros ->; by apply Hb; left).
    destruct (uchar_cmp NUL y) eqn:E; [|done|].
    + by apply (cmp_eq (cmp:=uchar_cmp)) in E as <-.
    + exfalso. revert E. unfold uchar_cmp. pose proof (uchar_range y).
      change (uchar NUL) with 0%Z. rewrite Z.compare_gt_iff. lia.
  - destruct n as [|n]; [simpl in *; lia|].
    assert (x ≠ NUL) by (intros ->; by apply Ha; left).
    destruct b as [|y b]; simpl.
    + destruct (uchar_cmp x NUL) eqn:E; [| |done].
      * by apply (cmp_eq (cmp:=uchar_cmp)) in E as ->.
      * exfalso. revert E. unfold uchar_cmp. pose proof (uchar_range x).
        change (uchar NUL) with 0%Z. rewrite Z.compare_lt_iff. lia.
    + destruct (uchar_cmp x y); simpl; [|done|done].
      rewrite decide_False by done. simpl in Hn. apply IH; [| |lia].
      * intros Hin. by apply Ha; right.
      * intros Hin. by apply Hb; right.
Qed.

Lemma strncmp_antisym n a b : strncmp n b a = CompOpp (strncmp n a b).
Proof.
  revert a b. induction n as [|n IH]; intros [|x a] [|y b]; simpl; try done.
  rewrite (cmp_antisym (cmp:=uchar_cmp) x y).
  destruct (uchar_cmp x y) eqn:E; simpl; [|done|done].
  apply (cmp_eq (cmp:=uchar_cmp)) in E as ->. case_decide; [done|]. apply IH.
Qed.

(** On stored keys, which carry their NUL, the order is that of [strcmp]: the
    branch for equal prefixes of different sizes is never taken. *)
Lemma datum_compare_cstr a b :
  nonul a → nonul b → datum_compare (cstr_datum a) (cstr_datum b) = strcmp a b.
Proof.
  intros Ha Hb. unfold datum_compare, cstr_datum. rewrite !length_app. simpl.
  rewrite strncmp_cstr; [|done|done|case_decide; lia].
  destruct (strcmp a b) eqn:E; [|done|done].
  apply (cmp_eq (cmp:=strcmp)) in E as ->. by rewrite !decide_False by lia.
Qed.

Lemma sortedlist_add_map {A B} (f : A → B) cmpA cmpB (P : A → Prop) x l :
  (∀ a b, P a → P b → cmpB (f a) (f b) = cmpA a b) → P x → Forall P l →
  gl_sortedlist_add cmpB (f x) (f <$> l) = f <$> gl_sortedlist_add cmpA x l.
Proof.
  intros Hf Hx. induction 1 as [|y l Hy Hl IH]; simpl; [done|].
  rewrite Hf by done. destruct (cmpA y x); simpl; [done| |done]. f_equal. exact IH.
Qed.

Lemma sorted_of_cstr l :
  Forall nonul l →
  gl_sorted_of datum_compare (cstr_datum <$> l) = cstr_datum <$> gl_sorted_of strcmp l.
Proof.
  intros Hl. unfold gl_sorted_of. change (@nil datum) with (cstr_datum <$> []).
  assert (Forall nonul []) as Hacc by constructor. revert Hacc. generalize (@nil cstr).
  induction Hl as [|x l Hx Hl IH]; intros acc Hacc; simpl; [done|].
  rewrite (sortedlist_add_map cstr_datum strcmp datum_compare nonul) by auto using datum_compare_cstr.
  apply IH. rewrite Forall_forall. intros y [->|Hy]%elem_of_gl_sortedlist_add; [done|].
  by eapply Forall_forall.
Qed.

(** In a list of distinct keys the successor of a key is the next one. *)
Lemma next_after_split pre k post :
  Forall nonul (pre ++ k :: post) → NoDup (pre ++ k :: post) →
  next_after (cstr_datum k) (cstr_datum <$> (pre ++ k :: post)) = head (cstr_datum <$> post).
Proof.
  induction pre as [|p pre IH]; intros Hall Hnd.
  - inversion Hall; subst. cbn [app fmap list_fmap next_after].
    rewrite datum_compare_cstr by done. by rewrite strcmp_refl.
  - apply Forall_cons in Hall as [Hp Hall].
    apply NoDup_cons in Hnd as [Hin Hnd]. cbn [app fmap list_fmap next_after].
    assert (nonul k) by (apply (Forall_app _ pre (k :: post)) in Hall as [_ Hk]; by inversion Hk).
    rewrite datum_compare_cstr by done.
    destruct (strcmp p k) eqn:E; [|by apply IH|by apply IH].
    apply (cmp_eq (cmp:=strcmp)) in E as ->. destruct Hin. set_solver.
Qed.

Lemma client_loop_sorted fuel name pk pre post :
  Forall nonul (pre ++ post) → NoDup (pre ++ post) →
  pk !! name = Some (cstr_datum <$> (pre ++ post)) → length post ≤ fuel →
  client_loop fuel name pk (match post with k :: _ => cstr_datum k | [] => None end) =
    Some (cstr_datum <$> post).
Proof.
  revert fuel pre. induction post as [|k post IH]; intros fuel pre Hall Hnd Hpk Hf.
  - by destruct fuel.
  - destruct fuel as [|fuel]; [simpl in *; lia|]. simpl.
    unfold man_xdbm_nextkey. rewrite Hpk, next_after_split by done.
    rewrite (cons_middle k pre post), app_assoc in Hall, Hnd, Hpk.
    specialize (IH fuel (pre ++ [k]) Hall Hnd Hpk).
    destruct post as [|k' post]; simpl in *; [by destruct fuel|].
    by rewrite IH by lia.
Qed.

Section traversal.
Context {db : Type} `{MydbmLaws db} (d : db) (first : datum) (next : datum → datum).
Hypothesis Hvisits : visits next first ((λ s, s ++ [NUL]) <$> unsorted_keys d).
Hypothesis Hkeys : Forall nonul (unsorted_keys d).

(** C25: the loop of every client over [MYDBM_FIRSTKEY] and [MYDBM_NEXTKEY]
    ends, and its body sees every key of the database exactly once, in
    [strcmp] order: the sequence [db_keys]. *)
Theorem traversal_sorted name pk fuel :
  length (unsorted_keys d) ≤ fuel →
  ∃ k pk', man_xdbm_firstkey first next fuel name pk = Some (k, pk') ∧
    client_loop fuel name pk' k = Some (cstr_datum <$> db_keys d) ∧
    StronglySorted (cmp_le strcmp) (db_keys d) ∧ NoDup (db_keys d) ∧
    (∀ s, s ∈ db_keys d ↔ is_Some (db_view d !! s)).
Proof.
  intros Hf. unfold man_xdbm_firstkey.
  assert (sort_keys next fuel first [] = Some (cstr_datum <$> db_keys d)) as ->.
  { rewrite (sort_keys_visits _ _ _ _ _ Hvisits) by by rewrite length_fmap.
    f_equal. rewrite <-list_fmap_compose. by apply sorted_of_cstr. }
  simpl. do 2 eexists. split; [done|]. split.
  - assert (Forall nonul (db_keys d)) as Hn by (unfold db_keys; by rewrite gl_sorted_of_perm).
    rewrite <-(client_loop_sorted fuel name (<[name:=cstr_datum <$> db_keys d]> pk) [] (db_keys d)).
    + f_equal. by destruct (db_keys d).
    + done.
    + apply db_keys_NoDup.
    + apply lookup_insert_eq.
    + assert (db_keys d ≡ₚ unsorted_keys d) as -> by apply gl_sorted_of_perm. done.
  - split; [apply db_keys_sorted|]. split; [apply db_keys_NoDup|]. intros s. apply elem_of_db_keys.
Qed.
End traversal.

(** ** Evaluation *)

(** A database whose keys are a prefix of one another, and the traversal of
    its library, which is not in key order. *)
Definition three_keys : gmap cstr cstr :=
  list_to_map [(lit "man", lit "x"); (lit "apropos", lit "y"); (lit "ma", lit "z")].

Definition three_next (k : datum) : datum :=
  match unsorted_keys three_keys with
  | [a; b; c] =>
    if decide (k = cstr_datum a) then cstr_datum b
    else if decide (k = cstr_datum b) then cstr_datum c else None
  | _ => None
  end.

Definition three_first : datum :=
  match unsorted_keys three_keys with a :: _ => cstr_datum a | [] => None end.

Lemma traversal_sorted_witness :
  ∃ k pk', man_xdbm_firstkey three_first three_next 3 (lit "index.db") ∅ = Some (k, pk') ∧
    client_loop 3 (lit "index.db") pk' k = Some (cstr_datum <$> db_keys three_keys) ∧
    StronglySorted (cmp_le strcmp) (db_keys three_keys) ∧ NoDup (db_keys three_keys) ∧
    (∀ s, s ∈ db_keys three_keys ↔ is_Some (db_view three_keys !! s)).
Proof.
  apply (traversal_sorted three_keys three_first three_next).
  - vm_compute. repeat constructor.
  - compute_done.
  - vm_compute. lia.
Defined.

Example traversal_order :
  db_keys three_keys = [lit "apropos"; lit "ma"; lit "man"].
Proof. by vm_compute. Qed.
