(* ===== verification/Backends.v ===== *)
(** * libdb/db_btree.c, db_gdbm.c, db_ndbm.c: the three database libraries

    Each back end wraps the handle of a library: it opens and locks it, and the
    macros of mydbm.h call the library's functions on it.  Berkeley DB, GNU dbm
    and ndbm agree on the functions the code uses, so one class [DbLib] stands
    for them; [backend_mydbm] turns a library into the interface [Mydbm] of the
    rest of the development, and its instance of [MydbmLaws] discharges what
    the theorems elsewhere assume. *)

From S2P Require Import Prelude CStr Mydbm.

(** ** The operations *)

(** [gdbm_store], [dbm_store] and [put]: 0 for success, 1 when [GDBM_INSERT],
    [DBM_INSERT] or [R_NOOVERWRITE] meets a key that exists, -1 for an error. *)
Inductive store_flag := INSERT | REPLACE.
Class DbLib (F : Type) := {
  lib_fetch : F → cstr → option cstr;
  lib_store : F → store_flag → cstr → cstr → Z * F;
  lib_delete : F → cstr → F;
  lib_firstkey : F → option cstr;
  lib_nextkey : F → cstr → option cstr;
  lib_count : F → nat;
}.

Class DbLibLaws (F : Type) `{DbLib F} := {
  lib_view : F → gmap cstr cstr;
  lib_fetch_view d k : lib_fetch d k = lib_view d !! k;
  lib_store_view d flag k c :
    let '(r, d') := lib_store d flag k c in
    (r = 0%Z ∧ (flag = INSERT → lib_view d !! k = None) ∧ lib_view d' = <[k:=c]> (lib_view d)) ∨
    (r ≠ 0%Z ∧ lib_view d' = lib_view d);
  lib_delete_view d k : lib_view (lib_delete d k) = delete k (lib_view d);
  lib_traversal d : ∃ l, l ≡ₚ (map_to_list (lib_view d)).*1 ∧ lib_firstkey d = head l ∧
    ∀ pre k post, l = pre ++ k :: post → lib_nextkey d k = head post;
  lib_count_size d : lib_count d = size (lib_view d);
}.

Section backend.
Context {F : Type} `{DbLib F}.

(** [man_btree_fetch]; [gdbm_fetch] and [dbm_fetch] with [copy_datum]. *)
Definition man_btree_fetch (f : F) (key : cstr) : option cstr := lib_fetch f key.
Definition man_btree_exists (f : F) (key : cstr) : bool := bool_decide (is_Some (lib_fetch f key)).
Definition man_btree_insert (f : F) (key cont : cstr) : Z * F := lib_store f INSERT key cont.
Definition man_btree_replace (f : F) (key cont : cstr) : Z * F := lib_store f REPLACE key cont.

(** [gdbm_exists], where the library has none. *)
Definition gdbm_exists (f : F) (key : cstr) : Z := match lib_fetch f key with Some _ => 1 | None => 0 end.

(** The keys in the order of the library. *)
Fixpoint library_keys (fuel : nat) (f : F) (key : option cstr) : list cstr :=
  match fuel, key with
  | S fuel, Some k => k :: library_keys fuel f (lib_nextkey f k)
  | _, _ => []
  end.

Definition nonzero (r : Z * F) : bool * F := (negb (r.1 =? 0)%Z, r.2).

#[export] Instance backend_mydbm : Mydbm F := {|
  MYDBM_FETCH := man_btree_fetch;
  MYDBM_INSERT f k c := nonzero (man_btree_insert f k c);
  MYDBM_REPLACE f k c := nonzero (man_btree_replace f k c);
  MYDBM_EXISTS := man_btree_exists;
  MYDBM_DELETE := lib_delete;
  unsorted_keys f := library_keys (lib_count f) f (lib_firstkey f);
|}.

Context `{!DbLibLaws F}.

Lemma library_keys_suffix (f : F) l pre post fuel :
  (∀ pre k post, l = pre ++ k :: post → lib_nextkey f k = head post) →
  l = pre ++ post → length post ≤ fuel → library_keys fuel f (head post) = post.
Proof.
  intros Hl. revert pre fuel. induction post as [|k post IH]; intros pre fuel Heq Hfuel; [by destruct fuel|].
  destruct fuel as [|fuel]; simpl in *; [lia|]. rewrite (Hl pre k post Heq). f_equal.
  apply (IH (pre ++ [k])); [by rewrite <-app_assoc|lia].
Qed.

#[export, refine] Instance backend_laws : MydbmLaws F := {| db_view := lib_view |}.
Proof.
  - apply lib_fetch_view.
  - intros d k. simpl. unfold man_btree_exists. by rewrite lib_fetch_view.
  - apply lib_delete_view.
  - intros d k c. simpl. unfold nonzero, man_btree_insert. pose proof (lib_store_view d INSERT k c) as Hs.
    destruct (lib_store d INSERT k c) as [r d']. simpl. destruct Hs as [(-> & Hn & Hv)|[Hr Hv]]; simpl.
    + split; [by apply Hn|done].
    + by rewrite (proj2 (Z.eqb_neq r 0) Hr).
  - intros d k c. simpl. unfold nonzero, man_btree_replace. pose proof (lib_store_view d REPLACE k c) as Hs.
    destruct (lib_store d REPLACE k c) as [r d']. simpl. destruct Hs as [(-> & _ & Hv)|[Hr Hv]]; simpl; [done|].
    by rewrite (proj2 (Z.eqb_neq r 0) Hr).
  - intros d. simpl. destruct (lib_traversal d) as (l & Hp & Hfirst & Hnext).
    rewrite Hfirst, (library_keys_suffix d l [] l); [done|done|done|].
    by rewrite Hp, length_fmap, lib_count_size, length_map_to_list.
Defined.
End backend.

(** ** Berkeley DB: the traversal with its check for loops *)

Section btree.
(** The [seq] of the library: the key under the cursor moved to the first or
    the next entry. *)
Context {C : Type} (seq : bool → C → option (cstr * C)).

Record btree_cursor := BtreeCursor { bt_cursor : C; loop_check : option (gset cstr) }.

(** [true] for [R_FIRST]. *)
Definition man_btree_findkey (first : bool) (st : btree_cursor) : option cstr * btree_cursor :=
  let seen := if first then ∅ else default ∅ (loop_check st) in
  match seq first (bt_cursor st) with
  | None => (None, BtreeCursor (bt_cursor st) (Some seen))
  | Some (key, c) =>
    if decide (key ∈ seen) then (None, BtreeCursor c (Some seen))
    else (Some key, BtreeCursor c (Some ({[key]} ∪ seen)))
  end.

Definition man_btree_firstkey := man_btree_findkey true.
Definition man_btree_nextkey := man_btree_findkey false.

(** The loop the clients write, from the key that was found; [None]: out of
    fuel. *)
Fixpoint btree_loop (fuel : nat) (found : option cstr * btree_cursor) : option (list cstr) :=
  match found with
  | (None, _) => Some []
  | (Some key, st) =>
    match fuel with
    | 0 => None
    | S fuel => (λ l, key :: l) <$> btree_loop fuel (man_btree_nextkey st)
    end
  end.
Definition btree_keys (fuel : nat) (st : btree_cursor) : option (list cstr) :=
  btree_loop fuel (man_btree_firstkey st).

(** The library delivers the keys [l] from a cursor on. *)
Inductive delivers : bool → C → list cstr → Prop :=
| deliver_end first c : seq first c = None → delivers first c []
| deliver_next first c key c' l : seq first c = Some (key, c') → delivers false c' l → delivers first c (key :: l).

Context (U : gset cstr) (Hkeys : ∀ first c key c', seq first c = Some (key, c') → key ∈ U).

(** From the set of keys seen so far. *)
Lemma btree_loop_ends first c seen fuel st :
  (first = true → seen = ∅) → bt_cursor st = c → (first = false → loop_check st = Some seen) →
  seen ⊆ U → size U - size seen ≤ fuel →
  ∃ l, btree_loop fuel (man_btree_findkey first st) = Some l ∧ NoDup l ∧ (∀ k, k ∈ l → k ∈ U ∧ k ∉ seen) ∧
    (∀ keys, delivers first c keys → NoDup keys → (∀ k, k ∈ keys → k ∉ seen) → l = keys).
Proof using Hkeys.
  revert first c seen st. induction fuel as [|fuel IH]; intros first c seen st Hfirst Hc Hseen Hsub Hsize.
  all: assert ((if first then ∅ else default ∅ (loop_check st)) = seen) as Hdef
    by (destruct first; [by rewrite Hfirst|by rewrite Hseen]).
  all: unfold man_btree_findkey; rewrite Hdef, Hc; destruct (seq first c) as [[key c']|] eqn:Eseq.
  all: try (exists []; split; [done|]; split; [constructor|]; split; [by intros k ?%elem_of_nil|];
    intros keys Hd; inversion Hd; [done|congruence]).
  all: assert (key ∈ U) as Hin by by eapply Hkeys.
  all: destruct (decide (key ∈ seen)) as [Hs|Hs];
    [exists []; split; [done|]; split; [constructor|]; split; [by intros k ?%elem_of_nil|];
     intros keys Hd _ Hnot; inversion Hd; [congruence|subst; simplify_eq; by destruct (Hnot key); [left|]]|].
  - exfalso. assert (size ({[key]} ∪ seen) ≤ size U) as Hle by (apply subseteq_size; set_solver).
    rewrite size_union, size_singleton in Hle by set_solver. lia.
  - assert (size ({[key]} ∪ seen) = S (size seen)) as Hsz by (by rewrite size_union, size_singleton by set_solver).
    destruct (IH false c' ({[key]} ∪ seen) (BtreeCursor c' (Some ({[key]} ∪ seen)))) as (l & Hl & Hnd & Hall & Hdel);
      [done|done|done|set_solver|lia|].
    cbn [btree_loop]. unfold man_btree_nextkey. rewrite Hl. exists (key :: l). split; [done|]. split; [|split].
    + constructor; [|done]. intros Hk. destruct (Hall key Hk). set_solver.
    + intros k [->|Hk]%elem_of_cons; [done|]. destruct (Hall k Hk). split; [done|set_solver].
    + intros keys Hd Hnd' Hnot. inversion Hd; subst; [congruence|]. simplify_eq. f_equal.
      apply NoDup_cons in Hnd' as [Hk Hnd']. apply Hdel; [done|done|]. intros k Hk'. specialize (Hnot k ltac:(by right)).
      set_solver.
Qed.

(** C29: the traversal of a Berkeley DB index ends even when the file is so
    broken that the library's cursor runs in circles: as many steps as there
    are different keys are enough, and no key is delivered twice.  When the
    library delivers every key once, the traversal delivers just these. *)
Theorem btree_traversal st fuel :
  size U ≤ fuel →
  ∃ l, btree_keys fuel st = Some l ∧ NoDup l ∧ (∀ k, k ∈ l → k ∈ U) ∧
    (∀ keys, delivers true (bt_cursor st) keys → NoDup keys → l = keys).
Proof using Hkeys.
  intros Hfuel. destruct (btree_loop_ends true (bt_cursor st) ∅ fuel st) as (l & Hl & Hnd & Hall & Hdel);
    [done|done|done|set_solver|rewrite size_empty; lia|].
  exists l. split; [done|]. split; [done|]. split; [naive_solver|]. intros keys Hd Hn. apply Hdel; [done|done|].
  intros. set_solver.
Qed.
End btree.

(** ** Opening and closing *)

(** What a [file] member points at. *)
Inductive handle := Live | Closed.
#[export] Instance handle_eq_dec : EqDecision handle.
Proof. solve_decision. Defined.

Record wrapper := Wrapper { w_name : cstr; w_file : option handle; w_mtime : option (Z * Z) }.
#[export] Instance wrapper_eq_dec : EqDecision wrapper.
Proof. solve_decision. Defined.

Definition db_new (name : cstr) : wrapper := Wrapper name None None.
Definition set_file (file : option handle) (w : wrapper) : wrapper := Wrapper (w_name w) file (w_mtime w).

(** How the calls end: the size from [stat], [open] of the file to be
    truncated, [flock], and opening the database itself. *)
Record open_env := OpenEnv { oe_stat : option Z; oe_open : bool; oe_flock : bool; oe_dbopen : bool }.

(** The common end of the two functions that lock the file themselves. *)
Definition lock_result (file : option handle) (lock_failed : bool) (w : wrapper) : bool * wrapper :=
  match file with
  | None => (false, set_file None w)
  | Some _ => if lock_failed then (false, set_file (Some Closed) w) else (true, set_file (Some Live) w)
  end.

Definition open_and_lock (trunc : bool) (e : open_env) (w : wrapper) : bool * wrapper :=
  if trunc then
    if oe_open e then
      let lock_failed := negb (oe_flock e) in
      lock_result (if negb lock_failed && oe_dbopen e then Some Live else None) lock_failed w
    else lock_result None true w
  else lock_result (if oe_dbopen e then Some Live else None) (negb (oe_flock e)) w.

Definition man_btree_open (creat trunc : bool) (e : open_env) (w : wrapper) : bool * wrapper :=
  if negb creat then
    match oe_stat e with
    | None => (false, w)
    | Some st_size => if (st_size =? 0)%Z then (false, w) else open_and_lock trunc e w
    end
  else open_and_lock trunc e w.

Definition man_ndbm_open (trunc : bool) (e : open_env) (w : wrapper) : bool * wrapper := open_and_lock trunc e w.

(** [man_btree_free] and [raw_close]. *)
Definition db_free (w : wrapper) : outcome unit :=
  match w_file w with
  | Some Closed => Undef "closing a database that is closed"
  | _ => Ret tt
  end.

(** GNU dbm: [opening] guards the error handler, which jumps back into
    [man_gdbm_open_wrapper] while it is set. *)
Inductive gdbm_result := GdbmFails | GdbmFatal | GdbmOpens.
Record gdbm_state := GdbmState { gdbm_opening : bool; gdbm_frame : bool }.

(** An error of the library: jumping into a function that has returned. *)
Definition trap_error (s : gdbm_state) : outcome unit :=
  if gdbm_opening s then if gdbm_frame s then Ret tt else Undef "longjmp to a function that has returned"
  else Ret tt.

(** [read_ok]: fetching the version entry meets no fatal error. *)
Definition man_gdbm_open_wrapper (newdb : bool) (r : gdbm_result) (read_ok : bool) (w : wrapper)
    : bool * wrapper * gdbm_state :=
  match r with
  | GdbmFatal => (false, w, GdbmState true false)
  | GdbmFails => (false, set_file None w, GdbmState true false)
  | GdbmOpens =>
    let w := set_file (Some Live) w in
    if negb newdb && negb read_ok then (false, w, GdbmState true false)
    else (true, w, GdbmState false false)
  end.

(** [man_gdbm_get_time] and its like: the time is read once. *)
Definition get_time_once (fstat : option (Z * Z)) (w : wrapper) : (Z * Z) * wrapper :=
  match w_mtime w with
  | Some t => (t, w)
  | None => let t := default ((-1)%Z, (-1)%Z) fstat in (t, Wrapper (w_name w) (w_file w) (Some t))
  end.

(** check_mandirs.c: [ensure_db_open]. *)
Definition ensure_db_open (open : wrapper → bool * wrapper) (w : wrapper) : bool * wrapper :=
  match w_file w with
  | Some _ => (true, w)
  | None => open w
  end.

(** Opening succeeds exactly when every step does, and only a failed lock
    leaves a handle behind. *)
Lemma open_and_lock_spec trunc e w :
  open_and_lock trunc e w =
    if oe_dbopen e && (oe_open e || negb trunc) && oe_flock e then (true, set_file (Some Live) w)
    else if oe_dbopen e && negb trunc then (false, set_file (Some Closed) w)
    else (false, set_file None w).
Proof. unfold open_and_lock, lock_result. by destruct trunc, e as [? [] [] []]. Qed.

(** C34: a back end that locks the index itself opens it exactly when the
    library opens it and the lock is granted, an index to be truncated having
    been locked before; Berkeley DB also refuses a file that is missing or
    empty.  A handle that was opened is live and can be closed; but when
    the lock of an existing index is refused, the closed handle stays in the
    wrapper, [ensure_db_open] takes it for an open one, and closing it
    again is undefined. *)
Theorem open_index creat trunc e name :
  let r := man_btree_open creat trunc e (db_new name) in
  (r.1 = true ↔ oe_dbopen e = true ∧ oe_flock e = true ∧ (trunc = true → oe_open e = true) ∧
     (creat = false → ∃ n, oe_stat e = Some n ∧ n ≠ 0%Z)) ∧
  (r.1 = true → w_file r.2 = Some Live ∧ db_free r.2 = Ret tt) ∧
  (r.1 = false → trunc = true ∨ oe_dbopen e = false ∨ oe_flock e = true → w_file r.2 = None ∧ db_free r.2 = Ret tt) ∧
  (creat = false → trunc = false → (∃ n, oe_stat e = Some n ∧ n ≠ 0%Z) → oe_dbopen e = true → oe_flock e = false →
     r.1 = false ∧ (∀ open, (ensure_db_open open r.2).1 = true) ∧ is_ret (db_free r.2) = false).
Proof.
  simpl. unfold man_btree_open. destruct e as [st op fl dbo]. cbn [oe_stat oe_open oe_flock oe_dbopen].
  assert (∀ w, open_and_lock trunc (OpenEnv st op fl dbo) w =
    if dbo && (op || negb trunc) && fl then (true, set_file (Some Live) w)
    else if dbo && negb trunc then (false, set_file (Some Closed) w) else (false, set_file None w)) as Hopen
    by (intros; apply open_and_lock_spec).
  destruct creat; cbn [negb].
  - rewrite Hopen. destruct dbo, op, fl, trunc; simpl; naive_solver.
  - destruct st as [n|]; [|naive_solver]. destruct (Z.eqb_spec n 0) as [->|Hn]; [naive_solver|].
    rewrite Hopen. destruct dbo, op, fl, trunc; simpl; naive_solver.
Qed.

(** ** Evaluation *)

(** A cursor that runs in circles over three keys. *)
Definition circle (first : bool) (c : nat) : option (cstr * nat) :=
  let n := if first then 0 else c in
  Some ((if Nat.eqb n 0 then lit "a" else if Nat.eqb n 1 then lit "b" else lit "c"), (S n) `mod` 3).
Definition circle_keys : gset cstr := {[ lit "a"; lit "b"; lit "c" ]}.

Example circle_ends : btree_keys circle 3 (BtreeCursor 0 None) = Some [lit "a"; lit "b"; lit "c"].
Proof. by vm_compute. Qed.

Lemma btree_traversal_witness :
  ∃ l, btree_keys circle 3 (BtreeCursor 0 None) = Some l ∧ NoDup l ∧ (∀ k, k ∈ l → k ∈ circle_keys) ∧
    (∀ keys, delivers circle true 0 keys → NoDup keys → l = keys).
Proof.
  refine (btree_traversal circle circle_keys _ (BtreeCursor 0 None) 3 _).
  - intros first c key c' [= <- _]. unfold circle_keys. repeat case_match; set_solver.
  - by vm_compute.
Defined.

(** An error of GNU dbm after an attempt to open an index that does not exist
    jumps into a function that has returned. *)
Example gdbm_error_after_failure :
  (let '(ok, _, s) := man_gdbm_open_wrapper false GdbmFails true (db_new (lit "x")) in (ok, is_ret (trap_error s))) = (false, false).
Proof. done. Qed.
