(* ===== verification/DbContent.v ===== *)
(** * libdb: the text format of the index entries

    The content stored under a key is either a tab-separated record of ten
    fields describing one page ([split_content], [make_content]) or, starting
    with a tab, the list of the name and extension pairs that share the key
    ([list_extensions], [make_extensions_reference]).  The functions are those
    of libdb/db_lookup.c and libdb/db_store.c. *)

From S2P Require Import Prelude CStr Fs Compression Filenames.

Definition ULT_MAN : ascii := "A".
Definition SO_MAN : ascii := "B".
Definition WHATIS_MAN : ascii := "C".
Definition STRAY_CAT : ascii := "D".
Definition WHATIS_CAT : ascii := "E".
Definition FIELDS : nat := 10.

Record name_ext := NameExt { ne_name : cstr; ne_ext : cstr }.
#[export] Instance name_ext_eq_dec : EqDecision name_ext.
Proof. solve_decision. Defined.

(** ** Definitions *)

(** [gripe_corrupt_data] and [gripe_replace_key] end the program. *)
Definition gripe_corrupt_data {A} : outcome A := Fatal "index cache corrupt".
Definition gripe_replace_key {A} : outcome A := Fatal "cannot replace key".

Definition copy_if_set (str : cstr) : option cstr :=
  if STREQ str (lit "-") then None else Some str.

Definition dash_if_unset (str : option cstr) : cstr :=
  match str with Some s => s | None => lit "-" end.

Definition make_multi_key (page ext : cstr) : cstr := page ++ TAB :: ext.

Definition name_to_key (name : cstr) : cstr := tolower <$> name.

(** The loop of [split_data] for the first [n] fields, then the last field.
    The content is a pointer: [strsep] leaves it null after the last field. *)
Fixpoint split_fields (n : nat) (content : option cstr) : outcome (list cstr) :=
  match n with
  | 0 => match content with Some c => Ret [c] | None => gripe_corrupt_data end
  | S n =>
    match content with
    | None => gripe_corrupt_data
    | Some c =>
      let '(field, rest) := strsep TAB c in
      fields ← split_fields n rest;
      Ret (field :: fields)
    end
  end.
Definition split_data (content : option cstr) : outcome (list cstr) :=
  split_fields (FIELDS - 1) content.

Definition split_content (cont_ptr : option cstr) : outcome mandata :=
  data ← split_data cont_ptr;
  match data with
  | [name; ext; sec; tv_sec; tv_nsec; id; pointer; filter; comp; whatis] =>
    s ← atol tv_sec;
    n ← atol tv_nsec;
    Ret (Mandata (copy_if_set name) ext sec (default NUL (head id)) (Some pointer)
           (Some comp) (Some filter) (Some whatis) (Timespec s n))
  | _ => Undef "split_data: ten fields"
  end.

(** The defaults [make_content] stores into the structure it is given. *)
Definition fill_unset (i : mandata) : mandata :=
  Mandata (md_name i) (md_ext i) (md_sec i) (md_id i)
    (Some (default (lit "-") (md_pointer i))) (Some (default (lit "-") (md_comp i)))
    (Some (default (lit "-") (md_filter i))) (Some (default [] (md_whatis i))) (md_mtime i).

(** [xasprintf] of the ten fields; the result is a C string, so a NUL id
    ends it early. *)
Definition c_string (s : list ascii) : cstr := take (strcspn (λ c, bool_decide (c = NUL)) s) s.

Definition make_content (i : mandata) : mandata * cstr :=
  let i := fill_unset i in
  (i, c_string (join TAB
    [dash_if_unset (md_name i); md_ext i; md_sec i;
     print_ld (tv_sec (md_mtime i)); print_ld (tv_nsec (md_mtime i));
     [md_id i]; default [] (md_pointer i); default [] (md_filter i);
     default [] (md_comp i); default [] (md_whatis i)])).

Definition name_ext_equals (r1 r2 : name_ext) : bool :=
  STREQ (ne_name r1) (ne_name r2) && STREQ (ne_ext r1) (ne_ext r2).
Definition name_ext_compare (r1 r2 : name_ext) : comparison :=
  lex_cmp (strcmp (ne_name r1) (ne_name r2)) (strcmp (ne_ext r1) (ne_ext r2)).

(** The loop of [list_extensions]; every turn shortens the string, so its
    length plus one bounds the turns. *)
Fixpoint ext_loop (fuel : nat) (data : option cstr) (refs : list name_ext) : list name_ext :=
  match fuel, data with
  | S fuel, Some d =>
    let '(name, data) := strsep TAB d in
    match data with
    | None => refs
    | Some d =>
      let '(ext, data) := strsep TAB d in
      ext_loop fuel data (gl_sortedlist_add name_ext_compare (NameExt name ext) refs)
    end
  | _, _ => refs
  end.
Definition list_extensions (data : cstr) : list name_ext :=
  ext_loop (S (length data)) (Some data) [].

Definition ref_text (r : name_ext) : cstr := TAB :: ne_name r ++ TAB :: ne_ext r.
Definition make_extensions_reference (refs : list name_ext) : cstr := concat (ref_text <$> refs).
(** The size it allocates, less the terminator. *)
Definition extensions_reference_len (refs : list name_ext) : nat :=
  foldr (λ r len, length (ne_name r) + length (ne_ext r) + 2 + len) 0 refs.

(** ** Keys *)

Lemma name_to_key_idemp n : name_to_key (name_to_key n) = name_to_key n.
Proof.
  unfold name_to_key. rewrite <-list_fmap_compose. apply list_fmap_ext.
  intros. apply tolower_idemp.
Qed.

Lemma name_to_key_tab n : TAB ∈ name_to_key n ↔ TAB ∈ n.
Proof.
  unfold name_to_key. rewrite list_elem_of_fmap. split.
  - intros (c & Hc & Hin). symmetry in Hc. by apply tolower_inj_tab in Hc as ->.
  - intros Hin. by exists TAB.
Qed.

Lemma name_to_key_app n e : name_to_key (make_multi_key n e) = make_multi_key (name_to_key n) (name_to_key e).
Proof. unfold name_to_key, make_multi_key. by rewrite fmap_app. Qed.

Lemma make_multi_key_tab n e : TAB ∈ make_multi_key n e.
Proof. unfold make_multi_key. set_solver. Qed.

Lemma make_multi_key_inj n e n' e' :
  TAB ∉ n → TAB ∉ n' → make_multi_key n e = make_multi_key n' e' → n = n' ∧ e = e'.
Proof.
  unfold make_multi_key. intros Hn Hn' Heq.
  pose proof (strsep_app TAB n e Hn) as H1. rewrite Heq, strsep_app in H1 by done.
  naive_solver.
Qed.

(** ** The ten fields *)

(** The fields of an entry can be stored: no tab in a field other than the
    last, no NUL, times within [long]. *)
Definition field_ok (s : cstr) : Prop := (TAB ∉ s) ∧ nonul s.
#[export] Instance field_ok_dec s : Decision (field_ok s).
Proof. unfold field_ok. apply _. Defined.

Record entry_ok (i : mandata) : Prop := EntryOk {
  ok_name : match md_name i with Some n => field_ok n ∧ n ≠ [] ∧ n ≠ lit "-" | None => True end;
  ok_ext : field_ok (md_ext i);
  ok_sec : field_ok (md_sec i);
  ok_id : md_id i ≠ TAB ∧ md_id i ≠ NUL;
  ok_pointer : field_ok (default [] (md_pointer i));
  ok_comp : field_ok (default [] (md_comp i));
  ok_filter : field_ok (default [] (md_filter i));
  ok_whatis : nonul (default [] (md_whatis i));
  ok_mtime : is_long (tv_sec (md_mtime i)) ∧ is_long (tv_nsec (md_mtime i));
}.

Lemma c_string_nonul s : nonul s → c_string s = s.
Proof.
  intros Hs. unfold c_string, strcspn.
  enough (strspn (λ c, negb (bool_decide (c = NUL))) s = length s) as -> by by rewrite firstn_all.
  induction s as [|x s IH]; simpl; [done|]. unfold nonul in *.
  rewrite bool_decide_eq_false_2 by set_solver. simpl. f_equal. apply IH. set_solver.
Qed.

Lemma join_nonul c l : c ≠ NUL → Forall nonul l → nonul (join c l).
Proof.
  intros Hc. induction 1 as [|s l Hs Hl IH]; simpl; [unfold nonul; set_solver|].
  unfold nonul in *. destruct l; [done|]. set_solver.
Qed.

Lemma print_ld_nonul n : is_long n → nonul (print_ld n).
Proof.
  intros Hn Hin. pose proof (print_ld_chars n Hn) as Hall.
  rewrite Forall_forall in Hall. by destruct (Hall _ Hin).
Qed.

Lemma fill_unset_ok i : entry_ok i → entry_ok (fill_unset i).
Proof.
  intros []. split; simpl; try done.
  - destruct (md_pointer i); [done|compute_done].
  - destruct (md_comp i); [done|compute_done].
  - destruct (md_filter i); [done|compute_done].
Qed.

Lemma fill_unset_idemp i : fill_unset (fill_unset i) = fill_unset i.
Proof. by destruct i. Qed.

(** Splitting a join with the right number of fields. *)
Lemma split_fields_join l last :
  Forall (λ t, TAB ∉ t) l → split_fields (length l) (Some (join TAB (l ++ [last]))) = Ret (l ++ [last]).
Proof.
  induction 1 as [|t l Ht Hl IH]; [done|]. simpl.
  destruct (l ++ [last]) as [|u us] eqn:E; [by destruct l|]. simpl.
  rewrite strsep_app by done. simpl in IH. by rewrite IH.
Qed.

Lemma split_fields_Ret n c l :
  split_fields n c = Ret l → ∃ s, c = Some s ∧ s = join TAB l ∧ length l = S n ∧
    Forall (λ t, TAB ∉ t) (take n l).
Proof.
  revert c l. induction n as [|n IH]; intros [s|] l; simpl; try done.
  - intros [= <-]. by exists s.
  - destruct (strsep TAB s) as [t [r|]] eqn:E; intros H; bind_inv; simplify_eq; last by destruct n.
    destruct (IH _ _ H) as (? & ? & ? & Hlen & Hall). simplify_eq.
    apply strsep_inv in E as [-> ?].
    eexists. split; [done|]. split.
    + destruct x; [done|]. done.
    + split; [simpl; by rewrite Hlen|]. by constructor.
Qed.

Section content.
Implicit Types i : mandata.

Lemma make_content_text i :
  entry_ok i →
  (make_content i).2 = join TAB
    [dash_if_unset (md_name i); md_ext i; md_sec i;
     print_ld (tv_sec (md_mtime i)); print_ld (tv_nsec (md_mtime i));
     [md_id i]; default (lit "-") (md_pointer i); default (lit "-") (md_filter i);
     default (lit "-") (md_comp i); default [] (md_whatis i)].
Proof.
  intros Hi%fill_unset_ok. unfold make_content. cbn [snd].
  rewrite c_string_nonul; [done|]. apply join_nonul; [done|].
  destruct Hi as [Hname Hext Hsec Hid Hp Hc Hf Hw [? ?]]. simpl in *.
  repeat apply Forall_cons_2; try apply Forall_nil_2; try (by apply print_ld_nonul); try done.
  all: try (by destruct Hext, Hsec, Hp, Hc, Hf).
  - destruct (md_name i); [apply Hname|compute_done].
  - unfold nonul. set_solver.
Qed.

Lemma split_make_content i :
  entry_ok i → split_content (Some (make_content i).2) = Ret (fill_unset i).
Proof.
  intros Hi. rewrite make_content_text by done.
  pose proof (fill_unset_ok i Hi) as [Hname Hext Hsec Hid Hp Hc Hf Hw [? ?]].
  simpl in Hname, Hext, Hsec, Hid, Hp, Hc, Hf, Hw.
  unfold split_content, split_data.
  match goal with |- context [split_fields _ (Some (join TAB ?l))] =>
    change (split_fields (FIELDS - 1) (Some (join TAB l)))
      with (split_fields (length (take 9 l)) (Some (join TAB (take 9 l ++ [default [] (md_whatis i)]))))
  end.
  rewrite split_fields_join.
  - simpl. rewrite !atol_print_ld by done. simpl. unfold fill_unset. f_equal.
    assert (copy_if_set (dash_if_unset (md_name i)) = md_name i) as ->.
    { unfold copy_if_set. destruct (md_name i) as [n|]; [|done].
      rewrite (proj2 (STREQ_false _ _)) by apply Hname. done. }
    destruct i as [? ? ? ? ? ? ? ? []]. done.
  - simpl. repeat apply Forall_cons_2; try apply Forall_nil_2; auto using print_ld_no_tab.
    all: try (by destruct Hext, Hsec, Hp, Hc, Hf).
    + destruct (md_name i); [apply Hname|compute_done].
    + rewrite list_elem_of_singleton. destruct Hid; congruence.
Qed.

(** The content of a page never starts with a tab unless its name does, which
    is how it is told from a list of references. *)
Lemma make_content_head i : entry_ok i → head (make_content i).2 ≠ Some TAB.
Proof.
  intros Hi. rewrite make_content_text by done. simpl.
  pose proof (ok_name i Hi) as Hn.
  destruct (md_name i) as [[|c n]|] eqn:E; simpl; [naive_solver| |done].
  destruct Hn as [[Hn _] _]. intros [= ->]. by apply Hn; left.
Qed.
End content.

(** ** Lists of references *)

#[export] Instance name_ext_compare_total : CmpTotal name_ext_compare.
Proof.
  split.
  - exact (lex_cmp_weak _ _ (cmp_contramap strcmp ne_name) (cmp_contramap strcmp ne_ext)).
  - intros [n1 e1] [n2 e2]. unfold name_ext_compare. simpl.
    destruct (strcmp n1 n2) eqn:E; simpl; try done.
    apply (cmp_eq (cmp:=strcmp)) in E as ->. by intros ->%(cmp_eq (cmp:=strcmp)).
Qed.

Lemma name_ext_equals_spec r1 r2 : name_ext_equals r1 r2 = bool_decide (r1 = r2).
Proof.
  destruct r1 as [n1 e1], r2 as [n2 e2]. unfold name_ext_equals. simpl. rewrite !STREQ_spec.
  repeat case_bool_decide; naive_solver.
Qed.

Definition ref_ok (r : name_ext) : Prop := (TAB ∉ ne_name r) ∧ (TAB ∉ ne_ext r).

Abbreviation sorted_refs := (StronglySorted (cmp_le name_ext_compare)).

Lemma ref_text_length r : length (ref_text r) = length (ne_name r) + length (ne_ext r) + 2.
Proof. unfold ref_text. simpl. rewrite length_app. simpl. lia. Qed.

(** The buffer [make_extensions_reference] allocates is filled exactly. *)
Lemma extensions_reference_length refs :
  length (make_extensions_reference refs) = extensions_reference_len refs.
Proof.
  unfold make_extensions_reference. induction refs as [|r refs IH]; [done|].
  cbn [fmap list_fmap concat]. rewrite length_app, ref_text_length, IH. done.
Qed.

Lemma make_extensions_reference_cons r refs :
  make_extensions_reference (r :: refs) =
    TAB :: ne_name r ++ TAB :: ne_ext r ++ make_extensions_reference refs.
Proof. unfold make_extensions_reference, ref_text. simpl. by rewrite <-app_assoc. Qed.

Lemma make_extensions_reference_head refs :
  refs ≠ [] → ∃ data, make_extensions_reference refs = TAB :: data.
Proof. destruct refs as [|r refs]; [done|]. rewrite make_extensions_reference_cons. eauto. Qed.

(** The loop reads back what [make_extensions_reference] wrote. *)
Lemma ext_loop_reference fuel refs data acc :
  refs ≠ [] → Forall ref_ok refs → make_extensions_reference refs = TAB :: data →
  length refs < fuel →
  ext_loop fuel (Some data) acc =
    fold_left (λ acc r, gl_sortedlist_add name_ext_compare r acc) refs acc.
Proof.
  intros Hne Hall. revert fuel data acc Hne.
  induction Hall as [|r refs [Hn He] Hall IH]; intros fuel data acc Hne Heq Hf; [done|].
  rewrite make_extensions_reference_cons in Heq. injection Heq as <-.
  destruct fuel as [|fuel]; simpl in Hf; [lia|]. simpl.
  rewrite strsep_app by done.
  destruct refs as [|r' refs].
  - rewrite app_nil_r, strsep_free by done. destruct fuel; by destruct r.
  - destruct (make_extensions_reference_head (r' :: refs)) as [data Hdata]; [done|].
    rewrite Hdata, strsep_app by done. rewrite (IH fuel data); [by destruct r|done|done|simpl in *; lia].
Qed.

Lemma list_extensions_reference refs data :
  refs ≠ [] → Forall ref_ok refs → sorted_refs refs →
  make_extensions_reference refs = TAB :: data → list_extensions data = refs.
Proof.
  intros Hne Hok Hs Heq. unfold list_extensions. rewrite (ext_loop_reference _ refs); try done.
  - exact (gl_sorted_of_id name_ext_compare refs Hs).
  - pose proof (extensions_reference_length refs) as Hlen. rewrite Heq in Hlen. simpl in Hlen.
    assert (2 * length refs <= extensions_reference_len refs) by (clear; induction refs; simpl; lia).
    destruct refs; simpl in *; [done|lia].
Qed.

Lemma ext_loop_inv fuel data acc :
  sorted_refs acc → Forall ref_ok acc →
  sorted_refs (ext_loop fuel data acc) ∧ Forall ref_ok (ext_loop fuel data acc).
Proof.
  revert data acc. induction fuel as [|fuel IH]; intros [d|] acc Hs Hok; simpl; try done.
  destruct (strsep TAB d) as [n [d1|]] eqn:E1; [|done].
  destruct (strsep TAB d1) as [e d2] eqn:E2. apply IH; [by apply gl_sortedlist_add_sorted; [apply _|]|].
  rewrite Forall_forall. intros r [->|Hr]%elem_of_gl_sortedlist_add.
  - apply strsep_inv in E1 as [_ ?]. split; [done|]. simpl.
    destruct d2; [by apply strsep_inv in E2 as [_ ?]|by apply strsep_inv_None in E2 as [_ ?]].
  - by eapply Forall_forall.
Qed.

(** Whatever the content, the references come out sorted and without tabs. *)
Lemma list_extensions_inv data :
  sorted_refs (list_extensions data) ∧ Forall ref_ok (list_extensions data).
Proof. apply ext_loop_inv; constructor. Qed.

(** ** The round trips *)

(** C10: [split_content] reads back what [make_content] writes: every field of
    a page entry survives, unset fields coming back as their defaults. *)
Theorem content_roundtrip (i : mandata) :
  entry_ok i → split_content (Some (make_content i).2) = Ret (make_content i).1.
Proof. apply split_make_content. Qed.

(** [list_extensions] reads back the list [make_extensions_reference]
    writes, and the buffer computed for it is filled exactly. *)
Theorem extensions_roundtrip refs :
  refs ≠ [] → Forall ref_ok refs → sorted_refs refs →
  (∃ data, make_extensions_reference refs = TAB :: data ∧ list_extensions data = refs) ∧
  length (make_extensions_reference refs) = extensions_reference_len refs.
Proof.
  intros Hne Hok Hs. split; [|apply extensions_reference_length].
  destruct (make_extensions_reference_head refs Hne) as [data Heq].
  exists data. split; [done|]. by apply list_extensions_reference.
Qed.

(** ** Evaluation *)

Definition example_page : mandata :=
  Mandata (Some (lit "Ls")) (lit "1") (lit "1") ULT_MAN None (Some (lit "gz")) None
    (Some (lit "list files")) (Timespec 1700000000 123).

Lemma content_roundtrip_witness :
  split_content (Some (make_content example_page).2) = Ret (make_content example_page).1.
Proof.
  apply (content_roundtrip example_page). split; vm_compute; try done; repeat split; try by not_in.
Defined.

Lemma extensions_roundtrip_witness :
  let refs := [NameExt (lit "LS") (lit "1x"); NameExt (lit "ls") (lit "1"); NameExt (lit "ls") (lit "1p")] in
  (∃ data, make_extensions_reference refs = TAB :: data ∧ list_extensions data = refs) ∧
  length (make_extensions_reference refs) = extensions_reference_len refs.
Proof.
  intros refs. apply (extensions_roundtrip refs); subst refs.
  - done.
  - repeat constructor; vm_compute; by not_in.
  - repeat constructor; by vm_compute.
Defined.
