(* ===== verification/DbLookup.v ===== *)
(** * libdb/db_lookup.c: looking pages up in the index

    [dblookup] fetches the lower-cased name; the content is one page, or a
    list of references each of which is fetched under its own key.
    [wf] is the invariant the operations of libdb keep on the contents, and
    [page_at] what the contents mean: which page is stored for a name and an
    extension. *)

From S2P Require Import Prelude CStr Fs Compression Filenames Mydbm DbContent Wordfnmatch.

Definition VER_KEY : cstr := lit "$version$".
Definition VER_ID : cstr := lit "2.5.0".

(** ** Definitions *)

Definition name_if_unset (n : cstr) (i : mandata) : mandata :=
  match md_name i with Some _ => i | None => set_name (Some n) i end.

(** The section test of [dblookup]. *)
Definition section_matches (section : option cstr) (exact : bool) (ext : cstr) : bool :=
  match section with
  | None => true
  | Some s => if exact then STREQ s ext else STRNEQ s ext (length s)
  end.

Section lookup.
Context {db : Type} `{Mydbm db} (dbf : db).

(** The multiple entries: each suitable reference is looked up. *)
Fixpoint lookup_refs (refs : list name_ext) (page : cstr) (section : option cstr)
    (exact match_case : bool) : outcome (list mandata) :=
  match refs with
  | [] => Ret []
  | r :: refs =>
    if match_case && negb (STREQ (ne_name r) page) then
      lookup_refs refs page section exact match_case
    else if negb (section_matches section exact (ne_ext r)) then
      lookup_refs refs page section exact match_case
    else
      match MYDBM_FETCH dbf (make_multi_key (ne_name r) (ne_ext r)) with
      | None => gripe_corrupt_data
      | Some multi_cont =>
        info ← split_content (Some multi_cont);
        infos ← lookup_refs refs page section exact match_case;
        Ret (name_if_unset (ne_name r) info :: infos)
      end
  end.

Definition dblookup (page : cstr) (section : option cstr) (exact match_case : bool)
    : outcome (list mandata) :=
  match MYDBM_FETCH dbf (name_to_key page) with
  | None => Ret []
  | Some cont =>
    if decide (head cont = Some TAB) then
      lookup_refs (list_extensions (drop 1 cont)) page section exact match_case
    else
      info ← split_content (Some cont);
      let info := name_if_unset page info in
      Ret (if (negb match_case || STREQ (default [] (md_name info)) page)
              && section_matches section exact (md_ext info)
           then [info] else [])
  end.

Definition dblookup_all (page : cstr) (section : option cstr) (match_case : bool) :=
  dblookup page section false match_case.

Definition dblookup_exact (page : cstr) (section : option cstr) (match_case : bool)
    : outcome (option mandata) :=
  infos ← dblookup page section true match_case;
  Ret (head infos).

(** [dblookup_pattern]: one turn of its loop over the keys. *)
Definition pattern_key `{Matcher} (pattern : cstr) (section : option cstr)
    (match_case pattern_regex try_descriptions : bool) (key : cstr) : outcome (list mandata) :=
  match MYDBM_FETCH dbf key with
  | None => Fatal "database corrupted; rebuild with mandb --create"
  | Some cont =>
    if decide (head key = Some "$"%char) then Ret []
    else if decide (head cont = Some TAB) then Ret []
    else
      info ← split_content (Some cont);
      if match section with
         | Some s => negb (STREQ s (md_sec info)) && negb (STREQ s (md_ext info))
         | None => false
         end
      then Ret []
      else
        let key := match strrchr key TAB with Some t => take t key | None => key end in
        let info := name_if_unset key info in
        let name := default [] (md_name info) in
        let got_match :=
          if pattern_regex then regexec (negb match_case) pattern name
          else fnmatch (negb match_case) pattern name in
        let got_match :=
          match md_whatis info with
          | Some whatis =>
            if try_descriptions && negb got_match then
              if pattern_regex then regexec (negb match_case) pattern whatis
              else word_fnmatch pattern whatis
            else got_match
          | None => got_match
          end in
        Ret (if got_match then [info] else [])
  end.

Fixpoint pattern_keys `{Matcher} (pattern : cstr) (section : option cstr)
    (match_case pattern_regex try_descriptions : bool) (keys : list cstr) : outcome (list mandata) :=
  match keys with
  | [] => Ret []
  | key :: keys =>
    infos ← pattern_key pattern section match_case pattern_regex try_descriptions key;
    rest ← pattern_keys pattern section match_case pattern_regex try_descriptions keys;
    Ret (infos ++ rest)
  end.

Definition dblookup_pattern `{Matcher} (pattern : cstr) (section : option cstr)
    (match_case pattern_regex try_descriptions : bool) : outcome (list mandata) :=
  pattern_keys pattern section match_case pattern_regex try_descriptions (db_keys dbf).
End lookup.

(** ** The invariant *)

(** A content that describes one page. *)
Record page_content (c : cstr) (i : mandata) : Prop := PageContent {
  page_head : head c ≠ Some TAB;
  page_split : split_content (Some c) = Ret i;
  page_ok : entry_ok i;
}.

Definition refs_of (c : cstr) : list name_ext := list_extensions (drop 1 c).

(** Under a key made of a name and an extension: a page with that extension,
    without a name of its own, that the name's key refers to. *)
Definition multi_ok (m : gmap cstr cstr) (k c : cstr) : Prop :=
  ∃ n e i c', k = make_multi_key n e ∧ (TAB ∉ n) ∧ page_content c i ∧
    md_name i = None ∧ md_ext i = e ∧ name_to_key n ≠ VER_KEY ∧
    m !! name_to_key n = Some c' ∧ head c' = Some TAB ∧ NameExt n e ∈ refs_of c'.

(** Under a name's key: the only page with that name in any case. *)
Definition single_ok (k c : cstr) : Prop :=
  ∃ i, page_content c i ∧ name_to_key (default k (md_name i)) = k.

(** Under a name's key: the references, sorted, distinct and not dangling. *)
Definition refs_ok (m : gmap cstr cstr) (k c : cstr) : Prop :=
  ∃ refs, c = make_extensions_reference refs ∧ refs ≠ [] ∧ NoDup refs ∧
    StronglySorted (cmp_le name_ext_compare) refs ∧
    Forall (λ r, ref_ok r ∧ name_to_key (ne_name r) = k ∧
                 is_Some (m !! make_multi_key (ne_name r) (ne_ext r))) refs.

Definition entry_wf (m : gmap cstr cstr) (k c : cstr) : Prop :=
  if decide (k = VER_KEY) then True
  else if decide (TAB ∈ k) then multi_ok m k c
  else single_ok k c ∨ refs_ok m k c.

Definition wf (m : gmap cstr cstr) : Prop := map_Forall (entry_wf m) m.

(** The page stored for a name and an extension. *)
Definition parse_page (c : cstr) : option mandata :=
  match split_content (Some c) with Ret i => Some (set_name None i) | _ => None end.

Definition page_at (m : gmap cstr cstr) (r : name_ext) : option mandata :=
  match m !! name_to_key (ne_name r) with
  | None => None
  | Some c =>
    if decide (head c = Some TAB) then
      if decide (r ∈ refs_of c) then m !! make_multi_key (ne_name r) (ne_ext r) ≫= parse_page
      else None
    else
      match split_content (Some c) with
      | Ret i =>
        if decide (default (name_to_key (ne_name r)) (md_name i) = ne_name r ∧ md_ext i = ne_ext r)
        then Some (set_name None i) else None
      | _ => None
      end
  end.

(** ** What the invariant gives *)

Section wf.
Context (m : gmap cstr cstr) (Hwf : wf m).

Lemma wf_simple k c :
  m !! k = Some c → k ≠ VER_KEY → TAB ∉ k → single_ok k c ∨ refs_ok m k c.
Proof.
  intros Hk Hv Ht. pose proof (Hwf k c Hk) as Hc. unfold entry_wf in Hc.
  by rewrite !decide_False in Hc by done.
Qed.

Lemma wf_multi k c : m !! k = Some c → TAB ∈ k → multi_ok m k c.
Proof.
  intros Hk Ht. pose proof (Hwf k c Hk) as Hc. unfold entry_wf in Hc.
  rewrite decide_False in Hc.
  - by rewrite decide_True in Hc.
  - intros ->. revert Ht. by apply (bool_decide_unpack (TAB ∉ VER_KEY)).
Qed.

Lemma wf_multi_entry n e c :
  m !! make_multi_key n e = Some c → TAB ∉ n →
  ∃ i c', page_content c i ∧ md_name i = None ∧ md_ext i = e ∧ name_to_key n ≠ VER_KEY ∧
    m !! name_to_key n = Some c' ∧ head c' = Some TAB ∧ NameExt n e ∈ refs_of c'.
Proof.
  intros Hk Hn. apply wf_multi in Hk as (n' & e' & i & c' & Heq & Hn' & Hrest).
  - apply make_multi_key_inj in Heq as [-> ->]; [eauto|done|done].
  - apply make_multi_key_tab.
Qed.
End wf.

Lemma refs_of_reference refs :
  refs ≠ [] → Forall ref_ok refs → StronglySorted (cmp_le name_ext_compare) refs →
  head (make_extensions_reference refs) = Some TAB ∧ refs_of (make_extensions_reference refs) = refs.
Proof.
  intros Hne Hok Hs. destruct (make_extensions_reference_head refs Hne) as [data Hd].
  unfold refs_of. rewrite Hd. split; [done|]. simpl. rewrite drop_0. by apply list_extensions_reference.
Qed.

Lemma refs_ok_inv m k c :
  refs_ok m k c → head c = Some TAB ∧ c = make_extensions_reference (refs_of c) ∧
    refs_of c ≠ [] ∧ NoDup (refs_of c) ∧
    StronglySorted (cmp_le name_ext_compare) (refs_of c) ∧
    Forall (λ r, ref_ok r ∧ name_to_key (ne_name r) = k ∧
                 is_Some (m !! make_multi_key (ne_name r) (ne_ext r))) (refs_of c).
Proof.
  intros (refs & Hc & Hne & Hnd & Hs & Hall).
  assert (Forall ref_ok refs) as Hok by (eapply Forall_impl; [done|]; naive_solver).
  subst c. by destruct (refs_of_reference refs Hne Hok Hs) as [-> ->].
Qed.

Lemma single_refs_disjoint m k c : single_ok k c → refs_ok m k c → False.
Proof. intros (i & [Hh _] & _) (Ht & _)%refs_ok_inv. done. Qed.

(** What is stored for a reference. *)
Definition ref_entry (m : gmap cstr cstr) (r : name_ext) (i : mandata) : Prop :=
  ∃ c, m !! make_multi_key (ne_name r) (ne_ext r) = Some c ∧
    split_content (Some c) = Ret i ∧ md_name i = None ∧ md_ext i = ne_ext r.

Lemma set_name_None_id i : md_name i = None → set_name None i = i.
Proof. destruct i; simpl. by intros ->. Qed.

Lemma ref_entry_parse m r i :
  ref_entry m r i → m !! make_multi_key (ne_name r) (ne_ext r) ≫= parse_page = Some i.
Proof.
  intros (c & Hc & Hs & Hn & He). rewrite Hc. simpl. unfold parse_page. rewrite Hs.
  by rewrite set_name_None_id.
Qed.

Lemma refs_entries m k c :
  wf m → refs_ok m k c → Forall (λ r, ∃ i, ref_entry m r i) (refs_of c).
Proof.
  intros Hwf (_ & _ & _ & _ & _ & Hall)%refs_ok_inv.
  eapply Forall_impl; [done|]. intros r ([Hn _] & _ & c' & Hc').
  destruct (wf_multi_entry m Hwf _ _ _ Hc' Hn) as (i & ? & [???] & ? & ? & _).
  exists i, c'. done.
Qed.

Lemma page_at_None m r : m !! name_to_key (ne_name r) = None → page_at m r = None.
Proof. intros Hk. unfold page_at. by rewrite Hk. Qed.

Lemma page_at_refs m r c i :
  m !! name_to_key (ne_name r) = Some c → head c = Some TAB → r ∈ refs_of c →
  ref_entry m r i → page_at m r = Some i.
Proof.
  intros Hk Hh Hr Hi. unfold page_at. rewrite Hk, !decide_True by done. by apply ref_entry_parse.
Qed.

Lemma page_at_refs_inv m r c i :
  m !! name_to_key (ne_name r) = Some c → head c = Some TAB →
  page_at m r = Some i → r ∈ refs_of c.
Proof. unfold page_at. intros -> Hh. rewrite decide_True by done. by case_decide. Qed.

Lemma page_at_single m r c i :
  m !! name_to_key (ne_name r) = Some c → page_content c i →
  page_at m r = if decide (default (name_to_key (ne_name r)) (md_name i) = ne_name r ∧ md_ext i = ne_ext r)
                then Some (set_name None i) else None.
Proof. unfold page_at. intros -> [Hh Hs _]. rewrite decide_False by done. by rewrite Hs. Qed.

(** ** Lookups on a well-formed database *)

Section lookups.
Context {db : Type} `{MydbmLaws db} (dbf : db).
Let m := db_view dbf.
Context (section : option cstr) (exact match_case : bool) (page : cstr).

Definition suitable (r : name_ext) : bool :=
  (negb match_case || STREQ (ne_name r) page) && section_matches section exact (ne_ext r).

Lemma lookup_refs_cons r refs :
  lookup_refs dbf (r :: refs) page section exact match_case =
    if suitable r then
      match MYDBM_FETCH dbf (make_multi_key (ne_name r) (ne_ext r)) with
      | None => gripe_corrupt_data
      | Some multi_cont =>
        info ← split_content (Some multi_cont);
        infos ← lookup_refs dbf refs page section exact match_case;
        Ret (name_if_unset (ne_name r) info :: infos)
      end
    else lookup_refs dbf refs page section exact match_case.
Proof.
  simpl. unfold suitable.
  by destruct match_case, (STREQ (ne_name r) page), (section_matches section exact (ne_ext r)).
Qed.

Lemma lookup_refs_Ret refs :
  Forall (λ r, ∃ i, ref_entry m r i) refs →
  ∃ infos, lookup_refs dbf refs page section exact match_case = Ret infos ∧
    Forall2 (λ r i, ∃ i0, ref_entry m r i0 ∧ i = set_name (Some (ne_name r)) i0)
      (filter (λ r, suitable r = true) refs) infos.
Proof.
  induction 1 as [|r refs (i & c & Hc & Hs & Hn & He) Hall (infos & IH & Hinfos)].
  { exists []. split; [done|]. constructor. }
  rewrite lookup_refs_cons, filter_cons.
  destruct (decide (suitable r = true)) as [->|Hr]; [|apply not_true_is_false in Hr as ->; eauto].
  rewrite fetch_view. fold m. rewrite Hc, Hs. simpl. rewrite IH. simpl.
  unfold name_if_unset. rewrite Hn. eexists. split; [done|]. constructor; [|done].
  exists i. split; [by exists c|done].
Qed.

(** The name's key holds a single page that was stored without a name of its
    own: the page whose name is the key itself. *)
Definition unnamed : bool :=
  match m !! name_to_key page with
  | Some c =>
    negb (bool_decide (head c = Some TAB)) &&
    match split_content (Some c) with
    | Ret i => bool_decide (md_name i = None)
    | _ => false
    end
  | None => false
  end.

(** The name under which a page is returned. *)
Definition shown_name (r : name_ext) : cstr := if unnamed then page else ne_name r.

(** What [dblookup] returns: the pages stored under the name in any case whose
    section suits.  A lookup that is to match the case returns those of exactly
    the name; but a page stored without a name matches in any case, and is
    returned under the name that was asked for. *)
Definition answers (i : mandata) : Prop :=
  ∃ r i0, page_at m r = Some i0 ∧ name_to_key (ne_name r) = name_to_key page ∧
    (match_case = true → ne_name r = page ∨ unnamed = true) ∧
    section_matches section exact (ne_ext r) = true ∧ i = set_name (Some (shown_name r)) i0.

Definition shown_ref (i : mandata) : name_ext := NameExt (default [] (md_name i)) (md_ext i).

Lemma page_at_ext r i : wf m → page_at m r = Some i → TAB ∉ ne_name r → md_ext i = ne_ext r.
Proof.
  intros Hwf Hp Ht. unfold page_at in Hp. destruct (m !! name_to_key (ne_name r)) as [c|]; [|done].
  case_decide.
  - case_decide; [|done]. destruct (m !! make_multi_key _ _) as [c'|] eqn:E; [|done].
    destruct (wf_multi_entry m Hwf _ _ _ E Ht) as (i' & _ & [_ Hs _] & _ & He & _).
    simpl in Hp. unfold parse_page in Hp. rewrite Hs in Hp. by simplify_eq.
  - destruct (split_content _); try done. case_decide as Hd; [|done]. simplify_eq. apply Hd.
Qed.

Lemma dblookup_refs c :
  wf m → m !! name_to_key page = Some c → refs_ok m (name_to_key page) c →
  ∃ infos, dblookup dbf page section exact match_case = Ret infos ∧
    (∀ i, i ∈ infos ↔ answers i) ∧ NoDup (shown_ref <$> infos) ∧ StronglySorted (cmp_le name_ext_compare) (shown_ref <$> infos).
Proof.
  intros Hwf Hk Hok. pose proof (refs_entries m _ c Hwf Hok) as Hents.
  pose proof (refs_ok_inv m _ c Hok) as (Hh & _ & _ & Hnd & Hsort & Hall).
  unfold dblookup. rewrite fetch_view. fold m. rewrite Hk, decide_True by done.
  fold (refs_of c). destruct (lookup_refs_Ret _ Hents) as (infos & -> & Hinfos).
  exists infos. split; [done|].
  assert (unnamed = false) as Hun by (unfold unnamed; by rewrite Hk, bool_decide_eq_true_2).
  assert (∀ r, shown_name r = ne_name r) as Hshow by (intros; unfold shown_name; by rewrite Hun).
  rewrite Forall_forall in Hall. split.
  - intros i. unfold answers. split.
    + intros [j Hj]%list_elem_of_lookup.
      destruct (Forall2_lookup_r _ _ _ _ _ Hinfos Hj) as (r & Hr & i0 & Hi0 & ->).
      apply list_elem_of_lookup_2, list_elem_of_filter in Hr as [Hsuit Hr].
      destruct (Hall r Hr) as (_ & Hkey & _).
      apply andb_true_iff in Hsuit as [Hname Hsec].
      exists r, i0. rewrite Hshow. split; [|split; [done|split; [|done]]].
      * eapply page_at_refs; [by rewrite Hkey|done..].
      * intros ->. simpl in Hname. left. by apply STREQ_true.
    + intros (r & i0 & Hp & Hkey & Hname & Hsec & ->). rewrite Hun in Hname. rewrite Hshow.
      assert (r ∈ refs_of c) as Hr by (eapply page_at_refs_inv; [by rewrite Hkey|done..]).
      assert (r ∈ filter (λ r, suitable r = true) (refs_of c)) as Hin.
      { apply list_elem_of_filter. split; [|done]. unfold suitable. rewrite Hsec, andb_true_r.
        destruct match_case; [|done]. simpl. destruct Hname as [->|?]; [done|apply STREQ_refl|done]. }
      apply list_elem_of_lookup in Hin as [j Hj].
      destruct (Forall2_lookup_l _ _ _ _ _ Hinfos Hj) as (i & Hi & i1 & Hi1 & ->).
      rewrite (page_at_refs m r c i1) in Hp by (by rewrite ?Hkey). simplify_eq.
      by eapply list_elem_of_lookup_2.
  - replace (shown_ref <$> infos) with (filter (λ r, suitable r = true) (refs_of c)).
    + split; [by apply NoDup_filter|by apply StronglySorted_filter].
    + clear -Hinfos. induction Hinfos as [|r i rs infos' (i0 & (c' & _ & _ & _ & He) & ->) _ IH]; [done|].
      cbn [fmap list_fmap]. f_equal; [|exact IH]. unfold shown_ref. simpl. rewrite He. by destruct r.
Qed.

Lemma dblookup_single c :
  wf m → m !! name_to_key page = Some c → single_ok (name_to_key page) c →
  ∃ infos, dblookup dbf page section exact match_case = Ret infos ∧
    (∀ i, i ∈ infos ↔ answers i) ∧ NoDup (shown_ref <$> infos) ∧ StronglySorted (cmp_le name_ext_compare) (shown_ref <$> infos).
Proof.
  intros Hwf Hk (i & Hpc & Hname). pose proof Hpc as [Hh Hs _]. unfold dblookup.
  rewrite fetch_view. fold m. rewrite Hk, decide_False by done. rewrite Hs. simpl.
  assert (name_if_unset page i = set_name (Some (default page (md_name i))) i) as ->.
  { unfold name_if_unset. destruct (md_name i) eqn:E; [|done]. destruct i; simpl in *. by subst. }
  eexists. split; [done|]. simpl.
  assert (unnamed = bool_decide (md_name i = None)) as Hun by (unfold unnamed; by rewrite Hk, Hs, bool_decide_eq_false_2).
  set (key := name_to_key page) in *. set (r0 := NameExt (default key (md_name i)) (md_ext i)).
  assert (∀ r i0, name_to_key (ne_name r) = key → page_at m r = Some i0 ↔ r = r0 ∧ i0 = set_name None i)
    as Hat.
  { intros r i0 Hr. rewrite (page_at_single m r c i); [|by rewrite Hr|done]. rewrite Hr.
    destruct r as [n e]. subst r0. simpl. case_decide; split; naive_solver. }
  assert (shown_name r0 = default page (md_name i)) as Hshow.
  { unfold shown_name. rewrite Hun. subst r0. simpl. by destruct (md_name i). }
  split.
  - intros j. unfold answers. split.
    + case_match eqn:E; [|by intros ?%elem_of_nil]. intros ->%list_elem_of_singleton.
      apply andb_true_iff in E as [Hm Hsec].
      exists r0, (set_name None i). rewrite Hshow. repeat split; [by apply Hat|done| |done].
      intros ->. rewrite Hun. subst r0. simpl. destruct (md_name i); [left; by apply STREQ_true|by right].
    + intros (r & i0 & Hp & Hr & Hm & Hsec & ->). apply Hat in Hp as [-> ->]; [|done].
      rewrite Hshow. rewrite Hun in Hm. subst r0. simpl in *. rewrite Hsec, andb_true_r.
      replace (negb match_case || STREQ (default page (md_name i)) page) with true.
      * by left.
      * destruct match_case; [|done]. simpl. symmetry. apply STREQ_true. destruct (md_name i); [|done].
        by destruct Hm as [|?%bool_decide_eq_true].
  - case_match; split; repeat constructor; apply not_elem_of_nil.
Qed.

(** What the cases above amount to. *)
Lemma dblookup_returns :
  wf m → TAB ∉ page → name_to_key page ≠ VER_KEY →
  ∃ infos, dblookup dbf page section exact match_case = Ret infos ∧
    (∀ i, i ∈ infos ↔ answers i) ∧ NoDup (shown_ref <$> infos) ∧ StronglySorted (cmp_le name_ext_compare) (shown_ref <$> infos).
Proof.
  intros Hwf Ht Hv. destruct (m !! name_to_key page) as [c|] eqn:Hk.
  - destruct (wf_simple m Hwf _ c Hk Hv) as [Hok|Hok].
    + by rewrite name_to_key_tab.
    + by eapply dblookup_single.
    + by eapply dblookup_refs.
  - exists []. unfold dblookup. rewrite fetch_view. fold m. rewrite Hk. split; [done|]. split.
    + intros i. split; [by intros ?%elem_of_nil|]. intros (r & i0 & Hp & Hr & _).
      rewrite page_at_None in Hp; [done|]. by rewrite Hr.
    + split; constructor.
Qed.

(** C2: on a well-formed index a lookup by a name (not the version entry's)
    always succeeds.  It returns, each once and in the order of names and
    extensions, exactly the pages stored under the name in any case whose
    section suits; when the case is to match, exactly those of the very name
    and, whatever the case asked for, the page that is alone under its key and
    stored without a name, which is then returned under the name asked for. *)
Theorem dblookup_correct :
  wf m → TAB ∉ page → name_to_key page ≠ VER_KEY →
  ∃ infos, dblookup dbf page section exact match_case = Ret infos ∧
    (∀ i, i ∈ infos ↔ answers i) ∧ NoDup (shown_ref <$> infos) ∧ StronglySorted (cmp_le name_ext_compare) (shown_ref <$> infos).
Proof. apply dblookup_returns. Qed.
End lookups.

(** With the extension and the case given there is one answer at most. *)
Lemma answers_unique {db} `{MydbmLaws db} (dbf : db) sec page i j :
  answers dbf (Some sec) true true page i → answers dbf (Some sec) true true page j → i = j.
Proof.
  intros (r & i0 & Hp & Hk & Hc & Hsec & ->) (r' & j0 & Hp' & Hk' & Hc' & Hsec' & ->).
  specialize (Hc eq_refl). specialize (Hc' eq_refl).
  apply STREQ_true in Hsec, Hsec'. subst sec. enough (r = r') as <- by congruence.
  destruct (unnamed dbf page) eqn:Hu.
  - unfold unnamed in Hu. unfold page_at in *. rewrite Hk in Hp. rewrite Hk' in Hp'.
    destruct (db_view dbf !! name_to_key page) as [c|]; [|done]. apply andb_true_iff in Hu as [Hh%negb_true_iff%bool_decide_eq_false Hn].
    rewrite decide_False in Hp, Hp' by done. destruct (split_content (Some c)); try done.
    case_decide as Ha; [|done]. case_decide as Hb; [|done]. destruct Ha as [Ha1 Ha2], Hb as [Hb1 Hb2].
    destruct r, r'; simpl in *; congruence.
  - destruct Hc as [Hc|], Hc' as [Hc'|]; [|done..]. destruct r, r'; simpl in *; congruence.
Qed.

Lemma dblookup_exact_answers {db} `{MydbmLaws db} (dbf : db) page sec match_case :
  wf (db_view dbf) → TAB ∉ page → name_to_key page ≠ VER_KEY →
  ∃ o, dblookup_exact dbf page sec match_case = Ret o ∧
    match o with
    | Some i => answers dbf sec true match_case page i
    | None => ∀ i, ¬ answers dbf sec true match_case page i
    end.
Proof.
  intros Hwf Ht Hv. unfold dblookup_exact.
  destruct (dblookup_returns dbf sec true match_case page Hwf Ht Hv) as (infos & -> & Hin & _).
  rewrite bind_Ret. eexists. split; [done|]. destruct infos as [|i infos]; simpl.
  - intros i Hi. apply Hin in Hi. by apply elem_of_nil in Hi.
  - apply Hin. by left.
Qed.

(** A page that is stored is the one found for its name and extension. *)
Lemma answers_stored {db} `{MydbmLaws db} (dbf : db) r j match_case :
  page_at (db_view dbf) r = Some j →
  answers dbf (Some (ne_ext r)) true match_case (ne_name r) (set_name (Some (ne_name r)) j).
Proof.
  intros Hp. exists r, j.
  assert (shown_name dbf (ne_name r) r = ne_name r) as Hs by (unfold shown_name; by destruct (unnamed _ _)).
  rewrite Hs. split_and!; try done; [by left|apply STREQ_refl].
Qed.

Lemma dblookup_exact_stored {db} `{MydbmLaws db} (dbf : db) r j :
  wf (db_view dbf) → page_at (db_view dbf) r = Some j → TAB ∉ ne_name r →
  name_to_key (ne_name r) ≠ VER_KEY →
  dblookup_exact dbf (ne_name r) (Some (ne_ext r)) true = Ret (Some (set_name (Some (ne_name r)) j)).
Proof.
  intros Hwf Hp Ht Hv. apply (answers_stored dbf r j true) in Hp.
  destruct (dblookup_exact_answers dbf (ne_name r) (Some (ne_ext r)) true Hwf Ht Hv) as ([i|] & -> & Ho).
  - do 2 f_equal. by eapply answers_unique.
  - by apply Ho in Hp.
Qed.

(** A stored page comes from the content of a key. *)
Lemma page_at_content m r i :
  wf m → page_at m r = Some i → TAB ∉ ne_name r →  name_to_key (ne_name r) ≠ VER_KEY →
  ∃ c j, page_content c j ∧ i = set_name None j.
Proof.
  intros Hwf Hp Ht Hv. unfold page_at in Hp. destruct (m !! name_to_key (ne_name r)) as [c|] eqn:Hc; [|done].
  case_decide as Hh.
  - case_decide; [|done]. destruct (m !! make_multi_key _ _) as [c'|] eqn:E; [|done].
    destruct (wf_multi_entry m Hwf _ _ _ E Ht) as (j & _ & Hpc & _). exists c', j. split; [done|].
    simpl in Hp. unfold parse_page in Hp. rewrite (page_split _ _ Hpc) in Hp. by simplify_eq.
  - destruct (wf_simple m Hwf _ c Hc) as [(j & Hpc & _)|Hok]; [done|by rewrite name_to_key_tab| |].
    + exists c, j. split; [done|]. rewrite (page_split _ _ Hpc) in Hp. case_decide; by simplify_eq.
    + by apply refs_ok_inv in Hok as (? & _).
Qed.

(** ** Evaluation *)

Lemma example_page_ok : entry_ok example_page.
Proof. split; vm_compute; try done; repeat split; try by not_in. Qed.

(** The index with the page [Ls.1] only. *)
Definition one_page : gmap cstr cstr := {[ lit "ls" := (make_content example_page).2 ]}.

Lemma one_page_wf : wf one_page.
Proof.
  unfold wf, one_page. apply map_Forall_singleton. unfold entry_wf.
  rewrite !decide_False; [|compute_done|done]. left. exists (fill_unset example_page). split; [|done].
  pose proof example_page_ok.
  split; [by apply make_content_head|by apply split_make_content|by apply fill_unset_ok].
Qed.

Lemma dblookup_correct_witness :
  ∃ infos, dblookup one_page (lit "LS") (Some (lit "1")) false false = Ret infos ∧
    (∀ i, i ∈ infos ↔ answers one_page (Some (lit "1")) false false (lit "LS") i) ∧
    NoDup (shown_ref <$> infos) ∧ StronglySorted (cmp_le name_ext_compare) (shown_ref <$> infos).
Proof.
  refine (dblookup_correct one_page (Some (lit "1")) false false (lit "LS") one_page_wf _ _).
  - compute_done.
  - done.
Defined.

Example one_page_lookup :
  (infos ← dblookup one_page (lit "LS") (Some (lit "1")) false false; Ret (map md_name infos)) =
  Ret [Some (lit "Ls")].
Proof. by vm_compute. Qed.
