(* ===== verification/DbGroup.v ===== *)
(** * Groups of keys of the index

    All the keys that belong to one name: the lower-cased name and the keys of
    its names and extensions.  The invariant and the meaning of the index are
    local to such groups, so an operation that changes one group is proved
    correct by describing the new state of that group: [empty_group],
    [single_group] or [refs_group]. *)

From S2P Require Import Prelude CStr Fs Compression Filenames Mydbm DbContent Wordfnmatch DbLookup.

Definition in_group (k x : cstr) : Prop :=
  x = k ∨ ∃ n e, x = make_multi_key n e ∧ (TAB ∉ n) ∧ name_to_key n = k.

(** The key of a group: a lower-cased name other than the version key. *)
Definition group_key (k : cstr) : Prop := (TAB ∉ k) ∧ k ≠ VER_KEY.

Definition of_group (k : cstr) (r : name_ext) : Prop :=
  (TAB ∉ ne_name r) ∧ name_to_key (ne_name r) = k.

Abbreviation multi_key r := (make_multi_key (ne_name r) (ne_ext r)).

Definition no_multi (m : gmap cstr cstr) (k : cstr) : Prop :=
  ∀ r, of_group k r → m !! multi_key r = None.

Definition empty_group (m : gmap cstr cstr) (k : cstr) : Prop :=
  m !! k = None ∧ no_multi m k.

Definition single_group (m : gmap cstr cstr) (k c : cstr) (i : mandata) : Prop :=
  m !! k = Some c ∧ page_content c i ∧ name_to_key (default k (md_name i)) = k ∧ no_multi m k.

Definition refs_group (m : gmap cstr cstr) (k : cstr) (refs : list name_ext)
    (f : name_ext → option mandata) : Prop :=
  m !! k = Some (make_extensions_reference refs) ∧ refs ≠ [] ∧ NoDup refs ∧
  StronglySorted (cmp_le name_ext_compare) refs ∧
  Forall (λ r, ref_ok r ∧ name_to_key (ne_name r) = k) refs ∧
  (∀ r, of_group k r →
    match m !! multi_key r with
    | Some c => r ∈ refs ∧ ∃ i, page_content c i ∧ md_name i = None ∧ md_ext i = ne_ext r ∧ f r = Some i
    | None => (r ∉ refs) ∧ f r = None
    end).

Lemma multi_key_inj k k' r r' : of_group k r → of_group k' r' → multi_key r = multi_key r' → r = r'.
Proof.
  intros [Hr _] [Hr' _] Heq. apply make_multi_key_inj in Heq as [Hn He]; [|done|done].
  destruct r, r'. simpl in *. by subst.
Qed.

Section groups.
Context (m : gmap cstr cstr) (k : cstr) (Hk : group_key k).

Lemma multi_not_group_key r : multi_key r ≠ k.
Proof. intros Heq. apply (proj1 Hk). rewrite <-Heq. apply make_multi_key_tab. Qed.

Lemma in_group_multi r : TAB ∉ ne_name r → in_group k (multi_key r) → of_group k r.
Proof.
  intros Hr [Heq|(n & e & Heq & Hn & Hkey)]; [by apply multi_not_group_key in Heq|].
  apply make_multi_key_inj in Heq as [Heq _]; [|done|done]. by split; rewrite Heq.
Qed.

Lemma group_state :
  wf m → empty_group m k ∨ (∃ c i, single_group m k c i) ∨ (∃ refs, refs_group m k refs (page_at m)).
Proof.
  intros Hwf.
  assert (∀ r c, of_group k r → m !! multi_key r = Some c →
    ∃ i c', page_content c i ∧ md_name i = None ∧ md_ext i = ne_ext r ∧ m !! k = Some c' ∧
      head c' = Some TAB ∧ r ∈ refs_of c') as Hmulti.
  { intros r c [Hr <-] Hc.
    destruct (wf_multi_entry m Hwf _ _ _ Hc Hr) as (i & c' & ? & ? & ? & _ & ? & ? & ?).
    exists i, c'. by destruct r. }
  destruct (m !! k) as [c|] eqn:E.
  - destruct (wf_simple m Hwf k c E) as [Hs|Hok]; [apply Hk..| |].
    + right; left. pose proof Hs as (i & Hc & Hn). exists c, i. split; [done|]. split; [done|].
      split; [done|]. intros r Hr. destruct (m !! multi_key r) as [c1|] eqn:E1; [|done].
      destruct (Hmulti _ _ Hr E1) as (? & ? & _ & _ & _ & [= <-] & Hh & _). by destruct Hc.
    + right; right. exists (refs_of c).
      destruct (refs_ok_inv m k c Hok) as (Hh & Hc & Hne & Hnd & Hs & Hall).
      split; [by rewrite <-Hc|]. split; [done|]. split; [done|]. split; [done|]. split.
      { eapply Forall_impl; [done|]. naive_solver. }
      intros r Hr. destruct (m !! multi_key r) as [c1|] eqn:E1.
      * destruct (Hmulti _ _ Hr E1) as (i & ? & Hc1 & Hi & He & [= <-] & _ & Hin).
        split; [done|]. exists i. split_and!; try done.
        eapply page_at_refs; [by rewrite (proj2 Hr)|done..|]. exists c1. by destruct Hc1.
      * assert (r ∉ refs_of c) as Hin.
        { intros Hin. rewrite Forall_forall in Hall. destruct (Hall r Hin) as (_ & _ & [? ?]). congruence. }
        split; [done|]. unfold page_at. rewrite (proj2 Hr), E, decide_True by done. by case_decide.
  - left. split; [done|]. intros r Hr. destruct (m !! multi_key r) as [c1|] eqn:E1; [|done].
    by destruct (Hmulti _ _ Hr E1) as (? & ? & _ & _ & _ & ? & _).
Qed.

(** The pages of a group in each state. *)
Lemma page_at_empty r : empty_group m k → of_group k r → page_at m r = None.
Proof. intros [He _] [_ Hr]. apply page_at_None. by rewrite Hr. Qed.

Lemma page_at_single_group c i r :
  single_group m k c i → of_group k r →
  page_at m r = if decide (r = NameExt (default k (md_name i)) (md_ext i))
                then Some (set_name None i) else None.
Proof using Type.
  clear Hk. intros (Hc & Hi & _) [_ Hr]. rewrite (page_at_single m r c i); [|by rewrite Hr|done].
  rewrite Hr. destruct r as [n e]. simpl. repeat case_decide; naive_solver.
Qed.

Lemma refs_group_page refs f r : refs_group m k refs f → of_group k r → page_at m r = f r.
Proof using Type.
  clear Hk. intros (Hc & Hne & Hnd & Hs & Hall & Hf) Hr. pose proof (Hf r Hr) as Hfr.
  assert (Forall ref_ok refs) as Hok by (eapply Forall_impl; [done|]; naive_solver).
  destruct (refs_of_reference refs Hne Hok Hs) as [Hh Hrefs].
  destruct (m !! multi_key r) as [c|] eqn:E.
  - destruct Hfr as (Hin & i & [Hi1 Hi2 _] & Hi & He & ->).
    eapply page_at_refs; [by rewrite (proj2 Hr)|done|by rewrite Hrefs|]. by exists c.
  - destruct Hfr as [Hin ->]. unfold page_at. rewrite (proj2 Hr), Hc, (decide_True _ _ Hh).
    by rewrite Hrefs, decide_False.
Qed.

(** ** Changing one group *)

Context (m' : gmap cstr cstr).

Lemma wf_group :
  wf m → (∀ x, ¬ in_group k x → m' !! x = m !! x) →
  (∀ x c, in_group k x → m' !! x = Some c → entry_wf m' x c) → wf m'.
Proof.
  intros Hwf Hout Hin x c Hx.
  assert (in_group k x ∨ ¬ in_group k x) as [Hg|Hg].
  { destruct (decide (x = k)) as [->|Hne]; [by left; left|].
    destruct (strsep TAB x) as [n [e|]] eqn:E.
    - apply strsep_inv in E as [-> Hn]. fold (make_multi_key n e).
      destruct (decide (name_to_key n = k)); [left; right; eauto|].
      right. intros Hg%(in_group_multi (NameExt n e)); [|done]. by destruct Hg.
    - apply strsep_inv_None in E as [-> Hn]. right. intros [?|(n' & e & Heq & _)]; [done|].
      apply Hn. rewrite Heq. apply make_multi_key_tab. }
  { by apply Hin. }
  rewrite Hout in Hx by done. pose proof (Hwf x c Hx) as He. unfold entry_wf in *.
  case_decide as Hv; [done|]. case_decide as Ht.
  - destruct He as (n & e & i & c' & -> & Hn & Hc & Hi & Hext & Hnv & Hc' & Hrest).
    exists n, e, i, c'. split_and!; try done. 1: rewrite Hout; [done|]. 2, 3: apply Hrest.
    intros [Hg'|(n' & e' & Heq & _)]; [apply Hg; right; eauto|].
    apply Hn, name_to_key_tab. rewrite Heq. apply make_multi_key_tab.
  - destruct He as [He|(refs & -> & Hne & Hnd & Hs & Hall)]; [by left|]. right.
    exists refs. split_and!; try done. eapply Forall_impl; [done|].
    intros r (Hr & Hkey & Hsome). split; [done|]. split; [done|].
    rewrite Hout; [done|]. intros Hg'%in_group_multi; [|apply Hr].
    destruct Hg' as [_ Hg']. rewrite Hkey in Hg'. subst x. apply Hg. by left.
Qed.

Lemma page_at_outside r :
  (∀ x, ¬ in_group k x → m' !! x = m !! x) → TAB ∉ ne_name r → name_to_key (ne_name r) ≠ k →
  page_at m' r = page_at m r.
Proof.
  intros Hout Ht Hr. unfold page_at. rewrite !Hout; [done| |].
  - intros Hg%in_group_multi; [|done]. by destruct Hg.
  - intros [?|(n' & e' & Heq & _)]; [done|].
    apply Ht, name_to_key_tab. rewrite Heq. apply make_multi_key_tab.
Qed.

Lemma group_entries_multi x c :
  no_multi m' k → in_group k x → m' !! x = Some c → x = k.
Proof.
  intros Hno [->|(n & e & -> & Hn & Hkey)] Hx; [done|].
  pose proof (Hno (NameExt n e)) as H. simpl in H. rewrite Hx in H. by discriminate H.
Qed.

Lemma entry_wf_key c : single_ok k c ∨ refs_ok m' k c → entry_wf m' k c.
Proof. intros. unfold entry_wf. by rewrite !decide_False by apply Hk. Qed.

Lemma wf_empty :
  wf m → (∀ x, ¬ in_group k x → m' !! x = m !! x) → empty_group m' k → wf m'.
Proof.
  intros Hwf Hout [He Hno]. apply wf_group; [done..|]. intros x c Hg Hx.
  pose proof (group_entries_multi x c Hno Hg Hx) as ->. congruence.
Qed.

Lemma wf_single c i :
  wf m → (∀ x, ¬ in_group k x → m' !! x = m !! x) → single_group m' k c i → wf m'.
Proof.
  intros Hwf Hout (Hc & Hi & Hn & Hno). apply wf_group; [done..|]. intros x c' Hg Hx.
  pose proof (group_entries_multi x c' Hno Hg Hx) as ->. assert (c' = c) as -> by congruence.
  apply entry_wf_key. left. by exists i.
Qed.

Lemma wf_refs refs f :
  wf m → (∀ x, ¬ in_group k x → m' !! x = m !! x) → refs_group m' k refs f → wf m'.
Proof.
  intros Hwf Hout (Hc & Hne & Hnd & Hs & Hall & Hf). apply wf_group; [done..|].
  assert (refs_ok m' k (make_extensions_reference refs)) as Hok.
  { exists refs. split_and!; try done. rewrite Forall_forall in *. intros r Hr.
    destruct (Hall r Hr) as [Hr1 Hr2]. split; [done|]. split; [done|].
    pose proof (Hf r (conj (proj1 Hr1) Hr2)) as Hfr.
    destruct (m' !! multi_key r); [by eexists|]. by destruct Hfr. }
  intros x c Hg Hx. destruct Hg as [->|(n & e & -> & Hn & Hkey)].
  { rewrite Hc in Hx. injection Hx as <-. apply entry_wf_key. by right. }
  destruct (refs_ok_inv _ _ _ Hok) as (Hh & Hrefs & _).
  pose proof (Hf (NameExt n e) (conj Hn Hkey)) as Hfr. simpl in Hfr. rewrite Hx in Hfr.
  destruct Hfr as (Hin & i & Hi & Hi1 & Hi2 & _).
  unfold entry_wf. rewrite decide_False, decide_True.
  - exists n, e, i, (make_extensions_reference refs). rewrite Hkey.
    split_and!; try done; try apply Hk.
    assert (Forall ref_ok refs) as Hok' by (eapply Forall_impl; [exact Hall|]; naive_solver).
    by rewrite (proj2 (refs_of_reference refs Hne Hok' Hs)).
  - apply make_multi_key_tab.
  - intros Heq. apply (bool_decide_unpack (TAB ∉ VER_KEY)); [by vm_compute|].
    rewrite <-Heq. apply make_multi_key_tab.
Qed.
End groups.
