(* ===== verification/DbKeys.v ===== *)
(** * Walking over the keys of the index

    What the key and the content found on a walk over all keys stand for: every
    key with the content of a page belongs to exactly one page, and every page
    has one such key.  The walks are [dblookup_pattern] (file [DbPattern]),
    [purge_missing] (file [Purge]) and [do_apropos] (file [Whatis]). *)

From S2P Require Import Prelude CStr Fs Compression Filenames Mydbm DbContent Wordfnmatch DbLookup DbGroup.

(** The name a key is about: the text before the tab. *)
Definition nicekey (key : cstr) : cstr :=
  match strchr key TAB with Some n => take n key | None => key end.

(** ** Pages and their keys *)

(** The key under which the page of [r] is stored. *)
Definition page_key (m : gmap cstr cstr) (r : name_ext) : cstr :=
  match m !! name_to_key (ne_name r) with
  | Some c => if decide (head c = Some TAB) then multi_key r else name_to_key (ne_name r)
  | None => name_to_key (ne_name r)
  end.

(** What a key with a content that is not a list of references holds. *)
Record page_entry (m : gmap cstr cstr) (x c : cstr) (r : name_ext) (i : mandata) : Prop := PageEntry {
  pe_content : page_content c i;
  pe_tab : TAB ∉ ne_name r;
  pe_ver : name_to_key (ne_name r) ≠ VER_KEY;
  pe_page : page_at m r = Some (set_name None i);
  pe_name : default (nicekey x) (md_name i) = ne_name r;
  pe_ext : md_ext i = ne_ext r;
  pe_key : page_key m r = x;
  pe_nice : name_to_key (nicekey x) = name_to_key (ne_name r);
  pe_kind : (single_group m x c i ∧ nicekey x = x) ∨
            (x = multi_key r ∧ nicekey x = ne_name r ∧ ∃ refs, refs_group m (name_to_key (ne_name r)) refs (page_at m));
}.

Lemma nicekey_free x : TAB ∉ x → nicekey x = x.
Proof. intros Hx. unfold nicekey. by rewrite (proj2 (strchr_None x TAB ltac:(done)) Hx). Qed.
Lemma strchr_ext (e s : cstr) : TAB ∉ e → strchr (e ++ TAB :: s) TAB = Some (length e).
Proof. intros He. by apply strchr_app_sep. Qed.
Lemma nicekey_multi n e : TAB ∉ n → nicekey (make_multi_key n e) = n.
Proof. intros Hn. unfold nicekey, make_multi_key. rewrite strchr_ext by done. apply take_app_length. Qed.

Lemma refs_group_head m k refs f : refs_group m k refs f → ∃ c, m !! k = Some c ∧ head c = Some TAB.
Proof.
  intros (Hc & Hne & _). eexists. split; [done|].
  by destruct (make_extensions_reference_head refs Hne) as [data ->].
Qed.

Lemma page_entry_intro m x c :
  wf m → m !! x = Some c → x ≠ VER_KEY → head c ≠ Some TAB → ∃ r i, page_entry m x c r i.
Proof.
  intros Hwf Hx Hv Hh. destruct (decide (TAB ∈ x)) as [Ht|Ht].
  - destruct (wf_multi m Hwf x c Hx Ht) as (n & e & i & c' & -> & Hn & Hc & Hi & He & Hnv & Hc' & Hh' & Hin).
    assert (group_key (name_to_key n)) as Hgk by (split; [by rewrite name_to_key_tab|done]).
    destruct (group_state m _ Hgk Hwf) as [[Hg _]|[(c1 & i1 & Hg)|[refs Hg]]].
    + congruence.
    + destruct Hg as (Hg & [Hg1 _ _] & _). congruence.
    + exists (NameExt n e), i. split; try done; simpl.
      * rewrite set_name_None_id by done. eapply page_at_refs; [done..|]. exists c. simpl. destruct Hc. done.
      * by rewrite Hi, nicekey_multi.
      * unfold page_key. simpl. by rewrite Hc', decide_True.
      * by rewrite nicekey_multi.
      * right. split; [done|]. split; [by rewrite nicekey_multi|]. by exists refs.
  - assert (group_key x) as Hgk by done.
    destruct (group_state m x Hgk Hwf) as [[Hg _]|[(c1 & i1 & Hg)|[refs Hg]]].
    + congruence.
    + pose proof Hg as (Hc1 & Hpc & Hk & _). assert (c1 = c) as -> by congruence.
      exists (NameExt (default x (md_name i1)) (md_ext i1)), i1.
      assert (TAB ∉ default x (md_name i1)) by (rewrite <-name_to_key_tab, Hk; done).
      split; try done; simpl; rewrite ?Hk, ?nicekey_free; try done.
      * rewrite (page_at_single_group m x c i1); [by rewrite decide_True|done|done].
      * unfold page_key. simpl. by rewrite Hk, Hx, decide_False.
      * rewrite <-Hk. apply name_to_key_idemp.
      * by left.
    + destruct (refs_group_head _ _ _ _ Hg) as (c' & ? & ?). congruence.
Qed.

(** Every page has an entry, and one only. *)
Lemma page_key_inj m r r' :
  wf m → (TAB ∉ ne_name r) → (TAB ∉ ne_name r') → name_to_key (ne_name r) ≠ VER_KEY →
  name_to_key (ne_name r') ≠ VER_KEY → is_Some (page_at m r) → is_Some (page_at m r') →
  page_key m r = page_key m r' → r = r'.
Proof.
  intros Hwf Ht Ht' Hv Hv' Hp Hp' Heq. unfold page_key in Heq.
  assert (∀ r, TAB ∉ ne_name r → is_Some (page_at m r) → is_Some (m !! name_to_key (ne_name r))) as Hs.
  { intros r0 _ [i Hi]. unfold page_at in Hi. by destruct (m !! name_to_key (ne_name r0)). }
  destruct (Hs r Ht Hp) as [c Hc], (Hs r' Ht' Hp') as [c' Hc']. rewrite Hc, Hc' in Heq.
  assert (∀ n e n', TAB ∉ n' → make_multi_key n e ≠ name_to_key n') as Hne.
  { intros n e n' Hn' E. apply Hn', name_to_key_tab. rewrite <-E. apply make_multi_key_tab. }
  case_decide as Hh; case_decide as Hh'.
  - by eapply multi_key_inj.
  - by apply Hne in Heq.
  - by symmetry in Heq; apply Hne in Heq.
  - destruct (group_state m (name_to_key (ne_name r))) as [[? _]|[(c1 & i & Hg)|[refs Hg]]]; try done.
    + split; [by rewrite name_to_key_tab|done].
    + congruence.
    + destruct Hp as [j Hj], Hp' as [j' Hj'].
      rewrite (page_at_single_group _ _ _ _ _ Hg) in Hj by done.
      rewrite (page_at_single_group _ _ _ _ _ Hg) in Hj' by done.
      repeat case_decide; congruence.
    + destruct (refs_group_head _ _ _ _ Hg) as (? & ? & ?). congruence.
Qed.

Lemma page_key_Some m r :
  wf m → (TAB ∉ ne_name r) → name_to_key (ne_name r) ≠ VER_KEY → is_Some (page_at m r) →
  ∃ c, m !! page_key m r = Some c ∧ head c ≠ Some TAB.
Proof.
  intros Hwf Ht Hv Hp. unfold page_key.
  destruct (group_state m (name_to_key (ne_name r))) as [Hg|[(c1 & i & Hg)|[refs Hg]]]; try done.
  - split; [by rewrite name_to_key_tab|done].
  - rewrite (page_at_empty m _ r Hg) in Hp by done. by destruct Hp.
  - destruct Hg as (Hc & [Hh _ _] & _). rewrite Hc, decide_False by done. by exists c1.
  - destruct (refs_group_head _ _ _ _ Hg) as (c & Hc & Hh). rewrite Hc, decide_True by done.
    destruct Hg as (_ & _ & _ & _ & _ & Hf). specialize (Hf r (conj Ht eq_refl)).
    destruct (m !! multi_key r) as [c2|].
    + exists c2. split; [done|]. by destruct Hf as (_ & i & [] & _).
    + destruct Hf as [_ Hf]. rewrite Hf in Hp. by destruct Hp.
Qed.

(** The entry's content is shown under the page's name. *)
Lemma page_entry_name m x c r i :
  page_entry m x c r i → name_if_unset (nicekey x) i = set_name (Some (ne_name r)) i.
Proof.
  intros Hpe. rewrite <-(pe_name _ _ _ _ _ Hpe). unfold name_if_unset.
  destruct (md_name i) eqn:E; [|done]. destruct i; simpl in *. by subst.
Qed.

(** The only tab of a key is the one before the extension. *)
Lemma page_entry_strrchr m x c r i :
  page_entry m x c r i → match strrchr x TAB with Some t => take t x | None => x end = nicekey x.
Proof.
  intros Hpe. destruct (pe_kind _ _ _ _ _ Hpe) as [[Hg Hnx]|(-> & -> & _)].
  - assert (TAB ∉ x) as Hx.
    { pose proof (pe_name _ _ _ _ _ Hpe) as Hn.
      destruct Hg as (_ & _ & Hk & _). rewrite <-Hk, name_to_key_tab.
      rewrite Hnx in Hn. rewrite Hn. apply Hpe. }
    rewrite (proj2 (strrchr_None x TAB) Hx). by rewrite nicekey_free.
  - unfold multi_key, make_multi_key. rewrite strrchr_app_sep; [by rewrite take_app_length|].
    rewrite <-(pe_ext _ _ _ _ _ Hpe). apply (ok_ext i), (pe_content _ _ _ _ _ Hpe).
Qed.

(** The walks leave out the pages whose name begins with a dollar. *)
Lemma head_dollar_key n : head (name_to_key n) = Some "$"%char ↔ head n = Some "$"%char.
Proof.
  destruct n as [|c n]; simpl; [done|]. split; intros [= Hc]; f_equal; [|by subst].
  revert Hc. by all_bytes c.
Qed.

Lemma head_dollar_page_key m r : head (page_key m r) = Some "$"%char ↔ head (ne_name r) = Some "$"%char.
Proof.
  unfold page_key. repeat case_match; try apply head_dollar_key.
  unfold multi_key, make_multi_key. by destruct (ne_name r).
Qed.

(** ** The walk *)

(** The pages met on a walk over the keys that leaves out identifiers and lists
    of references, each with its key and its entry. *)
Inductive walk (m : gmap cstr cstr) : list cstr → list (cstr * (name_ext * mandata)) → Prop :=
| walk_end : walk m [] []
| walk_other k c ks es : m !! k = Some c → head k = Some "$"%char ∨ head c = Some TAB → walk m ks es → walk m (k :: ks) es
| walk_page k c r i ks es :
    m !! k = Some c → head k ≠ Some "$"%char → head c ≠ Some TAB → page_entry m k c r i →
    walk m ks es → walk m (k :: ks) ((k, (r, i)) :: es).

(** The pages a walk meets. *)
Definition reachable_page (m : gmap cstr cstr) (r : name_ext) : Prop :=
  is_Some (page_at m r) ∧ (TAB ∉ ne_name r) ∧ name_to_key (ne_name r) ≠ VER_KEY ∧ head (ne_name r) ≠ Some "$"%char.

Lemma walk_exists m ks : wf m → Forall (λ k, is_Some (m !! k)) ks → ∃ es, walk m ks es.
Proof.
  intros Hwf. induction 1 as [|k ks [c Hk] _ [es IH]]; [by exists []; constructor|].
  destruct (decide (head k = Some "$"%char)) as [Hd|Hd]; [exists es; eapply walk_other; eauto|].
  destruct (decide (head c = Some TAB)) as [Ht|Ht]; [exists es; eapply walk_other; eauto|].
  destruct (page_entry_intro m k c Hwf Hk) as (r & i & Hpe); [by intros ->|done|].
  exists ((k, (r, i)) :: es). by eapply walk_page.
Qed.

Lemma walk_entries m ks es : walk m ks es → Forall (λ e, ∃ c, page_entry m e.1 c e.2.1 e.2.2) es.
Proof. induction 1; [constructor|done|]. constructor; [by eexists|done]. Qed.

(** It keeps the order of the keys. *)
Lemma walk_sublist m ks es : walk m ks es → es.*1 `sublist_of` ks.
Proof. induction 1; cbn; by constructor. Qed.
Lemma walk_NoDup m ks es : walk m ks es → NoDup ks → NoDup es.*1.
Proof. intros Hw Hnd. eapply sublist_NoDup; [exact Hnd|by eapply walk_sublist]. Qed.
Lemma walk_sorted m ks es (R : relation cstr) : walk m ks es → StronglySorted R ks → StronglySorted R es.*1.
Proof.
  intros Hw. induction Hw as [|k c ks es _ _ Hw IH|k c r i ks es _ _ _ _ Hw IH]; [done|..]; intros [Hs Ha]%StronglySorted_inv; [by apply IH|].
  cbn. constructor; [by apply IH|]. rewrite Forall_forall in *. intros x Hx. by eapply Ha, elem_of_sublist, walk_sublist.
Qed.

(** Each page is met once. *)
Lemma walk_pages m ks es :
  wf m → NoDup ks → walk m ks es →
  NoDup es.*2.*1 ∧ ∀ r, r ∈ es.*2.*1 ↔ reachable_page m r ∧ page_key m r ∈ ks.
Proof.
  intros Hwf Hnd Hw. induction Hw as [|k c ks es Hk Hother Hw IH|k c r i ks es Hk Hd Hh Hpe Hw IH]; simpl.
  - split; [constructor|]. set_solver.
  - apply NoDup_cons in Hnd as [Hnk Hnd]. destruct (IH Hnd) as [IH1 IH2]. split; [done|].
    intros r. rewrite IH2, elem_of_cons. split; [naive_solver|]. intros [Hr [Hkr|?]]; [|done]. exfalso.
    destruct Hr as (Hp & Ht & Hv & Hd). destruct (page_key_Some m r Hwf Ht Hv Hp) as (c' & Hc' & Hh').
    destruct Hother as [Hk'|Hc]; [|congruence]. apply Hd, (head_dollar_page_key m). congruence.
  - apply NoDup_cons in Hnd as [Hnk Hnd]. destruct (IH Hnd) as [IH1 IH2].
    destruct Hpe as [_ Ht Hv Hp _ _ Hkey _ _].
    assert (reachable_page m r) as Hr.
    { split; [by eexists|]. split; [done|]. split; [done|]. by rewrite <-(head_dollar_page_key m), Hkey. }
    split.
    + apply NoDup_cons. split; [|done]. intros [_ Hin]%IH2. congruence.
    + intros r'. rewrite !elem_of_cons, IH2. split.
      * intros [->|[? ?]]; [by split; [|left]|by split; [|right]].
      * intros [Hr' [Hk'|Hk']]; [left|by right]. destruct Hr' as (? & ? & ? & _).
        apply (page_key_inj m); try done; congruence.
Qed.

(** A walk over all keys meets every page once. *)
Lemma walk_all {db} `{MydbmLaws db} (d : db) :
  wf (db_view d) →
  ∃ es, walk (db_view d) (db_keys d) es ∧ NoDup es.*2.*1 ∧ ∀ r, r ∈ es.*2.*1 ↔ reachable_page (db_view d) r.
Proof.
  intros Hwf. destruct (walk_exists (db_view d) (db_keys d) Hwf) as [es Hes].
  { apply Forall_forall. intros k. apply elem_of_db_keys. }
  destruct (walk_pages _ _ es Hwf (db_keys_NoDup d) Hes) as [Hnd Hin]. exists es. split_and!; [done..|].
  intros r. rewrite Hin. split; [by intros [? _]|]. intros Hr. split; [done|].
  destruct Hr as (Hp & Ht & Hv & _). destruct (page_key_Some _ r Hwf Ht Hv Hp) as (c & Hc & _).
  apply elem_of_db_keys. by eexists.
Qed.
