(* ===== verification/DbPattern.v ===== *)
(** * libdb/db_lookup.c: [dblookup_pattern]

    The search through all keys of the index (its definitions are in
    [DbLookup]) finds exactly the stored pages whose section and name, or
    description, match. *)

From S2P Require Import Prelude CStr Fs Compression Filenames Mydbm DbContent Wordfnmatch DbLookup DbGroup DbKeys.

Section pattern.
Context {db : Type} `{MydbmLaws db} `{Matcher} (dbf : db).
Let m := db_view dbf.
Context (pattern : cstr) (section : option cstr) (match_case pattern_regex try_descriptions : bool).

Definition string_hit (on_whatis : bool) (s : cstr) : bool :=
  if pattern_regex then regexec (negb match_case) pattern s
  else if on_whatis then word_fnmatch pattern s
  else fnmatch (negb match_case) pattern s.

(** A page is a hit when its section or extension is the one asked for and its
    name matches, or its description when those are searched. *)
Definition page_hit (i : mandata) : bool :=
  match section with
  | Some s => STREQ s (md_sec i) || STREQ s (md_ext i)
  | None => true
  end &&
  (string_hit false (default [] (md_name i)) ||
   try_descriptions && match md_whatis i with Some w => string_hit true w | None => false end).

Definition stored_page (r : name_ext) (i : mandata) : Prop :=
  page_at m r = Some i ∧ (TAB ∉ ne_name r) ∧ name_to_key (ne_name r) ≠ VER_KEY.

Definition hit_of (r : name_ext) (i0 i : mandata) : Prop :=
  head (ne_name r) ≠ Some "$"%char ∧ page_hit i = true ∧ i = set_name (Some (ne_name r)) i0.

Lemma pattern_key_page k c i n :
  m !! k = Some c → head k ≠ Some "$"%char → page_content c i →
  match strrchr k TAB with Some t => take t k | None => k end = n →
  pattern_key dbf pattern section match_case pattern_regex try_descriptions k =
    Ret (if page_hit (name_if_unset n i) then [name_if_unset n i] else []).
Proof.
  intros Hk Hd [Hh Hs _] Hn. unfold pattern_key. rewrite fetch_view. fold m.
  rewrite Hk, !decide_False by done. rewrite Hs. simpl. rewrite Hn.
  unfold page_hit, string_hit.
  assert (md_sec (name_if_unset n i) = md_sec i) as -> by (unfold name_if_unset; by destruct (md_name i)).
  assert (md_ext (name_if_unset n i) = md_ext i) as -> by (unfold name_if_unset; by destruct (md_name i)).
  destruct section as [s|]; [destruct (STREQ s (md_sec i)), (STREQ s (md_ext i))|]; simpl; try done.
  all: destruct (md_whatis _), try_descriptions, pattern_regex; simpl;
    rewrite ?orb_false_r; try done.
  all: try (by destruct (regexec _ _ _)). all: by destruct (fnmatch _ _ _).
Qed.

(** What one key contributes: the page it belongs to, when it is a hit. *)
Lemma pattern_key_Ret k c :
  wf m → m !! k = Some c →
  ∃ infos, pattern_key dbf pattern section match_case pattern_regex try_descriptions k = Ret infos ∧
    ∀ i, i ∈ infos ↔ ∃ r i0, stored_page r i0 ∧ page_key m r = k ∧ hit_of r i0 i.
Proof.
  intros Hwf Hk.
  destruct (decide (head k = Some "$"%char)) as [Hd|Hd].
  { exists []. unfold pattern_key. rewrite fetch_view. fold m. rewrite Hk, decide_True by done.
    split; [done|]. intros i. split; [by intros ?%elem_of_nil|].
    intros (r & i0 & _ & <- & Hnd & _). by apply head_dollar_page_key in Hd. }
  destruct (decide (head c = Some TAB)) as [Hh|Hh].
  { exists []. unfold pattern_key. rewrite fetch_view. fold m. rewrite Hk, decide_False, decide_True by done.
    split; [done|]. intros i. split; [by intros ?%elem_of_nil|].
    intros (r & i0 & (Hp & Ht & Hv) & <- & _).
    destruct (page_key_Some m r Hwf Ht Hv ltac:(by eexists)) as (c' & ? & ?). congruence. }
  destruct (page_entry_intro m k c Hwf Hk) as (r & i & Hpe); [by intros ->|done|].
  pose proof (pe_content _ _ _ _ _ Hpe). pose proof (page_entry_strrchr _ _ _ _ _ Hpe).
  rewrite (pattern_key_page k c i (nicekey k)) by done.
  rewrite (page_entry_name m k c r i Hpe).
  eexists. split; [done|]. intros j. split.
  - destruct (page_hit _) eqn:E; [|by intros ?%elem_of_nil]. intros ->%list_elem_of_singleton.
    exists r, (set_name None i). split; [split; [apply Hpe|split; apply Hpe]|]. split; [apply Hpe|].
    split; [|by split]. intros Hnd. apply Hd. rewrite <-(pe_key _ _ _ _ _ Hpe).
    rewrite head_dollar_page_key. done.
  - intros (r' & i0 & (Hp & Ht & Hv) & Hkey & _ & Hhit & ->).
    assert (r' = r) as ->.
    { destruct Hpe as [_ Ht' Hv' Hp' _ _ Hkey' _ _].
      apply (page_key_inj m); try done. congruence. }
    rewrite (pe_page _ _ _ _ _ Hpe) in Hp. simplify_eq. change (page_hit (set_name (Some (ne_name r)) i) = true) in Hhit. rewrite Hhit. by left.
Qed.

(** C21: on a well-formed database the search through all keys succeeds and
    finds exactly the stored pages that are hits, except pages whose name
    begins with a dollar. *)
Theorem dblookup_pattern_correct :
  wf m →
  ∃ infos, dblookup_pattern dbf pattern section match_case pattern_regex try_descriptions = Ret infos ∧
    ∀ i, i ∈ infos ↔ ∃ r i0, stored_page r i0 ∧ hit_of r i0 i.
Proof.
  intros Hwf. unfold dblookup_pattern.
  assert (∀ ks, Forall (λ k, is_Some (m !! k)) ks →
    ∃ infos, pattern_keys dbf pattern section match_case pattern_regex try_descriptions ks = Ret infos ∧
    ∀ i, i ∈ infos ↔ ∃ r i0, stored_page r i0 ∧ page_key m r ∈ ks ∧ hit_of r i0 i) as Hgen.
  { induction 1 as [|k ks [c Hk] Hks (infos & IH & Hin)]; simpl.
    - exists []. split; [done|]. intros i. set_solver.
    - destruct (pattern_key_Ret k c Hwf Hk) as (infos' & -> & His). simpl. rewrite IH. simpl.
      eexists. split; [done|]. intros i. rewrite elem_of_app, His, Hin. set_solver. }
  destruct (Hgen (db_keys dbf)) as (infos & Hp & Hin).
  { apply Forall_forall. intros k Hk. by apply elem_of_db_keys. }
  exists infos. split; [done|]. intros i. rewrite Hin. split; [naive_solver|].
  intros (r & i0 & Hst & Hhit). exists r, i0. split; [done|]. split; [|done]. destruct Hst as (Hp' & Hrest).
  apply elem_of_db_keys. fold m.
  destruct (page_key_Some m r Hwf) as (c & -> & _); [naive_solver..|by eexists|by eexists].
Qed.
End pattern.

Lemma dblookup_pattern_correct_witness :
  ∃ infos, @dblookup_pattern _ _ one_page literal_matcher (lit "ls") None false false true = Ret infos ∧
    ∀ i, i ∈ infos ↔ ∃ r i0, stored_page one_page r i0 ∧
      @hit_of literal_matcher (lit "ls") None false false true r i0 i.
Proof.
  exact (@dblookup_pattern_correct _ _ _ literal_matcher one_page (lit "ls") None false false true one_page_wf).
Defined.

