(* ===== verification/DbStore.v ===== *)
(** * libdb/db_store.c: storing a page in the index

    [dbstore] either writes the first page of a name under the name's key,
    adds a reference to the list under that key, or turns a single page into
    such a list.  [replace_if_necessary] decides between an old and a new page
    of the same name and extension. *)

From S2P Require Import Prelude CStr Fs Compression Filenames Mydbm DbContent Wordfnmatch DbLookup DbGroup.

(** ** Definitions *)

(** [compare_ids], without [FAVOUR_STRAYCATS]. *)
Definition compare_ids (a b : ascii) (promote_links : bool) : comparison :=
  if promote_links &&
     ((bool_decide (a = ULT_MAN) && bool_decide (b = SO_MAN)) ||
      (bool_decide (a = SO_MAN) && bool_decide (b = ULT_MAN)))
  then Eq else char_cmp a b.

Inductive replace_action := REPLACE_YES | REPLACE_NO | REPLACE_FAIL.
#[export] Instance replace_action_eq_dec : EqDecision replace_action.
Proof. solve_decision. Defined.

Definition is_lt (c : comparison) : bool := match c with Lt => true | _ => false end.
Definition is_gt (c : comparison) : bool := match c with Gt => true | _ => false end.

(** A comparison of pointers that are both set. *)
Definition pointers_are (p : comparison → bool) (new old : mandata) : bool :=
  match md_pointer new, md_pointer old with
  | Some a, Some b => p (strcmp a b)
  | _, _ => false
  end.

Definition replace_decision (newdata olddata : mandata) : replace_action :=
  let ids := compare_ids (md_id newdata) (md_id olddata) in
  let mtimes := timespec_cmp (md_mtime newdata) (md_mtime olddata) in
  if is_lt (ids false) then REPLACE_YES
  else if negb (is_gt (ids true)) && is_gt mtimes then REPLACE_YES
  else if negb (is_gt (ids true)) && is_lt mtimes then REPLACE_NO
  else if is_gt (ids false) then REPLACE_NO
  else if pointers_are is_lt newdata olddata then REPLACE_YES
  else if pointers_are is_gt newdata olddata then REPLACE_NO
  else if negb (STREQ (dash_if_unset (md_comp newdata)) (default [] (md_comp olddata))) then REPLACE_FAIL
  else REPLACE_NO.

Section store.
Context {db : Type} `{Mydbm db}.
Implicit Types dbf : db.

Definition replace_if_necessary dbf (newdata olddata : mandata) (newkey newcont : cstr)
    : outcome (Z * db) :=
  match replace_decision newdata olddata with
  | REPLACE_YES =>
    match MYDBM_REPLACE dbf newkey newcont with
    | (true, _) => gripe_replace_key
    | (false, dbf) => Ret (0%Z, dbf)
    end
  | REPLACE_NO => Ret (0%Z, (MYDBM_INSERT dbf newkey newcont).2)
  | REPLACE_FAIL => Ret (1%Z, dbf)
  end.

(** Situation (1): the key is new. *)
Definition dbstore_new dbf (i : mandata) (base : cstr) : outcome (Z * mandata * db) :=
  let oldkey := name_to_key base in
  let i := if negb (STREQ base oldkey) then set_name (Some base) i else i in
  let '(i, oldcont) := make_content i in
  match MYDBM_REPLACE dbf oldkey oldcont with
  | (true, _) => gripe_replace_key
  | (false, dbf) => Ret (0%Z, set_name None i, dbf)
  end.

(** Situation (2): the key holds references. *)
Definition dbstore_multi dbf (i : mandata) (base oldcont : cstr) : outcome (Z * mandata * db) :=
  let newkey := make_multi_key base (md_ext i) in
  let '(i, newcont) := make_content i in
  match MYDBM_INSERT dbf newkey newcont with
  | (true, dbf) =>
    info ← split_content (MYDBM_FETCH dbf newkey);
    '(ret, dbf) ← replace_if_necessary dbf i info newkey newcont;
    Ret (ret, i, dbf)
  | (false, dbf) =>
    let refs := list_extensions (drop 1 oldcont) in
    let refs := gl_sortedlist_add name_ext_compare (NameExt base (md_ext i)) refs in
    match MYDBM_REPLACE dbf (name_to_key base) (make_extensions_reference refs) with
    | (true, _) => gripe_replace_key
    | (false, dbf) => Ret (0%Z, i, dbf)
    end
  end.

(** Situation (3): the key holds one page. *)
Definition dbstore_single dbf (i : mandata) (base oldcont : cstr) : outcome (Z * mandata * db) :=
  let oldkey := name_to_key base in
  old ← split_content (Some oldcont);
  let old_name := default oldkey (md_name old) in
  let lastkey := make_multi_key old_name (md_ext old) in
  if STREQ old_name base && STREQ (md_ext old) (md_ext i) then
    let i := if negb (STREQ base oldkey) then set_name (Some base) i else i in
    let '(i, newcont) := make_content i in
    '(ret, dbf) ← replace_if_necessary dbf i old oldkey newcont;
    Ret (ret, set_name None i, dbf)
  else
    let '(old, lastcont) := make_content (set_name None old) in
    match MYDBM_REPLACE dbf lastkey lastcont with
    | (true, _) => gripe_replace_key
    | (false, dbf) =>
      let newkey := make_multi_key base (md_ext i) in
      let '(i, newcont) := make_content i in
      '(ret, dbf) ← replace_if_necessary dbf i old newkey newcont;
      let refs := gl_sortedlist_add name_ext_compare (NameExt old_name (md_ext old)) [] in
      let refs := gl_sortedlist_add name_ext_compare (NameExt base (md_ext i)) refs in
      match MYDBM_REPLACE dbf oldkey (make_extensions_reference refs) with
      | (true, _) => gripe_replace_key
      | (false, dbf) => Ret (ret, i, dbf)
      end
    end.

(** [dbstore]: the return code, the structure it was given as it leaves it,
    and the database. *)
Definition dbstore dbf (i : mandata) (base : cstr) : outcome (Z * mandata * db) :=
  if bool_decide (base = []) then Ret (2%Z, i, dbf)
  else
    let i := set_name None i in
    match MYDBM_FETCH dbf (name_to_key base) with
    | None => dbstore_new dbf i base
    | Some oldcont =>
      if decide (head oldcont = Some TAB) then dbstore_multi dbf i base oldcont
      else dbstore_single dbf i base oldcont
    end.
End store.

(** ** What a store means *)

(** The page of [r] changed to [i] ([upd] leaves the others alone). *)
Definition upd (f : name_ext → option mandata) (r : name_ext) (i : mandata) (r' : name_ext)
    : option mandata :=
  if decide (r' = r) then Some i else f r'.

(** The specification of [dbstore] on the function from names and extensions
    to pages: a page of a new name and extension is added; an old page is
    replaced or kept. *)
Definition store_spec (f : name_ext → option mandata) (i : mandata) (r : name_ext)
    : Z * (name_ext → option mandata) :=
  match f r with
  | None => (0%Z, upd f r i)
  | Some old =>
    match replace_decision i old with
    | REPLACE_YES => (0%Z, upd f r i)
    | REPLACE_NO => (0%Z, f)
    | REPLACE_FAIL => (1%Z, f)
    end
  end.

(** ** The decision *)

(** Pages of the same kind, or of kinds that are not linked, are compared by
    kind, then newest first, then by pointer; only the compression extension
    can make an exact tie fail. *)
Definition linked (a b : ascii) : bool :=
  (bool_decide (a = ULT_MAN) && bool_decide (b = SO_MAN)) ||
  (bool_decide (a = SO_MAN) && bool_decide (b = ULT_MAN)).

Definition page_order (new old : mandata) : comparison :=
  lex_cmp (char_cmp (md_id new) (md_id old))
    (lex_cmp (timespec_cmp (md_mtime old) (md_mtime new))
       (strcmp (default [] (md_pointer new)) (default [] (md_pointer old)))).

(** The decision to replace an old page is the lexicographic order on the
    kind, the modification time (newest first) and the pointer; a tie is
    refused when the compression extensions differ.  Between a page and a link
    to a page (ULT_MAN and SO_MAN) the page always replaces the link, and the
    link the page only when it is newer. *)
Theorem replace_decision_order new old :
  is_Some (md_pointer new) → is_Some (md_pointer old) →
  replace_decision new old =
    if linked (md_id new) (md_id old) then
      if bool_decide (md_id new = ULT_MAN) || is_gt (timespec_cmp (md_mtime new) (md_mtime old))
      then REPLACE_YES else REPLACE_NO
    else
      match page_order new old with
      | Lt => REPLACE_YES
      | Gt => REPLACE_NO
      | Eq => if STREQ (dash_if_unset (md_comp new)) (default [] (md_comp old))
              then REPLACE_NO else REPLACE_FAIL
      end.
Proof.
  intros [p Hp] [q Hq]. unfold replace_decision, compare_ids, page_order, pointers_are.
  fold (linked (md_id new) (md_id old)). rewrite Hp, Hq. simpl.
  rewrite (cmp_antisym (cmp:=timespec_cmp) (md_mtime new) (md_mtime old)).
  destruct (linked (md_id new) (md_id old)) eqn:El; simpl.
  - assert ((md_id new = ULT_MAN ∧ md_id old = SO_MAN) ∨ (md_id new = SO_MAN ∧ md_id old = ULT_MAN))
      as [[-> ->]|[-> ->]] by (unfold linked in El; repeat case_bool_decide; naive_solver);
      simpl; by destruct (timespec_cmp (md_mtime new) (md_mtime old)).
  - destruct (char_cmp (md_id new) (md_id old)); simpl; try done.
    destruct (timespec_cmp (md_mtime new) (md_mtime old)); simpl; try done.
    destruct (strcmp p q); simpl; try done. by destruct (STREQ _ _).
Qed.

(** ** Storing keeps the invariant and implements the specification *)

(** The name is stored with a single page only when it is not the key. *)
Definition named (base : cstr) (i : mandata) : mandata :=
  if negb (STREQ base (name_to_key base)) then set_name (Some base) i else i.

Lemma replace_decision_names n n' new old :
  replace_decision (set_name n new) (set_name n' old) = replace_decision new old.
Proof. done. Qed.

Lemma make_content_page i :
  entry_ok i → page_content (make_content i).2 (fill_unset i).
Proof.
  intros Hi. split; [by apply make_content_head|by apply split_make_content|by apply fill_unset_ok].
Qed.

Lemma fill_unset_parsed c i : split_content c = Ret i → fill_unset i = i.
Proof. unfold split_content. intros. bind_inv. split_match. bind_inv. by subst. Qed.

Lemma entry_ok_set_None i : entry_ok i → entry_ok (set_name None i).
Proof. by intros []. Qed.

Section named.
Context (base : cstr) (i : mandata).
Hypotheses (Hbase : field_ok base) (Hne : base ≠ []) (Hi : entry_ok i) (Hnone : md_name i = None).

Lemma named_page : page_content (make_content (named base i)).2 (fill_unset (named base i)).
Proof.
  apply make_content_page. unfold named. destruct (STREQ base (name_to_key base)) eqn:E; simpl; [done|].
  destruct Hi. split; try done. simpl. split; [done|]. split; [done|].
  apply STREQ_false in E. intros ->. by apply E.
Qed.

Lemma named_name : default (name_to_key base) (md_name (fill_unset (named base i))) = base.
Proof using Hnone.
  unfold named. destruct (STREQ base (name_to_key base)) eqn:E; simpl; [|done].
  rewrite Hnone. by apply STREQ_true in E.
Qed.

Lemma named_info : set_name None (fill_unset (named base i)) = fill_unset i ∧
  md_ext (fill_unset (named base i)) = md_ext i.
Proof using Hnone.
  revert Hnone. clear. unfold named. destruct i; simpl. intros ->.
  by destruct (STREQ base (name_to_key base)).
Qed.

Lemma named_decision old :
  replace_decision (fill_unset (named base i)) old = replace_decision (fill_unset i) old.
Proof. unfold named. by destruct (STREQ base (name_to_key base)). Qed.
End named.

Section dbstore.
Context {db : Type} `{MydbmReliable db}.
Implicit Types dbf : db.

Lemma replace_present dbf new old key cont :
  is_Some (db_view dbf !! key) →
  ∃ ret dbf', replace_if_necessary dbf new old key cont = Ret (ret, dbf') ∧
    match replace_decision new old with
    | REPLACE_YES => ret = 0%Z ∧ db_view dbf' = <[key:=cont]> (db_view dbf)
    | REPLACE_NO => ret = 0%Z ∧ db_view dbf' = db_view dbf
    | REPLACE_FAIL => ret = 1%Z ∧ db_view dbf' = db_view dbf
    end.
Proof.
  intros Hkey. unfold replace_if_necessary. destruct (replace_decision new old).
  - destruct (replace_ok dbf key cont) as (d' & -> & Hv). eauto.
  - destruct (insert_present dbf key cont Hkey) as (d' & -> & Hv). eauto.
  - eauto.
Qed.

Lemma replace_absent dbf new old key cont :
  db_view dbf !! key = None → replace_decision new old ≠ REPLACE_FAIL →
  ∃ dbf', replace_if_necessary dbf new old key cont = Ret (0%Z, dbf') ∧
    db_view dbf' = <[key:=cont]> (db_view dbf).
Proof.
  intros Hkey. unfold replace_if_necessary. destruct (replace_decision new old); [| |done]; intros _.
  - destruct (replace_ok dbf key cont) as (d' & -> & Hv). eauto.
  - destruct (insert_absent dbf key cont Hkey) as (d' & -> & Hv). eauto.
Qed.

Context (i0 : mandata) (base : cstr).
Let k := name_to_key base.
Let i := set_name None i0.
Let r := NameExt base (md_ext i).
Hypotheses (Hi : entry_ok i) (Hbase : field_ok base) (Hne : base ≠ []) (Hver : k ≠ VER_KEY).

Lemma store_group_key : group_key k.
Proof. split; [|done]. unfold k. rewrite name_to_key_tab. apply Hbase. Qed.

Lemma store_of_group : of_group k r.
Proof. split; [apply Hbase|done]. Qed.

Lemma multi_ne r1 r2 : of_group k r1 → of_group k r2 → r2 ≠ r1 → multi_key r1 ≠ multi_key r2.
Proof. intros H1' H2' Hne' Heq. apply Hne'. symmetry. by eapply multi_key_inj. Qed.

Lemma key_multi_ne r' : k ≠ multi_key r'.
Proof. intros Heq. by apply (multi_not_group_key k store_group_key r'). Qed.

(** The pages after the store are those of [f]. *)
Definition stored (dbf' : db) (f : name_ext → option mandata) : Prop :=
  wf (db_view dbf') ∧ ∀ r', TAB ∉ ne_name r' → page_at (db_view dbf') r' = f r'.

Lemma stored_intro dbf dbf' f :
  wf (db_view dbf') → (∀ x, ¬ in_group k x → db_view dbf' !! x = db_view dbf !! x) →
  (∀ r', of_group k r' → page_at (db_view dbf') r' = f r') →
  (∀ r', ¬ of_group k r' → f r' = page_at (db_view dbf) r') → stored dbf' f.
Proof.
  intros Hwf Hout Hin Hf. split; [done|]. intros r' Ht.
  destruct (decide (name_to_key (ne_name r') = k)) as [Heq|Hneq]; [by apply Hin|].
  rewrite Hf by by intros []. apply (page_at_outside _ k store_group_key); done.
Qed.

Lemma upd_outside f j r' : ¬ of_group k r' → upd f r j r' = f r'.
Proof. intros Hr. unfold upd. case_decide; [|done]. subst r'. by destruct Hr; apply store_of_group. Qed.

Lemma insert_key_outside (m : gmap cstr cstr) c x : ¬ in_group k x → <[k:=c]> m !! x = m !! x.
Proof. intros Hx. apply lookup_insert_ne. intros <-. apply Hx. by left. Qed.

Lemma insert_multi_outside (m : gmap cstr cstr) r' c x :
  of_group k r' → ¬ in_group k x → <[multi_key r':=c]> m !! x = m !! x.
Proof. intros [Hr1 Hr2] Hx. apply lookup_insert_ne. intros <-. apply Hx. right. eauto. Qed.

Lemma no_multi_insert m c : no_multi m k → no_multi (<[k:=c]> m) k.
Proof.
  intros Hno r' Hr'. rewrite lookup_insert_ne; [by apply Hno|]. apply key_multi_ne.
Qed.

(** Writing the page under the name's key of a group without other pages. *)
Lemma stored_single dbf dbf' :
  wf (db_view dbf) → no_multi (db_view dbf) k →
  (∀ r', of_group k r' → r' ≠ r → page_at (db_view dbf) r' = None) →
  db_view dbf' = <[k:=(make_content (named base i)).2]> (db_view dbf) →
  stored dbf' (upd (page_at (db_view dbf)) r (fill_unset i)).
Proof.
  intros Hwf Hno Hothers Hv.
  assert (single_group (db_view dbf') k (make_content (named base i)).2 (fill_unset (named base i))) as Hsg.
  { split; [rewrite Hv; apply lookup_insert_eq|]. split; [by apply named_page|]. split.
    - unfold k. by rewrite (named_name base i).
    - rewrite Hv. by apply no_multi_insert. }
  assert (∀ x, ¬ in_group k x → db_view dbf' !! x = db_view dbf !! x) as Hout
    by (intros; rewrite Hv; by apply insert_key_outside).
  apply (stored_intro dbf).
  - by eapply (wf_single _ k store_group_key).
  - done.
  - intros r' Hr'. rewrite (page_at_single_group _ k _ _ r' Hsg Hr').
    destruct (named_info base i eq_refl) as [-> Hext].
    assert (NameExt (default k (md_name (fill_unset (named base i))))
              (md_ext (fill_unset (named base i))) = r) as Hr
      by (rewrite Hext; unfold k; by rewrite (named_name base i)).
    unfold upd. repeat case_decide; try congruence. by rewrite Hothers.
  - apply upd_outside.
Qed.

(** Writing the page under its own key, the references listing it. *)
Lemma stored_refs dbf dbf' refs f :
  wf (db_view dbf) → refs ≠ [] → NoDup refs → StronglySorted (cmp_le name_ext_compare) refs →
  Forall (λ r', ref_ok r' ∧ name_to_key (ne_name r') = k) refs →
  db_view dbf' !! k = Some (make_extensions_reference refs) →
  (∀ x, ¬ in_group k x → db_view dbf' !! x = db_view dbf !! x) →
  (∀ r', of_group k r' → r' ≠ r →
    match db_view dbf' !! multi_key r' with
    | Some c => r' ∈ refs ∧ ∃ j, page_content c j ∧ md_name j = None ∧ md_ext j = ne_ext r' ∧ f r' = Some j
    | None => (r' ∉ refs) ∧ f r' = None
    end) →
  r ∈ refs → db_view dbf' !! multi_key r = Some (make_content i).2 →
  (∀ r', ¬ of_group k r' → f r' = page_at (db_view dbf) r') →
  stored dbf' (upd f r (fill_unset i)).
Proof.
  intros Hwf Hrne Hnd Hs Hall Hk Hout Hin Hr Hrc Hf.
  assert (refs_group (db_view dbf') k refs (upd f r (fill_unset i))) as Hrg.
  { split; [done|]. split; [done|]. split; [done|]. split; [done|]. split; [done|].
    intros r' Hr'. unfold upd. destruct (decide (r' = r)) as [->|Hne'].
    - rewrite Hrc. split; [done|]. exists (fill_unset i). by split; [apply make_content_page|].
    - by apply Hin. }
  apply (stored_intro dbf).
  - by eapply (wf_refs _ k store_group_key).
  - done.
  - intros r' Hr'. by eapply refs_group_page, Hr'.
  - intros r' Hr'. rewrite upd_outside by done. by apply Hf.
Qed.

Lemma dbstore_new_correct dbf :
  wf (db_view dbf) → empty_group (db_view dbf) k →
  ∃ dbf', dbstore_new dbf i base = Ret (0%Z, fill_unset i, dbf') ∧
    stored dbf' (upd (page_at (db_view dbf)) r (fill_unset i)).
Proof.
  intros Hwf He. unfold dbstore_new. fold (named base i). fold k.
  destruct (make_content (named base i)) as [j c] eqn:E.
  destruct (replace_ok dbf k c) as (d' & -> & Hv). exists d'.
  assert (j = fill_unset (named base i)) as -> by by injection E.
  rewrite (proj1 (named_info base i eq_refl)). split; [done|].
  apply stored_single; [done|apply He| |by rewrite E].
  intros r' Hr' _. by apply (page_at_empty _ k).
Qed.

Lemma dbstore_multi_correct dbf refs :
  wf (db_view dbf) → refs_group (db_view dbf) k refs (page_at (db_view dbf)) →
  ∃ dbf', dbstore_multi dbf i base (make_extensions_reference refs) =
      Ret ((store_spec (page_at (db_view dbf)) (fill_unset i) r).1, fill_unset i, dbf') ∧
    stored dbf' (store_spec (page_at (db_view dbf)) (fill_unset i) r).2.
Proof.
  intros Hwf Hrg. pose proof Hrg as (Hk & Hrne & Hnd & Hs & Hall & Hf).
  pose proof (Hf r store_of_group) as Hfr.
  unfold dbstore_multi. destruct (make_content i) as [j c] eqn:E.
  assert (j = fill_unset i) as -> by by injection E.
  assert ((make_content i).2 = c) as Hc by by rewrite E.
  change (make_multi_key base (md_ext i)) with (multi_key r).
  destruct (db_view dbf !! multi_key r) as [oldc|] eqn:Eold.
  - (* the page is known already *)
    destruct (insert_present dbf (multi_key r) c) as (d1 & -> & Hv1); [by rewrite Eold|].
    destruct Hfr as (Hin & old & Hold & Hname & Hext & Hpage).
    rewrite fetch_view, Hv1, Eold, (page_split _ _ Hold), bind_Ret.
    destruct (replace_present d1 (fill_unset i) old (multi_key r) c) as (ret & d2 & -> & Hdec);
      [by rewrite Hv1, Eold|].
    exists d2. rewrite bind_Ret. unfold store_spec. rewrite Hv1 in Hdec. rewrite Hpage.
    assert (db_view d2 = db_view dbf → stored d2 (page_at (db_view dbf))) as Hsame
      by (unfold stored; intros ->; by split).
    destruct (replace_decision (fill_unset i) old); destruct Hdec as [-> Hv2]; simpl; auto.
    split; [done|]. eapply (stored_refs dbf d2 refs); try done.
    + rewrite Hv2, lookup_insert_ne; [done|]. apply not_eq_sym, key_multi_ne.
    + intros x Hx. rewrite Hv2. apply insert_multi_outside; [apply store_of_group|done].
    + intros r' Hr' Hne'. rewrite Hv2, lookup_insert_ne; [by apply Hf|].
      by apply multi_ne; [apply store_of_group|..].
    + rewrite Hv2, Hc. apply lookup_insert_eq.
  - (* a new page of a known name *)
    destruct (insert_absent dbf (multi_key r) c Eold) as (d1 & -> & Hv1).
    destruct Hfr as [Hin Hpage].
    assert (Forall ref_ok refs) as Hok by (eapply Forall_impl; [exact Hall|]; naive_solver).
    fold (refs_of (make_extensions_reference refs)).
    rewrite (proj2 (refs_of_reference refs Hrne Hok Hs)).
    change (NameExt base (md_ext (fill_unset i))) with r. fold k.
    set (refs' := gl_sortedlist_add name_ext_compare r refs).
    destruct (replace_ok d1 k (make_extensions_reference refs')) as (d2 & -> & Hv2).
    exists d2. unfold store_spec. rewrite Hpage. split; [done|].
    assert (refs' ≡ₚ r :: refs) as Hperm by apply gl_sortedlist_add_perm.
    eapply (stored_refs dbf d2 refs'); try done.
    + intros Hnil. by rewrite Hnil in Hperm; apply Permutation_nil in Hperm.
    + rewrite Hperm. by constructor.
    + by apply gl_sortedlist_add_sorted; [apply _|].
    + rewrite Hperm. constructor; [|done]. split; [|done].
      split; [apply Hbase|apply (ok_ext i Hi)].
    + rewrite Hv2. apply lookup_insert_eq.
    + intros x Hx. rewrite Hv2, insert_key_outside, Hv1 by done.
      apply insert_multi_outside; [apply store_of_group|done].
    + intros r' Hr' Hne'.
      rewrite Hv2, lookup_insert_ne by apply key_multi_ne.
      rewrite Hv1, lookup_insert_ne.
      * pose proof (Hf r' Hr') as Hfr'.
        destruct (db_view dbf !! multi_key r'); rewrite Hperm, elem_of_cons; naive_solver.
      * by apply multi_ne; [apply store_of_group|..].
    + rewrite Hperm. by left.
    + rewrite Hv2, lookup_insert_ne by apply key_multi_ne.
      rewrite Hv1, Hc. apply lookup_insert_eq.
Qed.

(** A second page of a name that had one: both get keys of their own. *)
Lemma stored_split dbf dbf' c old :
  wf (db_view dbf) → single_group (db_view dbf) k c old →
  let r0 := NameExt (default k (md_name old)) (md_ext old) in
  let refs := gl_sortedlist_add name_ext_compare r (gl_sortedlist_add name_ext_compare r0 []) in
  r0 ≠ r →
  db_view dbf' = <[k:=make_extensions_reference refs]> (<[multi_key r:=(make_content i).2]>
    (<[multi_key r0:=(make_content (set_name None old)).2]> (db_view dbf))) →
  stored dbf' (upd (page_at (db_view dbf)) r (fill_unset i)).
Proof.
  intros Hwf Hsg r0 refs Hne0 Hv. pose proof Hsg as (Hkc & Hpc & Hname & Hno).
  assert (of_group k r0) as Hr0.
  { split; [|done]. simpl. rewrite <-name_to_key_tab, Hname. apply store_group_key. }
  assert (ref_ok r0) as Hok0 by (split; [apply Hr0|apply (ok_ext old), Hpc]).
  assert (refs ≡ₚ [r; r0]) as Hperm by apply gl_sortedlist_add_perm.
  eapply (stored_refs dbf dbf' refs); try done.
  - intros Hnil. by rewrite Hnil in Hperm; apply Permutation_nil in Hperm.
  - rewrite Hperm. repeat constructor; set_solver.
  - apply gl_sortedlist_add_sorted; [apply _|]. repeat constructor.
  - rewrite Hperm. constructor; [|constructor; [|constructor]].
    + split; [|done]. split; [apply Hbase|apply (ok_ext i Hi)].
    + split; [done|apply Hr0].
  - rewrite Hv. apply lookup_insert_eq.
  - intros x Hx. rewrite Hv, insert_key_outside, !insert_multi_outside; try done. apply store_of_group.
  - intros r' Hr' Hne'. rewrite Hv, lookup_insert_ne by apply key_multi_ne.
    rewrite lookup_insert_ne by (by apply multi_ne; [apply store_of_group|..]).
    rewrite (page_at_single_group _ k _ _ r' Hsg Hr').
    destruct (decide (r' = r0)) as [->|Hne''].
    + rewrite lookup_insert_eq, decide_True by done. split; [rewrite Hperm; set_solver|].
      exists (set_name None old). split; [|done].
      rewrite <-(fill_unset_parsed _ _ (page_split _ _ Hpc)) at 2.
      apply (make_content_page (set_name None old)), entry_ok_set_None, Hpc.
    + rewrite lookup_insert_ne by by apply multi_ne. rewrite Hno, decide_False by done.
      split; [|done]. rewrite Hperm. set_solver.
  - rewrite Hperm. set_solver.
  - rewrite Hv, lookup_insert_ne by apply key_multi_ne. apply lookup_insert_eq.
Qed.

Lemma dbstore_single_correct dbf c old :
  wf (db_view dbf) → single_group (db_view dbf) k c old →
  ∃ ret dbf', dbstore_single dbf i base c = Ret (ret, fill_unset i, dbf') ∧
    ((ret = (store_spec (page_at (db_view dbf)) (fill_unset i) r).1 ∧
      stored dbf' (store_spec (page_at (db_view dbf)) (fill_unset i) r).2) ∨
     (page_at (db_view dbf) r = None ∧ ret = 1%Z ∧
      replace_decision (fill_unset i) old = REPLACE_FAIL)).
Proof.
  intros Hwf Hsg. pose proof Hsg as (Hkc & Hpc & Hname & Hno).
  pose proof (page_at_single_group _ k _ _ r Hsg store_of_group) as Hpage.
  unfold dbstore_single. rewrite (page_split _ _ Hpc), bind_Ret. fold k.
  set (r0 := NameExt (default k (md_name old)) (md_ext old)) in *.
  destruct (decide (r = r0)) as [Hr|Hr].
  - (* the same name and extension *)
    assert (STREQ (default k (md_name old)) base && STREQ (md_ext old) (md_ext i) = true) as ->.
    { change (STREQ (ne_name r0) (ne_name r) && STREQ (ne_ext r0) (ne_ext r) = true).
      by rewrite Hr, !STREQ_refl. }
    change (if negb (STREQ base k) then set_name (Some base) i else i) with (named base i).
    destruct (make_content (named base i)) as [j c'] eqn:E.
    assert (j = fill_unset (named base i)) as -> by by injection E.
    destruct (replace_present dbf (fill_unset (named base i)) old k c') as (ret & d & -> & Hdec);
      [by rewrite Hkc|].
    rewrite bind_Ret, (proj1 (named_info base i eq_refl)). exists ret, d. split; [done|]. left.
    rewrite named_decision in Hdec. unfold store_spec. rewrite Hpage.
    assert (db_view d = db_view dbf → stored d (page_at (db_view dbf))) as Hsame
      by (unfold stored; intros ->; by split).
    change (replace_decision (fill_unset i) (set_name None old)) with (replace_decision (fill_unset i) old).
    destruct (replace_decision (fill_unset i) old); destruct Hdec as [-> Hv]; simpl; auto.
    split; [done|]. apply stored_single; [done|done| |by rewrite E].
    intros r' Hr' Hne'. rewrite (page_at_single_group _ k _ _ r' Hsg Hr'). fold r0. rewrite <-Hr.
    by rewrite decide_False.
  - (* another name or extension *)
    assert (STREQ (default k (md_name old)) base && STREQ (md_ext old) (md_ext i) = false) as ->.
    { change (name_ext_equals r0 r = false). rewrite name_ext_equals_spec.
      by apply bool_decide_eq_false_2, not_eq_sym. }
    destruct (make_content (set_name None old)) as [old' lastc] eqn:El.
    assert (old' = set_name None old) as ->.
    { rewrite <-(fill_unset_parsed _ _ (page_split _ _ Hpc)). by injection El. }
    change (make_multi_key (default k (md_name old)) (md_ext old)) with (multi_key r0).
    destruct (replace_ok dbf (multi_key r0) lastc) as (d1 & -> & Hv1).
    destruct (make_content i) as [j c'] eqn:E. assert (j = fill_unset i) as -> by by injection E.
    change (make_multi_key base (md_ext i)) with (multi_key r).
    change (NameExt (default k (md_name old)) (md_ext (set_name None old))) with r0.
    change (NameExt base (md_ext (fill_unset i))) with r.
    assert (of_group k r0) as Hr0.
    { split; [|done]. simpl. rewrite <-name_to_key_tab, Hname. apply store_group_key. }
    assert (db_view d1 !! multi_key r = None) as Hnew.
    { rewrite Hv1, lookup_insert_ne; [apply Hno, store_of_group|].
      apply multi_ne; [done|apply store_of_group|done]. }
    destruct (decide (replace_decision (fill_unset i) old = REPLACE_FAIL)) as [Hfail|Hok].
    + unfold replace_if_necessary.
      change (replace_decision (fill_unset i) (set_name None old)) with (replace_decision (fill_unset i) old).
      rewrite Hfail, bind_Ret.
      match goal with |- context [MYDBM_REPLACE d1 k ?c] =>
        destruct (replace_ok d1 k c) as (d2 & -> & Hv2) end.
      do 2 eexists. split; [done|]. right. split; [by rewrite Hpage|]. done.
    + destruct (replace_absent d1 (fill_unset i) (set_name None old) (multi_key r) c' Hnew) as (d2 & -> & Hv2);
        [done|].
      rewrite bind_Ret.
      match goal with |- context [MYDBM_REPLACE d2 k ?c] =>
        destruct (replace_ok d2 k c) as (d3 & -> & Hv3) end.
      do 2 eexists. split; [done|]. left. unfold store_spec. rewrite Hpage. split; [done|].
      eapply (stored_split dbf d3 c old); [done..|by apply not_eq_sym|].
      rewrite Hv3, Hv2, Hv1, E, El. done.
Qed.

(** The three situations together. *)
Lemma dbstore_returns dbf :
  wf (db_view dbf) →
  ∃ ret dbf', dbstore dbf i0 base = Ret (ret, fill_unset i, dbf') ∧
    ((ret = (store_spec (page_at (db_view dbf)) (fill_unset i) r).1 ∧
      stored dbf' (store_spec (page_at (db_view dbf)) (fill_unset i) r).2) ∨
     (page_at (db_view dbf) r = None ∧ ret = 1%Z ∧
      ∃ c old, single_group (db_view dbf) k c old ∧
        replace_decision (fill_unset i) old = REPLACE_FAIL)).
Proof.
  intros Hwf. unfold dbstore. rewrite bool_decide_eq_false_2 by done.
  rewrite fetch_view. fold k i.
  destruct (group_state (db_view dbf) k store_group_key Hwf) as [He|[(c & old & Hsg)|(refs & Hrg)]].
  - destruct (dbstore_new_correct dbf Hwf He) as (d' & Heq & Hst).
    rewrite (proj1 He), Heq. do 2 eexists. split; [done|]. left.
    unfold store_spec. rewrite (page_at_empty _ k _ He store_of_group). done.
  - pose proof Hsg as (Hkc & Hpc & _). rewrite Hkc, decide_False by apply Hpc.
    destruct (dbstore_single_correct dbf c old Hwf Hsg) as (ret & d' & -> & Hst).
    exists ret, d'. split; [done|]. destruct Hst as [?|(? & ? & ?)]; [by left|right]. eauto 10.
  - pose proof Hrg as (Hkc & Hrne & _ & Hs & Hall & _).
    assert (Forall ref_ok refs) as Hok by (eapply Forall_impl; [exact Hall|]; naive_solver).
    rewrite Hkc, decide_True by apply (refs_of_reference refs Hrne Hok Hs).
    destruct (dbstore_multi_correct dbf refs Hwf Hrg) as (d' & -> & Hst).
    do 2 eexists. split; [done|]. by left.
Qed.

(** C1: on a well-formed database [dbstore] always returns.  It implements
    the specification [store_spec] (a new page is added, an old one replaced
    or kept according to [replace_decision], every other page untouched) and
    keeps the database well-formed, except in one case: a second page for a
    name that has one page, when the comparison with that other page fails. *)
Theorem dbstore_correct dbf :
  wf (db_view dbf) →
  ∃ ret dbf', dbstore dbf i0 base = Ret (ret, fill_unset i, dbf') ∧
    ((ret = (store_spec (page_at (db_view dbf)) (fill_unset i) r).1 ∧
      stored dbf' (store_spec (page_at (db_view dbf)) (fill_unset i) r).2) ∨
     (page_at (db_view dbf) r = None ∧ ret = 1%Z ∧
      ∃ c old, single_group (db_view dbf) k c old ∧
        replace_decision (fill_unset i) old = REPLACE_FAIL)).
Proof. apply dbstore_returns. Qed.

(** A page whose store succeeds is found again: looking up its name and
    extension exactly, in the right case, returns the page the specification
    leaves there, under the name it was stored with. *)
Theorem dbstore_lookup dbf i' dbf' :
  wf (db_view dbf) → dbstore dbf i0 base = Ret (0%Z, i', dbf') →
  ∃ j, (store_spec (page_at (db_view dbf)) i' r).2 r = Some j ∧
    dblookup_exact dbf' base (Some (md_ext i0)) true = Ret (Some (set_name (Some base) j)).
Proof.
  intros Hwf Heq. destruct (dbstore_returns dbf Hwf) as (ret & d & Heq' & Hst).
  rewrite Heq in Heq'. injection Heq' as <- -> <-. destruct Hst as [[Hret [Hwf' Hpages]]|(? & ? & _)]; [|done].
  assert (∃ j, (store_spec (page_at (db_view dbf)) (fill_unset i) r).2 r = Some j) as [j Hj].
  { unfold store_spec, upd. destruct (page_at (db_view dbf) r) as [old|] eqn:E; simpl.
    - destruct (replace_decision (fill_unset i) old); simpl; eauto. by rewrite decide_True; eauto.
    - by rewrite decide_True; eauto. }
  exists j. split; [done|].
  apply (dblookup_exact_stored dbf' r j); [done| |apply Hbase|done].
  rewrite Hpages; [done|apply Hbase].
Qed.
End dbstore.

(** ** Evaluation *)

Definition page (id ext : string) (comp : option cstr) : mandata :=
  Mandata None (lit ext) (lit "1") (default NUL (head (lit id))) None comp None
    (Some (lit "about it")) (Timespec 1000 5).

Ltac page_ok := split; vm_compute; try done; repeat split; try by not_in.

(** An index with [ls.1] and [LS.1x], built by [dbstore]. *)
Definition two_pages : outcome (Z * mandata * gmap cstr cstr) :=
  '(_, _, d) ← dbstore (∅ : gmap cstr cstr) (page "A" "1" (Some (lit "gz"))) (lit "ls");
  dbstore d (page "B" "1x" None) (lit "LS").

Example two_pages_keys :
  (d ← two_pages; Ret (d.1.1, db_keys d.2)) =
  Ret (0%Z, [lit "LS" ++ TAB :: lit "1x"; lit "ls"; lit "ls" ++ TAB :: lit "1"]).
Proof. by vm_compute. Qed.

Lemma wf_empty_db : wf ∅.
Proof. apply map_Forall_empty. Qed.

Lemma dbstore_correct_witness :
  ∃ ret dbf', dbstore (∅ : gmap cstr cstr) (page "A" "1" None) (lit "Ls") =
      Ret (ret, fill_unset (page "A" "1" None), dbf') ∧
    ((ret = (store_spec (page_at ∅) (fill_unset (page "A" "1" None)) (NameExt (lit "Ls") (lit "1"))).1 ∧
      stored dbf' (store_spec (page_at ∅) (fill_unset (page "A" "1" None)) (NameExt (lit "Ls") (lit "1"))).2) ∨
     (page_at ∅ (NameExt (lit "Ls") (lit "1")) = None ∧ ret = 1%Z ∧
      ∃ c old, single_group ∅ (lit "ls") c old ∧
        replace_decision (fill_unset (page "A" "1" None)) old = REPLACE_FAIL)).
Proof.
  refine (dbstore_correct (db:=gmap cstr cstr) (page "A" "1" None) (lit "Ls") _ _ _ _ ∅ wf_empty_db).
  - page_ok.
  - compute_done.
  - done.
  - done.
Defined.

Lemma dbstore_lookup_witness :
  ∃ j, (store_spec (page_at ∅) (fill_unset (page "A" "1" None)) (NameExt (lit "Ls") (lit "1"))).2
         (NameExt (lit "Ls") (lit "1")) = Some j ∧
    dblookup_exact (default ∅ (match dbstore (∅ : gmap cstr cstr) (page "A" "1" None) (lit "Ls") with
                               | Ret (_, _, d) => Some d | _ => None end))
      (lit "Ls") (Some (lit "1")) true = Ret (Some (set_name (Some (lit "Ls")) j)).
Proof.
  refine (dbstore_lookup (db:=gmap cstr cstr) (page "A" "1" None) (lit "Ls") _ _ _ _ ∅ _ _ wf_empty_db _).
  - page_ok.
  - compute_done.
  - done.
  - done.
  - by vm_compute.
Defined.

Lemma replace_decision_order_witness :
  replace_decision (fill_unset (page "A" "1" None)) (fill_unset (page "B" "1" None)) = REPLACE_YES.
Proof.
  rewrite (replace_decision_order (fill_unset (page "A" "1" None)) (fill_unset (page "B" "1" None)));
    [done|by eexists..].
Defined.

(** ** Two behaviours the code does not mean to have *)

(** The return code and the index of a store, for evaluation. *)
Definition stored_db (o : outcome (Z * mandata * gmap cstr cstr)) : outcome (Z * gmap cstr cstr) :=
  '(ret, _, d) ← o; Ret (ret, d).

(** A second page for a name, alike in kind, time and pointer to the first
    but compressed differently, is refused with return code 1; by then the
    list of references names it, so every later lookup of the name ends the
    program with a corrupt database. *)
Theorem dbstore_dangling :
  (d1 ← stored_db (dbstore ∅ (page "A" "1" (Some (lit "gz"))) (lit "ls"));
   d2 ← stored_db (dbstore d1.2 (page "A" "1x" None) (lit "ls"));
   Ret (d1.1, d2.1, dblookup_all d2.2 (lit "ls") None true)) =
  Ret (0%Z, 1%Z, gripe_corrupt_data).
Proof. by vm_compute. Qed.

(** A lookup that is to match the case finds the only page of a name whose
    stored name is all lower case under any other case too, and returns it
    with the name that was asked for. *)
Theorem dblookup_match_case_ignored :
  (d ← stored_db (dbstore ∅ (page "A" "1" None) (lit "ls"));
   infos ← dblookup_all d.2 (lit "LS") None true;
   Ret (page_at d.2 (NameExt (lit "LS") (lit "1")), map md_name infos)) =
  Ret (None, [Some (lit "LS")]).
Proof. by vm_compute. Qed.
