(* ===== verification/DbDelete.v ===== *)
(** * libdb/db_delete.c and libdb/db_ver.c: deleting a page, and the version entry *)

From S2P Require Import Prelude CStr Fs Compression Filenames Mydbm DbContent Wordfnmatch DbLookup DbGroup DbStore.

(** ** Definitions *)

Definition NO_ENTRY : Z := 1.

Section delete.
Context {db : Type} `{Mydbm db}.

(** [gl_list_indexof] and [gl_list_remove_at]. *)
Fixpoint gl_list_remove (refs : list name_ext) (r : name_ext) : list name_ext :=
  match refs with
  | [] => []
  | r' :: refs => if name_ext_equals r r' then refs else r' :: gl_list_remove refs r
  end.
Definition gl_list_member (refs : list name_ext) (r : name_ext) : bool :=
  existsb (name_ext_equals r) refs.

(** The text that [dbdelete] builds with [appendstr]. *)
Definition multi_content (refs : list name_ext) : cstr :=
  fold_left (λ acc r, acc ++ [TAB] ++ ne_name r ++ [TAB] ++ ne_ext r) refs [].

Definition dbdelete (dbf : db) (name : cstr) (info : mandata) : outcome (Z * db) :=
  let key := name_to_key name in
  match MYDBM_FETCH dbf key with
  | None => Ret (NO_ENTRY, dbf)
  | Some cont =>
    if negb (bool_decide (head cont = Some TAB)) then Ret (0%Z, MYDBM_DELETE dbf key)
    else
      let refs := list_extensions (drop 1 cont) in
      let this_ref := NameExt name (md_ext info) in
      if negb (gl_list_member refs this_ref) then Ret (NO_ENTRY, dbf)
      else
        let multi_key := make_multi_key name (md_ext info) in
        if negb (MYDBM_EXISTS dbf multi_key) then gripe_corrupt_data
        else
          let dbf := MYDBM_DELETE dbf multi_key in
          let refs := gl_list_remove refs this_ref in
          if bool_decide (refs = []) then Ret (0%Z, MYDBM_DELETE dbf key)
          else
            match MYDBM_REPLACE dbf key (multi_content refs) with
            | (true, _) => gripe_replace_key
            | (false, dbf) => Ret (0%Z, dbf)
            end
  end.

(** db_ver.c: 0 when the version entry is there and right. *)
Definition dbver_rd (dbf : db) : Z :=
  match MYDBM_FETCH dbf VER_KEY with
  | None => 1
  | Some content => if negb (STREQ content VER_ID) then 1 else 0
  end.

Definition dbver_wr (dbf : db) : outcome db :=
  match MYDBM_INSERT dbf VER_KEY VER_ID with
  | (true, _) => Fatal "unable to insert version identifier"
  | (false, dbf) => Ret dbf
  end.
End delete.

(** ** Lemmas *)

(** [dbdelete] and [make_extensions_reference] write the same text. *)
Lemma multi_content_reference refs : multi_content refs = make_extensions_reference refs.
Proof.
  unfold multi_content, make_extensions_reference, ref_text.
  enough (∀ acc, fold_left (λ acc r, acc ++ [TAB] ++ ne_name r ++ [TAB] ++ ne_ext r) refs acc =
    acc ++ concat ((λ r, TAB :: ne_name r ++ TAB :: ne_ext r) <$> refs)) as -> by done.
  induction refs as [|r refs IH]; intros acc; simpl; [by rewrite app_nil_r|].
  rewrite IH. by app_norm.
Qed.

Lemma gl_list_member_spec refs r : gl_list_member refs r = bool_decide (r ∈ refs).
Proof.
  unfold gl_list_member. induction refs as [|r' refs IH]; simpl; [done|].
  rewrite IH, name_ext_equals_spec.
  repeat case_bool_decide; simpl; try done; exfalso; set_solver.
Qed.

Lemma gl_list_remove_filter refs r :
  NoDup refs → gl_list_remove refs r = filter (λ r', r' ≠ r) refs.
Proof.
  induction 1 as [|r' refs Hr' Hnd IH]; simpl; [done|].
  rewrite name_ext_equals_spec, filter_cons. case_bool_decide as E; case_decide as E'; try congruence.
  subst r'. symmetry. clear -Hr'. induction refs as [|r' refs IH]; [done|].
  rewrite filter_cons. apply not_elem_of_cons in Hr' as [??].
  rewrite decide_True by congruence. f_equal. by apply IH.
Qed.

(** The pages without the page of [r]. *)
Definition del (f : name_ext → option mandata) (r r' : name_ext) : option mandata :=
  if decide (r' = r) then None else f r'.

Section delete_correct.
Context {db : Type} `{MydbmReliable db} (dbf : db) (name : cstr) (info : mandata).
Let m := db_view dbf.
Let k := name_to_key name.
Let r := NameExt name (md_ext info).
Hypotheses (Hwf : wf m) (Hname : TAB ∉ name) (Hver : k ≠ VER_KEY).

Lemma delete_group_key : group_key k.
Proof. split; [|done]. unfold k. by rewrite name_to_key_tab. Qed.
Lemma delete_of_group : of_group k r.
Proof. done. Qed.

Lemma delete_key_outside (m' : gmap cstr cstr) x : ¬ in_group k x → delete k m' !! x = m' !! x.
Proof. intros Hx. apply lookup_delete_ne. intros <-. apply Hx. by left. Qed.
Lemma delete_multi_outside (m' : gmap cstr cstr) x :
  ¬ in_group k x → delete (multi_key r) m' !! x = m' !! x.
Proof. intros Hx. apply lookup_delete_ne. intros <-. apply Hx. right. by exists name, (md_ext info). Qed.
Lemma delete_key_multi r' : k ≠ multi_key r'.
Proof. intros Heq. by apply (multi_not_group_key k delete_group_key r'). Qed.

Lemma del_outside f r' : ¬ of_group k r' → del f r r' = f r'.
Proof. intros Hr'. unfold del. case_decide; [subst|done]. by destruct Hr'. Qed.

(** The only page of the name: the group becomes empty. *)
Lemma delete_single c old d' :
  single_group m k c old → db_view d' = delete k m →
  wf (db_view d') ∧
  (∀ r', TAB ∉ ne_name r' → page_at (db_view d') r' =
    if decide (name_to_key (ne_name r') = k) then None else page_at m r').
Proof.
  intros (Hc & Hpc & _ & Hno) Hv.
  assert (empty_group (db_view d') k) as He.
  { rewrite Hv. split; [apply lookup_delete_eq|]. intros r' Hr'.
    rewrite lookup_delete_ne by apply delete_key_multi. by apply Hno. }
  assert (∀ x, ¬ in_group k x → db_view d' !! x = m !! x) as Hout
    by (intros; rewrite Hv; by apply delete_key_outside).
  split; [by eapply (wf_empty m k delete_group_key)|]. intros r' Ht. case_decide.
  - by apply (page_at_empty _ k).
  - by apply (page_at_outside _ k delete_group_key).
Qed.

(** The last page the references list: the group becomes empty. *)
Lemma delete_last d' :
  no_multi (delete (multi_key r) m) k → db_view d' = delete k (delete (multi_key r) m) →
  (∀ r', of_group k r' → r' ≠ r → page_at m r' = None) →
  wf (db_view d') ∧ (∀ r', TAB ∉ ne_name r' → page_at (db_view d') r' = del (page_at m) r r').
Proof.
  intros Hno Hv Hothers.
  assert (empty_group (db_view d') k) as He.
  { rewrite Hv. split; [apply lookup_delete_eq|]. intros r' Hr'.
    rewrite lookup_delete_ne by apply delete_key_multi. by apply Hno. }
  assert (∀ x, ¬ in_group k x → db_view d' !! x = m !! x) as Hout
    by (intros; rewrite Hv, delete_key_outside by done; by apply delete_multi_outside).
  split; [by eapply (wf_empty m k delete_group_key)|]. intros r' Ht.
  destruct (decide (name_to_key (ne_name r') = k)) as [Hk|Hk].
  - rewrite (page_at_empty _ k) by done. unfold del. case_decide; [done|]. by rewrite Hothers.
  - rewrite del_outside by by intros []. by apply (page_at_outside _ k delete_group_key).
Qed.

(** Other pages remain in the list. *)
Lemma delete_ref refs d' :
  refs_group m k refs (page_at m) → filter (λ r', r' ≠ r) refs ≠ [] →
  db_view d' = <[k:=make_extensions_reference (filter (λ r', r' ≠ r) refs)]> (delete (multi_key r) m) →
  wf (db_view d') ∧ (∀ r', TAB ∉ ne_name r' → page_at (db_view d') r' = del (page_at m) r r').
Proof.
  intros (Hk & Hne & Hnd & Hs & Hall & Hf) Hne' Hv.
  assert (refs_group (db_view d') k (filter (λ r', r' ≠ r) refs) (del (page_at m) r)) as Hrg.
  { rewrite Hv. split; [apply lookup_insert_eq|]. split; [done|]. split; [by apply NoDup_filter|].
    split; [by apply StronglySorted_filter|]. split.
    { rewrite Forall_forall in *. intros r' [_ Hr']%list_elem_of_filter. by apply Hall. }
    intros r' Hr'. rewrite lookup_insert_ne by apply delete_key_multi. unfold del.
    destruct (decide (r' = r)) as [->|Hner].
    - rewrite lookup_delete_eq. split; [|done]. rewrite list_elem_of_filter. by intros [].
    - rewrite lookup_delete_ne by (intros Heq; apply Hner; symmetry; by eapply multi_key_inj).
      pose proof (Hf r' Hr') as Hfr. destruct (m !! multi_key r');
        rewrite list_elem_of_filter; naive_solver. }
  assert (∀ x, ¬ in_group k x → db_view d' !! x = m !! x) as Hout.
  { intros x Hx. rewrite Hv, lookup_insert_ne; [by apply delete_multi_outside|].
    intros <-. apply Hx. by left. }
  split; [by eapply (wf_refs m k delete_group_key)|]. intros r' Ht.
  destruct (decide (name_to_key (ne_name r') = k)) as [Hk'|Hk'].
  - by apply (refs_group_page _ k _ _ _ Hrg).
  - rewrite del_outside by by intros []. by apply (page_at_outside _ k delete_group_key).
Qed.

Lemma dbdelete_returns :
  ∃ ret d', dbdelete dbf name info = Ret (ret, d') ∧ wf (db_view d') ∧
    ((ret = 1%Z ∧ page_at m r = None ∧ d' = dbf) ∨
     (ret = 0%Z ∧ (∃ c old, single_group m k c old) ∧
       ∀ r', TAB ∉ ne_name r' → page_at (db_view d') r' =
         if decide (name_to_key (ne_name r') = k) then None else page_at m r') ∨
     (ret = 0%Z ∧ is_Some (page_at m r) ∧
       ∀ r', TAB ∉ ne_name r' → page_at (db_view d') r' = del (page_at m) r r')).
Proof.
  unfold dbdelete. rewrite fetch_view. fold m k.
  destruct (group_state m k delete_group_key Hwf) as [He|[(c & old & Hsg)|(refs & Hrg)]].
  - rewrite (proj1 He). do 2 eexists. split; [done|]. split; [done|]. left.
    split; [done|]. split; [|done]. by apply (page_at_empty _ k).
  - pose proof Hsg as (Hc & Hpc & _). rewrite Hc, bool_decide_eq_false_2 by apply Hpc. simpl.
    destruct (delete_single c old (MYDBM_DELETE dbf k) Hsg (delete_view _ _)) as [Hw Hp].
    do 2 eexists. split; [done|]. split; [done|]. right; left. eauto.
  - pose proof Hrg as (Hc & Hne & Hnd & Hs & Hall & Hf).
    assert (Forall ref_ok refs) as Hok by (eapply Forall_impl; [exact Hall|]; naive_solver).
    destruct (refs_of_reference refs Hne Hok Hs) as [Hh Hrefs].
    rewrite Hc, bool_decide_eq_true_2 by done. cbn [negb]. unfold refs_of in Hrefs. rewrite Hrefs.
    pose proof (Hf r delete_of_group) as Hfr.
    rewrite gl_list_member_spec, gl_list_remove_filter, exists_view by done. fold r.
    change (make_multi_key name (md_ext info)) with (multi_key r). fold m.
    destruct (m !! multi_key r) as [cr|] eqn:Er; destruct Hfr as [Hin Hfr].
    + rewrite !bool_decide_eq_true_2 by done. cbn [negb]. destruct Hfr as (i & _ & _ & _ & Hi).
      assert (is_Some (page_at m r)) as Hsome by by eexists.
      assert (db_view (MYDBM_DELETE dbf (multi_key r)) = delete (multi_key r) m) as Hv1
        by apply delete_view.
      case_bool_decide as Hempty.
      * destruct (delete_last (MYDBM_DELETE (MYDBM_DELETE dbf (multi_key r)) k)) as [Hw Hp].
        { intros r' Hr'. destruct (decide (r' = r)) as [->|Hner]; [apply lookup_delete_eq|].
          rewrite lookup_delete_ne by (intros Heq; apply Hner; symmetry; by eapply multi_key_inj).
          pose proof (Hf r' Hr') as Hfr'. destruct (m !! multi_key r'); [|done].
          assert (r' ∈ filter (λ r', r' ≠ r) refs) as Hx by (apply list_elem_of_filter; naive_solver).
          rewrite Hempty in Hx. by apply elem_of_nil in Hx. }
        { by rewrite delete_view, Hv1. }
        { intros r' Hr' Hner. pose proof (Hf r' Hr') as Hfr'. destruct (m !! multi_key r'); [|naive_solver].
          assert (r' ∈ filter (λ r', r' ≠ r) refs) as Hx by (apply list_elem_of_filter; naive_solver).
          rewrite Hempty in Hx. by apply elem_of_nil in Hx. }
        do 2 eexists. split; [done|]. split; [done|]. right; right. eauto.
      * rewrite multi_content_reference.
        destruct (replace_ok (MYDBM_DELETE dbf (multi_key r)) k
          (make_extensions_reference (filter (λ r', r' ≠ r) refs))) as (d2 & -> & Hv2).
        rewrite Hv1 in Hv2. destruct (delete_ref refs d2 Hrg Hempty Hv2) as [Hw Hp].
        do 2 eexists. split; [done|]. split; [done|]. right; right. eauto.
    + rewrite (bool_decide_eq_false_2 (r ∈ refs)) by done. simpl.
      do 2 eexists. split; [done|]. split; [done|]. by left.
Qed.

(** What happens to a page that is stored, and to one that is not. *)
Lemma dbdelete_cases :
  ∃ ret d', dbdelete dbf name info = Ret (ret, d') ∧ wf (db_view d') ∧
    match page_at m r with
    | Some _ => ret = 0%Z ∧ ∀ r', TAB ∉ ne_name r' → page_at (db_view d') r' = del (page_at m) r r'
    | None =>
      (ret = 1%Z ∧ d' = dbf ∧ ∀ c old, ¬ single_group m k c old) ∨
      (ret = 0%Z ∧ ∃ c old, single_group m k c old ∧
         ∀ r', TAB ∉ ne_name r' →
           page_at (db_view d') r' = del (page_at m) (NameExt (default k (md_name old)) (md_ext old)) r')
    end.
Proof.
  destruct dbdelete_returns as (ret & d' & Hd & Hw & Hcases). exists ret, d'. split; [done|]. split; [done|].
  destruct (group_state m k delete_group_key Hwf) as [He|[(c & old & Hsg)|(refs & Hrg)]].
  - assert (page_at m r = None) as Hnone by by apply (page_at_empty _ k).
    assert (∀ c old, ¬ single_group m k c old) as Hno by (intros c old [Hc _]; by rewrite (proj1 He) in Hc).
    rewrite Hnone in *. destruct Hcases as [(-> & _ & ->)|[(_ & (c & old & Hs) & _)|(_ & [? [=]] & _)]]; [by left|by destruct (Hno c old)].
  - (* a single entry is deleted, whatever it is *)
    pose proof Hsg as (Hc & Hpc & _). unfold dbdelete in Hd. rewrite fetch_view in Hd. fold m k in Hd.
    rewrite Hc, bool_decide_eq_false_2 in Hd by apply Hpc. cbn [negb] in Hd. injection Hd as <- <-.
    destruct (delete_single c old (MYDBM_DELETE dbf k) Hsg (delete_view _ _)) as [_ Hp].
    set (r0 := NameExt (default k (md_name old)) (md_ext old)).
    assert (∀ r', TAB ∉ ne_name r' → page_at (db_view (MYDBM_DELETE dbf k)) r' = del (page_at m) r0 r') as Hdel.
    { intros r' Ht. rewrite Hp by done. unfold del. destruct (decide (name_to_key (ne_name r') = k)) as [Hr'|Hr'].
      - rewrite (page_at_single_group m k c old) by done. fold r0. by case_decide.
      - case_decide as Hr0; [|done]. subst r'. by destruct Hr', Hsg as (_ & _ & Hn & _). }
    destruct (page_at m r) as [i|] eqn:Er; [|right; split; [done|by exists c, old]].
    split; [done|]. rewrite (page_at_single_group m k c old r Hsg delete_of_group) in Er. case_decide as Hr0; [|done].
    rewrite Hr0. exact Hdel.
  - assert (∀ c old, ¬ single_group m k c old) as Hno.
    { intros c old (Hc & [Hh _ _] & _). destruct Hrg as (Hc' & Hne & _ & Hs & Hall & _).
      assert (Forall ref_ok refs) as Hok by (eapply Forall_impl; [exact Hall|]; naive_solver).
      rewrite Hc in Hc'. injection Hc' as ->. by destruct (refs_of_reference refs Hne Hok Hs). }
    destruct Hcases as [(-> & -> & ->)|[(_ & (c & old & Hs) & _)|(-> & [i ->] & Hp)]]; [by left|by destruct (Hno c old)|done].
Qed.

(** C3: on a well-formed index [dbdelete] never ends the program and keeps the
    index well-formed.  A page that is stored is removed, and no other page.
    For a page that is not stored 1 is returned and nothing changes, except
    when the name has a single entry in the index: then the page of that entry
    is removed, although its extension or the case of its name is another one,
    and 0 is returned. *)
Theorem dbdelete_correct :
  ∃ ret d', dbdelete dbf name info = Ret (ret, d') ∧ wf (db_view d') ∧
    match page_at m r with
    | Some _ => ret = 0%Z ∧ ∀ r', TAB ∉ ne_name r' → page_at (db_view d') r' = del (page_at m) r r'
    | None =>
      (ret = 1%Z ∧ d' = dbf ∧ ∀ c old, ¬ single_group m k c old) ∨
      (ret = 0%Z ∧ ∃ c old, single_group m k c old ∧
         ∀ r', TAB ∉ ne_name r' →
           page_at (db_view d') r' = del (page_at m) (NameExt (default k (md_name old)) (md_ext old)) r')
    end.
Proof. apply dbdelete_cases. Qed.
End delete_correct.

Lemma ver_key_no_tab : TAB ∉ VER_KEY.
Proof. compute_done. Qed.

(** The version entry is not an entry of the index. *)
Lemma wf_insert_version m c : wf m → wf (<[VER_KEY:=c]> m).
Proof.
  intros Hwf k c' Hk. unfold entry_wf. destruct (decide (k = VER_KEY)) as [->|Hv]; [done|].
  rewrite lookup_insert_ne in Hk by done. pose proof (Hwf k c' Hk) as He. unfold entry_wf in He.
  rewrite decide_False in He by done.
  assert (∀ n e, make_multi_key n e ≠ VER_KEY) as Hmulti.
  { intros n e Heq. apply ver_key_no_tab. rewrite <-Heq. apply make_multi_key_tab. }
  case_decide.
  - destruct He as (n & e & i & c1 & -> & Hn & Hp & Hi & Hext & Hnv & Hc1 & Hh & Hr).
    exists n, e, i, c1. split_and!; try done. by rewrite lookup_insert_ne.
  - destruct He as [He|(refs & -> & Hne & Hnd & Hs & Hall)]; [by left|]. right.
    exists refs. split_and!; try done. eapply Forall_impl; [done|]. intros r (? & ? & ?).
    by rewrite lookup_insert_ne.
Qed.

(** Writing the version into a database without one succeeds, it is read
    back as right, and the pages of the index are not affected. *)
Theorem dbver_roundtrip {db} `{MydbmReliable db} (dbf : db) :
  wf (db_view dbf) → db_view dbf !! VER_KEY = None →
  ∃ d', dbver_wr dbf = Ret d' ∧ dbver_rd d' = 0%Z ∧ wf (db_view d') ∧
    ∀ r, TAB ∉ ne_name r → name_to_key (ne_name r) ≠ VER_KEY →
      page_at (db_view d') r = page_at (db_view dbf) r.
Proof.
  intros Hwf Hno. unfold dbver_wr, dbver_rd.
  destruct (insert_absent dbf VER_KEY VER_ID Hno) as (d' & -> & Hv). exists d'. split; [done|].
  rewrite fetch_view, Hv, lookup_insert_eq, STREQ_refl. split; [done|].
  split; [by apply wf_insert_version|]. intros r Ht Hr. unfold page_at.
  rewrite !lookup_insert_ne; [done| |done].
  intros Heq. apply ver_key_no_tab. rewrite Heq. apply make_multi_key_tab.
Qed.

(** ** Evaluation *)

Lemma dbver_roundtrip_witness :
  ∃ d', dbver_wr (∅ : gmap cstr cstr) = Ret d' ∧ dbver_rd d' = 0%Z ∧ wf (db_view d') ∧
    ∀ r, TAB ∉ ne_name r → name_to_key (ne_name r) ≠ VER_KEY →
      page_at (db_view d') r = page_at ∅ r.
Proof. by refine (dbver_roundtrip (∅ : gmap cstr cstr) wf_empty_db _). Defined.

Lemma dbdelete_correct_witness :
  ∃ ret d', dbdelete one_page (lit "ls") example_page = Ret (ret, d') ∧ wf (db_view d') ∧
    match page_at one_page (NameExt (lit "ls") (lit "1")) with
    | Some _ => ret = 0%Z ∧ ∀ r', TAB ∉ ne_name r' →
        page_at (db_view d') r' = del (page_at one_page) (NameExt (lit "ls") (lit "1")) r'
    | None =>
      (ret = 1%Z ∧ d' = one_page ∧ ∀ c old, ¬ single_group one_page (lit "ls") c old) ∨
      (ret = 0%Z ∧ ∃ c old, single_group one_page (lit "ls") c old ∧
         ∀ r', TAB ∉ ne_name r' →
           page_at (db_view d') r' = del (page_at one_page) (NameExt (default (lit "ls") (md_name old)) (md_ext old)) r')
    end.
Proof.
  refine (dbdelete_correct (db:=gmap cstr cstr) one_page (lit "ls") example_page one_page_wf _ _).
  - compute_done.
  - done.
Defined.

(** [ls.1] is not stored under this very name, but the only entry of [ls],
    the page [Ls.1], is deleted for it. *)
Example dbdelete_other_page :
  page_at one_page (NameExt (lit "ls") (lit "1")) = None ∧ is_Some (page_at one_page (NameExt (lit "Ls") (lit "1"))) ∧
  ('(ret, d) ← dbdelete one_page (lit "ls") example_page; Ret (ret, db_keys d)) = Ret (0%Z, []).
Proof. split_and!; [by vm_compute|vm_compute; by eexists|by vm_compute]. Qed.

(** Deleting one of two pages leaves the other in a list of one reference; the
    comment above [dbdelete] wants it stored as a single page again. *)
Example dbdelete_one_left :
  (d ← two_pages; d' ← dbdelete d.2 (lit "ls") example_page; Ret (d'.1, db_keys d'.2)) =
  Ret (0%Z, [lit "LS" ++ TAB :: lit "1x"; lit "ls"]).
Proof. by vm_compute. Qed.
