(* ===== verification/Encodings.v ===== *)
(** * lib/encodings.c: encodings of pages and devices of groff

    The tables as they are in the source, the lookups in them, the choice of
    the default device, and the functions that look at the locale. *)

From S2P Require Import Prelude CStr.

(** ** Tables *)

Definition directory_table : list (string * string) :=
[("C", "ISO-8859-1"); ("POSIX", "ISO-8859-1"); ("be", "CP1251"); ("bg", "CP1251");
   ("cs", "ISO-8859-2"); ("da", "ISO-8859-1"); ("de", "ISO-8859-1"); ("el", "ISO-8859-7");
   ("en", "ISO-8859-1"); ("es", "ISO-8859-1"); ("et", "ISO-8859-1"); ("fi", "ISO-8859-1");
   ("fr", "ISO-8859-1"); ("ga", "ISO-8859-1"); ("gl", "ISO-8859-1"); ("hr", "ISO-8859-2");
   ("hu", "ISO-8859-2"); ("id", "ISO-8859-1"); ("is", "ISO-8859-1"); ("it", "ISO-8859-1");
   ("ja", "EUC-JP"); ("ko", "EUC-KR"); ("lt", "ISO-8859-13"); ("lv", "ISO-8859-13");
   ("mk", "ISO-8859-5"); ("nb", "ISO-8859-1"); ("nl", "ISO-8859-1"); ("nn", "ISO-8859-1");
   ("no", "ISO-8859-1"); ("pl", "ISO-8859-2"); ("pt", "ISO-8859-1"); ("ro", "ISO-8859-2");
   ("ru", "KOI8-R"); ("sk", "ISO-8859-2"); ("sl", "ISO-8859-2"); ("sr@latin", "ISO-8859-2");
   ("sr", "ISO-8859-5"); ("sv", "ISO-8859-1"); ("tr", "ISO-8859-9"); ("uk", "KOI8-U");
   ("vi", "TCVN5712-1"); ("zh_CN", "GBK"); ("zh_SG", "GBK"); ("zh_HK", "BIG5HKSCS");
   ("zh_TW", "BIG5")]%string.
Definition fallback_source_encoding : cstr := lit "ISO-8859-1".

Definition charset_alias_table : list (string * string) :=
[("88591", "ISO-8859-1"); ("88592", "ISO-8859-2"); ("88593", "ISO-8859-3");
   ("88594", "ISO-8859-4"); ("88595", "ISO-8859-5"); ("88596", "ISO-8859-6");
   ("88597", "ISO-8859-7"); ("88598", "ISO-8859-8"); ("88599", "ISO-8859-9");
   ("885910", "ISO-8859-10"); ("885911", "ISO-8859-11"); ("885913", "ISO-8859-13");
   ("885914", "ISO-8859-14"); ("885915", "ISO-8859-15"); ("885916", "ISO-8859-16");
   ("ASCII", "ANSI_X3.4-1968"); ("BIG-5", "BIG5"); ("BIG5-HKSCS", "BIG5HKSCS");
   ("EUCCN", "EUC-CN"); ("EUCJP", "EUC-JP"); ("EUCKR", "EUC-KR"); ("EUCTW", "EUC-TW");
   ("GB2312", "EUC-CN"); ("ISO8859-1", "ISO-8859-1"); ("ISO8859-2", "ISO-8859-2");
   ("ISO8859-3", "ISO-8859-3"); ("ISO8859-4", "ISO-8859-4"); ("ISO8859-5", "ISO-8859-5");
   ("ISO8859-6", "ISO-8859-6"); ("ISO8859-7", "ISO-8859-7"); ("ISO8859-8", "ISO-8859-8");
   ("ISO8859-9", "ISO-8859-9"); ("ISO8859-10", "ISO-8859-10"); ("ISO8859-11", "ISO-8859-11");
   ("ISO8859-13", "ISO-8859-13"); ("ISO8859-14", "ISO-8859-14"); ("ISO8859-15", "ISO-8859-15");
   ("ISO8859-16", "ISO-8859-16"); ("KOI8R", "KOI8-R"); ("KOI8U", "KOI8-U"); ("UJIS", "EUC-JP");
   ("US-ASCII", "ANSI_X3.4-1968"); ("UTF8", "UTF-8")]%string.

Definition charset_table (HEIRLOOM_NROFF : bool) : list (string * string) :=
  [("ANSI_X3.4-1968", "ascii")]%string ++
  (if HEIRLOOM_NROFF then [] else [("ISO-8859-1", "latin1")]%string) ++
  [("UTF-8", "utf8")]%string.
Definition fallback_default_device : cstr := lit "ascii".

(** Device, encoding of its input, encoding of its output. *)
Definition device_table (HEIRLOOM_NROFF : bool) : list (string * option string * option string) :=
  [("ascii", Some "ANSI_X3.4-1968", Some "ANSI_X3.4-1968");
   ("latin1", Some "ISO-8859-1", Some "ISO-8859-1");
   ("utf8", Some "ISO-8859-1", Some "UTF-8")]%string ++
  (if HEIRLOOM_NROFF then [("locale", Some "UTF-8", Some "UTF-8")]%string else []) ++
  ((λ d, (d, None, None)) <$> ["X75"; "X75-12"; "X100"; "X100-12"; "dvi"; "html"; "lbp"; "lj4"; "ps"]%string).
Definition fallback_roff_encoding : cstr := lit "ISO-8859-1".

Definition less_charset_table : list (string * string * option string) :=
  [("ANSI_X3.4-1968", "ascii", None); ("CP1251", "windows", None);
   ("EUC-JP", "iso8859", Some "japanese-ujis"); ("ISO-8859-1", "iso8859", None);
   ("KOI8-R", "koi8-r", None); ("KOI8-U", "koi8-r", None); ("UTF-8", "utf-8", None)]%string.
Definition fallback_less_charset : cstr := lit "iso8859".

(** ** Lookups *)

(** The first entry of a table that satisfies a test. *)
Definition find_entry {A} (test : A → bool) (table : list A) : option A :=
  head (filter (λ e, test e = true) table).

(** [get_groff_preconv]: the static variable (null, empty or a name) and the
    result; [found] is [pathsearch_executable]. *)
Definition get_groff_preconv (found : cstr → bool) (groff_preconv : option cstr)
    : option cstr * option cstr :=
  let v := match groff_preconv with
           | Some v => v
           | None => if found (lit "gpreconv") then lit "gpreconv"
                     else if found (lit "preconv") then lit "preconv" else []
           end in
  (Some v, if bool_decide (v = []) then None else Some v).

Definition get_canonical_charset_name (charset : cstr) : cstr :=
  let charset_upper := toupper <$> charset in
  match find_entry (λ e, STREQ (lit e.1) charset_upper) charset_alias_table with
  | Some e => lit e.2
  | None => charset
  end.

(** The language directory whose name begins [lang]. *)
Definition table_encoding (lang : cstr) : cstr :=
  match find_entry (λ e, STRNEQ (lit e.1) lang (length (lit e.1))) directory_table with
  | Some e => lit e.2
  | None => fallback_source_encoding
  end.

(** The argument of the two functions below: an empty or null language is
    guessed from the locale, [messages] being [setlocale (LC_MESSAGES, NULL)]. *)
Definition guess_lang (messages lang : option cstr) : option cstr :=
  match lang with
  | None | Some [] => messages
  | Some l => Some l
  end.

Definition get_page_encoding (messages lang : option cstr) : cstr :=
  match guess_lang messages lang with
  | None => fallback_source_encoding
  | Some lang =>
    match strchr lang "."%char with
    | Some dot =>
      let rest := drop (S dot) lang in
      get_canonical_charset_name (take (strcspn (one_of (lit ",@")) rest) rest)
    | None => table_encoding lang
    end
  end.

Definition get_source_encoding (messages lang : option cstr) : cstr :=
  match guess_lang messages lang with
  | None => fallback_source_encoding
  | Some lang => table_encoding lang
  end.

Definition compatible_encodings (input output : cstr) : bool :=
  STREQ input output || STREQ input (lit "ANSI_X3.4-1968") || STREQ input (lit "UTF-8")
  || STREQ output (lit "ANSI_X3.4-1968").

Section devices.
Context (HEIRLOOM_NROFF : bool).

Definition find_device (device : cstr) :=
  find_entry (λ e, STREQ (lit e.1.1) device) (device_table HEIRLOOM_NROFF).

Definition is_roff_device (device : cstr) : bool := bool_decide (is_Some (find_device device)).

Definition get_roff_encoding (device : option cstr) (source_encoding : cstr) : cstr :=
  match device ≫= find_device with
  | Some e => match e.1.2 with Some enc => lit enc | None => source_encoding end
  | None => fallback_roff_encoding
  end.

Definition get_output_encoding (device : cstr) : option cstr :=
  e ← find_device device; lit <$> e.2.

(** The loop of [get_default_device] without preconv. *)
Fixpoint device_loop (table : list (string * string)) (charset source_encoding : cstr) : cstr :=
  match table with
  | [] => fallback_default_device
  | (c, d) :: table =>
    if STREQ (lit c) charset &&
       compatible_encodings source_encoding (get_roff_encoding (Some (lit d)) source_encoding)
    then lit d
    else device_loop table charset source_encoding
  end.

Definition get_default_device (preconv charset_from_locale : option cstr) (source_encoding : cstr)
    : cstr :=
  match preconv with
  | Some _ =>
    if bool_decide (charset_from_locale = Some (lit "ANSI_X3.4-1968")) then lit "ascii" else lit "utf8"
  | None =>
    match charset_from_locale with
    | None => fallback_default_device
    | Some charset => device_loop (charset_table HEIRLOOM_NROFF) charset source_encoding
    end
  end.
End devices.

Definition find_less (charset : cstr) := find_entry (λ e, STREQ (lit e.1.1) charset) less_charset_table.

Definition get_less_charset (charset_from_locale : option cstr) : cstr :=
  match charset_from_locale ≫= find_less with
  | Some e => lit e.1.2
  | None => fallback_less_charset
  end.

Definition get_jless_charset (charset_from_locale : option cstr) : option cstr :=
  e ← charset_from_locale ≫= find_less; lit <$> e.2.

(** ** The locale

    [LC_CTYPE] is a state that [setlocale] changes when the locale named is
    installed; the empty name stands for the environment's locale. *)
Record locale_env := LocaleEnv {
  env_ctype : option cstr;            (* what [setlocale (LC_CTYPE, "")] sets, if it can *)
  installed : cstr → bool;            (* whether a locale can be set by name *)
  codeset : cstr → option cstr;       (* [locale_charset ()] in a locale *)
}.

Section locale.
Context (env : locale_env).

(** [setlocale (LC_CTYPE, name)]: whether it succeeds, and the new state. *)
Definition setlocale (name : cstr) (ctype : cstr) : bool * cstr :=
  match name with
  | [] => match env_ctype env with Some l => (true, l) | None => (false, ctype) end
  | _ => if installed env name then (true, name) else (false, ctype)
  end.

Definition get_locale_charset (ctype : cstr) : cstr * cstr :=
  let saved_locale := ctype in
  let '(_, ctype) := setlocale [] ctype in
  let charset := codeset env ctype in
  let '(_, ctype) := setlocale saved_locale ctype in
  let charset := match charset with None | Some [] => lit "ANSI_X3.4-1968" | Some c => c end in
  (get_canonical_charset_name charset, ctype).

(** The loop over the lines of the list of supported locales: the locale found,
    and the state.  A line ends in a newline, except perhaps the last. *)
Fixpoint supported_loop (lines : list cstr) (canonical_charset ctype : cstr) : option cstr * cstr :=
  match lines with
  | [] => (None, ctype)
  | line :: lines =>
    match strchr line " "%char with
    | None => supported_loop lines canonical_charset ctype
    | Some space =>
      let encoding := drop (S space) line in
      let encoding := match strchr encoding NL with Some n => take n encoding | None => encoding end in
      if STREQ canonical_charset (get_canonical_charset_name encoding) then
        let locale := take space line in
        let '(ok, ctype) := setlocale locale ctype in
        if (ok : bool) then (Some locale, ctype) else supported_loop lines canonical_charset ctype
      else supported_loop lines canonical_charset ctype
    end
  end.

Definition find_charset_locale (supported : option (list cstr)) (charset ctype : cstr)
    : option cstr * cstr :=
  let canonical_charset := get_canonical_charset_name charset in
  let '(current, ctype) := get_locale_charset ctype in
  if STREQ charset current then (None, ctype)
  else
    let saved_locale := ctype in
    let '(locale, ctype) := supported_loop (default [] supported) canonical_charset ctype in
    let '(locale, ctype) :=
      match locale with
      | Some l => (Some l, ctype)
      | None =>
        if bool_decide (5 ≤ length canonical_charset) && STRNEQ canonical_charset (lit "UTF-8") 5 then
          let '(ok, ctype) := setlocale (lit "C.UTF-8") ctype in
          if (ok : bool) then (Some (lit "C.UTF-8"), ctype)
          else
            let '(ok, ctype) := setlocale (lit "en_US.UTF-8") ctype in
            if (ok : bool) then (Some (lit "en_US.UTF-8"), ctype) else (None, ctype)
        else (None, ctype)
      end in
    let '(_, ctype) := setlocale saved_locale ctype in
    (locale, ctype).
End locale.

(** ** Theorems *)

Lemma find_entry_Some {A} test (table : list A) e :
  find_entry test table = Some e → e ∈ table ∧ test e = true.
Proof.
  unfold find_entry. intros Hh.
  assert (e ∈ filter (λ e, test e = true) table) as Hin
    by (destruct (filter _ table); simplify_eq/=; by left).
  by apply list_elem_of_filter in Hin as [??].
Qed.

Lemma find_entry_first {A} test (table : list A) e :
  e ∈ table → test e = true → is_Some (find_entry test table).
Proof.
  intros He Ht. unfold find_entry.
  assert (e ∈ filter (λ e, test e = true) table) as Hin by by apply list_elem_of_filter.
  destruct (filter _ table); [by apply elem_of_nil in Hin|by eexists].
Qed.

(** Canonical names are canonical: looking a name up twice changes nothing
    more. *)
Theorem canonical_charset_idempotent charset :
  get_canonical_charset_name (get_canonical_charset_name charset) = get_canonical_charset_name charset.
Proof.
  unfold get_canonical_charset_name at 2 3.
  destruct (find_entry _ _) as [e|] eqn:E.
  - apply find_entry_Some in E as [Hin _].
    assert (Forall (λ e, get_canonical_charset_name (lit e.2) = lit e.2) charset_alias_table) as Hall
      by compute_done.
    rewrite Forall_forall in Hall. by apply Hall.
  - unfold get_canonical_charset_name. by rewrite E.
Qed.

(** Every entry of the directory table can be reached: no entry is hidden
    by an earlier one whose name is a prefix of it ([sr@latin] before [sr]).
    For a directory name without an encoding the page encoding is the source
    encoding. *)
Theorem directory_table_reachable :
  Forall (λ e, table_encoding (lit e.1) = lit e.2) directory_table ∧
  ∀ messages lang, "."%char ∉ default [] (guess_lang messages lang) →
    get_page_encoding messages lang = get_source_encoding messages lang.
Proof.
  split; [compute_done|]. intros messages lang Hdot. unfold get_page_encoding, get_source_encoding.
  destruct (guess_lang messages lang) as [l|]; [|done]. simpl in Hdot.
  apply strchr_None in Hdot as ->; done.
Qed.

(** The default device is always a known device; without preconv, the
    encoding it expects is compatible with the source encoding of the page. *)
Theorem default_device_ok HEIRLOOM preconv charset source_encoding :
  let d := get_default_device HEIRLOOM preconv charset source_encoding in
  is_roff_device HEIRLOOM d = true ∧
  (preconv = None →
    compatible_encodings source_encoding (get_roff_encoding HEIRLOOM (Some d) source_encoding) = true).
Proof.
  assert (is_roff_device HEIRLOOM fallback_default_device = true) as Hfb by by destruct HEIRLOOM.
  assert (compatible_encodings source_encoding
            (get_roff_encoding HEIRLOOM (Some fallback_default_device) source_encoding) = true) as Hfc.
  { unfold compatible_encodings.
    replace (get_roff_encoding HEIRLOOM (Some fallback_default_device) source_encoding)
      with (lit "ANSI_X3.4-1968") by by destruct HEIRLOOM.
    by rewrite STREQ_refl, !orb_true_r. }
  unfold get_default_device. destruct preconv as [p|].
  { case_bool_decide; (split; [by destruct HEIRLOOM|done]). }
  destruct charset as [cs|]; [|done].
  assert (∀ t, Forall (λ e, is_roff_device HEIRLOOM (lit e.2) = true) t →
    is_roff_device HEIRLOOM (device_loop HEIRLOOM t cs source_encoding) = true ∧
    compatible_encodings source_encoding
      (get_roff_encoding HEIRLOOM (Some (device_loop HEIRLOOM t cs source_encoding)) source_encoding) = true)
    as Hloop.
  { induction 1 as [|[c d] t Hd Ht IH]; [done|]. cbn [device_loop].
    destruct (STREQ (lit c) cs); [|done]. simpl.
    destruct (compatible_encodings _ (get_roff_encoding _ (Some (lit d)) _)) eqn:E; done. }
  destruct (Hloop (charset_table HEIRLOOM)) as [H1 H2]; [destruct HEIRLOOM; compute_done|]. done.
Qed.

Section locale_theorems.
Context (env : locale_env).

(** Some [setlocale (LC_CTYPE, l)] succeeds. *)
Definition settable (l : cstr) : Prop := ∀ c, (setlocale env l c).1 = true.

Lemma setlocale_settable l c : (setlocale env l c).1 = true → settable l.
Proof.
  unfold settable, setlocale. destruct l; [by destruct (env_ctype env)|].
  by destruct (installed env _).
Qed.

Lemma setlocale_back l c : l ≠ [] → installed env l = true → (setlocale env l c).2 = l.
Proof. intros Hne Hi. destruct l; [done|]. unfold setlocale. by rewrite Hi. Qed.

Lemma get_locale_charset_state c :
  c ≠ [] → installed env c = true → (get_locale_charset env c).2 = c.
Proof.
  intros Hne Hi. unfold get_locale_charset. destruct (setlocale env [] c) as [ok c'].
  pose proof (setlocale_back c c' Hne Hi). by destruct (setlocale env c c').
Qed.

Lemma supported_loop_settable lines cs c l c' :
  supported_loop env lines cs c = (Some l, c') → settable l.
Proof.
  revert c. induction lines as [|line lines IH]; intros c; simpl; [done|].
  destruct (strchr line _) as [sp|]; [|apply IH].
  destruct (STREQ cs _); [|apply IH].
  destruct (setlocale env (take sp line) c) as [[] c1] eqn:E; [|apply IH].
  intros [= <- <-]. apply (setlocale_settable _ c). by rewrite E.
Qed.

(** [find_charset_locale] leaves the locale as it was, and a locale it
    returns is one that can be set. *)
Theorem find_charset_locale_restores supported charset ctype locale ctype' :
  ctype ≠ [] → installed env ctype = true →
  find_charset_locale env supported charset ctype = (locale, ctype') →
  ctype' = ctype ∧ ∀ l, locale = Some l → settable l.
Proof.
  intros Hne Hi. unfold find_charset_locale.
  pose proof (get_locale_charset_state ctype Hne Hi) as Hc.
  destruct (get_locale_charset env ctype) as [current c0]. simpl in Hc. subst c0.
  destruct (STREQ charset current); [by intros [= <- <-]|].
  destruct (supported_loop _ _ _ _) as [loc c1] eqn:Hs.
  match goal with |- context [let '(_, _) := ?x in _] => destruct x as [loc2 c2] eqn:Hx end.
  pose proof (setlocale_back ctype c2 Hne Hi) as Hb.
  destruct (setlocale env ctype c2) as [ok c3]. simpl in Hb. subst c3.
  intros [= <- <-]. split; [done|]. intros l ->. revert Hx.
  destruct loc as [l'|]; [intros [= -> _]; by eapply supported_loop_settable|].
  destruct (_ && _); [|done].
  destruct (setlocale env (lit "C.UTF-8") c1) as [[] c4] eqn:E1.
  { intros [= <- _]. apply (setlocale_settable _ c1). by rewrite E1. }
  destruct (setlocale env (lit "en_US.UTF-8") c4) as [[] c5] eqn:E2; [|done].
  intros [= <- _]. apply (setlocale_settable _ c4). by rewrite E2.
Qed.
End locale_theorems.

(** ** Evaluation *)

Definition example_env : locale_env :=
  LocaleEnv (Some (lit "de_DE")) (λ l, STREQ l (lit "C") || STREQ l (lit "fr_FR"))
    (λ _, Some (lit "ISO8859-1")).

Lemma find_charset_locale_restores_witness :
  lit "C" = lit "C" ∧ ∀ l, Some (lit "fr_FR") = Some l → settable example_env l.
Proof.
  apply (find_charset_locale_restores example_env
    (Some [lit "de_DE UTF-8"; lit "fr_FR UTF-8" ++ [NL]]) (lit "utf8") (lit "C")).
  - done.
  - by vm_compute.
  - by vm_compute.
Defined.
