(* ===== verification/Utf8.v ===== *)
(** * src/utf8.c: validation of UTF-8

    [utf8_validate_len] against RFC 3629: a text is valid exactly when it is
    the encoding of a sequence of Unicode scalar values other than zero. *)

From S2P Require Import Prelude CStr.

(** ** Definitions *)

(** [VALIDATE_BYTE]. *)
Definition VALIDATE_BYTE (c : ascii) (mask expect : Z) : bool := (Z.land (uchar c) mask =? expect)%Z.

(** The bytes from [str] to [end]; the result counts the bytes before the
    position returned. *)
Fixpoint fast_validate_len (str : list ascii) : nat :=
  match str with
  | [] => 0
  | p :: str =>
    let b := uchar p in
    if (b =? 0)%Z then 0
    else if (b <? 128)%Z then S (fast_validate_len str)
    else if (b <? 224)%Z then                             (* 110xxxxx *)
      match str with
      | p1 :: str =>
        if (b <? 194)%Z then 0
        else if VALIDATE_BYTE p1 192 128 then 2 + fast_validate_len str else 0
      | _ => 0
      end
    else if (b <? 240)%Z then                             (* 1110xxxx *)
      match str with
      | p1 :: p2 :: str =>
        let ok := match Z.land b 15 with
                  | 0 => VALIDATE_BYTE p1 224 160
                  | 13 => VALIDATE_BYTE p1 224 128
                  | _ => VALIDATE_BYTE p1 192 128
                  end%Z in
        if ok && VALIDATE_BYTE p2 192 128 then 3 + fast_validate_len str else 0
      | _ => 0
      end
    else if (b <? 245)%Z then                             (* 11110xxx *)
      match str with
      | p1 :: p2 :: p3 :: str =>
        let ok := match Z.land b 7 with
                  | 0 => VALIDATE_BYTE p1 192 128 && negb (Z.land (uchar p1) 48 =? 0)%Z
                  | 4 => VALIDATE_BYTE p1 240 128
                  | _ => VALIDATE_BYTE p1 192 128
                  end%Z in
        if ok && VALIDATE_BYTE p2 192 128 && VALIDATE_BYTE p3 192 128
        then 4 + fast_validate_len str else 0
      | _ => 0
      end
    else 0
  end.

Definition utf8_validate_len (str : list ascii) : bool :=
  bool_decide (fast_validate_len str = length str).

(** ** RFC 3629 *)

(** A Unicode scalar value other than zero. *)
Definition scalar (cp : Z) : Prop := (0 < cp < 55296 ∨ 57343 < cp < 1114112)%Z.

Definition utf8_encode (cp : Z) : list Z :=
  (if cp <? 128 then [cp]
   else if cp <? 2048 then [192 + cp / 64; 128 + cp mod 64]
   else if cp <? 65536 then [224 + cp / 4096; 128 + (cp / 64) mod 64; 128 + cp mod 64]
   else [240 + cp / 262144; 128 + (cp / 4096) mod 64; 128 + (cp / 64) mod 64; 128 + cp mod 64])%Z.

Definition utf8_text (cps : list Z) : list Z := concat (utf8_encode <$> cps).

(** ** The masks as ranges *)

Definition byte_in (c : ascii) (lo hi : Z) : bool := (lo <=? uchar c)%Z && (uchar c <=? hi)%Z.

Lemma mask_tail c : VALIDATE_BYTE c 192 128 = byte_in c 128 191.
Proof. by all_bytes c. Qed.
Lemma mask_e0 c : VALIDATE_BYTE c 224 160 = byte_in c 160 191.
Proof. by all_bytes c. Qed.
Lemma mask_ed c : VALIDATE_BYTE c 224 128 = byte_in c 128 159.
Proof. by all_bytes c. Qed.
Lemma mask_f0 c : VALIDATE_BYTE c 192 128 && negb (Z.land (uchar c) 48 =? 0)%Z = byte_in c 144 191.
Proof. by all_bytes c. Qed.
Lemma mask_f4 c : VALIDATE_BYTE c 240 128 = byte_in c 128 143.
Proof. by all_bytes c. Qed.

(** The second byte of a three or four byte character. *)
Lemma mask_second3 c p1 :
  (224 <=? uchar c)%Z && (uchar c <? 240)%Z = true →
  (match Z.land (uchar c) 15 with
   | 0 => VALIDATE_BYTE p1 224 160
   | 13 => VALIDATE_BYTE p1 224 128
   | _ => VALIDATE_BYTE p1 192 128
   end)%Z =
  byte_in p1 (if (uchar c =? 224)%Z then 160 else 128) (if (uchar c =? 237)%Z then 159 else 191).
Proof.
  intros Hc. rewrite mask_e0, mask_ed, mask_tail. generalize (byte_in p1). intros f.
  revert Hc. by all_bytes c.
Qed.
Lemma mask_second4 c p1 :
  (240 <=? uchar c)%Z && (uchar c <? 245)%Z = true →
  (match Z.land (uchar c) 7 with
   | 0 => VALIDATE_BYTE p1 192 128 && negb (Z.land (uchar p1) 48 =? 0)%Z
   | 4 => VALIDATE_BYTE p1 240 128
   | _ => VALIDATE_BYTE p1 192 128
   end)%Z =
  byte_in p1 (if (uchar c =? 240)%Z then 144 else 128) (if (uchar c =? 244)%Z then 143 else 191).
Proof.
  intros Hc. rewrite mask_f0, mask_f4, mask_tail. generalize (byte_in p1). intros f.
  revert Hc. by all_bytes c.
Qed.

(** ** One character *)

(** The number of bytes the loop consumes for the character at the front. *)
Definition char_len (s : list ascii) : nat :=
  match s with
  | [] => 0
  | p :: s =>
    let b := uchar p in
    if (0 <? b)%Z && (b <? 128)%Z then 1
    else match s with
    | p1 :: s =>
      if (194 <=? b)%Z && (b <? 224)%Z && byte_in p1 128 191 then 2
      else match s with
      | p2 :: s =>
        if (224 <=? b)%Z && (b <? 240)%Z &&
           byte_in p1 (if (b =? 224)%Z then 160 else 128) (if (b =? 237)%Z then 159 else 191) &&
           byte_in p2 128 191 then 3
        else match s with
        | p3 :: s =>
          if (240 <=? b)%Z && (b <? 245)%Z &&
             byte_in p1 (if (b =? 240)%Z then 144 else 128) (if (b =? 244)%Z then 143 else 191) &&
             byte_in p2 128 191 && byte_in p3 128 191 then 4 else 0
        | [] => 0
        end
      | [] => 0
      end
    | [] => 0
    end
  end.

Lemma fast_validate_char s :
  fast_validate_len s =
    match char_len s with 0 => 0 | n => n + fast_validate_len (drop n s) end.
Proof.
  destruct s as [|p s]; [done|]. cbn [fast_validate_len char_len].
  pose proof (uchar_range p) as Hr.
  destruct (Z.eqb_spec (uchar p) 0) as [Hz|Hz].
  { rewrite Hz. simpl. by destruct s as [|? [|? [|? ?]]]. }
  destruct (Z.ltb_spec (uchar p) 128) as [H1|H1].
  { by replace (0 <? uchar p)%Z with true by lia. }
  rewrite andb_false_r.
  destruct (Z.ltb_spec (uchar p) 224) as [H2|H2].
  { destruct s as [|p1 s]; [done|]. rewrite mask_tail.
    replace (224 <=? uchar p)%Z with false by lia. replace (240 <=? uchar p)%Z with false by lia.
    replace (194 <=? uchar p)%Z with (negb (uchar p <? 194)%Z) by lia.
    destruct (uchar p <? 194)%Z; simpl; [by destruct s as [|? [|? ?]]|].
    destruct (byte_in p1 128 191); simpl; [by rewrite drop_0|by destruct s as [|? [|? ?]]]. }
  rewrite andb_false_r. simpl (false && _).
  replace (224 <=? uchar p)%Z with true by lia.
  destruct (Z.ltb_spec (uchar p) 240) as [H3|H3].
  { destruct s as [|p1 [|p2 s]]; try done. rewrite mask_second3, mask_tail by lia.
    replace (240 <=? uchar p)%Z with false by lia.
    destruct (byte_in p1 _ _); simpl; [|by destruct s].
    destruct (byte_in p2 _ _); simpl; [by rewrite drop_0|by destruct s]. }
  replace (240 <=? uchar p)%Z with true by lia.
  destruct (Z.ltb_spec (uchar p) 245) as [H4|H4].
  { destruct s as [|p1 [|p2 [|p3 s]]]; try done. rewrite mask_second4, !mask_tail by lia.
    simpl. destruct (byte_in p1 _ _); simpl; [|done].
    destruct (byte_in p2 _ _), (byte_in p3 _ _); simpl; by rewrite ?drop_0. }
  by destruct s as [|p1 [|p2 [|p3 s]]].
Qed.

Ltac Zdm := unfold scalar in *; Z.div_mod_to_equations; lia.

Lemma byte_in_spec c lo hi : byte_in c lo hi = true ↔ (lo <= uchar c <= hi)%Z.
Proof. unfold byte_in. lia. Qed.

(** The code point whose encoding has the given bytes. *)
Lemma encode2 b b1 : (194 <= b < 224)%Z → (128 <= b1 <= 191)%Z →
  let cp := ((b - 192) * 64 + (b1 - 128))%Z in scalar cp ∧ utf8_encode cp = [b; b1].
Proof.
  intros Hb Hb1 cp. unfold scalar, utf8_encode.
  rewrite (proj2 (Z.ltb_ge cp 128)), (proj2 (Z.ltb_lt cp 2048)) by lia.
  assert (cp / 64 = b - 192 ∧ cp mod 64 = b1 - 128)%Z as [-> ->] by (split; Zdm).
  split; [lia|]. repeat f_equal; lia.
Qed.

Lemma encode3 b b1 b2 :
  (224 <= b < 240)%Z → (128 <= b1 <= 191)%Z → (128 <= b2 <= 191)%Z →
  (b = 224 → 160 <= b1)%Z → (b = 237 → b1 <= 159)%Z →
  let cp := ((b - 224) * 4096 + (b1 - 128) * 64 + (b2 - 128))%Z in
  scalar cp ∧ utf8_encode cp = [b; b1; b2].
Proof.
  intros Hb Hb1 Hb2 H1 H2 cp. unfold scalar, utf8_encode.
  assert (2048 <= cp < 65536)%Z by lia.
  rewrite (proj2 (Z.ltb_ge cp 128)), (proj2 (Z.ltb_ge cp 2048)), (proj2 (Z.ltb_lt cp 65536)) by lia.
  assert (cp / 4096 = b - 224 ∧ cp / 64 = (b - 224) * 64 + (b1 - 128) ∧ cp mod 64 = b2 - 128)%Z
    as (-> & -> & ->) by (split_and!; Zdm).
  assert (((b - 224) * 64 + (b1 - 128)) mod 64 = b1 - 128)%Z as -> by Zdm.
  split; [lia|]. repeat f_equal; lia.
Qed.

Lemma encode4 b b1 b2 b3 :
  (240 <= b < 245)%Z → (128 <= b1 <= 191)%Z → (128 <= b2 <= 191)%Z → (128 <= b3 <= 191)%Z →
  (b = 240 → 144 <= b1)%Z → (b = 244 → b1 <= 143)%Z →
  let cp := ((b - 240) * 262144 + (b1 - 128) * 4096 + (b2 - 128) * 64 + (b3 - 128))%Z in
  scalar cp ∧ utf8_encode cp = [b; b1; b2; b3].
Proof.
  intros Hb Hb1 Hb2 Hb3 H1 H2 cp. unfold scalar, utf8_encode.
  assert (65536 <= cp < 1114112)%Z by lia.
  rewrite (proj2 (Z.ltb_ge cp 128)), (proj2 (Z.ltb_ge cp 2048)), (proj2 (Z.ltb_ge cp 65536)) by lia.
  assert (cp / 262144 = b - 240 ∧ cp / 4096 = (b - 240) * 64 + (b1 - 128) ∧
    cp / 64 = ((b - 240) * 64 + (b1 - 128)) * 64 + (b2 - 128) ∧ cp mod 64 = b3 - 128)%Z
    as (-> & -> & -> & ->) by (split_and!; Zdm).
  assert (((b - 240) * 64 + (b1 - 128)) mod 64 = b1 - 128 ∧
    (((b - 240) * 64 + (b1 - 128)) * 64 + (b2 - 128)) mod 64 = b2 - 128)%Z as [-> ->] by (split; Zdm).
  split; [lia|]. repeat f_equal; lia.
Qed.

(** Case on the outermost test of a result. *)
Ltac case_if E := match goal with |- ((if ?x then _ else _) = _ → _) => destruct x eqn:E end.

Lemma char_len_encode s n :
  char_len s = S n → ∃ cp, scalar cp ∧ uchar <$> take (S n) s = utf8_encode cp ∧ S n ≤ length s.
Proof.
  destruct s as [|p s]; [done|]. cbn [char_len].
  case_if E1.
  { intros [= <-]. exists (uchar p). unfold scalar, utf8_encode.
    replace (uchar p <? 128)%Z with true by lia. simpl. rewrite ?take_0. split; [lia|]. split; [done|lia]. }
  destruct s as [|p1 s]; [done|]. case_if E2.
  { intros [= <-]. apply andb_true_iff in E2 as [E2 H1%byte_in_spec].
    destruct (encode2 (uchar p) (uchar p1)) as [Hs He]; [lia..|].
    eexists. split; [exact Hs|]. rewrite He. simpl. rewrite ?take_0. split; [done|lia]. }
  destruct s as [|p2 s]; [done|]. case_if E3.
  { intros [= <-]. apply andb_true_iff in E3 as [[E3 H1%byte_in_spec]%andb_true_iff H2%byte_in_spec].
    destruct (encode3 (uchar p) (uchar p1) (uchar p2)) as [Hs He];
      [revert H1; destruct (Z.eqb_spec (uchar p) 224), (Z.eqb_spec (uchar p) 237); lia..|].
    eexists. split; [exact Hs|]. rewrite He. simpl. rewrite ?take_0. split; [done|lia]. }
  destruct s as [|p3 s]; [done|]. case_if E4; [|done].
  intros [= <-].
  apply andb_true_iff in E4 as [[[E4 H1%byte_in_spec]%andb_true_iff H2%byte_in_spec]%andb_true_iff H3%byte_in_spec].
  destruct (encode4 (uchar p) (uchar p1) (uchar p2) (uchar p3)) as [Hs He];
    [revert H1; destruct (Z.eqb_spec (uchar p) 240), (Z.eqb_spec (uchar p) 244); lia..|].
  eexists. split; [exact Hs|]. rewrite He. simpl. rewrite ?take_0. split; [done|lia].
Qed.

Lemma encode_char_len cp s rest :
  scalar cp → uchar <$> s = utf8_encode cp ++ rest →
  char_len s = length (utf8_encode cp) ∧ 0 < length (utf8_encode cp).
Proof.
  intros Hcp. unfold utf8_encode.
  destruct (Z.ltb_spec cp 128) as [H1|H1].
  { destruct s as [|p s]; [done|]. intros [= Hp _]. cbn [char_len].
    replace ((0 <? uchar p)%Z && (uchar p <? 128)%Z) with true by (unfold scalar in Hcp; lia).
    simpl. lia. }
  assert (∀ c lo hi, (lo <= uchar c <= hi)%Z → byte_in c lo hi = true) as Hin by (intros; by apply byte_in_spec).
  destruct (Z.ltb_spec cp 2048) as [H2|H2].
  { destruct s as [|p [|p1 s]]; try done. intros [= Hp Hp1 _]. cbn [char_len].
    replace ((0 <? uchar p)%Z && (uchar p <? 128)%Z) with false by Zdm.
    rewrite Hin, andb_true_r by Zdm.
    replace ((194 <=? uchar p)%Z && (uchar p <? 224)%Z) with true by Zdm. simpl. lia. }
  destruct (Z.ltb_spec cp 65536) as [H3|H3].
  { destruct s as [|p [|p1 [|p2 s]]]; try done. intros [= Hp Hp1 Hp2 _]. cbn [char_len].
    assert (224 <= uchar p < 240)%Z by Zdm.
    replace ((0 <? uchar p)%Z && (uchar p <? 128)%Z) with false by lia.
    replace ((194 <=? uchar p)%Z && (uchar p <? 224)%Z) with false by lia.
    replace ((224 <=? uchar p)%Z && (uchar p <? 240)%Z) with true by lia.
    rewrite (Hin p1 (if (uchar p =? 224)%Z then 160 else 128)%Z (if (uchar p =? 237)%Z then 159 else 191)%Z),
      (Hin p2 128%Z 191%Z); [simpl; lia|Zdm|].
    unfold scalar in Hcp.
    destruct (Z.eqb_spec (uchar p) 224), (Z.eqb_spec (uchar p) 237); split; Zdm. }
  destruct s as [|p [|p1 [|p2 [|p3 s]]]]; try done. intros [= Hp Hp1 Hp2 Hp3 _]. cbn [char_len].
  unfold scalar in Hcp. assert (240 <= uchar p < 245)%Z by Zdm.
  replace ((0 <? uchar p)%Z && (uchar p <? 128)%Z) with false by lia.
  replace ((194 <=? uchar p)%Z && (uchar p <? 224)%Z) with false by lia.
  replace ((224 <=? uchar p)%Z && (uchar p <? 240)%Z) with false by lia.
  replace ((240 <=? uchar p)%Z && (uchar p <? 245)%Z) with true by lia.
  rewrite (Hin p1 (if (uchar p =? 240)%Z then 144 else 128)%Z (if (uchar p =? 244)%Z then 143 else 191)%Z),
    (Hin p2 128%Z 191%Z), (Hin p3 128%Z 191%Z); [simpl; lia|Zdm..|].
  destruct (Z.eqb_spec (uchar p) 240), (Z.eqb_spec (uchar p) 244); split; Zdm.
Qed.

(** C37: [utf8_validate_len] accepts exactly the texts of RFC 3629: those that
    encode a sequence of Unicode scalar values, without NUL bytes, overlong
    forms, surrogates or values above U+10FFFF. *)
Theorem utf8_validate_correct s :
  utf8_validate_len s = true ↔ ∃ cps, Forall scalar cps ∧ uchar <$> s = utf8_text cps.
Proof.
  unfold utf8_validate_len. rewrite bool_decide_eq_true.
  remember (length s) as n eqn:Hn. revert s Hn.
  induction n as [n IH] using lt_wf_ind. intros s Hn. rewrite fast_validate_char. split.
  - destruct (char_len s) as [|k] eqn:Ek.
    + intros <-. destruct s; [|done]. by exists [].
    + intros Hlen. change (S k + fast_validate_len (drop (S k) s) = n) in Hlen.
      destruct (char_len_encode s k Ek) as (cp & Hcp & Henc & Hk).
      destruct (IH (length (drop (S k) s))) with (s := drop (S k) s) as [IH' _];
        [rewrite length_drop; lia|done|].
      destruct IH' as (cps & Hcps & Htext); [rewrite length_drop; lia|].
      exists (cp :: cps). split; [by constructor|].
      unfold utf8_text. cbn [fmap list_fmap concat]. rewrite <-Henc. unfold utf8_text in Htext.
      rewrite <-Htext, <-fmap_app. by rewrite take_drop.
  - intros (cps & Hcps & Htext). destruct Hcps as [|cp cps Hcp Hcps].
    + apply fmap_nil_inv in Htext as ->. done.
    + unfold utf8_text in Htext. cbn [fmap list_fmap concat] in Htext.
      destruct (encode_char_len cp s _ Hcp Htext) as [Hlen Hpos]. rewrite Hlen.
      assert (uchar <$> drop (length (utf8_encode cp)) s = utf8_text cps) as Hdrop.
      { rewrite fmap_drop, Htext. by rewrite drop_app_length. }
      assert (length (utf8_encode cp) ≤ length s) as Hle.
      { rewrite <-(length_fmap uchar s), Htext, length_app. lia. }
      destruct (length (utf8_encode cp)) as [|k] eqn:El; [lia|].
      change (S k + fast_validate_len (drop (S k) s) = n).
      rewrite (proj2 (IH (length (drop (S k) s)) ltac:(rewrite length_drop; lia) (drop (S k) s) eq_refl)).
      * rewrite length_drop. lia.
      * by exists cps.
Qed.

(** Overlong forms, surrogates and NUL are refused. *)
Example utf8_refused :
  utf8_validate_len ["192"; "175"]%char = false ∧ utf8_validate_len ["237"; "160"; "128"]%char = false ∧
  utf8_validate_len ["a"; "000"]%char = false ∧ utf8_validate_len ["226"; "130"; "172"]%char = true.
Proof. by vm_compute. Qed.
