(* ===== verification/Regex.v ===== *)
(** * Regular expressions and the scanners flex makes of them

    flex turns a list of patterns into a scanner that takes the longest match,
    and the first pattern among equals.  Here a pattern is a regular
    expression, matching goes by derivatives, and [munch] runs all patterns in
    parallel as the automaton does. *)

From S2P Require Import Prelude CStr.

Inductive regex :=
  | Void
  | Eps
  | Cls (p : ascii → bool)
  | Cat (r1 r2 : regex)
  | Alt (r1 r2 : regex)
  | Star (r : regex).

(** What an expression matches. *)
Inductive matches : regex → list ascii → Prop :=
  | m_eps : matches Eps []
  | m_cls p c : p c = true → matches (Cls p) [c]
  | m_cat r1 r2 s1 s2 : matches r1 s1 → matches r2 s2 → matches (Cat r1 r2) (s1 ++ s2)
  | m_alt1 r1 r2 s : matches r1 s → matches (Alt r1 r2) s
  | m_alt2 r1 r2 s : matches r2 s → matches (Alt r1 r2) s
  | m_star0 r : matches (Star r) []
  | m_star r s1 s2 : matches r s1 → matches (Star r) s2 → matches (Star r) (s1 ++ s2).

Fixpoint nullable (r : regex) : bool :=
  match r with
  | Void | Cls _ => false
  | Eps | Star _ => true
  | Cat r1 r2 => nullable r1 && nullable r2
  | Alt r1 r2 => nullable r1 || nullable r2
  end.

(** Concatenation and choice, simplified. *)
Definition cat (r1 r2 : regex) : regex :=
  match r1, r2 with
  | Void, _ | _, Void => Void
  | Eps, r | r, Eps => r
  | _, _ => Cat r1 r2
  end.
Definition alt (r1 r2 : regex) : regex :=
  match r1, r2 with
  | Void, r | r, Void => r
  | _, _ => Alt r1 r2
  end.

Fixpoint deriv (c : ascii) (r : regex) : regex :=
  match r with
  | Void | Eps => Void
  | Cls p => if p c then Eps else Void
  | Cat r1 r2 => if nullable r1 then alt (cat (deriv c r1) r2) (deriv c r2) else cat (deriv c r1) r2
  | Alt r1 r2 => alt (deriv c r1) (deriv c r2)
  | Star r' => cat (deriv c r') (Star r')
  end.

(** The length of the shortest match. *)
Fixpoint min_length (r : regex) : nat :=
  match r with
  | Void | Eps | Star _ => 0
  | Cls _ => 1
  | Cat r1 r2 => min_length r1 + min_length r2
  | Alt r1 r2 => min_length r1 `min` min_length r2
  end.

(** ** Correctness *)

Lemma matches_void s : ¬ matches Void s.
Proof. intros H. inversion H. Qed.
Lemma matches_eps s : matches Eps s ↔ s = [].
Proof. split; [intros H; by inversion H|intros ->; constructor]. Qed.
Lemma matches_cls p s : matches (Cls p) s ↔ ∃ c, s = [c] ∧ p c = true.
Proof. split; [intros H; inversion H; subst; eauto|intros (c & -> & ?); by constructor]. Qed.
Lemma matches_cat r1 r2 s : matches (Cat r1 r2) s ↔ ∃ s1 s2, s = s1 ++ s2 ∧ matches r1 s1 ∧ matches r2 s2.
Proof. split; [intros H; inversion H; subst; eauto|intros (s1 & s2 & -> & ? & ?); by constructor]. Qed.
Lemma matches_alt r1 r2 s : matches (Alt r1 r2) s ↔ matches r1 s ∨ matches r2 s.
Proof. split; [intros H; inversion H; subst; eauto|intros [?|?]; by constructor]. Qed.

Lemma matches_mkcat r1 r2 s : matches (cat r1 r2) s ↔ matches (Cat r1 r2) s.
Proof.
  assert (∀ r, matches (Cat Void r) s ↔ matches Void s) as Hv1.
  { intros r. rewrite matches_cat. split; [|by intros ?%matches_void]. by intros (s1 & s2 & _ & ?%matches_void & _). }
  assert (∀ r, matches (Cat r Void) s ↔ matches Void s) as Hv2.
  { intros r. rewrite matches_cat. split; [|by intros ?%matches_void]. by intros (s1 & s2 & _ & _ & ?%matches_void). }
  assert (∀ r, matches (Cat Eps r) s ↔ matches r s) as He1.
  { intros r. rewrite matches_cat. split; [by intros (s1 & s2 & -> & ->%matches_eps & ?)|]. intros Hr. exists [], s. split_and!; [done|constructor|done]. }
  assert (∀ r, matches (Cat r Eps) s ↔ matches r s) as He2.
  { intros r. rewrite matches_cat. split; [intros (s1 & s2 & -> & ? & ->%matches_eps); by rewrite app_nil_r|].
    intros Hr. exists s, []. split_and!; [by rewrite app_nil_r|done|constructor]. }
  destruct r1, r2; cbn [cat]; rewrite ?Hv1, ?Hv2, ?He1, ?He2; done.
Qed.

Lemma matches_mkalt r1 r2 s : matches (alt r1 r2) s ↔ matches (Alt r1 r2) s.
Proof. rewrite matches_alt. pose proof (matches_void s). destruct r1, r2; cbn [alt]; rewrite ?matches_alt; tauto. Qed.

Lemma nullable_spec r : nullable r = true ↔ matches r [].
Proof.
  induction r as [| |p|r1 IH1 r2 IH2|r1 IH1 r2 IH2|r IH]; cbn.
  - split; [done|by intros ?%matches_void].
  - by rewrite matches_eps.
  - split; [done|]. by intros (c & [=] & _)%matches_cls.
  - rewrite andb_true_iff, IH1, IH2, matches_cat. split; [intros []; by exists [], []|]. by intros (s1 & s2 & [-> ->]%eq_sym%app_eq_nil & ? & ?).
  - by rewrite orb_true_iff, IH1, IH2, matches_alt.
  - split; [constructor|done].
Qed.

(** A match of a repetition that is not empty begins with one that is not. *)
Lemma matches_star_cons r c s :
  matches (Star r) (c :: s) ↔ ∃ s1 s2, s = s1 ++ s2 ∧ matches r (c :: s1) ∧ matches (Star r) s2.
Proof.
  split; [|intros (s1 & s2 & -> & H1 & H2); exact (m_star _ _ _ H1 H2)]. intros H. remember (Star r) as q eqn:Eq. remember (c :: s) as t eqn:Et.
  revert Eq c s Et. induction H as [| | | | | |q s1 s2 H1 _ H2 IH2]; intros Eq d t Et; simplify_eq.
  destruct s1 as [|c1 s1]; cbn in Et; [by apply IH2|]. simplify_eq. eauto.
Qed.

Lemma deriv_spec c r s : matches (deriv c r) s ↔ matches r (c :: s).
Proof.
  revert s. induction r as [| |p|r1 IH1 r2 IH2|r1 IH1 r2 IH2|r IH]; intros s; cbn [deriv].
  - split; by intros ?%matches_void.
  - split; [by intros ?%matches_void|by intros ?%matches_eps].
  - rewrite matches_cls. destruct (p c) eqn:E.
    + rewrite matches_eps. split; [intros ->; eauto|by intros (? & [= -> ->] & _)].
    + split; [by intros ?%matches_void|]. intros (? & [= -> ->] & ?). congruence.
  - assert (matches (cat (deriv c r1) r2) s ↔ ∃ s1 s2, s = s1 ++ s2 ∧ matches r1 (c :: s1) ∧ matches r2 s2) as Hc.
    { rewrite matches_mkcat, matches_cat. split; intros (s1 & s2 & -> & H1 & H2); exists s1, s2; by rewrite IH1 in *. }
    assert (matches (Cat r1 r2) (c :: s) ↔ (∃ s1 s2, s = s1 ++ s2 ∧ matches r1 (c :: s1) ∧ matches r2 s2) ∨ (matches r1 [] ∧ matches r2 (c :: s))) as Hr.
    { rewrite matches_cat. split.
      - intros ([|c' s1] & s2 & E & H1 & H2); cbn in E; simplify_eq; [by right|left; eauto].
      - intros [(s1 & s2 & -> & H1 & H2)|[H1 H2]]; [by exists (c :: s1), s2|by exists [], (c :: s)]. }
    rewrite Hr. destruct (nullable r1) eqn:En.
    + apply nullable_spec in En. rewrite matches_mkalt, matches_alt, Hc, IH2. tauto.
    + rewrite Hc. split; [by left|]. intros [?|[Hn _]]; [done|]. apply nullable_spec in Hn. congruence.
  - by rewrite matches_mkalt, !matches_alt, IH1, IH2.
  - rewrite matches_mkcat, matches_cat, matches_star_cons. split; intros (s1 & s2 & -> & H1 & H2); exists s1, s2; by rewrite IH in *.
Qed.

Lemma min_length_spec r s : matches r s → min_length r ≤ length s.
Proof. induction 1; cbn; rewrite ?length_app; lia. Qed.

(** ** Scanners *)

(** One step of all patterns: those that can still match. *)
Definition is_void (r : regex) : bool := match r with Void => true | _ => false end.
Definition step_all {A} (c : ascii) (rs : list (A * regex)) : list (A * regex) :=
  filter (λ x, is_void x.2 = false) (prod_map id (deriv c) <$> rs).

(** The first pattern that matches what was read. *)
Definition accepting {A} (rs : list (A * regex)) : option A :=
  match filter (λ x, nullable x.2 = true) rs with x :: _ => Some x.1 | [] => None end.

(** [n] characters were read; [best] is the last match. *)
Fixpoint munch {A} (rs : list (A * regex)) (s : list ascii) (n : nat) (best : option (nat * A)) : option (nat * A) :=
  match rs, s with
  | [], _ | _, [] => best
  | _, c :: s =>
    let rs := step_all c rs in
    munch rs s (S n) (match accepting rs with Some a => Some (S n, a) | None => best end)
  end.

(** The longest match that is not empty, and its pattern. *)
Definition longest_match {A} (rs : list (A * regex)) (s : list ascii) : option (nat * A) := munch rs s 0 None.

(** [a] is the pattern of the longest match, of length [n]: nothing matches
    more, and no pattern before it as much. *)
Record chosen {A} (rs : list (A * regex)) (s : list ascii) (n : nat) (a : A) : Prop := Chosen {
  ch_pos : 0 < n;
  ch_room : n ≤ length s;
  ch_first : ∃ pre r post, rs = pre ++ (a, r) :: post ∧ matches r (take n s) ∧ ∀ x, x ∈ pre → ¬ matches x.2 (take n s);
  ch_longest : ∀ x m, x ∈ rs → m ≤ length s → matches x.2 (take m s) → m ≤ n;
}.

Section scanner.
Context {A : Type}.
Implicit Types rs : list (A * regex).

Lemma step_all_cons c a r rs :
  step_all c ((a, r) :: rs) = if is_void (deriv c r) then step_all c rs else (a, deriv c r) :: step_all c rs.
Proof. unfold step_all. cbn [fmap list_fmap]. rewrite filter_cons. cbn. by destruct (is_void (deriv c r)). Qed.

Lemma is_void_matches r s : is_void r = true → ¬ matches r s.
Proof. destruct r; try done. intros _. apply matches_void. Qed.

Lemma step_all_elem c x rs : x ∈ rs → is_void (deriv c x.2) = false → (x.1, deriv c x.2) ∈ step_all c rs.
Proof.
  intros Hx Hv. induction Hx as [[a r] rs|[a r] [b q] rs Hx IH]; rewrite step_all_cons; cbn in *; [rewrite Hv; left|].
  destruct (is_void (deriv c q)); [by apply IH|right; by apply IH].
Qed.

Lemma step_all_split c rs pre a r post :
  step_all c rs = pre ++ (a, r) :: post →
  ∃ pre' r' post', rs = pre' ++ (a, r') :: post' ∧ r = deriv c r' ∧ step_all c pre' = pre.
Proof.
  revert pre. induction rs as [|[b q] rs IH]; intros pre H; [by destruct pre|]. rewrite step_all_cons in H.
  destruct (is_void (deriv c q)) eqn:Ev.
  - destruct (IH pre H) as (pre' & r' & post' & -> & -> & <-). exists ((b, q) :: pre'), r', post'. split_and!; [done..|]. by rewrite step_all_cons, Ev.
  - destruct pre as [|y pre]; cbn in H; [injection H as -> <- <-; by exists [], q, rs|].
    injection H as <- H. destruct (IH pre H) as (pre' & r' & post' & -> & -> & <-). exists ((b, q) :: pre'), r', post'. split_and!; [done..|].
    by rewrite step_all_cons, Ev.
Qed.

(** No match of a pattern that was not left by the step. *)
Lemma step_all_matches c x rs s : x ∈ rs → matches x.2 (c :: s) → ∃ y, y ∈ step_all c rs ∧ y = (x.1, deriv c x.2) ∧ matches y.2 s.
Proof.
  intros Hx Hm. rewrite <-deriv_spec in Hm. exists (x.1, deriv c x.2). split_and!; [|done..]. apply step_all_elem; [done|].
  destruct (is_void (deriv c x.2)) eqn:E; [|done]. by eapply is_void_matches in E.
Qed.

Lemma accepting_spec rs a :
  accepting rs = Some a → ∃ pre r post, rs = pre ++ (a, r) :: post ∧ matches r [] ∧ ∀ x, x ∈ pre → ¬ matches x.2 [].
Proof.
  unfold accepting. induction rs as [|[b q] rs IH]; [done|]. rewrite filter_cons. cbn. destruct (nullable q) eqn:En; cbn.
  - intros [= ->]. exists [], q, rs. split_and!; [done|by apply nullable_spec|by intros ? ?%elem_of_nil].
  - intros H. destruct (IH H) as (pre & r & post & -> & Hr & Hpre). exists ((b, q) :: pre), r, post. split_and!; [done..|].
    intros x [->|Hx]%elem_of_cons; [|by apply Hpre]. cbn. rewrite <-nullable_spec. congruence.
Qed.

Lemma accepting_none rs x : accepting rs = None → x ∈ rs → ¬ matches x.2 [].
Proof.
  unfold accepting. intros H Hx Hm. apply nullable_spec in Hm.
  assert (x ∈ filter (λ x, nullable x.2 = true) rs) as Hf by by apply list_elem_of_filter. by destruct (filter _ rs); [apply elem_of_nil in Hf|].
Qed.

Lemma munch_shift rs s n best :
  munch rs s n best = match longest_match rs s with Some (m, a) => Some (n + m, a) | None => best end.
Proof.
  unfold longest_match. revert rs n best. induction s as [|c s IH]; intros rs n best; [by destruct rs|].
  destruct rs as [|x rs]; [done|]. cbn [munch]. set (rs' := step_all c (x :: rs)). rewrite (IH _ (S n)), (IH _ 1).
  destruct (munch rs' s 0 None) as [[m a]|]; [do 2 f_equal; lia|]. destruct (accepting rs'); [do 2 f_equal; lia|done].
Qed.

Lemma longest_match_cons c rs s :
  longest_match rs (c :: s) =
    match longest_match (step_all c rs) s with
    | Some (m, a) => Some (S m, a)
    | None => (λ a, (1, a)) <$> accepting (step_all c rs)
    end.
Proof.
  destruct rs as [|x rs]; [by destruct s|]. unfold longest_match at 1. cbn [munch]. rewrite munch_shift.
  destruct (longest_match _ s) as [[m a]|]; [done|]. by destruct (accepting _).
Qed.

Lemma longest_match_nil s : longest_match (A := A) [] s = None.
Proof. by destruct s. Qed.

(** A step forward: the match of the rest, one longer. *)
Lemma chosen_step c rs s n a : chosen (step_all c rs) s n a → chosen rs (c :: s) (S n) a.
Proof.
  intros [Hpos Hroom (pre & r & post & Hsplit & Hr & Hpre) Hlong]. apply step_all_split in Hsplit as (pre' & r' & post' & -> & -> & <-).
  split; [lia|cbn; lia| |].
  - exists pre', r', post'. split_and!; [done|by apply deriv_spec|]. intros x Hx Hm. cbn [take] in Hm.
    apply (step_all_matches _ _ pre') in Hm as (y & Hy & _ & Hm); [|done]. by eapply Hpre.
  - intros x [|m] Hx Hm Hmatch; [lia|]. cbn [take] in Hmatch. apply (step_all_matches _ _ _ _ Hx) in Hmatch as (y & Hy & _ & Hmatch).
    apply le_n_S. eapply Hlong; [done|cbn in Hm; lia|done].
Qed.

Lemma longest_match_some rs s n a : longest_match rs s = Some (n, a) → chosen rs s n a.
Proof.
  revert rs n. induction s as [|c s IH]; intros rs n H; [by destruct rs|]. rewrite longest_match_cons in H.
  destruct (longest_match (step_all c rs) s) as [[m b]|] eqn:E; [injection H as <- ->; by apply chosen_step, IH|].
  destruct (accepting (step_all c rs)) as [b|] eqn:Ea; [|done]. injection H as <- ->.
  pose proof Ea as (pre & r & post & Hsplit & Hr & Hpre)%accepting_spec. apply step_all_split in Hsplit as (pre' & r' & post' & Hrs & -> & Hp).
  split; [lia|cbn; lia| |].
  - exists pre', r', post'. split_and!; [done|by apply deriv_spec|]. intros x Hx Hm. cbn [take] in Hm.
    apply (step_all_matches _ _ pre') in Hm as (y & Hy & _ & Hm); [|done]. rewrite Hp in Hy. by eapply Hpre.
  - intros x [|[|m]] Hx Hm Hmatch; [lia..|]. exfalso. cbn [take] in Hmatch.
    apply (step_all_matches _ _ _ _ Hx) in Hmatch as (y & Hy & _ & Hmatch).
    cut (∃ k b, longest_match (step_all c rs) s = Some (k, b)); [by rewrite E; intros (? & ? & [=])|].
    assert (∃ i, i ≤ length s ∧ 0 < i ∧ matches y.2 (take i s)) as (i & Hi & Hi0 & Hmi) by (exists (S m); cbn in Hm; split_and!; [lia|lia|done]).
    clear -Hy Hi Hi0 Hmi. revert Hy Hi Hi0 Hmi. generalize (step_all c rs). revert y i. induction s as [|d s IH]; intros y i l Hy Hi Hi0 Hm; [cbn in Hi; lia|].
    destruct i as [|i]; [lia|]. cbn [take] in Hm. apply (step_all_matches _ _ _ _ Hy) in Hm as (z & Hz & _ & Hm). rewrite longest_match_cons.
    destruct (longest_match (step_all d l) s) as [[k b]|] eqn:E; [eauto|]. destruct i as [|i].
    + destruct (accepting (step_all d l)) eqn:Ea; [cbn; eauto|]. exfalso. by eapply accepting_none.
    + destruct (IH z (S i) _ Hz) as (k & b & Hk); [cbn in Hi; lia|lia|done|congruence].
Qed.

Lemma longest_match_none rs s x m : longest_match rs s = None → x ∈ rs → 0 < m ≤ length s → ¬ matches x.2 (take m s).
Proof.
  revert rs x m. induction s as [|c s IH]; intros rs x m H Hx Hm Hmatch; [cbn in Hm; lia|]. rewrite longest_match_cons in H.
  destruct (longest_match (step_all c rs) s) as [[k b]|] eqn:E; [done|]. destruct m as [|m]; [lia|]. cbn [take] in Hmatch.
  apply (step_all_matches _ _ _ _ Hx) in Hmatch as (y & Hy & _ & Hmatch). destruct m as [|m].
  - destruct (accepting _) eqn:Ea; [done|]. by eapply accepting_none.
  - by eapply (IH _ y (S m)); [exact E|done|cbn in Hm; lia|].
Qed.

(** ** Computing matches

    What the patterns have become after reading [u]; whether the match then
    ends, because no pattern can go on with [d]. *)
Definition after (rs : list (A * regex)) (u : list ascii) : list (A * regex) := foldl (λ rs c, step_all c rs) rs u.

Lemma longest_match_after rs u s i :
  u ≠ [] → accepting (after rs u) = Some i →
  longest_match rs (u ++ s) = match longest_match (after rs u) s with Some (m, j) => Some (length u + m, j) | None => Some (length u, i) end.
Proof.
  revert rs. induction u as [|c u IH]; intros rs Hu Ha; [done|]. cbn [app]. rewrite longest_match_cons. destruct u as [|e u].
  - change (accepting (step_all c rs) = Some i) in Ha. change (after rs [c]) with (step_all c rs). rewrite Ha. cbn [app].
    by destruct (longest_match (step_all c rs) s) as [[]|].
  - rewrite IH by done. change (after rs (c :: e :: u)) with (after (step_all c rs) (e :: u)).
    by destruct (longest_match (after (step_all c rs) (e :: u)) s) as [[]|].
Qed.

Lemma longest_match_stop rs u d s i :
  u ≠ [] → accepting (after rs u) = Some i → step_all d (after rs u) = [] → longest_match rs (u ++ d :: s) = Some (length u, i).
Proof. intros Hu Ha Hd. by rewrite (longest_match_after _ _ _ i), longest_match_cons, Hd, longest_match_nil. Qed.

Lemma step_all_star c (i : A) p : step_all c [(i, Star (Cls p))] = if p c then [(i, Star (Cls p))] else [].
Proof. rewrite step_all_cons. cbn. by destruct (p c). Qed.

(** A repetition matches as far as its characters go. *)
Lemma longest_match_star (i : A) p s :
  longest_match [(i, Star (Cls p))] s = match strspn p s with 0 => None | n => Some (n, i) end.
Proof.
  induction s as [|c s IH]; [done|]. rewrite longest_match_cons, step_all_star. cbn [strspn].
  destruct (p c); [rewrite IH; by destruct (strspn p s)|]. by rewrite longest_match_nil.
Qed.

(** Patterns in which [c] does not occur. *)
Fixpoint avoids (c : ascii) (r : regex) : bool :=
  match r with
  | Void | Eps => true
  | Cls p => negb (p c)
  | Cat r1 r2 | Alt r1 r2 => avoids c r1 && avoids c r2
  | Star r => avoids c r
  end.

Lemma avoids_cat c r1 r2 : avoids c r1 = true → avoids c r2 = true → avoids c (cat r1 r2) = true.
Proof. destruct r1, r2; cbn; intros H1 H2; rewrite ?H1, ?H2; done. Qed.
Lemma avoids_alt c r1 r2 : avoids c r1 = true → avoids c r2 = true → avoids c (alt r1 r2) = true.
Proof. destruct r1, r2; cbn; intros H1 H2; rewrite ?H1, ?H2; done. Qed.

Lemma avoids_deriv c d r : avoids c r = true → avoids c (deriv d r) = true.
Proof.
  induction r as [| |p|r1 IH1 r2 IH2|r1 IH1 r2 IH2|r IH]; cbn; try done.
  - by destruct (p d).
  - intros [H1 H2]%andb_true_iff. destruct (nullable r1); auto using avoids_cat, avoids_alt.
  - intros [H1 H2]%andb_true_iff. auto using avoids_alt.
  - intros H. apply avoids_cat; auto.
Qed.

Lemma avoids_void c r : avoids c r = true → deriv c r = Void.
Proof.
  induction r as [| |p|r1 IH1 r2 IH2|r1 IH1 r2 IH2|r IH]; cbn; try done.
  - intros H. by destruct (p c).
  - intros [H1 H2]%andb_true_iff. rewrite IH1, IH2 by done. by destruct (nullable r1).
  - intros [H1 H2]%andb_true_iff. by rewrite IH1, IH2.
  - intros H. by rewrite IH.
Qed.

Lemma step_all_avoids c rs : forallb (λ x, avoids c x.2) rs = true → step_all c rs = [].
Proof.
  induction rs as [|[a r] rs IH]; [done|]. cbn [forallb snd]. intros [H1 H2]%andb_true_iff. rewrite step_all_cons, avoids_void by done.
  by apply IH.
Qed.

Lemma step_all_keeps c d rs : forallb (λ x, avoids c x.2) rs = true → forallb (λ x, avoids c x.2) (step_all d rs) = true.
Proof.
  induction rs as [|[a r] rs IH]; [done|]. cbn [forallb snd]. intros [H1 H2]%andb_true_iff. rewrite step_all_cons.
  destruct (is_void _); [by apply IH|]. cbn [forallb snd]. rewrite avoids_deriv by done. by apply IH.
Qed.

(** A pattern for the rest of a line, ahead of others that stay in the line. *)
Lemma longest_match_line (i : A) p rs t c s :
  (∀ d, d ∈ t → p d = true) → p c = false → forallb (λ x, avoids c x.2) rs = true → t ≠ [] →
  longest_match ((i, Star (Cls p)) :: rs) (t ++ c :: s) = Some (length t, i).
Proof.
  intros Ht Hc. revert rs. induction t as [|d t IH]; intros rs Hrs Hne; [done|]. cbn [app]. rewrite longest_match_cons.
  assert (step_all d ((i, Star (Cls p)) :: rs) = (i, Star (Cls p)) :: step_all d rs) as -> by (rewrite step_all_cons; cbn; rewrite Ht by left; done).
  apply (step_all_keeps _ d) in Hrs. destruct t as [|e t].
  - cbn [app]. rewrite longest_match_cons, step_all_avoids, longest_match_nil; [done|]. cbn [forallb snd avoids]. by rewrite Hc.
  - rewrite IH; [done| |done|done]. intros x Hx. apply Ht. by right.
Qed.
(** Patterns that have become a pattern for the rest of the line, and others
    that stay in the line. *)
Lemma longest_match_rest (i : A) p rs rs' u t c s :
  u ≠ [] → after rs u = (i, Star (Cls p)) :: rs' → (∀ d, d ∈ t → p d = true) → p c = false → forallb (λ x, avoids c x.2) rs' = true →
  longest_match rs (u ++ t ++ c :: s) = Some (length (u ++ t), i).
Proof.
  intros Hu Hr Ht Hc Hav. rewrite (longest_match_after _ _ _ i), Hr; [|done|by rewrite Hr]. rewrite length_app. destruct t as [|d t].
  - cbn [app length]. rewrite longest_match_cons, step_all_avoids, longest_match_nil, Nat.add_0_r; [done|]. cbn [forallb snd avoids]. by rewrite Hc.
  - by rewrite longest_match_line.
Qed.

(** Patterns of which one is left, and done. *)
Lemma longest_match_exact rs u s (i : A) : u ≠ [] → after rs u = [(i, Eps)] → longest_match rs (u ++ s) = Some (length u, i).
Proof. intros Hu Hr. rewrite (longest_match_after _ _ _ i), Hr; [|done|by rewrite Hr]. destruct s as [|c s]; [done|]. by rewrite longest_match_cons, step_all_cons, longest_match_nil. Qed.
End scanner.

(** The scanner takes the longest match, of the first pattern that has it, and
    finds none only when there is none. *)
Theorem longest_match_correct {A} (rs : list (A * regex)) s :
  match longest_match rs s with
  | Some (n, a) => chosen rs s n a
  | None => ∀ x m, x ∈ rs → 0 < m ≤ length s → ¬ matches x.2 (take m s)
  end.
Proof.
  destruct (longest_match rs s) as [[n a]|] eqn:E; [by apply longest_match_some|]. intros x m. by apply longest_match_none.
Qed.

(** ** Writing patterns *)

Declare Scope re_scope.
Delimit Scope re_scope with re.
Infix "++" := cat : re_scope.
Infix "∣" := alt (at level 65, right associativity) : re_scope.

Definition chr (c : ascii) : regex := Cls (Ascii.eqb c).
Definition strl (l : list ascii) : regex := foldr (λ c r, cat (chr c) r) Eps l.
Definition str (s : string) : regex := strl (lit s).
Definition alts (l : list regex) : regex := foldr alt Void l.
Definition any (l : list string) : regex := alts (str <$> l).
Definition set (s : string) : regex := Cls (one_of (lit s)).
Definition notin (s : list ascii) : regex := Cls (λ c, negb (one_of s c)).
Definition opt (r : regex) : regex := alt r Eps.
Definition plus (r : regex) : regex := cat r (Star r).
Fixpoint upto (n : nat) (r : regex) : regex := match n with 0 => Eps | S n => opt (cat r (upto n r)) end.

Definition dot : regex := Cls (λ c, negb (Ascii.eqb c NL)).

Lemma matches_chr c s : matches (chr c) s ↔ s = [c].
Proof.
  unfold chr. rewrite matches_cls. split; [by intros (d & -> & ->%Ascii.eqb_eq)|]. intros ->. exists c. by rewrite Ascii.eqb_refl.
Qed.

Lemma matches_strl l s : matches (strl l) s ↔ s = l.
Proof.
  revert s. induction l as [|c l IH]; intros s; cbn [strl foldr]; [apply matches_eps|]. rewrite matches_mkcat, matches_cat. split.
  - by intros (s1 & s2 & -> & ->%matches_chr & ->%IH).
  - intros ->. exists [c], l. split_and!; [done|by apply matches_chr|by apply IH].
Qed.

Lemma matches_dots s : matches (Star dot) s ↔ NL ∉ s.
Proof.
  split.
  - intros H. remember (Star dot) as q eqn:E. induction H as [| | | | | |r s1 s2 H1 _ H2 IH]; simplify_eq; [apply not_elem_of_nil|].
    apply matches_cls in H1 as (c & -> & Hc). apply negb_true_iff, Ascii.eqb_neq in Hc. specialize (IH eq_refl). set_solver.
  - induction s as [|c s IH]; intros Hs; [constructor|]. apply (m_star dot [c] s); [|apply IH; set_solver].
    apply matches_cls. exists c. split; [done|]. apply negb_true_iff, Ascii.eqb_neq. set_solver.
Qed.

Lemma matches_dots1 s : matches (plus dot) s ↔ s ≠ [] ∧ NL ∉ s.
Proof.
  change (plus dot) with (Cat dot (Star dot)). rewrite matches_cat. split.
  - intros (s1 & s2 & -> & (c & -> & Hc)%matches_cls & H2%matches_dots). apply negb_true_iff, Ascii.eqb_neq in Hc. split; [done|set_solver].
  - intros [Hne Hs]. destruct s as [|c s]; [done|]. exists [c], s. split_and!; [done| |apply matches_dots; set_solver].
    apply matches_cls. exists c. split; [done|]. apply negb_true_iff, Ascii.eqb_neq. set_solver.
Qed.

(** *** Computing with every character *)

Definition all_chars : list ascii := ascii_of_nat <$> seq 0 256.

Lemma for_all_chars (P : ascii → bool) : forallb P all_chars = true → ∀ c, P c = true.
Proof.
  rewrite forallb_forall. intros H c. apply H, list_elem_of_In, list_elem_of_fmap. exists (nat_of_ascii c).
  split; [by rewrite ascii_nat_embedding|]. apply elem_of_seq. pose proof (nat_ascii_bounded c). lia.
Qed.

Definition stops (rs : list (nat * regex)) (d : ascii) (i : nat) : bool :=
  match accepting rs with Some j => j =? i | None => false end && match step_all d rs with [] => true | _ => false end.

Lemma stops_spec rs d i : stops rs d i = true → accepting rs = Some i ∧ step_all d rs = [].
Proof.
  unfold stops. intros [H1 H2]%andb_true_iff. destruct (accepting rs); [|done]. apply Nat.eqb_eq in H1 as ->. by destruct (step_all d rs).
Qed.

(** The text [u] is one match, of rule [i], before any character with [p]. *)
Definition stops_before (p : ascii → bool) (rs : list (nat * regex)) (u : list ascii) (i : nat) : bool :=
  let rs := after rs u in forallb (λ d, implb (p d) (stops rs d i)) all_chars.

Lemma stops_before_spec p rs u i d :
  stops_before p rs u i = true → p d = true → accepting (after rs u) = Some i ∧ step_all d (after rs u) = [].
Proof.
  intros Hall Hp. apply for_all_chars with (c := d) in Hall. rewrite implb_true_iff in Hall. by apply stops_spec, Hall.
Qed.
