(* ===== verification/Manconv.v ===== *)
(** * src/manconv.c: encoding declarations of pages

    A page can declare its encoding in a comment on its first line, as Emacs
    does ([-*- coding: ... -*-]).  [check_preprocessor_encoding] reads the
    declaration and, for a page that is being recoded, rewrites it; the theorem
    says that the rewritten line declares the new encoding. *)

From S2P Require Import Prelude CStr.

(** ** Definitions *)

Definition conversion_table : list (string * string) :=
[("chinese-big5", "Big5"); ("chinese-euc", "GB2312"); ("chinese-iso-8bit", "GB2312");
   ("cn-gb-2312", "GB2312"); ("cp878", "KOI8-R"); ("cyrillic-iso-8bit", "ISO-8859-5");
   ("cyrillic-koi8", "KOI8-R"); ("euc-china", "GB2312"); ("euc-japan", "EUC-JP");
   ("euc-japan-1990", "EUC-JP"); ("euc-kr", "EUC-KR"); ("greek-iso-8bit", "ISO-8859-7");
   ("iso-latin-1", "ISO-8859-1"); ("iso-latin-2", "ISO-8859-2"); ("iso-latin-5", "ISO-8859-9");
   ("iso-latin-7", "ISO-8859-13"); ("iso-latin-9", "ISO-8859-15");
   ("japanese-iso-8bit", "EUC-JP"); ("japanese-euc", "EUC-JP"); ("jis8", "EUC-JP");
   ("korean-euc", "EUC-KR"); ("korean-iso-8bit", "EUC-KR"); ("latin-0", "ISO-8859-15");
   ("latin-1", "ISO-8859-1"); ("latin-2", "ISO-8859-2"); ("latin-5", "ISO-8859-9");
   ("latin-7", "ISO-8859-13"); ("mule-utf-16", "UTF-16"); ("mule-utf-16be", "UTF-16BE");
   ("mule-utf-16-be", "UTF-16BE"); ("mule-utf-16be-with-signature", "UTF-16");
   ("mule-utf-16le", "UTF-16LE"); ("mule-utf-16-le", "UTF-16LE");
   ("mule-utf-16le-with-signature", "UTF-16"); ("mule-utf-8", "UTF-8"); ("utf-16-be", "UTF-16BE");
   ("utf-16be-with-signature", "UTF-16"); ("utf-16-be-with-signature", "UTF-16");
   ("utf-16-le", "UTF-16LE"); ("utf-16le-with-signature", "UTF-16");
   ("utf-16-le-with-signature", "UTF-16")]%string.

(** [STRIP]: cut a suffix off the string in the buffer; [encoding_len] is its
    length at the start. *)
Definition STRIP (encoding_len : nat) (s : cstr) (encoding : cstr) : cstr :=
  let l := length s in
  if bool_decide (l < encoding_len) &&
     match strcasecmp (drop (encoding_len - l) encoding) s with Eq => true | _ => false end
  then take (encoding_len - l) encoding else encoding.

Fixpoint convert_find (table : list (string * string)) (encoding : cstr) : cstr :=
  match table with
  | [] => encoding
  | (from, to) :: table =>
    match strcasecmp (lit from) encoding with Eq => lit to | _ => convert_find table encoding end
  end.

Definition convert_encoding (encoding : cstr) : cstr :=
  let encoding_len := length encoding in
  let encoding := STRIP encoding_len (lit "-dos") encoding in
  let encoding := STRIP encoding_len (lit "-mac") encoding in
  let encoding := STRIP encoding_len (lit "-unix") encoding in
  convert_find conversion_table encoding.

(** [PP_COOKIE] and the incorrect comment that is let through. *)
Definition PP_COOKIE : cstr := ["'"; "\"; "034"; " "]%char.
Definition BAD_COOKIE : cstr := ["."; "\"; "034"; " "]%char.

Definition is_blank (c : ascii) : bool := bool_decide (c = " "%char).
Definition encoding_allow (c : ascii) : bool :=
  isupper c || islower c || isdigit c || one_of (lit "-_/:.()") c.

(** The loop that looks for [coding:] from [pp_search] on: [text] is what is
    left of the directive, the result the position of the encoding's name in
    it.  Every turn consumes a semicolon. *)
Fixpoint find_coding (fuel : nat) (text : cstr) : option nat :=
  match fuel with
  | 0 => None
  | S fuel =>
    let sp := strspn is_blank text in
    let text := drop sp text in
    if starts_with (lit "coding:") text then
      Some (sp + (7 + strspn is_blank (drop 7 text)))
    else
      match strchr text ";"%char with
      | None => None
      | Some n => (λ q, sp + (S n + q)) <$> find_coding fuel (drop (S n) text)
      end
  end.

(** The directive of a first line: what follows the cookie, up to the newline. *)
Definition directive_of (line : cstr) : option cstr :=
  if STRNEQ line PP_COOKIE 4 || STRNEQ line BAD_COOKIE 4 then
    let rest := drop 4 line in
    Some (take (strcspn (λ c, bool_decide (c = NL)) rest) rest)
  else None.

(** Where the encoding's name starts in a directive. *)
Definition encoding_pos (directive : cstr) : option nat :=
  match strstr directive (lit "-*-") with
  | None => None
  | Some n => (λ q, n + (3 + q)) <$> find_coding (S (length directive)) (drop (n + 3) directive)
  end.

(** [check_preprocessor_encoding]: the encoding, and the rewritten line when
    [want] (that is, [modified_line] is not null) and the encoding differs. *)
Definition check_preprocessor_encoding (line to_encoding : option cstr) (want : bool)
    : option cstr * option cstr :=
  match line ≫= directive_of with
  | None => (None, None)
  | Some directive =>
    match encoding_pos directive with
    | None => (None, None)
    | Some q =>
      let rest := drop q directive in
      let pp_encoding_len := strspn encoding_allow rest in
      let pp_encoding := convert_encoding (take pp_encoding_len rest) in
      (Some pp_encoding,
       match to_encoding with
       | Some to =>
         match strcasecmp pp_encoding to with
         | Eq => None
         | _ =>
           if want then
             Some (take (4 + q) (default [] line) ++ to ++ drop pp_encoding_len rest ++ [NL])
           else None
         end
       | None => None
       end)
    end
  end.

(** [struct manconv_outbuf] and [add_output] into it. *)
Record manconv_outbuf := Outbuf { out_buf : list ascii; out_max : nat }.

Definition add_output (inbuf : list ascii) (o : manconv_outbuf) : outcome manconv_outbuf :=
  if decide (out_max o ≤ length (out_buf o) + length inbuf)
  then Fatal "out of space in output buffer"
  else Ret (Outbuf (out_buf o ++ inbuf) (out_max o)).

(** ** Rewriting the declaration *)

Lemma strspn_app_stop p a b :
  Forall (λ c, p c = true) a → match b with c :: _ => p c = false | [] => True end →
  strspn p (a ++ b) = length a.
Proof.
  intros Ha Hb. induction Ha as [|c a Hc Ha IH]; simpl.
  - destruct b; simpl; [done|]. by rewrite Hb.
  - by rewrite Hc, IH.
Qed.

(** A scan that stops inside [a] does not depend on what follows [a]. *)
Lemma strspn_app_inside p a b : strspn p (a ++ b) < length a → strspn p (a ++ b) = strspn p a.
Proof.
  induction a as [|c a IH]; simpl; [lia|]. destruct (p c); [|done].
  intros H. f_equal. apply IH. lia.
Qed.

Lemma strspn_full p a b :
  strspn p a = length a → match b with c :: _ => p c = false | [] => True end →
  strspn p (a ++ b) = length a.
Proof.
  induction a as [|c a IH]; simpl; [destruct b; simpl; [done|by intros _ ->]|].
  destruct (p c); [|done]. intros [= H] Hb. by rewrite IH.
Qed.

Lemma starts_with_inside p a b b' :
  length p ≤ length a → starts_with p (a ++ b) = starts_with p (a ++ b').
Proof.
  intros Hlen. unfold starts_with. apply bool_decide_ext.
  assert (∀ x, p `prefix_of` a ++ x ↔ p `prefix_of` a) as H.
  { intros x. split; [|apply prefix_app_r]. intros Hp.
    apply take_prefix_eq in Hp. rewrite take_app_le in Hp by done. by apply take_prefix_eq. }
  by rewrite !H.
Qed.

(** A character the pattern lacks, inside the window, excludes a match. *)
Lemma starts_with_lacking p a b c : c ∉ p → c ∈ a → length a < length p → starts_with p (a ++ b) = false.
Proof.
  intros Hp Ha Hlen. apply bool_decide_eq_false_2. intros Hpre. apply Hp.
  apply take_prefix_eq in Hpre. rewrite <-Hpre, take_app_ge by lia. set_solver.
Qed.

Lemma strchr_app_inside s b c n : strchr s c = Some n → n < length s → strchr (s ++ b) c = Some n.
Proof.
  revert n. induction s as [|x s IH]; intros n; simpl; [case_decide; intros; simplify_eq; lia|].
  case_decide; [done|]. rewrite fmap_Some. intros (k & Hk & ->) Hlt. rewrite (IH k) by (done || lia). done.
Qed.


Lemma strspn_inside p a x : strspn p a < length a → strspn p (a ++ x) = strspn p a.
Proof.
  induction a as [|c a IH]; simpl; [lia|]. destruct (p c); [|done]. intros H. f_equal. apply IH. lia.
Qed.

Lemma strspn_full_inv p a b : strspn p (a ++ b) = length a → strspn p a = length a.
Proof.
  induction a as [|c a IH]; simpl; [done|]. destruct (p c); [|done]. intros [= H]. f_equal. auto.
Qed.

(** Finding [coding:] depends only on the text before the encoding's name. *)
Lemma find_coding_stable fuel fuel' a b b' :
  find_coding fuel (a ++ b) = Some (length a) → length a < fuel' →
  match b' with c :: _ => is_blank c = false | [] => True end →
  find_coding fuel' (a ++ b') = Some (length a).
Proof.
  revert a fuel'. induction fuel as [|fuel IH]; intros a fuel' Hf Hlen Hb'; [done|].
  destruct fuel' as [|fuel']; [lia|]. cbn [find_coding] in *.
  assert (strspn is_blank (a ++ b) < length a) as Hsp.
  { revert Hf. destruct (starts_with _ _); [intros Hf; injection Hf; lia|].
    destruct (strchr _ _) as [n|]; [|done]. rewrite fmap_Some. intros (q & _ & Hq). lia. }
  rewrite strspn_app_inside in Hf, Hsp by done.
  rewrite strspn_inside by done. set (sp := strspn is_blank a) in *.
  rewrite drop_app_le in Hf |- * by lia. set (a1 := drop sp a) in *.
  assert (length a1 = length a - sp) as Ha1 by (unfold a1; apply length_drop).
  destruct (starts_with (lit "coding:") (a1 ++ b)) eqn:E.
  - injection Hf as Hf. assert (7 ≤ length a1) as H7 by lia.
    rewrite (starts_with_inside _ a1 b' b) by done. rewrite E.
    rewrite drop_app_le in Hf |- * by lia. f_equal.
    assert (strspn is_blank (drop 7 a1 ++ b) = length (drop 7 a1)) as Hfull
      by (rewrite length_drop; lia).
    rewrite strspn_full by (done || by eapply strspn_full_inv). rewrite length_drop. lia.
  - destruct (strchr (a1 ++ b) ";"%char) as [n|] eqn:En; [|done].
    apply fmap_Some in Hf as (q & Hq & Hlenq).
    assert (S n ≤ length a1) as Hn by lia.
    assert (strchr a1 ";"%char = Some n) as En1.
    { apply strchr_Some in En as [En1 En2]; [|done]. apply strchr_Some; [done|].
      rewrite lookup_app_l in En1 by lia. rewrite take_app_le in En2 by lia. done. }
    assert (";"%char ∈ a1) as Hin
      by (apply strchr_Some in En1 as [En1 _]; [by eapply list_elem_of_lookup_2|done]).
    assert (starts_with (lit "coding:") (a1 ++ b') = false) as ->.
    { destruct (decide (7 ≤ length a1)).
      - by rewrite (starts_with_inside _ a1 b' b).
      - eapply (starts_with_lacking _ _ _ ";"%char); [vm_compute; by not_in|done|simpl; lia]. }
    rewrite (strchr_app_inside a1 b' _ n) by (done || lia).
    rewrite drop_app_le in Hq |- * by lia.
    assert (q = length (drop (S n) a1)) as -> by (rewrite length_drop; lia).
    rewrite (IH _ fuel' Hq); [simpl; f_equal; done|rewrite length_drop; lia|done].
Qed.

Lemma strstr_stable p a b b' n :
  strstr (a ++ b) p = Some n → n + length p ≤ length a → strstr (a ++ b') p = Some n.
Proof.
  revert n. induction a as [|x a IH]; intros n Hn Hlen.
  - simpl in Hlen. assert (p = []) as -> by (destruct p; [done|simpl in *; lia]).
    assert (n = 0) as -> by (simpl in *; lia). apply strstr_here, prefix_nil.
  - simpl in Hlen. destruct (decide (p `prefix_of` (x :: a) ++ b)) as [Hp|Hp].
    + rewrite strstr_here in Hn by done. injection Hn as <-. apply strstr_here.
      apply starts_with_spec. rewrite (starts_with_inside p (x :: a) b' b) by (simpl; lia).
      by apply starts_with_spec.
    + simpl in Hp. change ((x :: a) ++ b) with (x :: (a ++ b)) in Hn. rewrite strstr_next in Hn by done.
      apply fmap_Some in Hn as (k & Hk & ->).
      change ((x :: a) ++ b') with (x :: (a ++ b')).
      rewrite strstr_next; [by rewrite (IH k) by (done || lia)|].
      rewrite <-starts_with_spec in *. rewrite not_true_iff_false in *.
      change (starts_with p ((x :: a) ++ b') = false).
      rewrite (starts_with_inside p (x :: a) b' b); [done|simpl; lia].
Qed.

(** The position of the encoding in a rewritten directive is the same. *)
Lemma encoding_pos_stable a b b' :
  encoding_pos (a ++ b) = Some (length a) →
  match b' with c :: _ => is_blank c = false | [] => True end →
  encoding_pos (a ++ b') = Some (length a).
Proof.
  unfold encoding_pos. intros Hpos Hb'.
  destruct (strstr (a ++ b) (lit "-*-")) as [n|] eqn:En; [|done].
  apply fmap_Some in Hpos as (q & Hq & Hlen).
  rewrite (strstr_stable _ a b b' n En) by (simpl; lia).
  rewrite drop_app_le in Hq |- * by lia.
  assert (q = length (drop (n + 3) a)) as -> by (rewrite length_drop; lia).
  erewrite find_coding_stable; [..|done]; [|exact Hq|].
  - simpl. f_equal. rewrite length_drop in *. lia.
  - rewrite length_drop, length_app. lia.
Qed.

Lemma find_coding_le fuel text q : find_coding fuel text = Some q → q ≤ length text.
Proof.
  revert text q. induction fuel as [|fuel IH]; intros text q; [done|]. cbn [find_coding].
  pose proof (strspn_le is_blank text) as Hsp. set (sp := strspn is_blank text) in *.
  destruct (starts_with _ _) eqn:E.
  - intros [= <-]. apply starts_with_spec, prefix_length in E as Hp. rewrite length_drop in Hp.
    change (length (lit "coding:")) with 7 in Hp.
    pose proof (strspn_le is_blank (drop 7 (drop sp text))) as Hle. rewrite !length_drop in Hle. lia.
  - destruct (strchr _ _) as [n|] eqn:En; [|done]. rewrite fmap_Some. intros (q' & Hq & ->).
    apply IH in Hq. apply strchr_lt in En; [|done]. rewrite !length_drop in *. lia.
Qed.

Lemma encoding_pos_le directive q : encoding_pos directive = Some q → q ≤ length directive.
Proof.
  unfold encoding_pos. destruct (strstr _ _) as [n|] eqn:E; [|done]. rewrite fmap_Some.
  intros (q' & Hq & ->). apply find_coding_le in Hq. apply strstr_prefix, prefix_length in E.
  change (length (lit "-*-")) with 3 in E. rewrite length_drop in *. lia.
Qed.

Lemma directive_of_Some line dir :
  directive_of line = Some dir →
  ∃ cookie rest, (cookie = PP_COOKIE ∨ cookie = BAD_COOKIE) ∧ line = cookie ++ rest ∧
    dir = take (strcspn (λ c, bool_decide (c = NL)) rest) rest.
Proof.
  unfold directive_of. destruct (_ || _) eqn:E; [|done]. intros [= <-].
  assert (take 4 line = PP_COOKIE ∨ take 4 line = BAD_COOKIE) as Hc.
  { apply orb_true_iff in E as [E%STRNEQ_true|E%STRNEQ_true]; [left|right]; by rewrite E. }
  exists (take 4 line), (drop 4 line). by rewrite take_drop.
Qed.

Lemma directive_of_cookie cookie dir :
  cookie = PP_COOKIE ∨ cookie = BAD_COOKIE → NL ∉ dir →
  directive_of (cookie ++ dir ++ [NL]) = Some dir.
Proof.
  intros Hc Hnl. unfold directive_of.
  replace (STRNEQ _ PP_COOKIE 4 || STRNEQ _ BAD_COOKIE 4) with true.
  - f_equal. assert (drop 4 (cookie ++ dir ++ [NL]) = dir ++ [NL]) as -> by by destruct Hc as [-> | ->].
    unfold strcspn. rewrite strspn_app_stop; [by rewrite take_app_length| |by vm_compute].
    apply Forall_forall. intros c Hin. rewrite bool_decide_eq_false_2; [done|]. by intros ->.
  - symmetry. apply orb_true_iff. rewrite !STRNEQ_true. by destruct Hc as [-> | ->]; [left|right].
Qed.

(** When the declared encoding is not the target, the line
    [check_preprocessor_encoding] returns differs from the page's first line
    only in the name of the encoding, and reading it declares the target. *)
Theorem check_preprocessor_rewrite line to pp m :
  check_preprocessor_encoding (Some line) (Some to) true = (Some pp, Some m) →
  to ≠ [] → Forall (λ c, encoding_allow c = true) to → convert_encoding to = to →
  check_preprocessor_encoding (Some m) (Some to) true = (Some to, None) ∧
  ∃ before name after, pp = convert_encoding name ∧
    before ++ name ++ after `prefix_of` line ∧ m = before ++ to ++ after ++ [NL].
Proof.
  intros Heq Hne Hallow Hconv. unfold check_preprocessor_encoding in Heq. simpl in Heq.
  destruct (directive_of line) as [dir|] eqn:Ed; [|done].
  destruct (encoding_pos dir) as [q|] eqn:Eq; [|done].
  apply directive_of_Some in Ed as (cookie & rest & Hcookie & -> & Hdir).
  set (b := drop q dir) in *. set (n := strspn encoding_allow b) in *.
  pose proof (encoding_pos_le _ _ Eq) as Hq.
  assert (take (4 + q) (cookie ++ rest) ++ to ++ drop n b ++ [NL] = m ∧ convert_encoding (take n b) = pp)
    as [Hm Hpp] by (destruct (strcasecmp _ to); by simplify_eq).
  assert (length cookie = 4) as Hc4 by by destruct Hcookie as [-> | ->].
  assert (take (4 + q) (cookie ++ rest) = cookie ++ take q dir) as Htake.
  { rewrite take_app_ge by lia. f_equal. rewrite Hc4. replace (4 + q - 4) with q by lia.
    rewrite Hdir, take_take. f_equal. rewrite Hdir, length_take in Hq. lia. }
  assert (NL ∉ dir) as Hnl.
  { rewrite Hdir. intros Hin. pose proof (strspn_take (λ c, negb (bool_decide (c = NL))) rest) as Hall.
    rewrite Forall_forall in Hall. apply Hall in Hin. by rewrite bool_decide_eq_true_2 in Hin. }
  assert (NL ∉ to) as Hnlto.
  { intros Hin. rewrite Forall_forall in Hallow. by apply Hallow in Hin. }
  set (a := take q dir) in *.
  assert (length a = q) as Ha by (unfold a; rewrite length_take; lia).
  rewrite Htake in Hm. rewrite <-app_assoc in Hm.
  assert (m = cookie ++ (a ++ to ++ drop n b) ++ [NL]) as Hm' by (rewrite <-Hm; by app_norm).
  split.
  - unfold check_preprocessor_encoding. simpl. rewrite Hm', directive_of_cookie; [|done|].
    2: { rewrite !not_elem_of_app. split_and!; [|done|].
         - intros Hin. apply Hnl. unfold a in Hin. by eapply (subseteq_take q).
         - intros Hin. apply Hnl. apply (subseteq_drop q). by apply (subseteq_drop n). }
    assert (encoding_pos (a ++ to ++ drop n b) = Some (length a)) as ->.
    { apply (encoding_pos_stable a b).
      - unfold a, b. rewrite take_drop. by fold a; rewrite Ha.
      - destruct Hallow as [|c to' Hc _]; [done|]. simpl. unfold is_blank.
        apply bool_decide_eq_false_2. intros ->. by vm_compute in Hc. }
    rewrite drop_app_length.
    assert (strspn encoding_allow (to ++ drop n b) = length to) as ->
      by (apply strspn_app_stop; [done|apply strspn_drop_head]).
    rewrite take_app_length, Hconv. by rewrite (cmp_refl strcasecmp).
  - exists (cookie ++ a), (take n b), (drop n b). split_and!; [done| |].
    + rewrite take_drop. unfold a, b. rewrite <-app_assoc, take_drop, Hdir.
      apply prefix_app, prefix_take.
    + rewrite Hm'. by app_norm.
Qed.

(** [add_output] never writes past the end of its buffer. *)
Theorem add_output_bound inbuf o o' :
  add_output inbuf o = Ret o' →
  length (out_buf o') < out_max o' ∧ out_max o' = out_max o ∧ out_buf o' = out_buf o ++ inbuf.
Proof.
  unfold add_output. case_decide; [done|]. intros [= <-]. simpl. rewrite length_app. split_and!; [lia|done..].
Qed.

(** ** Evaluation *)

Definition example_line : cstr := PP_COOKIE ++ lit "t -*- mode: troff; coding: latin-1-unix -*-" ++ [NL].

Example example_encoding :
  check_preprocessor_encoding (Some example_line) None true = (Some (lit "ISO-8859-1"), None).
Proof. by vm_compute. Qed.

Lemma check_preprocessor_rewrite_witness :
  let m := PP_COOKIE ++ lit "t -*- mode: troff; coding: UTF-8 -*-" ++ [NL] in
  check_preprocessor_encoding (Some m) (Some (lit "UTF-8")) true = (Some (lit "UTF-8"), None) ∧
  ∃ before name after, lit "ISO-8859-1" = convert_encoding name ∧
    before ++ name ++ after `prefix_of` example_line ∧ m = before ++ lit "UTF-8" ++ after ++ [NL].
Proof.
  apply (check_preprocessor_rewrite example_line (lit "UTF-8") (lit "ISO-8859-1")).
  - by vm_compute.
  - done.
  - repeat constructor.
  - by vm_compute.
Defined.

Lemma add_output_bound_witness :
  length (out_buf (Outbuf (lit "ab") 3)) < out_max (Outbuf (lit "ab") 3) ∧ 3 = 3 ∧ lit "ab" = lit "a" ++ lit "b".
Proof. by apply (add_output_bound (lit "b") (Outbuf (lit "a") 3) (Outbuf (lit "ab") 3)). Defined.
