(* ===== verification/ManconvLoop.v ===== *)
(** * src/manconv.c: converting a page to another encoding

    [manconv] tries encodings one after the other until the text of a page can
    be read in one of them.  [try_iconv] converts block by block, first to
    UTF-8, then to the target.  [iconv] is a parameter, of which the laws
    [IconvLaws] say how much a call reads; the relation [turns] says what the
    conversion to UTF-8 comes to, as calls on consecutive blocks. *)

From S2P Require Import Prelude CStr Manconv.

(** ** The library *)

Inductive iconv_error := EILSEQ | EINVAL | E2BIG.
#[export] Instance iconv_error_eq_dec : EqDecision iconv_error.
Proof. solve_decision. Defined.

(** What a call of [iconv] does: the error, how many bytes it read, what it
    wrote, and the conversion state afterwards. *)
Record iconv_result (cd : Type) := IconvResult {
  ir_error : option iconv_error;
  ir_read : nat;
  ir_written : list ascii;
  ir_cd : cd;
}.
Arguments IconvResult {cd}. Arguments ir_error {cd}. Arguments ir_read {cd}. Arguments ir_written {cd}. Arguments ir_cd {cd}.

(** [iconv_open (to, from)], [iconv] on a block with room for so many bytes,
    and the call that flushes the conversion state. *)
Class Iconv := {
  iconv_t : Type;
  iconv_open : cstr → cstr → option iconv_t;
  iconv : iconv_t → list ascii → nat → iconv_result iconv_t;
  iconv_flush : iconv_t → list ascii * iconv_t;
}.

Inductive tried_iconv := TRIED_ICONV_OK | TRIED_ICONV_ERROR | TRIED_ICONV_FATAL.
#[export] Instance tried_iconv_eq_dec : EqDecision tried_iconv.
Proof. solve_decision. Defined.

(** Where the text goes: the caller's buffer, or standard output. *)
Inductive dest := Buffer (o : manconv_outbuf) | Stdout (text : list ascii).
Definition dest_text (o : dest) : list ascii := match o with Buffer b => out_buf b | Stdout text => text end.

Section manconv.
Context `{Iconv}.
(** The size of the buffers, 65536 in the code; whether writing succeeds. *)
Context (buf_size : nat) (fwrite_ok : list ascii → bool).

(** [add_output] into either: [false] for a failure. *)
Definition add_text (inbuf : list ascii) (o : dest) : outcome (bool * dest) :=
  match o with
  | Buffer b => b ← add_output inbuf b; Ret (true, Buffer b)
  | Stdout text => Ret (if fwrite_ok inbuf then (true, Stdout (text ++ inbuf)) else (false, o))
  end.

(** Something to write out? *)
Definition add_some (inbuf : list ascii) (o : dest) : outcome (bool * dest) :=
  if bool_decide (inbuf = []) then Ret (true, o) else add_text inbuf o.

(** The variables of the loop: the text not yet skipped; the block that was
    peeked at last; the contents of [utf8], and how many bytes of it are left;
    the conversion descriptors; the output. *)
Record conv_state := ConvState {
  cs_rest : list ascii;
  cs_input : list ascii;
  cs_utf8 : list ascii;
  cs_left : nat;
  cs_cd_utf8 : iconv_t;
  cs_cd : option iconv_t;
  cs_out : dest;
}.

(** [decompress_peek] until the block is full or the text ends. *)
Definition peek_block (rest : list ascii) : list ascii := take buf_size rest.

(** The first conversion: the state, the bytes read from the block and the
    error to handle; [None] when the next encoding is to be tried. *)
Definition to_utf8_text (last : bool) (s : conv_state) : option (conv_state * nat * option iconv_error) :=
  if decide (cs_left s ≠ 0) then Some (s, 0, None)
  else
    let r := iconv (cs_cd_utf8 s) (cs_input s) buf_size in
    let s := ConvState (cs_rest s) (cs_input s) (ir_written r) (length (ir_written r)) (ir_cd r) (cs_cd s) (cs_out s) in
    let next_encoding :=
      match ir_error r with
      | Some EILSEQ => true
      | Some EINVAL => bool_decide (length (cs_input s) < buf_size)
      | _ => false
      end in
    if negb last && next_encoding then None else Some (s, ir_read r, ir_error r).

(** The second conversion: what is to be written, the error to handle, whether
    it went through to the end of the text; afterwards [utf8left] counts what
    it did not read. *)
Definition from_utf8_text (to_utf8 : bool) (error : option iconv_error) (s : conv_state)
    : outcome (list ascii * option iconv_error * bool * conv_state) :=
  let text := take (cs_left s) (cs_utf8 s) in
  let left n cd := ConvState (cs_rest s) (cs_input s) (cs_utf8 s) n (cs_cd_utf8 s) cd (cs_out s) in
  match error with
  | Some _ => Ret ([], error, false, s)
  | None =>
    if to_utf8 then Ret (text, None, false, left 0 (cs_cd s))
    else if decide (cs_left s ≠ 0) then
      cd ← or_undef "try_iconv: cd" (cs_cd s);
      let r := iconv cd text buf_size in
      Ret (ir_written r, ir_error r, match ir_error r with None => true | Some _ => false end,
           left (cs_left s - ir_read r) (Some (ir_cd r)))
    else Ret ([], None, false, s)
  end.

Definition set_out (o : dest) (s : conv_state) : conv_state :=
  ConvState (cs_rest s) (cs_input s) (cs_utf8 s) (cs_left s) (cs_cd_utf8 s) (cs_cd s) o.

(** The flush of the target's conversion state. *)
Definition flush_text (s : conv_state) : outcome (bool * conv_state) :=
  cd ← or_undef "try_iconv: cd" (cs_cd s);
  let '(text, cd) := iconv_flush cd in
  '(ok, o) ← add_some text (cs_out s);
  Ret (ok, ConvState (cs_rest s) (cs_input s) (cs_utf8 s) (cs_left s) (cs_cd_utf8 s) (Some cd) o).

(** An error that ends the conversion. *)
Definition fatal_error (ignore_errors : bool) (input : list ascii) (error : option iconv_error) : bool :=
  match error with
  | Some EILSEQ => negb ignore_errors
  | Some EINVAL => bool_decide (length input < buf_size)
  | _ => false
  end.

(** Skipping what was read; the next block is peeked at when nothing is left
    of the last one's text. *)
Definition next_block (rest : list ascii) (s : conv_state) : conv_state :=
  ConvState rest (if decide (cs_left s = 0) then peek_block rest else cs_input s) (cs_utf8 s) (cs_left s)
    (cs_cd_utf8 s) (cs_cd s) (cs_out s).

(** One turn of the loop. *)
Definition conv_step (to_utf8 ignore_errors last : bool) (s : conv_state) : outcome (tried_iconv * conv_state + conv_state) :=
  let input := cs_input s in
  match to_utf8_text last s with
  | None => Ret (inl (TRIED_ICONV_ERROR, s))
  | Some (s, nread, error) =>
    '(text, error, converted, s) ← from_utf8_text to_utf8 error s;
    '(ok, o) ← add_some text (cs_out s);
    let s := set_out o s in
    if negb (ok : bool) then Ret (inl (TRIED_ICONV_FATAL, s))
    else
      '(ok, s) ← (if negb to_utf8 && (converted : bool) then flush_text s else Ret (true, s));
      if negb (ok : bool) then Ret (inl (TRIED_ICONV_FATAL, s))
      else if negb (negb to_utf8 && converted) && fatal_error ignore_errors input error then Ret (inl (TRIED_ICONV_FATAL, s))
      else Ret (inr (next_block (drop nread (cs_rest s)) s))
  end.

(** The loop; [None] when the fuel runs out. *)
Fixpoint conv_loop (fuel : nat) (to_utf8 ignore_errors last : bool) (s : conv_state) : outcome (option (tried_iconv * conv_state)) :=
  if bool_decide (cs_input s = []) && bool_decide (cs_left s = 0) then Ret (Some (TRIED_ICONV_OK, s))
  else
    match fuel with
    | 0 => Ret None
    | S fuel =>
      r ← conv_step to_utf8 ignore_errors last s;
      match r with
      | inl result => Ret (Some result)
      | inr s => conv_loop fuel to_utf8 ignore_errors last s
      end
    end.

Definition utf8_target (to : cstr) : bool := STREQ to (lit "UTF-8") || STRNEQ to (lit "UTF-8//") 7.
Definition ignores_errors (to : cstr) : bool := bool_decide (is_Some (strstr to (lit "//IGNORE"))).

Definition run_conv (fuel : nat) (to : cstr) (last : bool) (cd_utf8 : iconv_t) (cd : option iconv_t) (rest : list ascii) (o : dest)
    : outcome (option (tried_iconv * list ascii * dest)) :=
  r ← conv_loop fuel (utf8_target to) (ignores_errors to) last (ConvState rest (peek_block rest) [] 0 cd_utf8 cd o);
  Ret (match r with
       | Some (tried, s) => Some (tried, cs_rest s, cs_out s)
       | None => None
       end).

(** The result, the text not skipped and the output. *)
Definition try_iconv (fuel : nat) (try_from_code to : cstr) (last : bool) (rest : list ascii) (o : dest)
    : outcome (option (tried_iconv * list ascii * dest)) :=
  match iconv_open (if last then lit "UTF-8//IGNORE" else lit "UTF-8") try_from_code with
  | None => Ret (Some (TRIED_ICONV_ERROR, rest, o))
  | Some cd_utf8 =>
    if utf8_target to then run_conv fuel to last cd_utf8 None rest o
    else
      match iconv_open to (lit "UTF-8") with
      | None => Ret (Some (TRIED_ICONV_ERROR, rest, o))
      | Some cd => run_conv fuel to last cd_utf8 (Some cd) rest o
      end
  end.

(** The encodings in turn: the result of [manconv] and the output. *)
Fixpoint try_encodings (fuel : nat) (from : list cstr) (to : cstr) (rest : list ascii) (o : dest) : outcome (option (Z * dest)) :=
  match from with
  | [] => Ret (Some (0%Z, o))
  | try_from_code :: from =>
    r ← try_iconv fuel try_from_code to (bool_decide (from = [])) rest o;
    match r with
    | None => Ret None
    | Some (TRIED_ICONV_OK, _, o) => Ret (Some (0%Z, o))
    | Some (TRIED_ICONV_FATAL, _, o) => Ret (Some ((-1)%Z, o))
    | Some (TRIED_ICONV_ERROR, rest, o) => try_encodings fuel from to rest o
    end
  end.

(** [line] is the first line of the text, with its newline. *)
Definition manconv (fuel : nat) (line : option cstr) (rest : list ascii) (from : list cstr) (to : cstr) (o : dest)
    : outcome (option (Z * dest)) :=
  let plain_to := take (strcspn (λ c, bool_decide (c = "/"%char)) to) to in
  let '(pp_encoding, modified_pp_line) := check_preprocessor_encoding line (Some plain_to) true in
  match pp_encoding with
  | Some pp_encoding =>
    '(ok, rest, o) ←
      match modified_pp_line with
      | Some modified =>
        '(ok, o) ← add_text modified o;
        Ret (ok, drop (length (default [] line)) rest, o)
      | None => Ret (true, rest, o)
      end;
    if negb (ok : bool) then Ret (Some ((-1)%Z, o))
    else
      r ← try_iconv fuel pp_encoding to true rest o;
      Ret (match r with
           | Some (TRIED_ICONV_FATAL, _, o) => Some ((-1)%Z, o)
           | Some (_, _, o) => Some (0%Z, o)
           | None => None
           end)
  | None => try_encodings fuel from to rest o
  end.
End manconv.

(** ** Conversion to UTF-8 *)

(** The encoding asked for in the first conversion. *)
Abbreviation utf8_name last := (if (last : bool) then lit "UTF-8//IGNORE" else lit "UTF-8").

(** A descriptor that converts to UTF-8: an open one, after any calls. *)
Inductive descriptor `{Iconv} (last : bool) : iconv_t → Prop :=
| descriptor_open e cd : iconv_open (utf8_name last) e = Some cd → descriptor last cd
| descriptor_call cd i n : descriptor last cd → descriptor last (ir_cd (iconv cd i n)).

(** What is relied on, for blocks of this size.  A call reads no more than
    there is; one that reports no error has read the whole block; one that ran
    out of room, or met an incomplete character at the end of a full block, or
    skips what is invalid, has read something.  The conversion may keep a
    state, and nothing is assumed of what it writes. *)
Class IconvLaws `{Iconv} (buf_size : nat) : Prop := {
  iconv_bounds last cd i : descriptor last cd → ir_read (iconv cd i buf_size) ≤ length i;
  iconv_complete last cd i : descriptor last cd → ir_error (iconv cd i buf_size) = None → ir_read (iconv cd i buf_size) = length i;
  iconv_progress last cd i : descriptor last cd → i ≠ [] →
    ir_error (iconv cd i buf_size) = Some E2BIG ∨ ir_error (iconv cd i buf_size) = Some EINVAL ∧ length i = buf_size ∨
      ir_error (iconv cd i buf_size) = Some EILSEQ ∧ last = true →
    0 < ir_read (iconv cd i buf_size);
}.

(** Adding to an output, and having room for so many bytes more. *)
Definition put (l : list ascii) (o : dest) : dest :=
  match o with Buffer b => Buffer (Outbuf (out_buf b ++ l) (out_max b)) | Stdout t => Stdout (t ++ l) end.
Definition fits (o : dest) (n : nat) : Prop :=
  match o with Buffer b => n = 0 ∨ length (out_buf b) + n < out_max b | Stdout _ => True end.

Lemma put_nil o : put [] o = o.
Proof. destruct o as [[buf max]|t]; simpl; by rewrite app_nil_r. Qed.
Lemma put_app l1 l2 o : put (l1 ++ l2) o = put l2 (put l1 o).
Proof. destruct o; simpl; by rewrite app_assoc. Qed.

Section spec.
Context `{Iconv} (buf_size : nat).

(** In which encoding a page is read, call by call.  A call is refused when it
    met something invalid, or an incomplete character at the end of the page:
    the next encoding is tried then, if there is one; without another one,
    what is invalid is skipped when errors are to be ignored. *)
Definition invalid (block : list ascii) (r : iconv_result iconv_t) : bool :=
  bool_decide (ir_error r = Some EILSEQ) || bool_decide (ir_error r = Some EINVAL) && bool_decide (length block < buf_size).
Definition refused (last ignore : bool) (block : list ascii) (r : iconv_result iconv_t) : bool :=
  invalid block r && negb (last && ignore && bool_decide (ir_error r = Some EILSEQ)).

Lemma refused_error last ignore block r :
  refused last ignore block r =
    match ir_error r with
    | Some EILSEQ => negb (last && ignore)
    | Some EINVAL => bool_decide (length block < buf_size)
    | _ => false
    end.
Proof.
  unfold refused, invalid. destruct (ir_error r) as [[]|]; cbn; rewrite ?andb_true_r, ?andb_false_r; cbn; by rewrite ?andb_true_r.
Qed.

(** From the descriptor [cd0] at the text [t0], calls on consecutive blocks,
    none of them refused, have come to the rest [t] of the text, have written
    [w], and have left the descriptor [cd]. *)
Inductive reads (last ignore : bool) (cd0 : iconv_t) (t0 : list ascii) : list ascii → list ascii → iconv_t → Prop :=
| reads_start : reads last ignore cd0 t0 t0 [] cd0
| reads_call t w cd r :
    reads last ignore cd0 t0 t w cd → t ≠ [] → r = iconv cd (take buf_size t) buf_size →
    refused last ignore (take buf_size t) r = false →
    reads last ignore cd0 t0 (drop (ir_read r) t) (w ++ ir_written r) (ir_cd r).

(** The next call is refused. *)
Definition stuck (last ignore : bool) (t : list ascii) (cd : iconv_t) : Prop :=
  t ≠ [] ∧ refused last ignore (take buf_size t) (iconv cd (take buf_size t) buf_size) = true.

(** The encodings in turn: [turns from t w r t'] for the encodings [from], the
    text [t] yet to be read, what is written of it, the result and the part
    of the text that is never read. *)
Inductive turns (ignore : bool) : list cstr → list ascii → list ascii → Z → list ascii → Prop :=
| turns_none t : turns ignore [] t [] 0 t
| turns_skip e from t w r t' :
    iconv_open (utf8_name (bool_decide (from = []))) e = None → turns ignore from t w r t' → turns ignore (e :: from) t w r t'
| turns_end e from t w cd cd' :
    iconv_open (utf8_name (bool_decide (from = []))) e = Some cd →
    reads (bool_decide (from = [])) ignore cd t [] w cd' → turns ignore (e :: from) t w 0 []
| turns_next e from t t1 w1 w r t' cd cd' :
    from ≠ [] → iconv_open (utf8_name false) e = Some cd → reads false ignore cd t t1 w1 cd' → stuck false ignore t1 cd' →
    turns ignore from t1 w r t' → turns ignore (e :: from) t (w1 ++ w) r t'
| turns_fail e t t1 w cd cd' :
    iconv_open (utf8_name true) e = Some cd → reads true ignore cd t t1 w cd' → stuck true ignore t1 cd' →
    turns ignore [e] t w (-1) t1.

(** In a buffer there is room: a byte becomes [grow] bytes at most. *)
Definition grows (o : dest) (ignore : bool) (grow : nat) : Prop :=
  match o with
  | Stdout _ => True
  | Buffer _ => ∀ e last cd t t' w cd', iconv_open (utf8_name last) e = Some cd → reads last ignore cd t t' w cd' →
      length w + grow * length t' ≤ grow * length t
  end.

(** The encodings tried, the text that is written first, and the text that is
    then read: a page with a coding tag is read in that encoding only, behind
    its first line when that is rewritten. *)
Definition plan (line : option cstr) (rest : list ascii) (from : list cstr) (to : cstr) : list cstr * list ascii * list ascii :=
  match check_preprocessor_encoding line (Some (take (strcspn (λ c, bool_decide (c = "/"%char)) to) to)) true with
  | (Some e, Some modified) => ([e], modified, drop (length (default [] line)) rest)
  | (Some e, None) => ([e], [], rest)
  | (None, _) => (from, [], rest)
  end.

Lemma reads_descriptor e last ignore cd0 t0 t w cd :
  iconv_open (utf8_name last) e = Some cd0 → reads last ignore cd0 t0 t w cd → descriptor last cd.
Proof. intros Ho Hr. induction Hr as [|t w cd r Hr IH _ -> _]; [by econstructor|by constructor]. Qed.

Lemma reads_suffix last ignore cd0 t0 t w cd : reads last ignore cd0 t0 t w cd → t `suffix_of` t0.
Proof. induction 1 as [|t w cd r Hr IH]; [done|]. etrans; [|exact IH]. apply suffix_drop. Qed.

Lemma turns_suffix ignore from t w r t' : turns ignore from t w r t' → t' `suffix_of` t.
Proof.
  induction 1; [done|done|by apply suffix_nil| |].
  - etrans; [done|]. by eapply reads_suffix.
  - by eapply reads_suffix.
Qed.

(** Text is lost only when the last encoding cannot be opened. *)
Lemma turns_complete ignore from t w r t' :
  turns ignore from t w r t' → r = 0%Z → t' ≠ [] → from = [] ∨ ∃ e, last from = Some e ∧ iconv_open (utf8_name true) e = None.
Proof.
  induction 1 as [|e from t w r t' Ho Ht IH| |e from t t1 w1 w r t' cd cd' Hne Ho Hr Hst Ht IH|]; intros Hr0 Ht'; [by left| |done| |done].
  - right. destruct (IH Hr0 Ht') as [->|(e' & Hl & He')]; [by exists e|]. exists e'. split; [|done]. by destruct from.
  - right. destruct (IH Hr0 Ht') as [->|(e' & Hl & He')]; [done|]. exists e'. split; [|done]. by destruct from.
Qed.

Lemma grows_put l o ignore grow : grows (put l o) ignore grow ↔ grows o ignore grow.
Proof. by destruct o. Qed.
End spec.

Section theorems.
Context `{IconvLaws buf_size} (fwrite_ok : list ascii → bool).
Context (Hsize : 0 < buf_size) (Hwrite : ∀ l, fwrite_ok l = true).

(** The text converted but not yet written. *)
Definition pending (s : conv_state) : list ascii := take (cs_left s) (cs_utf8 s).

Lemma add_some_put w x o n :
  fits o n → (∀ b, o = Buffer b → length (w ++ x) ≤ n) → add_some fwrite_ok x (put w o) = Ret (true, put (w ++ x) o).
Proof using Hwrite.
  clear Hsize. intros Hf Hn. unfold add_some, add_text. case_bool_decide as Hl; [by subst x; rewrite app_nil_r|].
  destruct o as [b|t]; simpl; [|by rewrite Hwrite, app_assoc]. specialize (Hn b eq_refl). rewrite length_app in Hn.
  destruct x as [|c x]; [done|]. simpl in Hf, Hn. unfold add_output. cbn [out_max out_buf].
  rewrite decide_False by (rewrite length_app; simpl; lia). by rewrite bind_Ret, app_assoc.
Qed.

(** One encoding: the descriptor, the text and the output it starts with. *)
Section encoding.
Context (e : cstr) (last ignore : bool) (cd0 : iconv_t) (t0 : list ascii) (o0 : dest) (grow : nat).
Context (Hopen : iconv_open (utf8_name last) e = Some cd0).
Context (Hgrows : grows buf_size o0 ignore grow) (Hfits : fits o0 (grow * length t0)).
Abbreviation reads := (reads buf_size last ignore cd0 t0).

Lemma add_read t w x cd : reads t (w ++ x) cd → add_some fwrite_ok x (put w o0) = Ret (true, put (w ++ x) o0).
Proof using Hopen Hgrows Hfits Hwrite.
  clear Hsize. intros Hr. apply (add_some_put w x o0 (grow * length t0)); [done|]. intros b ->. specialize (Hgrows e last cd0 _ _ _ _ Hopen Hr). lia.
Qed.

(** The state of the loop, [n] turns before it ends at the latest. *)
Record loop_inv (n : nat) (s : conv_state) : Prop := LoopInv {
  li_out : ∃ w, reads (cs_rest s) (w ++ pending s) (cs_cd_utf8 s) ∧ cs_out s = put w o0;
  li_input : cs_left s = 0 → cs_input s = take buf_size (cs_rest s);
  li_fuel : 2 * length (cs_rest s) + (if decide (cs_left s = 0) then 0 else 1) ≤ n;
}.

(** How the loop ends. *)
Definition ends (tried : tried_iconv) (rest : list ascii) (o : dest) : Prop :=
  ∃ w cd, reads rest w cd ∧ o = put w o0 ∧
    match tried with
    | TRIED_ICONV_OK => rest = []
    | TRIED_ICONV_ERROR => last = false ∧ stuck buf_size false ignore rest cd
    | TRIED_ICONV_FATAL => last = true ∧ stuck buf_size true ignore rest cd
    end.

(** What is still to be written is written. *)
Lemma conv_step_pending n s :
  loop_inv (S n) s → cs_left s ≠ 0 → ∃ s', conv_step buf_size fwrite_ok true ignore last s = Ret (inr s') ∧ loop_inv n s'.
Proof using Hopen Hgrows Hfits Hwrite.
  clear Hsize. intros [(w & Hr & Ho) Hin Hfuel] Hl. unfold conv_step, to_utf8_text. rewrite decide_True by done.
  cbn [from_utf8_text]. rewrite bind_Ret. cbn [cs_out]. fold (pending s). rewrite Ho, (add_read _ _ _ _ Hr), bind_Ret.
  cbn [negb set_out andb]. rewrite bind_Ret. cbn [negb fatal_error andb]. eexists. split; [done|]. rewrite drop_0. split; simpl.
  - exists (w ++ pending s). unfold pending at 2. cbn [cs_left next_block]. by rewrite take_0, app_nil_r.
  - done.
  - rewrite decide_False in Hfuel by done. lia.
Qed.

(** The next block is read. *)
Lemma conv_step_block n s :
  loop_inv (S n) s → cs_left s = 0 → cs_input s ≠ [] →
  (∃ s', conv_step buf_size fwrite_ok true ignore last s = Ret (inr s') ∧ loop_inv n s') ∨
  (∃ t s', conv_step buf_size fwrite_ok true ignore last s = Ret (inl (t, s')) ∧ t ≠ TRIED_ICONV_OK ∧ ends t (cs_rest s') (cs_out s')).
Proof using All.
  intros [(w & Hr & Ho) Hin Hfuel] Hl Hne. unfold pending in Hr. rewrite Hl, take_0, app_nil_r in Hr. rewrite decide_True in Hfuel by done.
  specialize (Hin Hl). assert (cs_rest s ≠ []) as Hrest by (intros E; rewrite Hin, E, take_nil in Hne; done).
  pose proof (reads_descriptor buf_size _ _ _ _ _ _ _ _ Hopen Hr) as Hd.
  unfold conv_step, to_utf8_text. rewrite decide_False by lia. rewrite Hin in Hne |- *. set (i := take buf_size (cs_rest s)) in *.
  pose proof (iconv_bounds last _ i Hd) as Hb. pose proof (iconv_complete last _ i Hd) as Hc. pose proof (iconv_progress last _ i Hd Hne) as Hp.
  pose proof (reads_call buf_size last ignore cd0 t0 _ _ _ _ Hr Hrest eq_refl) as Hcall. fold i in Hcall.
  assert (stuck buf_size last ignore (cs_rest s) (cs_cd_utf8 s) ↔ refused buf_size last ignore i (iconv (cs_cd_utf8 s) i buf_size) = true) as Hstuck.
  { unfold stuck. fold i. naive_solver. }
  set (r := iconv (cs_cd_utf8 s) i buf_size) in *.
  assert (length i ≤ length (cs_rest s)) as Hi by (unfold i; rewrite length_take; lia).
  assert (length i < buf_size → i = cs_rest s) as Hshort by (unfold i; rewrite length_take; intros; apply take_ge; lia).
  assert (cs_input s = i) as Ei by done. clear Hin.
  destruct (ir_error r) as [err|] eqn:Eerr.
  - (* nothing is written in this turn *)
    destruct (negb last && _) eqn:Egive.
    { right. do 2 eexists. split; [done|]. split; [done|]. apply andb_true_iff in Egive as [El Egive]. exists w, (cs_cd_utf8 s).
      split; [done|]. split; [done|]. destruct last; [done|]. split; [done|]. apply Hstuck. rewrite refused_error, Eerr. by destruct err. }
    cbn [from_utf8_text cs_rest cs_input cs_utf8 cs_left cs_cd_utf8 cs_cd cs_out]. rewrite bind_Ret. cbn [cs_out].
    unfold add_some. rewrite (bool_decide_eq_true_2 ([] = [])) by done. rewrite bind_Ret.
    cbn [negb set_out andb cs_rest cs_input cs_utf8 cs_left cs_cd_utf8 cs_cd cs_out]. rewrite bind_Ret. cbn [negb].
    destruct (fatal_error buf_size ignore i (Some err)) eqn:Ef.
    { right. do 2 eexists. split; [done|]. split; [done|]. exists w, (cs_cd_utf8 s). split; [done|]. split; [done|].
      destruct last; [split; [done|]|by destruct err; simpl in *; congruence].
      apply Hstuck. rewrite refused_error, Eerr. by destruct err. }
    left. eexists. split; [done|].
    assert (refused buf_size last ignore i r = false) as Hok.
    { rewrite refused_error, Eerr. destruct last, err; simpl in *; congruence. }
    assert (0 < ir_read r) as Hpos.
    { apply Hp. destruct err; simpl in *; [|right; left|by left].
      - right. right. split; [done|]. by destruct last.
      - split; [done|]. apply bool_decide_eq_false in Ef. unfold i in *. rewrite length_take in *. lia. }
    split; simpl.
    + exists w. unfold pending. simpl. rewrite firstn_all. split; [by apply Hcall|done].
    + by intros ->.
    + rewrite length_drop. destruct (decide (length (ir_written r) = 0)); lia.
  - rewrite andb_false_r. cbn [from_utf8_text cs_rest cs_input cs_utf8 cs_left cs_cd_utf8 cs_cd cs_out].
    rewrite bind_Ret. cbn [cs_out]. rewrite firstn_all.
    assert (refused buf_size last ignore i r = false) as Hok by (by rewrite refused_error, Eerr).
    specialize (Hcall Hok). rewrite Ho, (add_read _ _ _ _ Hcall), bind_Ret.
    cbn [negb set_out andb]. rewrite bind_Ret. cbn [negb fatal_error].
    left. eexists. split; [done|]. assert (0 < length i) by (destruct i; [done|simpl; lia]). split; simpl.
    + exists (w ++ ir_written r). unfold pending. simpl. by rewrite take_0, app_nil_r.
    + done.
    + rewrite length_drop. specialize (Hc eq_refl). lia.
Qed.

Lemma conv_loop_utf8 n : ∀ s,
  loop_inv n s →
  ∃ t s', conv_loop buf_size fwrite_ok n true ignore last s = Ret (Some (t, s')) ∧ ends t (cs_rest s') (cs_out s').
Proof using All.
  induction n as [|n IH]; intros s Hs; simpl; destruct (bool_decide (cs_input s = []) && bool_decide (cs_left s = 0)) eqn:E.
  1, 3: apply andb_true_iff in E as [Hi%bool_decide_eq_true Hl%bool_decide_eq_true]; pose proof (li_input _ _ Hs Hl) as Hin;
    destruct (li_out _ _ Hs) as (w & Hr & Ho); do 2 eexists; split; [done|]; exists w, (cs_cd_utf8 s);
    unfold pending in Hr; rewrite Hl, take_0, app_nil_r in Hr; split_and!; [done|done|];
    rewrite Hin in Hi; apply length_zero_iff_nil; apply (f_equal length) in Hi; rewrite length_take in Hi; simpl in Hi; lia.
  - exfalso. destruct Hs as [_ Hin Hf]. destruct (decide (cs_left s = 0)) as [Hl|]; [|lia].
    rewrite (Hin Hl), Hl in E. destruct (cs_rest s); [|simpl in Hf; lia]. by rewrite take_nil in E.
  - apply andb_false_iff in E. rewrite !bool_decide_eq_false in E. destruct (decide (cs_left s = 0)) as [Hl|Hl].
    + destruct (conv_step_block n s Hs Hl) as [(s1 & -> & Hs1)|(t & s1 & -> & _ & Hend)]; [naive_solver| |]; rewrite bind_Ret.
      * by apply IH.
      * by do 2 eexists.
    + destruct (conv_step_pending n s Hs Hl) as (s1 & -> & Hs1). rewrite bind_Ret. by apply IH.
Qed.
End encoding.

Lemma try_iconv_utf8 fuel e to (last : bool) cd rest o grow :
  utf8_target to = true → 2 * length rest ≤ fuel → iconv_open (utf8_name last) e = Some cd →
  grows buf_size o (ignores_errors to) grow → fits o (grow * length rest) →
  ∃ t rest' o', try_iconv buf_size fwrite_ok fuel e to last rest o = Ret (Some (t, rest', o')) ∧
    ends last (ignores_errors to) cd rest o t rest' o'.
Proof using Hsize Hwrite H0.
  intros Hto Hfuel Hcd Hgrows Hfits. unfold try_iconv, run_conv. rewrite Hcd, Hto.
  destruct (conv_loop_utf8 e last (ignores_errors to) cd rest o grow Hcd Hgrows Hfits fuel
    (ConvState rest (peek_block buf_size rest) [] 0 cd None o)) as (t & s & -> & Hs).
  { split; simpl; [|done|lia]. exists []. rewrite put_nil. split; [constructor|done]. }
  rewrite bind_Ret. by do 3 eexists.
Qed.

Lemma fits_put w o n m : fits o n → (∀ b, o = Buffer b → length w + m ≤ n) → fits (put w o) m.
Proof. destruct o as [b|t]; simpl; [|done]. intros Hf Hn. specialize (Hn b eq_refl). rewrite length_app. lia. Qed.

Lemma try_encodings_utf8 fuel from to grow : ∀ rest o,
  utf8_target to = true → 2 * length rest ≤ fuel → grows buf_size o (ignores_errors to) grow → fits o (grow * length rest) →
  ∃ r w rest', try_encodings buf_size fwrite_ok fuel from to rest o = Ret (Some (r, put w o)) ∧
    turns buf_size (ignores_errors to) from rest w r rest'.
Proof using Hsize Hwrite H0.
  induction from as [|e from IH]; intros rest o Hto Hfuel Hgrows Hfits; cbn [try_encodings].
  { exists 0%Z, [], rest. rewrite put_nil. split; [done|constructor]. }
  destruct (iconv_open (utf8_name (bool_decide (from = []))) e) as [cd|] eqn:Hcd.
  2: { unfold try_iconv. rewrite Hcd, bind_Ret. destruct (IH rest o Hto Hfuel Hgrows Hfits) as (r & w & rest' & -> & Ht).
       exists r, w, rest'. split; [done|by constructor]. }
  destruct (try_iconv_utf8 fuel e to _ cd rest o grow Hto Hfuel Hcd Hgrows Hfits) as (t & rest' & o' & -> & w & cd' & Hr & -> & Hend).
  rewrite bind_Ret. destruct t.
  - subst rest'. exists 0%Z, w, []. split; [done|by econstructor].
  - destruct Hend as [Hl Hstuck]. rewrite Hl in Hcd, Hr. apply bool_decide_eq_false in Hl.
    pose proof (suffix_length _ _ (reads_suffix _ _ _ _ _ _ _ _ Hr)) as Hlen.
    destruct (IH rest' (put w o)) as (r & w' & rest2 & -> & Ht); [done|lia|by apply grows_put| |].
    { eapply fits_put; [done|]. intros b ->. exact (Hgrows e false cd _ _ _ _ Hcd Hr). }
    exists r, (w ++ w'), rest2. rewrite put_app. split; [done|]. by eapply turns_next.
  - destruct Hend as [Hl Hstuck]. rewrite Hl in Hcd, Hr. apply bool_decide_eq_true in Hl as ->.
    exists (-1)%Z, w, rest'. split; [done|]. by eapply turns_fail.
Qed.

Lemma modified_line_nonempty line to e m : check_preprocessor_encoding line to true = (Some e, Some m) → m ≠ [].
Proof.
  unfold check_preprocessor_encoding. destruct (line ≫= directive_of); [|done]. destruct (encoding_pos _); [|done].
  destruct to; [|done]. destruct (strcasecmp _ _); [done|..]; by intros [= _ <-] [_ [_ [_ [=]]%app_nil]%app_nil]%app_nil.
Qed.

Lemma manconv_plan fuel line from to grow rest o :
  let '(from', head, text) := plan line rest from to in
  utf8_target to = true → 2 * length rest ≤ fuel → grows buf_size o (ignores_errors to) grow → fits o (length head + grow * length text) →
  ∃ r w text', manconv buf_size fwrite_ok fuel line rest from to o = Ret (Some (r, put (head ++ w) o)) ∧
    turns buf_size (ignores_errors to) from' text w r text'.
Proof using Hsize Hwrite H0.
  unfold manconv, plan. destruct (check_preprocessor_encoding _ _ _) as [[e|] modified] eqn:Epp.
  2: { intros. by apply try_encodings_utf8 with (grow := grow). }
  assert (∀ head text, (head = [] ∨ ∃ m, modified = Some m ∧ head = m) → utf8_target to = true → 2 * length text ≤ fuel →
    grows buf_size o (ignores_errors to) grow → fits o (length head + grow * length text) →
    ∃ r w text', (r ← try_iconv buf_size fwrite_ok fuel e to true text (put head o);
      Ret (match r with
           | Some (TRIED_ICONV_FATAL, _, o) => Some ((-1)%Z, o)
           | Some (_, _, o) => Some (0%Z, o)
           | None => None
           end)) = Ret (Some (r, put (head ++ w) o)) ∧ turns buf_size (ignores_errors to) [e] text w r text') as Htry.
  { intros head text _ Hto Hfuel Hgrows Hfits.
    assert (fits (put head o) (grow * length text)) as Hf by (eapply fits_put; [exact Hfits|by intros]).
    destruct (try_encodings_utf8 fuel [e] to grow text (put head o)) as (r & w & text' & Hrun & Ht); [done|done|by apply grows_put|done|].
    exists r, w, text'. split; [|done]. rewrite put_app. cbn [try_encodings] in Hrun.
    rewrite bool_decide_eq_true_2 in Hrun by done. destruct (try_iconv _ _ _ _ _ _ _ _) as [[[[[] ?] ?]|]| |]; cbn in *; congruence. }
  destruct modified as [m|].
  - intros Hto Hfuel Hgrows Hfits. assert (add_text fwrite_ok m o = Ret (true, put m o)) as ->.
    { pose proof (add_some_put [] m o _ Hfits) as Ha. rewrite put_nil in Ha. unfold add_some in Ha.
      rewrite bool_decide_eq_false_2 in Ha by by eapply modified_line_nonempty. apply Ha. intros. simpl. lia. }
    rewrite !bind_Ret. cbn [negb]. apply Htry; [by right; exists m|done| |done|done]. rewrite length_drop. lia.
  - intros Hto Hfuel Hgrows Hfits. rewrite bind_Ret. cbn [negb]. specialize (Htry [] rest). rewrite put_nil in Htry. apply Htry; try done. by left.
Qed.

(** C36: [manconv] to UTF-8 always ends, and what it has written then is the
    page, read in the encodings in turn.  A page with a coding tag is read in
    that encoding only, behind its first line, which is rewritten; any other
    page in the encodings of the caller, without those that cannot be opened.
    An encoding reads consecutive blocks of the text up to a block in which it
    meets something invalid, or an incomplete character at the end of the page;
    the next encoding goes on with this block, so that nothing is lost,
    repeated or converted twice, and in the last encoding the conversion fails,
    unless what is invalid is to be ignored.  When the result is success the
    page has been read to its end, or the last encoding could not be opened:
    then the rest of the page is lost without a failure. *)
Theorem manconv_utf8_pieces fuel line from to grow rest out :
  let '(from', head, text) := plan line rest from to in
  utf8_target to = true → 2 * length rest ≤ fuel → grows buf_size out (ignores_errors to) grow →
  fits out (length head + grow * length text) →
  ∃ r w lost, manconv buf_size fwrite_ok fuel line rest from to out = Ret (Some (r, put (head ++ w) out)) ∧
    turns buf_size (ignores_errors to) from' text w r lost ∧ lost `suffix_of` text ∧
    (r = 0%Z → lost = [] ∨ from' = [] ∨ ∃ e, last from' = Some e ∧ iconv_open (lit "UTF-8//IGNORE") e = None).
Proof using Hsize Hwrite H0.
  pose proof (manconv_plan fuel line from to grow rest out) as Hm. destruct (plan line rest from to) as [[from' head] text].
  intros Hto Hfuel Hgrows Hfits. destruct (Hm Hto Hfuel Hgrows Hfits) as (r & w & lost & Hrun & Ht). exists r, w, lost.
  split_and!; [done|done|by eapply turns_suffix|]. intros Hr. destruct (decide (lost = [])) as [|Hl]; [by left|right].
  by eapply turns_complete.
Qed.
End theorems.

(** ** A library to compute with *)

(** Conversions byte by byte: from ASCII, strict or ignoring what is invalid,
    from ISO-8859-1, from an encoding with a state, in which the bytes 14 and
    15 switch to the upper half of ISO-8859-1 and back, and to an encoding that
    takes two bytes for each byte of UTF-8. *)
Inductive table := Ascii | Lossy | Latin1 | Shift (upper ignore : bool) | Double.
Definition latin1 (n : nat) : list ascii :=
  if decide (n < 128) then [ascii_of_nat n] else [ascii_of_nat (192 + n / 64); ascii_of_nat (128 + n mod 64)].
Definition convert (t : table) (c : ascii) : option (list ascii * table) :=
  let n := nat_of_ascii c in
  match t with
  | Ascii => if decide (n < 128) then Some ([c], t) else None
  | Lossy => Some (if decide (n < 128) then [c] else [], t)
  | Latin1 => Some (latin1 n, t)
  | Shift upper ignore =>
    if decide (n = 14) then Some ([], Shift true ignore)
    else if decide (n = 15) then Some ([], Shift false ignore)
    else if decide (n < 128) then Some (latin1 (if upper then n + 128 else n), t)
    else if ignore then Some ([], t) else None
  | Double => Some ([c; c], t)
  end.

Fixpoint stream (t : table) (i : list ascii) (room : nat) : iconv_result table :=
  match i with
  | [] => IconvResult None 0 [] t
  | c :: i =>
    match convert t c with
    | None => IconvResult (Some EILSEQ) 0 [] t
    | Some (w, t') =>
      if decide (room < length w) then IconvResult (Some E2BIG) 0 [] t
      else let r := stream t' i (room - length w) in IconvResult (ir_error r) (S (ir_read r)) (w ++ ir_written r) (ir_cd r)
    end
  end.

Definition table_of (e : cstr) (ignore : bool) : option table :=
  if decide (e = lit "ISO-8859-1") then Some Latin1
  else if decide (e = lit "SHIFT") then Some (Shift false ignore)
  else if decide (e = lit "ASCII") then Some (if ignore then Lossy else Ascii)
  else None.
#[local] Instance tables : Iconv := {|
  iconv_t := table;
  iconv_open to from := if decide (to = lit "double") then Some Double else table_of from (ignores_errors to);
  iconv := stream;
  iconv_flush t := ([], match t with Shift _ ignore => Shift false ignore | _ => t end);
|}.

Lemma convert_length t c w t' : convert t c = Some (w, t') → length w ≤ 2.
Proof. destruct t; simpl; unfold latin1; repeat case_match; intros E; simplify_eq; simpl; lia. Qed.

Lemma stream_laws t i room :
  let r := stream t i room in
  ir_read r ≤ length i ∧ ir_error r ≠ Some EINVAL ∧ (ir_error r = None → ir_read r = length i) ∧
  length (ir_written r) ≤ 2 * ir_read r.
Proof.
  simpl. revert t room. induction i as [|c i IH]; intros t room; [done|]. simpl.
  destruct (convert t c) as [[w t']|] eqn:Ec; [|split_and!; simpl; [lia|done|done|lia]].
  destruct (decide (room < length w)); [split_and!; simpl; [lia|done|done|lia]|]. simpl.
  destruct (IH t' (room - length w)) as (Hr & He & Hc & Hw). apply convert_length in Ec.
  rewrite length_app. split_and!; [lia|done| |lia]. intros Hn. by rewrite Hc.
Qed.

(** With the descriptors of the last encoding nothing is invalid. *)
Definition lenient (t : table) : Prop := match t with Ascii | Shift _ false => False | _ => True end.
Lemma lenient_convert t c : lenient t → ∃ w t', convert t c = Some (w, t') ∧ lenient t'.
Proof. destruct t as [| | |u []|]; simpl; repeat destruct (decide _); intros; try done; by do 2 eexists. Qed.
Lemma lenient_stream t i room : lenient t → lenient (ir_cd (stream t i room)).
Proof.
  revert t room. induction i as [|c i IH]; intros t room Ht; [done|]. simpl.
  destruct (lenient_convert t c Ht) as (w & t' & -> & Ht'). destruct (decide _); [done|]. by apply IH.
Qed.
Lemma lenient_descriptor t : descriptor (H := tables) true t → lenient t.
Proof.
  induction 1 as [e t He|t i n _ IH]; [|by apply lenient_stream]. revert He. simpl. unfold table_of.
  repeat destruct (decide _); by intros [= <-].
Qed.

Lemma stream_progress t i :
  i ≠ [] → ir_error (stream t i 2) = Some E2BIG ∨ ir_error (stream t i 2) = Some EILSEQ ∧ lenient t → 0 < ir_read (stream t i 2).
Proof.
  destruct i as [|c i]; [done|]. intros _. simpl. destruct (convert t c) as [[w t']|] eqn:Ec.
  - apply convert_length in Ec. rewrite decide_False by lia. simpl. lia.
  - intros [He|[_ Hl]]; [done|]. destruct (lenient_convert t c Hl) as (w & t' & Hx & _). congruence.
Qed.

#[local] Instance tables_laws : IconvLaws (H := tables) 2.
Proof.
  split; simpl; intros last cd i Hd; [apply stream_laws..|]. intros Hi [He|[[He _]|[He ->]]].
  - apply stream_progress; [done|]. by left.
  - by destruct (stream_laws cd i 2) as (_ & ? & _).
  - apply stream_progress; [done|]. right. split; [done|]. by apply lenient_descriptor.
Qed.

Lemma tables_grow o ignore : grows (H := tables) 2 o ignore 2.
Proof.
  destruct o as [b|]; [|done]. intros e last cd t t' w cd' _ Hr. induction Hr as [|t' w cd' r Hr IH _ -> _]; [simpl; lia|].
  rewrite length_app, length_drop. destruct (stream_laws cd' (take 2 t') 2) as (Hb & _ & _ & Hw). rewrite length_take in Hb.
  change (@iconv tables cd' (take 2 t') 2) with (stream cd' (take 2 t') 2).
  change (@ir_read (@iconv_t tables)) with (@ir_read table). change (@ir_written (@iconv_t tables)) with (@ir_written table). lia.
Qed.

(** The blocks have two bytes: the first one is read as ASCII, the second one
    is not ASCII and read as ISO-8859-1. *)
Definition mixed_page : list ascii := lit "ab" ++ [ascii_of_nat 233].

Lemma manconv_utf8_pieces_witness :
  ∃ r w lost, @manconv tables 2 (λ _, true) 10 None mixed_page [lit "ASCII"; lit "ISO-8859-1"] (lit "UTF-8//IGNORE") (Buffer (Outbuf [] 12)) =
      Ret (Some (r, put ([] ++ w) (Buffer (Outbuf [] 12)))) ∧
    @turns tables 2 true [lit "ASCII"; lit "ISO-8859-1"] mixed_page w r lost ∧ lost `suffix_of` mixed_page ∧
    (r = 0%Z → lost = [] ∨ [lit "ASCII"; lit "ISO-8859-1"] = [] ∨
       ∃ e, last [lit "ASCII"; lit "ISO-8859-1"] = Some e ∧ @iconv_open tables (lit "UTF-8//IGNORE") e = None).
Proof.
  apply (@manconv_utf8_pieces tables 2 tables_laws (λ _, true) ltac:(lia) ltac:(done) 10 None
    [lit "ASCII"; lit "ISO-8859-1"] (lit "UTF-8//IGNORE") 2 mixed_page (Buffer (Outbuf [] 12)));
    [reflexivity|simpl; lia|apply tables_grow|simpl; lia].
Defined.

Example manconv_first_block_stays :
  @manconv tables 2 (λ _, true) 10 None mixed_page [lit "ASCII"; lit "ISO-8859-1"] (lit "UTF-8") (Stdout []) =
  Ret (Some (0%Z, Stdout (lit "ab" ++ [ascii_of_nat 195; ascii_of_nat 169]))).
Proof. vm_compute. reflexivity. Qed.

(** The state of an encoding lasts from block to block. *)
Example manconv_keeps_state :
  @manconv tables 2 (λ _, true) 10 None (lit "a" ++ [ascii_of_nat 14] ++ lit "i" ++ [ascii_of_nat 15] ++ lit "i") [lit "SHIFT"] (lit "UTF-8") (Stdout []) =
  Ret (Some (0%Z, Stdout (lit "a" ++ [ascii_of_nat 195; ascii_of_nat 169] ++ lit "i"))).
Proof. vm_compute. reflexivity. Qed.

(** When no encoding can be opened, nothing is written, and the result is that
    of success; a page with a coding tag that names no encoding is cut down to
    its first line. *)
Example manconv_opens_nothing :
  @manconv tables 2 (λ _, true) 10 None mixed_page [lit "KOI7"] (lit "UTF-8") (Stdout []) = Ret (Some (0%Z, Stdout [])) ∧
  let line := PP_COOKIE ++ lit "-*- coding: klingon -*-" ++ [NL] in
  @manconv tables 2 (λ _, true) 100 (Some line) (line ++ lit "text") [lit "ASCII"] (lit "UTF-8") (Stdout []) =
    Ret (Some (0%Z, Stdout (PP_COOKIE ++ lit "-*- coding: UTF-8 -*-" ++ [NL]))).
Proof. split; vm_compute; reflexivity. Qed.

(** With a target that takes more room than UTF-8 the second conversion does
    not read the whole of [utf8].  The next turn should go on behind what was
    read, but starts at the beginning of [utf8] again: this page is written as
    [aaaa], not as [aabb]. *)
Example manconv_repeats_the_beginning :
  @manconv tables 2 (λ _, true) 10 None (lit "ab") [lit "ASCII"] (lit "double") (Stdout []) = Ret (Some (0%Z, Stdout (lit "aaaa"))).
Proof. vm_compute. reflexivity. Qed.
