(* ===== verification/Pipe.v ===== *)
(** * Commands and pipelines

    The programs build their pipelines with libpipeline.  A command, and a
    pipeline of commands, are recorded as what they were built from; what
    running one does is the class [PipelineLib]. *)

From S2P Require Import Prelude CStr.

(** An argument; or a string the library splits into arguments as a shell
    would ([pipecmd_new_argstr], [pipecmd_argstr]). *)
Inductive arg := Word (s : cstr) | Words (s : cstr).
#[export] Instance arg_eq_dec : EqDecision arg.
Proof. solve_decision. Defined.

(** The functions run in a child process, with their data. *)
Inductive child :=
| zsoelim_stdin (dir : option cstr) (manpathlist : list cstr)
| manconv_stdin (from : list cstr) (to : cstr)
| disable_justification
| locale_macros (language : cstr)
| squeeze_blank_lines
| decompress_zlib.

(** What a child runs before the command. *)
Inductive pre_exec := sandbox_load | sandbox_load_permissive | manconv_pre_exec | pre_drop_privs.

Inductive pipecmd_kind :=
| Process (args : list arg)
| Function (name : cstr) (f : child)
| Sequence (name : cstr) (cmds : list pipecmd)
| Passthrough
with pipecmd :=
| Pipecmd (kind : pipecmd_kind) (env : list (cstr * cstr)) (pre : option pre_exec) (discard_err : bool) (dir : option cstr) (nice : Z).

Definition cmd_of (kind : pipecmd_kind) : pipecmd := Pipecmd kind [] None false None 0.

Definition pipecmd_new (name : cstr) : pipecmd := cmd_of (Process [Word name]).
Definition pipecmd_new_args (args : list cstr) : pipecmd := cmd_of (Process (Word <$> args)).
Definition pipecmd_new_argstr (s : cstr) : pipecmd := cmd_of (Process [Words s]).
Definition pipecmd_new_function (name : cstr) (f : child) : pipecmd := cmd_of (Function name f).
Definition pipecmd_new_sequence (name : cstr) (cmds : list pipecmd) : pipecmd := cmd_of (Sequence name cmds).
Definition pipecmd_new_passthrough : pipecmd := cmd_of Passthrough.

Definition add_args (args : list arg) (c : pipecmd) : pipecmd :=
  let 'Pipecmd kind env pre discard dir nice := c in
  Pipecmd (match kind with Process l => Process (l ++ args) | _ => kind end) env pre discard dir nice.
Definition pipecmd_arg (s : cstr) : pipecmd → pipecmd := add_args [Word s].
Definition pipecmd_args (l : list cstr) : pipecmd → pipecmd := add_args (Word <$> l).
Definition pipecmd_argstr (s : cstr) : pipecmd → pipecmd := add_args [Words s].
Definition pipecmd_setenv (name value : cstr) (c : pipecmd) : pipecmd :=
  let 'Pipecmd kind env pre discard dir nice := c in Pipecmd kind (env ++ [(name, value)]) pre discard dir nice.
Definition pipecmd_pre_exec (f : pre_exec) (c : pipecmd) : pipecmd :=
  let 'Pipecmd kind env _ discard dir nice := c in Pipecmd kind env (Some f) discard dir nice.
Definition pipecmd_discard_err (c : pipecmd) : pipecmd :=
  let 'Pipecmd kind env pre _ dir nice := c in Pipecmd kind env pre true dir nice.
Definition pipecmd_chdir (d : cstr) (c : pipecmd) : pipecmd :=
  let 'Pipecmd kind env pre discard _ nice := c in Pipecmd kind env pre discard (Some d) nice.
Definition pipecmd_nice (n : Z) (c : pipecmd) : pipecmd :=
  let 'Pipecmd kind env pre discard dir _ := c in Pipecmd kind env pre discard dir n.
Definition pipecmd_sequence_command (child : pipecmd) (c : pipecmd) : pipecmd :=
  let 'Pipecmd kind env pre discard dir nice := c in
  Pipecmd (match kind with Sequence n l => Sequence n (l ++ [child]) | _ => kind end) env pre discard dir nice.

Definition cmd_args (c : pipecmd) : list arg := let 'Pipecmd kind _ _ _ _ _ := c in match kind with Process l => l | _ => [] end.

Definition cmd_pre (c : pipecmd) : option pre_exec := let 'Pipecmd _ _ pre _ _ _ := c in pre.
Definition cmd_kind (c : pipecmd) : pipecmd_kind := let 'Pipecmd kind _ _ _ _ _ := c in kind.

(** Where a pipeline reads from and writes to: standard input and output, a
    file, a descriptor, or the caller. *)
Inductive pipe_in := In_stdin | In_file (file : cstr) | In_fd (fd : Z).
Inductive pipe_out := Out_stdout | Out_fd (fd : Z) | Out_caller.

(** [pl_read]: how much of its output the caller has read. *)
Record pipeline := Pipeline {
  pl_cmds : list pipecmd;
  pl_in : pipe_in;
  pl_out : pipe_out;
  pl_ignore_signals : bool;
  pl_read : nat;
}.

Definition pipeline_new : pipeline := Pipeline [] In_stdin Out_stdout false 0.
Definition set_cmds (l : list pipecmd) (p : pipeline) : pipeline := Pipeline l (pl_in p) (pl_out p) (pl_ignore_signals p) (pl_read p).
Definition pipeline_new_commands (l : list pipecmd) : pipeline := set_cmds l pipeline_new.
Definition pipeline_command (c : pipecmd) (p : pipeline) : pipeline := set_cmds (pl_cmds p ++ [c]) p.
Definition pipeline_want_in (i : pipe_in) (p : pipeline) : pipeline := Pipeline (pl_cmds p) i (pl_out p) (pl_ignore_signals p) (pl_read p).
Definition pipeline_want_out (o : pipe_out) (p : pipeline) : pipeline := Pipeline (pl_cmds p) (pl_in p) o (pl_ignore_signals p) (pl_read p).
Definition pipeline_ignore_signals (p : pipeline) : pipeline := Pipeline (pl_cmds p) (pl_in p) (pl_out p) true (pl_read p).

(** Reading from a pipeline that was started: the bytes, [None] for a null
    pointer, and the pipeline afterwards; waiting for its exit status. *)
Class PipelineLib := {
  pipeline_read : pipeline → nat → option (list ascii) * pipeline;
  pipeline_peek : pipeline → nat → option (list ascii) * pipeline;
  pipeline_peek_skip : pipeline → nat → pipeline;
  pipeline_readline : pipeline → option cstr * pipeline;
  pipeline_peekline : pipeline → option cstr * pipeline;
  pipeline_wait : pipeline → Z;
}.
