(* ===== verification/Decompress.v ===== *)
(** * src/decompress.c: reading compressed pages

    A page is read from a pipeline, or from a buffer a gzipped file was
    decompressed into.  The buffer implements a stream of bytes: a sequence of
    reads, looks ahead and lines gives what it gives on the plain text. *)

From S2P Require Import Prelude CStr Fs Compression Pipe.

(** [struct decompress_inprocess]: [offset] is at most [len] ([ip_ok]). *)
Record inprocess := Inprocess {
  ip_buf : list ascii;
  ip_len : nat;
  ip_offset : nat;
  ip_line_cache : option cstr;
}.
Inductive decompress := DECOMPRESS_PIPELINE (p : pipeline) | DECOMPRESS_INPROCESS (d : inprocess).

Definition decompress_new_pipeline (p : pipeline) : decompress := DECOMPRESS_PIPELINE p.
Definition decompress_new_inprocess (buf : list ascii) (len : nat) : decompress := DECOMPRESS_INPROCESS (Inprocess buf len 0 None).

(** *** Opening *)

(** zlib: opening a file, and reading at most so many bytes ([None] is an error). *)
Class Zlib := {
  gzFile : Type;
  gzopen : cstr → option gzFile;
  gzread : gzFile → nat → option (list ascii) * gzFile;
}.

Definition DECOMPRESS_ALLOW_INPROCESS : Z := 1.
Definition MAX_INPROCESS : nat := N.to_nat 1048576.

Section open.
Context (cfg : comp_config) `{FileSystem} `{Zlib}.

(** The loop of [decompress_try_zlib]; [text] is what is in the buffer. *)
Fixpoint zlib_loop (fuel : nat) (max : nat) (f : gzFile) (text : list ascii) : option (option (list ascii)) :=
  if decide (length text < max) then
    match fuel with
    | 0 => None
    | S fuel =>
      match gzread f (max - length text) with
      | (None, _) => Some None
      | (Some [], _) => Some (Some text)
      | (Some r, f) => zlib_loop fuel max f (text ++ r)
      end
    end
  else Some (Some text).

(** Each turn reads a byte at least: [MAX_INPROCESS] turns are enough. *)
Definition decompress_try_zlib_max (max : nat) (filename : cstr) : option decompress :=
  match gzopen filename with
  | None => None
  | Some f =>
    match zlib_loop max max f [] with
    | Some (Some text) => if decide (max ≤ length text) then None else Some (decompress_new_inprocess text (length text))
    | _ => None
    end
  end.
Definition decompress_try_zlib : cstr → option decompress := decompress_try_zlib_max MAX_INPROCESS.

Definition sandboxed (c : pipecmd) : pipecmd := pipecmd_pre_exec sandbox_load c.

(** The pipeline for a file. *)
Definition open_pipeline (filename : cstr) : pipeline :=
  let n := length filename in
  if bool_decide (3 < n) && STREQ (drop (n - 3) filename) (lit ".gz") then
    pipeline_new_commands [sandboxed (pipecmd_new_function (lit "zcat") decompress_zlib)]
  else
    match strrchr filename "."%char with
    | Some dot =>
      match comp_find (comp_list cfg) (drop (S dot) filename) with
      | Some comp => pipeline_new_commands [sandboxed (pipecmd_new_argstr (comp_prog comp))]
      | None =>
        if HAVE_GZIP cfg && bool_decide (is_Some (strstr filename (lit ".Z/"))) then
          pipeline_new_commands [sandboxed (pipecmd_new_argstr (PROG_GUNZIP cfg))]
        else pipeline_new
      end
    | None =>
      if HAVE_GZIP cfg && bool_decide (is_Some (strstr filename (lit ".Z/"))) then
        pipeline_new_commands [sandboxed (pipecmd_new_argstr (PROG_GUNZIP cfg))]
      else pipeline_new
    end.

Definition decompress_open (filename : cstr) (flags : Z) : option decompress :=
  match fs_stat filename with
  | None => None
  | Some st =>
    if S_ISDIR (st_mode st) then None
    else
      let n := length filename in
      let inprocess :=
        if bool_decide (3 < n) && STREQ (drop (n - 3) filename) (lit ".gz") && negb (Z.land flags DECOMPRESS_ALLOW_INPROCESS =? 0)%Z
        then decompress_try_zlib filename else None in
      match inprocess with
      | Some d => Some d
      | None =>
        Some (decompress_new_pipeline (pipeline_want_out Out_caller (pipeline_want_in (In_file filename) (open_pipeline filename))))
      end
  end.

Definition decompress_fdopen (fd : Z) : decompress :=
  decompress_new_pipeline (pipeline_want_out Out_caller (pipeline_want_in (In_fd fd)
    (pipeline_new_commands [sandboxed (pipecmd_new_function (lit "zcat") decompress_zlib)]))).
End open.

(** *** Access *)

Definition decompress_is_pipeline (d : decompress) : bool := match d with DECOMPRESS_PIPELINE _ => true | _ => false end.
Definition decompress_get_pipeline (d : decompress) : outcome pipeline :=
  match d with DECOMPRESS_PIPELINE p => Ret p | DECOMPRESS_INPROCESS _ => Fatal "decompress_get_pipeline" end.
Definition decompress_inprocess_buf (d : decompress) : outcome (list ascii) :=
  match d with DECOMPRESS_INPROCESS d => Ret (ip_buf d) | DECOMPRESS_PIPELINE _ => Fatal "decompress_inprocess_buf" end.
Definition decompress_inprocess_len (d : decompress) : outcome nat :=
  match d with DECOMPRESS_INPROCESS d => Ret (ip_len d) | DECOMPRESS_PIPELINE _ => Fatal "decompress_inprocess_len" end.
Definition decompress_inprocess_replace (d : decompress) (buf : list ascii) (len : nat) : outcome decompress :=
  match d with
  | DECOMPRESS_INPROCESS _ => Ret (decompress_new_inprocess buf len)
  | DECOMPRESS_PIPELINE _ => Fatal "decompress_inprocess_replace"
  end.

(** *** Reading *)

Definition ip_left (d : inprocess) : nat := ip_len d - ip_offset d.
(** So many bytes from [offset] on. *)
Definition ip_bytes (d : inprocess) (n : nat) : list ascii := take n (drop (ip_offset d) (ip_buf d)).
Definition ip_advance (d : inprocess) (n : nat) : inprocess := Inprocess (ip_buf d) (ip_len d) (ip_offset d + n) (ip_line_cache d).
Definition ip_cache (d : inprocess) (line : option cstr) : inprocess := Inprocess (ip_buf d) (ip_len d) (ip_offset d) line.


(** The next line: its length in the buffer, with the newline. *)
Definition line_length (d : inprocess) : option nat :=
  match strchr (ip_bytes d (ip_left d)) NL with Some i => Some (S i) | None => None end.

Section read.
Context `{PipelineLib}.

Definition on_pipeline {A} (f : pipeline → A * pipeline) (p : pipeline) : A * decompress :=
  let '(a, p) := f p in (a, DECOMPRESS_PIPELINE p).

(** The bytes, [None] for a null pointer. *)
Definition decompress_read (d : decompress) (len : nat) : option (list ascii) * decompress :=
  match d with
  | DECOMPRESS_PIPELINE p => on_pipeline (λ p, pipeline_read p len) p
  | DECOMPRESS_INPROCESS d =>
    let len := len `min` ip_left d in (Some (ip_bytes d len), DECOMPRESS_INPROCESS (ip_advance d len))
  end.

Definition decompress_peek (d : decompress) (len : nat) : option (list ascii) * decompress :=
  match d with
  | DECOMPRESS_PIPELINE p => on_pipeline (λ p, pipeline_peek p len) p
  | DECOMPRESS_INPROCESS ip => (Some (ip_bytes ip (len `min` ip_left ip)), d)
  end.

Definition decompress_peek_skip (d : decompress) (len : nat) : outcome decompress :=
  match d with
  | DECOMPRESS_PIPELINE p => Ret (DECOMPRESS_PIPELINE (pipeline_peek_skip p len))
  | DECOMPRESS_INPROCESS d =>
    if decide (len ≤ ip_left d) then Ret (DECOMPRESS_INPROCESS (ip_advance d len)) else Fatal "decompress_peek_skip"
  end.

Definition decompress_readline (d : decompress) : option cstr * decompress :=
  match d with
  | DECOMPRESS_PIPELINE p => on_pipeline pipeline_readline p
  | DECOMPRESS_INPROCESS d =>
    match line_length d with
    | Some n =>
      let line := xstrndup (ip_bytes d n) in
      (Some line, DECOMPRESS_INPROCESS (ip_advance (ip_cache d (Some line)) n))
    | None => (None, DECOMPRESS_INPROCESS (ip_cache d None))
    end
  end.

Definition decompress_peekline (d : decompress) : option cstr * decompress :=
  match d with
  | DECOMPRESS_PIPELINE p => on_pipeline pipeline_peekline p
  | DECOMPRESS_INPROCESS d =>
    match line_length d with
    | Some n => let line := xstrndup (ip_bytes d n) in (Some line, DECOMPRESS_INPROCESS (ip_cache d (Some line)))
    | None => (None, DECOMPRESS_INPROCESS (ip_cache d None))
    end
  end.

Definition decompress_wait (d : decompress) : Z :=
  match d with DECOMPRESS_PIPELINE p => pipeline_wait p | DECOMPRESS_INPROCESS _ => 0 end.
End read.

(** ** The buffer is a stream *)

Inductive op := Read (n : nat) | Peek (n : nat) | Skip (n : nat) | Readline | Peekline.

(** What the operations do to a stream that consists of the bytes [t]. *)
Definition stream_line (t : list ascii) : option nat := match strchr t NL with Some i => Some (S i) | None => None end.
Definition stream_op (o : op) (t : list ascii) : outcome (option (list ascii) * list ascii) :=
  match o with
  | Read n => Ret (Some (take n t), drop n t)
  | Peek n => Ret (Some (take n t), t)
  | Skip n => if decide (n ≤ length t) then Ret (None, drop n t) else Fatal "decompress_peek_skip"
  | Readline => Ret (match stream_line t with Some n => (Some (xstrndup (take n t)), drop n t) | None => (None, t) end)
  | Peekline => Ret (match stream_line t with Some n => (Some (xstrndup (take n t)), t) | None => (None, t) end)
  end.

Section stream.
Context `{PipelineLib}.

Definition decompress_op (o : op) (d : decompress) : outcome (option (list ascii) * decompress) :=
  match o with
  | Read n => Ret (decompress_read d n)
  | Peek n => Ret (decompress_peek d n)
  | Skip n => d ← decompress_peek_skip d n; Ret (None, d)
  | Readline => Ret (decompress_readline d)
  | Peekline => Ret (decompress_peekline d)
  end.

(** The answers to a sequence of operations. *)
Fixpoint run_ops {S} (step : op → S → outcome (option (list ascii) * S)) (ops : list op) (s : S) : outcome (list (option (list ascii))) :=
  match ops with
  | [] => Ret []
  | o :: ops => '(a, s) ← step o s; l ← run_ops step ops s; Ret (a :: l)
  end.

Definition ip_ok (d : inprocess) : Prop := ip_offset d ≤ ip_len d ∧ ip_len d ≤ length (ip_buf d).
(** What is left of the text. *)
Definition ip_rest (d : inprocess) : list ascii := ip_bytes d (ip_left d).

Lemma ip_rest_length d : ip_ok d → length (ip_rest d) = ip_left d.
Proof. intros [? ?]. unfold ip_rest, ip_bytes, ip_left. rewrite length_take, length_drop. lia. Qed.
Lemma ip_bytes_rest d n : n ≤ ip_left d → ip_bytes d n = take n (ip_rest d).
Proof. intros Hn. unfold ip_rest, ip_bytes. rewrite take_take. by rewrite Nat.min_l. Qed.
Lemma ip_advance_ok d n : ip_ok d → n ≤ ip_left d → ip_ok (ip_advance d n) ∧ ip_rest (ip_advance d n) = drop n (ip_rest d).
Proof.
  unfold ip_ok, ip_left. intros [? ?] ?. split; [simpl; lia|]. unfold ip_rest, ip_bytes, ip_left. cbn.
  rewrite <-drop_drop, skipn_firstn_comm. f_equal. lia.
Qed.
Lemma line_length_rest d n : ip_ok d → line_length d = Some n → n ≤ ip_left d ∧ ip_bytes d n = take n (ip_rest d).
Proof.
  intros Hok Hn. unfold line_length in Hn. fold (ip_rest d) in Hn. destruct (strchr (ip_rest d) NL) as [i|] eqn:E; [|done].
  injection Hn as <-. apply strchr_lt in E; [|done]. rewrite ip_rest_length in E by done. split; [lia|]. apply ip_bytes_rest. lia.
Qed.

(** One operation does to what is left what it does to the stream. *)
Lemma decompress_op_step o d :
  ip_ok d →
  match stream_op o (ip_rest d) with
  | Ret (a, t) => ∃ d', decompress_op o (DECOMPRESS_INPROCESS d) = Ret (a, DECOMPRESS_INPROCESS d') ∧ ip_ok d' ∧ ip_rest d' = t
  | Fatal e => decompress_op o (DECOMPRESS_INPROCESS d) = Fatal e
  | Undef e => False
  end.
Proof.
  intros Hok. pose proof (ip_rest_length d Hok) as Hlen.
  assert (∀ n, take (n `min` ip_left d) (ip_rest d) = take n (ip_rest d)) as Hmin.
  { intros n. rewrite <-Hlen, <-take_take, firstn_all. done. }
  destruct o as [n|n|n| |]; simpl.
  - destruct (ip_advance_ok d (n `min` ip_left d) Hok) as [Hok' Hr]; [lia|].
    eexists. split; [by rewrite ip_bytes_rest, Hmin by lia|]. split; [done|]. rewrite Hr.
    destruct (decide (n ≤ ip_left d)); [by rewrite Nat.min_l|]. rewrite !drop_ge; [done|lia..].
  - eexists. split; [by rewrite ip_bytes_rest, Hmin by lia|]. done.
  - rewrite Hlen. destruct (decide (n ≤ ip_left d)); [|done]. eexists. split; [done|]. by apply ip_advance_ok.
  - unfold stream_line. destruct (line_length d) as [n|] eqn:E; unfold line_length in E; fold (ip_rest d) in E;
      destruct (strchr (ip_rest d) NL) as [i|] eqn:Ei; try done; simplify_eq.
    + destruct (line_length_rest d (S i) Hok) as [Hn Hb]; [unfold line_length; fold (ip_rest d); by rewrite Ei|].
      rewrite Hb. eexists. split; [done|]. by apply (ip_advance_ok (ip_cache d _)).
    + by eexists.
  - unfold stream_line. destruct (line_length d) as [n|] eqn:E; unfold line_length in E; fold (ip_rest d) in E;
      destruct (strchr (ip_rest d) NL) as [i|] eqn:Ei; try done; simplify_eq.
    + destruct (line_length_rest d (S i) Hok) as [Hn Hb]; [unfold line_length; fold (ip_rest d); by rewrite Ei|].
      rewrite Hb. by eexists.
    + by eexists.
Qed.

(** C22: a decompressed buffer behaves as the stream of its bytes: every sequence
    of reads, looks ahead, skips and lines gives the answers it gives on the
    plain text, and fails where it skips past the end. *)
Theorem decompress_stream ops buf len :
  len ≤ length buf →
  run_ops decompress_op ops (decompress_new_inprocess buf len) = run_ops stream_op ops (take len buf).
Proof.
  intros Hlen. unfold decompress_new_inprocess.
  assert (∀ d, ip_ok d → run_ops decompress_op ops (DECOMPRESS_INPROCESS d) = run_ops stream_op ops (ip_rest d)) as Hrun.
  { induction ops as [|o ops IH]; intros d Hok; simpl; [done|]. pose proof (decompress_op_step o d Hok) as Hstep.
    destruct (stream_op o (ip_rest d)) as [[a t]|e|e]; [|by rewrite Hstep|done].
    destruct Hstep as (d' & -> & Hok' & <-). rewrite !bind_Ret. by rewrite IH. }
  rewrite Hrun; [|split; simpl; lia]. unfold ip_rest, ip_bytes, ip_left. simpl. by rewrite Nat.sub_0_r.
Qed.
End stream.

(** ** Decompressing into the buffer *)

(** zlib as documented: [gz_rest f] is the text still to be read, [None] when
    the file is damaged.  A call reads some of it, nothing only at the end. *)
Class ZlibLaws `{Zlib} (gz_rest : gzFile → option (list ascii)) : Prop := {
  gzread_text f n t : gz_rest f = Some t →
    ∃ r t' f', gzread f n = (Some r, f') ∧ t = r ++ t' ∧ length r ≤ n ∧ (0 < n → t ≠ [] → r ≠ []) ∧ gz_rest f' = Some t';
  gzread_damaged f n : gz_rest f = None → 0 < n →
    (gzread f n).1 = None ∨ ∃ r f', gzread f n = (Some r, f') ∧ r ≠ [] ∧ length r ≤ n ∧ gz_rest f' = None;
}.

Section zlib.
Context `{ZlibLaws gz_rest}.

Lemma zlib_loop_text fuel max f text t :
  gz_rest f = Some t → max ≤ length text + fuel → length text ≤ max →
  zlib_loop fuel max f text = Some (Some (take max (text ++ t))).
Proof.
  revert f text t. induction fuel as [|fuel IH]; intros f text t Hf Hfuel Hmax; simpl.
  - rewrite decide_False by lia. by rewrite take_app_le, take_ge by lia.
  - destruct (decide (length text < max)) as [Hl|Hl]; [|by rewrite take_app_le, take_ge by lia].
    destruct (gzread_text f (max - length text) t Hf) as (r & t' & f' & -> & -> & Hr & Hne & Hf').
    destruct r as [|c r].
    + destruct t' as [|c t']; [by rewrite app_nil_r, take_ge by lia|]. exfalso. apply Hne; [lia|done..].
    + rewrite app_assoc. apply IH; [done|rewrite length_app; simpl; lia|rewrite length_app; lia].
Qed.

Lemma zlib_loop_damaged fuel max f text :
  gz_rest f = None → max ≤ length text + fuel → length text ≤ max →
  ∃ o, zlib_loop fuel max f text = Some o ∧ ∀ t, o = Some t → max ≤ length t.
Proof.
  revert f text. induction fuel as [|fuel IH]; intros f text Hf Hfuel Hmax; simpl.
  - rewrite decide_False by lia. eexists. split; [done|]. intros t [= <-]. lia.
  - destruct (decide (length text < max)) as [Hl|Hl]; [|eexists; split; [done|]; intros t [= <-]; lia].
    destruct (gzread_damaged f (max - length text) Hf ltac:(lia)) as [He|(r & f' & -> & Hne & Hr & Hf')].
    + destruct (gzread f _) as [o f']. simpl in He. subst o. by exists None.
    + destruct r as [|c r]; [done|]. apply IH; [done|rewrite length_app; simpl; lia|rewrite length_app; lia].
Qed.

(** A gzipped file is decompressed into memory exactly when it can be read
    to its end and is shorter than the limit, and the buffer then holds its
    whole text; the loop always ends. *)
Theorem try_zlib_correct max filename f :
  gzopen filename = Some f →
  decompress_try_zlib_max max filename =
    match gz_rest f with
    | Some t => if decide (length t < max) then Some (decompress_new_inprocess t (length t)) else None
    | None => None
    end.
Proof.
  intros Hf. unfold decompress_try_zlib_max. rewrite Hf. destruct (gz_rest f) as [t|] eqn:Et.
  - rewrite (zlib_loop_text max max f [] t) by (done || simpl; lia). simpl. rewrite length_take.
    destruct (decide (length t < max)); [rewrite decide_False by lia; by rewrite take_ge, Nat.min_r by lia|by rewrite decide_True by lia].
  - destruct (zlib_loop_damaged max max f [] Et) as (o & -> & Ho); [simpl; lia..|].
    destruct o as [t|]; [|done]. by rewrite decide_True by (by apply Ho).
Qed.
End zlib.

(** ** Evaluation *)

(** Files whose decompressed text is given; a read hands out two bytes at most. *)
#[local] Instance two_byte_zlib : Zlib := {|
  gzFile := list ascii;
  gzopen f := Some (drop 5 f);
  gzread f n := (Some (take (2 `min` n) f), drop (2 `min` n) f);
|}.
Definition whole (f : list ascii) : option (list ascii) := Some f.
#[local] Instance two_byte_laws : ZlibLaws (H := two_byte_zlib) whole.
Proof.
  split; [|done]. intros f n t [= <-]. simpl. exists (take (2 `min` n) f), (drop (2 `min` n) f), (drop (2 `min` n) f).
  split; [done|]. split; [by rewrite take_drop|]. split; [rewrite length_take; lia|]. split; [|done].
  destruct n, f; [lia|lia|done|]. simpl. by destruct n.
Qed.
Definition no_lib : PipelineLib := {|
  pipeline_read p _ := (None, p); pipeline_peek p _ := (None, p); pipeline_peek_skip p _ := p;
  pipeline_readline p := (None, p); pipeline_peekline p := (None, p); pipeline_wait _ := 0%Z;
|}.

Lemma try_zlib_correct_witness :
  @gzopen two_byte_zlib (lit "file:page") = Some (lit "page") ∧
  decompress_try_zlib_max 10 (lit "file:page") = Some (decompress_new_inprocess (lit "page") 4).
Proof. split; [done|]. apply (try_zlib_correct (H := two_byte_zlib) (gz_rest := whole) 10 (lit "file:page") (lit "page")). done. Defined.

Definition two_lines : list ascii := lit "a" ++ [NL] ++ lit "bc" ++ [NL] ++ lit "d".
Lemma decompress_stream_witness :
  6 ≤ length two_lines ∧
  run_ops (@decompress_op no_lib) [Peekline; Readline; Peek 3; Skip 1; Readline; Readline; Read 9] (decompress_new_inprocess two_lines 6) =
  run_ops stream_op [Peekline; Readline; Peek 3; Skip 1; Readline; Readline; Read 9] (take 6 two_lines).
Proof. split; [simpl; lia|]. apply (@decompress_stream no_lib). simpl. lia. Defined.

(** The last line is not delivered without its newline; the bytes behind a NUL
    are skipped with the line but not delivered. *)
Example readline_values :
  run_ops (@decompress_op no_lib) [Readline; Readline; Readline] (decompress_new_inprocess two_lines 6) =
    Ret [Some (lit "a" ++ [NL]); Some (lit "bc" ++ [NL]); None] ∧
  run_ops (@decompress_op no_lib) [Readline; Read 9]
    (decompress_new_inprocess (lit "a" ++ [NUL] ++ lit "b" ++ [NL] ++ lit "c") 5) = Ret [Some (lit "a"); Some (lit "c")].
Proof. by vm_compute. Qed.
