(* ===== verification/ManconvClient.v ===== *)
(** * src/manconv_client.c, src/manconv_main.c: using the conversion

    A conversion is added to a pipeline as a child process, or applied to a
    buffer that a page was decompressed into; the program manconv runs it on a
    file. *)

From S2P Require Import Prelude CStr Compression Util Encodings Utf8 Manconv ManconvLoop Pipe Decompress.

Definition UTF_8 : cstr := lit "UTF-8".
Definition MANCONV : cstr := lit "manconv".

(** *** In a pipeline *)

Definition source_encodings (source_encoding : cstr) : list cstr :=
  if STREQ source_encoding UTF_8 then [source_encoding] else [UTF_8; source_encoding].

(** [setuid]: [running_setuid ()]. *)
Definition add_manconv (quiet : Z) (setuid : bool) (p : pipeline) (source_encoding target_encoding : cstr) : pipeline :=
  if STREQ source_encoding target_encoding then p
  else
    let from := source_encodings source_encoding in
    let to := target_encoding ++ lit "//IGNORE" in
    let name := MANCONV ++ lit " -f " ++ join ":"%char from ++ lit " -t " ++ to ++ (if (2 <=? quiet)%Z then lit " -q" else []) in
    let cmd :=
      if setuid then
        let cmd := pipecmd_args [lit "-t"; to] (pipecmd_arg (join ":"%char from) (pipecmd_new_args [MANCONV; lit "-f"])) in
        pipecmd_pre_exec manconv_pre_exec (if (2 <=? quiet)%Z then pipecmd_arg (lit "-q") cmd else cmd)
      else sandboxed (pipecmd_new_function name (manconv_stdin from to)) in
    pipeline_command cmd p.

(** *** In a buffer *)

Section inprocess.
Context `{Iconv}.
Context (buf_size : nat) (fwrite_ok : list ascii → bool).

(** The line [decompress_peekline] hands out. *)
Definition first_line (text : list ascii) : option cstr :=
  match stream_line text with Some n => Some (xstrndup (take n text)) | None => None end.

(** The result; the decompressor, [None] when the buffer was read but not
    replaced. *)
Definition manconv_inprocess (fuel : nat) (d : decompress) (source_encoding target_encoding : cstr)
    : outcome (option (Z * option decompress)) :=
  if STREQ source_encoding target_encoding then Ret (Some (0%Z, Some d))
  else
    buf ← decompress_inprocess_buf d;
    len ← decompress_inprocess_len d;
    let text := take len buf in
    let convert from :=
      let to := target_encoding ++ lit "//IGNORE" in
      r ← manconv buf_size fwrite_ok fuel (first_line text) text from to (Buffer (Outbuf [] (len * 4)));
      match r with
      | None => Ret None
      | Some (status, o) =>
        if (status =? 0)%Z then
          d ← decompress_inprocess_replace d (dest_text o) (length (dest_text o));
          Ret (Some (0%Z, Some d))
        else Ret (Some ((-1)%Z, None))
      end in
    if STREQ source_encoding UTF_8 then convert [source_encoding]
    else if STREQ target_encoding UTF_8 then
      if utf8_validate_len text then Ret (Some (0%Z, Some d)) else convert [source_encoding]
    else convert [UTF_8; source_encoding].
End inprocess.

(** *** The program *)

(** The options and arguments, as [argp] hands them over. *)
Inductive manconv_key := Key_from (s : cstr) | Key_to (s : cstr) | Key_quiet | Key_debug | Key_file (s : cstr).
Record manconv_opts := ManconvOpts { mc_from : option cstr; mc_to : option cstr; mc_file : option cstr }.

Definition split_codes (codestr : option cstr) : list cstr :=
  match codestr with
  | None => []
  | Some s => filter (λ t, t ≠ []) (split_on ":"%char s)
  end.

Definition add_translit (to : cstr) : cstr :=
  match strstr to (lit "//") with None => to ++ lit "//TRANSLIT" | Some _ => to end.

Definition parse_manconv_opt (o : manconv_opts) (k : manconv_key) : outcome manconv_opts :=
  match k with
  | Key_from s => Ret (ManconvOpts (Some s) (mc_to o) (mc_file o))
  | Key_to s => Ret (ManconvOpts (mc_from o) (Some (add_translit s)) (mc_file o))
  | Key_quiet | Key_debug => Ret o
  | Key_file s =>
    match mc_file o with
    | Some _ => Fatal "usage"
    | None => Ret (ManconvOpts (mc_from o) (mc_to o) (Some s))
    end
  end.

Fixpoint parse_manconv_opts (o : manconv_opts) (keys : list manconv_key) : outcome manconv_opts :=
  match keys with
  | [] => Ret o
  | k :: keys => o ← parse_manconv_opt o k; parse_manconv_opts o keys
  end.

Section main.
Context `{Iconv}.
Context (buf_size : nat) (fwrite_ok : list ascii → bool).
(** The locale of messages; the text of a file, or of standard input. *)
Context (messages : option cstr) (page_text : option cstr → option (list ascii)).

(** What is written to standard output. *)
Definition manconv_main (fuel : nat) (keys : list manconv_key) : outcome (option (list ascii)) :=
  o ← parse_manconv_opts (ManconvOpts None None None) keys;
  match mc_to o with
  | None => Fatal "must specify an output encoding"
  | Some to_code =>
    match page_text (mc_file o) with
    | None => Fatal "can't open"
    | Some text =>
      from_code ←
        (match split_codes (mc_from o) with
         | [] =>
           lang ← lang_dir (mc_file o);
           let page_encoding := get_page_encoding messages (Some lang) in
           Ret (source_encodings page_encoding)
         | from_code => Ret from_code
         end);
      r ← manconv buf_size fwrite_ok fuel (first_line text) text from_code to_code (Stdout []);
      match r with
      | None => Ret None
      | Some (status, o) => if (status =? 0)%Z then Ret (Some (dest_text o)) else Fatal "exit FATAL"
      end
    end
  end.
End main.

(** ** Converting a buffer *)

Section theorems.
Context `{IconvLaws buf_size} (fwrite_ok : list ascii → bool).
Context (Hsize : 0 < buf_size) (Hwrite : ∀ l, fwrite_ok l = true).

(** Converting a decompressed page to UTF-8 in memory ends within the room
    that was allocated, when a byte becomes three bytes at most.  A page that
    is valid UTF-8 stays as it is; any other page without a coding tag is
    replaced as a whole by what its source encoding reads, or the conversion
    fails.  A page is replaced by nothing when its encoding cannot be opened. *)
Theorem manconv_inprocess_utf8 fuel page source :
  source ≠ UTF_8 → 2 * length page ≤ fuel → grows buf_size (Buffer (Outbuf [] (length page * 4))) true 3 →
  (check_preprocessor_encoding (first_line page) (Some UTF_8) true).1 = None →
  let d := decompress_new_inprocess page (length page) in
  if utf8_validate_len page then manconv_inprocess buf_size fwrite_ok fuel d source UTF_8 = Ret (Some (0%Z, Some d))
  else
    ∃ r w lost, turns buf_size true [source] page w r lost ∧ (r = 0%Z ∨ r = (-1)%Z) ∧
      manconv_inprocess buf_size fwrite_ok fuel d source UTF_8 =
        Ret (Some (r, if decide (r = 0%Z) then Some (decompress_new_inprocess w (length w)) else None)).
Proof using Hsize Hwrite H0.
  intros Hs Hfuel Hgrow Hpp d. unfold manconv_inprocess. cbn [decompress_inprocess_buf decompress_inprocess_len d decompress_new_inprocess ip_buf ip_len].
  rewrite (proj2 (STREQ_false _ _) Hs), !bind_Ret. change (STREQ UTF_8 UTF_8) with true. cbn iota.
  rewrite firstn_all. destruct (utf8_validate_len page) eqn:Ev; [done|].
  pose proof (manconv_plan fwrite_ok Hsize Hwrite fuel (first_line page) [source] (UTF_8 ++ lit "//IGNORE") 3 page
    (Buffer (Outbuf [] (length page * 4)))) as Hm. unfold plan in Hm. change (take _ (UTF_8 ++ lit "//IGNORE")) with UTF_8 in Hm.
  destruct (check_preprocessor_encoding (first_line page) (Some UTF_8) true) as [pp modified]. cbn in Hpp. subst pp.
  destruct Hm as (r & w & lost & -> & Ht); [done|done|exact Hgrow|simpl; lia|]. exists r, w, lost. split; [exact Ht|].
  assert (r = 0%Z ∨ r = (-1)%Z) as Hr by (inversion Ht; subst; [match goal with H : turns _ _ [] _ _ _ _ |- _ => inversion H end| | |]; auto; done).
  split; [done|]. rewrite bind_Ret. by destruct Hr as [-> | ->].
Qed.
End theorems.

(** ** Evaluation *)

Definition latin1_page : list ascii := lit "ab" ++ [ascii_of_nat 233].

Lemma manconv_inprocess_utf8_witness :
  let d := decompress_new_inprocess latin1_page 3 in
  if utf8_validate_len latin1_page then @manconv_inprocess tables 2 (λ _, true) 10 d (lit "ISO-8859-1") UTF_8 = Ret (Some (0%Z, Some d))
  else
    ∃ r w lost, @turns tables 2 true [lit "ISO-8859-1"] latin1_page w r lost ∧ (r = 0%Z ∨ r = (-1)%Z) ∧
      @manconv_inprocess tables 2 (λ _, true) 10 d (lit "ISO-8859-1") UTF_8 =
        Ret (Some (r, if decide (r = 0%Z) then Some (decompress_new_inprocess w (length w)) else None)).
Proof.
  apply (@manconv_inprocess_utf8 tables 2 tables_laws (λ _, true) ltac:(lia) ltac:(done)); [done|simpl; lia| |reflexivity].
  intros e last cd t t' w cd' He Hr. pose proof (tables_grow (Buffer (Outbuf [] 12)) true e last cd t t' w cd' He Hr).
  pose proof (suffix_length _ _ (reads_suffix _ _ _ _ _ _ _ _ Hr)). lia.
Defined.

(** The source encoding is unknown: the page becomes empty, without a failure. *)
Example manconv_inprocess_empties :
  @manconv_inprocess tables 2 (λ _, true) 10 (decompress_new_inprocess latin1_page 3) (lit "KOI7") UTF_8 =
  Ret (Some (0%Z, Some (decompress_new_inprocess [] 0))).
Proof. by vm_compute. Qed.

Example manconv_inprocess_converts :
  @manconv_inprocess tables 2 (λ _, true) 10 (decompress_new_inprocess latin1_page 3) (lit "ISO-8859-1") UTF_8 =
  Ret (Some (0%Z, Some (decompress_new_inprocess (lit "ab" ++ [ascii_of_nat 195; ascii_of_nat 169]) 4))).
Proof. by vm_compute. Qed.

(** Without [-f] the encodings come from the directory of the page. *)
Example manconv_guesses :
  @manconv_main tables 2 (λ _, true) None (λ _, Some (lit "page")) 10 [Key_to (lit "UTF-8"); Key_file (lit "/usr/share/man/de/man1/x.1")] =
    Ret (Some (lit "page")) ∧
  @manconv_main tables 2 (λ _, true) None (λ _, Some (lit "page")) 10 [Key_file (lit "x.1")] = Fatal "must specify an output encoding".
Proof. by vm_compute. Qed.
