(* ===== verification/Convert.v ===== *)
(** * src/convert.c: descriptions for the user's terminal

    [convert_to_locale] opens one conversion for the whole run and repeats an
    attempt with twice the room until the result fits. *)

From S2P Require Import Prelude CStr ManconvLoop.

Section convert.
Context `{Iconv} (locale_charset : cstr).

(** [conv_to_locale]: not initialised, not available, open. *)
Inductive conversion := Uninitialized | Unavailable | Conversion (cd : iconv_t).

Definition open_conversion (c : conversion) : conversion :=
  match c with
  | Uninitialized =>
    match iconv_open (locale_charset ++ lit "//IGNORE") (lit "UTF-8") with Some cd => Conversion cd | None => Unavailable end
  | c => c
  end.

(** The loop, with [alloc] bytes allocated. *)
Fixpoint convert_loop (fuel : nat) (cd : iconv_t) (string : cstr) (alloc : nat) : option (cstr * iconv_t) :=
  match fuel with
  | 0 => None
  | S fuel =>
    let r := iconv cd string (alloc - 1) in
    if bool_decide (ir_error r = Some E2BIG) then convert_loop fuel (ir_cd r) string (2 * alloc)
    else Some (ir_written r, ir_cd r)
  end.

Definition convert_to_locale (fuel : nat) (string : cstr) (c : conversion) : option (cstr * conversion) :=
  match open_conversion c with
  | Conversion cd =>
    '(text, cd) ← convert_loop fuel cd string (length string + 1);
    Some (text, Conversion cd)
  | c => Some (string, c)
  end.

(** What is used of iconv for a charset without shift states: [good] holds of
    a descriptor whatever was converted, and the text is complete as soon as
    there is room for it. *)
Context (text : cstr → cstr) (good : iconv_t → Prop).
Context (Hopen : ∀ cd, iconv_open (locale_charset ++ lit "//IGNORE") (lit "UTF-8") = Some cd → good cd)
  (Hgood : ∀ cd s room, good cd → good (ir_cd (iconv cd s room)))
  (Hroom : ∀ cd s room, good cd → length (text s) ≤ room → ir_error (iconv cd s room) ≠ Some E2BIG)
  (Htext : ∀ cd s room, good cd → ir_error (iconv cd s room) ≠ Some E2BIG → ir_written (iconv cd s room) = text s).

Lemma convert_loop_ends fuel cd s alloc :
  good cd → 1 ≤ alloc → length (text s) < alloc * 2 ^ fuel →
  ∃ cd', convert_loop (S fuel) cd s alloc = Some (text s, cd') ∧ good cd'.
Proof using Hgood Hroom Htext.
  revert cd alloc. induction fuel as [|fuel IH]; intros cd alloc Hcd Ha Hlen; cbn [convert_loop]; (case_bool_decide as He; [|rewrite Htext; eauto]).
  - exfalso. apply (Hroom cd s (alloc - 1) Hcd); [|done]. cbn in Hlen. lia.
  - apply IH; [by apply Hgood|lia|]. rewrite Nat.pow_succ_r' in Hlen. lia.
Qed.

Definition conversion_ok (c : conversion) : Prop := match c with Conversion cd => good cd | _ => True end.

Lemma open_conversion_ok c : conversion_ok c → conversion_ok (open_conversion c).
Proof using Hopen. destruct c; cbn; [|done..]. intros _. destruct (iconv_open _ _) eqn:E; [by apply Hopen|done]. Qed.

(** Converting ends, with the whole text in the charset of the locale when
    there is a conversion to it, and with the text as it is otherwise; the
    conversion is opened once, whatever is converted later. *)
Theorem convert_to_locale_ends s c :
  conversion_ok c →
  ∃ c', convert_to_locale (S (length (text s))) s c =
      Some (match open_conversion c with Conversion _ => text s | _ => s end, c') ∧
    conversion_ok c' ∧ open_conversion c' = c'.
Proof using Hgood Hopen Hroom Htext.
  intros Hc. assert (open_conversion (open_conversion c) = open_conversion c ∧ open_conversion c ≠ Uninitialized) as [Hi Hu].
  { destruct c; cbn; [|done..]. by destruct (iconv_open _ _). }
  apply open_conversion_ok in Hc. unfold convert_to_locale. destruct (open_conversion c) as [| |cd]; [done|by eexists|].
  destruct (convert_loop_ends (length (text s)) cd s (length s + 1)) as (cd' & -> & Hcd'); [done|lia| |by eexists].
  pose proof (Nat.pow_gt_lin_r 2 (length (text s))). nia.
Qed.
End convert.

(** ** Evaluation *)

(** Every byte becomes two. *)
Definition twice (s : cstr) : cstr := flat_map (λ c, [c; c]) s.
#[local] Instance doubling : Iconv := {|
  iconv_t := unit;
  iconv_open _ _ := Some tt;
  iconv _ s room :=
    if decide (2 * length s ≤ room) then IconvResult None (length s) (twice s) tt
    else IconvResult (Some E2BIG) 0 [] tt;
  iconv_flush _ := ([], tt);
|}.

Lemma convert_to_locale_ends_witness :
  ∃ c', convert_to_locale (lit "X") 5 (lit "ab") Uninitialized = Some (lit "aabb", c') ∧
    conversion_ok (λ _, True) c' ∧ open_conversion (lit "X") c' = c'.
Proof.
  change (lit "aabb") with (match open_conversion (lit "X") Uninitialized with Conversion _ => twice (lit "ab") | _ => lit "ab" end).
  change 5 with (S (length (twice (lit "ab")))).
  apply (convert_to_locale_ends (lit "X") twice (λ _, True)); [done..| | |done].
  - intros cd s room _ Hr. cbn [iconv doubling]. destruct (decide (2 * length s ≤ room)) as [|n]; [discriminate|]. exfalso. apply n. etrans; [|exact Hr].
    clear. unfold twice. induction s as [|x s IH]; cbn in *; [done|]. lia.
  - intros cd s room _. cbn [iconv doubling]. by destruct (decide (2 * length s ≤ room)).
Defined.
