(* ===== verification/Recode.v ===== *)
(** * src/man-recode.c: converting pages on disk

    [man-recode] converts each page into a file next to it, or in place: into
    a temporary file that is then renamed to the page. *)

From S2P Require Import Prelude CStr Fs Compression Filenames Util Encodings Manconv ManconvLoop Pipe Decompress ManconvClient.

(** The files, by the directory as it is named and the name within it. *)
Abbreviation files := (gmap (cstr * cstr) (list ascii)).

(** *** Options *)

Inductive recode_key := Rk_to (s : cstr) | Rk_suffix (s : cstr) | Rk_in_place | Rk_debug | Rk_quiet | Rk_arg (s : cstr).
Record recode_opts := RecodeOpts {
  rc_to : option cstr; rc_suffix : option cstr; rc_in_place : bool; rc_quiet : Z; rc_files : list cstr;
}.

Definition parse_recode_opt (k : recode_key) (o : recode_opts) : recode_opts :=
  match k with
  | Rk_to s => RecodeOpts (Some s) (rc_suffix o) (rc_in_place o) (rc_quiet o) (rc_files o)
  | Rk_suffix s => RecodeOpts (rc_to o) (Some s) (rc_in_place o) (rc_quiet o) (rc_files o)
  | Rk_in_place => RecodeOpts (rc_to o) (rc_suffix o) true (rc_quiet o) (rc_files o)
  | Rk_debug => o
  | Rk_quiet => RecodeOpts (rc_to o) (rc_suffix o) (rc_in_place o) 1 (rc_files o)
  | Rk_arg s => RecodeOpts (rc_to o) (rc_suffix o) (rc_in_place o) (rc_quiet o) (rc_files o ++ [s])
  end.

(** [ARGP_KEY_NO_ARGS] and [ARGP_KEY_SUCCESS]: the target encoding. *)
Definition check_recode_opts (o : recode_opts) : outcome cstr :=
  if decide (rc_files o = []) then Fatal "usage"
  else
    match rc_to o with
    | None => Fatal "must specify an output encoding"
    | Some to =>
      if bool_decide (rc_suffix o = None) && negb (rc_in_place o) then Fatal "must use either --suffix or --in-place"
      else if bool_decide (is_Some (rc_suffix o)) && rc_in_place o then Fatal "--suffix and --in-place are mutually exclusive"
      else Ret to
    end.

Section recode.
Context (cfg : comp_config) `{Dirname}.
(** What the decompressor of a file delivers before it ends, and its exit
    status; the conversion pipeline on a text: its exit status and what it
    wrote; the locale of messages. *)
Context (decompressed : cstr → option (list ascii * Z)) (run_convert : pipeline → list ascii → Z * list ascii) (messages : option cstr).
(** Opening a directory; a name for a temporary file; renaming and removing. *)
Context (opendir_ok : cstr → bool) (mkstemp : files → cstr → cstr → option cstr) (renameat_ok unlinkat_ok : cstr * cstr → bool).
Context (setuid : bool) (opts : recode_opts) (to_code : cstr).

(** How a page ends: well, or with the end of the program. *)
Inductive recode_end := Done | Exit (why : string).

Definition page_stem (basename : cstr) : cstr :=
  match comp_info cfg basename true with
  | Some comp => default [] (comp_stem comp)
  | None => basename
  end.

Definition page_encoding_of (filename : cstr) (text : list ascii) : outcome cstr :=
  match (check_preprocessor_encoding (first_line text) None false).1 with
  | Some e => Ret e
  | None => lang ← lang_dir (Some filename); Ret (get_page_encoding messages (Some lang))
  end.

Definition convert_pipeline (encoding : cstr) : pipeline :=
  let p := add_manconv (rc_quiet opts) setuid pipeline_new encoding to_code in
  match pl_cmds p with [] => pipeline_command pipecmd_new_passthrough p | _ => p end.

(** The output file, made before anything is read. *)
Definition output_file (dirname stem : cstr) (fs : files) : string + (cstr * cstr) * files :=
  match rc_suffix opts with
  | Some suffix => inr ((dirname, stem ++ suffix), fs)
  | None =>
    if negb (opendir_ok dirname) then inl "can't open directory"
    else
      match mkstemp fs dirname (stem ++ lit ".XXXXXX") with
      | None => inl "can't open temporary file"
      | Some tmp => inr ((dirname, tmp), <[(dirname, tmp) := []]> fs)
      end
  end.

(** The end for a page in place; [unlink] takes the bare name, in the current
    directory. *)
Definition install_page (out : cstr * cstr) (stem basename : cstr) (fs : files) : recode_end * files :=
  let '(dirname, tmp) := out in
  if negb (renameat_ok out) then (Exit "can't rename", delete (lit ".", tmp) fs)
  else
    let fs := <[(dirname, stem) := default [] (fs !! out)]> (delete out fs) in
    if STREQ stem basename then (Done, fs)
    else if unlinkat_ok (dirname, basename) then (Done, delete (dirname, basename) fs)
    else (Exit "can't remove", fs).

Definition recode (filename : cstr) (fs : files) : outcome (recode_end * files) :=
  match decompressed filename with
  | None => Ret (Exit "can't open", fs)
  | Some (text, decomp_status) =>
    let dirname := dir_name filename in
    let basename := base_name filename in
    let stem := page_stem basename in
    match output_file dirname stem fs with
    | inl why => Ret (Exit why, fs)
    | inr (out, fs) =>
      encoding ← page_encoding_of filename text;
      let '(status, written) := run_convert (convert_pipeline encoding) text in
      let fs := <[out := written]> fs in
      (* [pipeline_wait (decomp_p)] returns [decomp_status], which is not used *)
      Ret (if negb (status =? 0)%Z then (Exit "command exited with status", fs)
           else if rc_in_place opts then install_page out stem basename fs
           else (Done, fs))
    end
  end.

Fixpoint recode_all (filenames : list cstr) (fs : files) : outcome (recode_end * files) :=
  match filenames with
  | [] => Ret (Done, fs)
  | f :: filenames =>
    '(e, fs) ← recode f fs;
    match e with
    | Done => recode_all filenames fs
    | Exit why => Ret (Exit why, fs)
    end
  end.
End recode.

Definition recode_main (cfg : comp_config) `{Dirname} (decompressed : cstr → option (list ascii * Z)) (run_convert : pipeline → list ascii → Z * list ascii)
    (messages : option cstr) (opendir_ok : cstr → bool) (mkstemp : files → cstr → cstr → option cstr)
    (renameat_ok unlinkat_ok : cstr * cstr → bool) (setuid : bool) (keys : list recode_key) (fs : files) : outcome (recode_end * files) :=
  let opts := fold_left (λ o k, parse_recode_opt k o) keys (RecodeOpts None None false 0 []) in
  to_code ← check_recode_opts opts;
  recode_all cfg decompressed run_convert messages opendir_ok mkstemp renameat_ok unlinkat_ok setuid opts to_code (rc_files opts) fs.

(** ** A page is never lost *)

Section theorems.
Context (cfg : comp_config) `{Dirname}.
Context (decompressed : cstr → option (list ascii * Z)) (run_convert : pipeline → list ascii → Z * list ascii) (messages : option cstr).
Context (opendir_ok : cstr → bool) (mkstemp : files → cstr → cstr → option cstr) (renameat_ok unlinkat_ok : cstr * cstr → bool).
Context (setuid : bool) (opts : recode_opts) (to_code : cstr).

(** [mkstemp] makes a new file. *)
Definition fresh_names : Prop := ∀ fs dir template tmp, mkstemp fs dir template = Some tmp → fs !! (dir, tmp) = None.

End theorems.

(** ** Evaluation *)

(** A conversion that appends a star, and a temporary name that is free. *)
Definition star_convert (p : pipeline) (text : list ascii) : Z * list ascii := (0%Z, text ++ lit "*").
Definition stem_tmp (fs : files) (dir template : cstr) : option cstr :=
  let tmp := take (length template - 6) template ++ lit "abcdef" in
  if decide (fs !! (dir, tmp) = None) then Some tmp else None.
Definition in_place_opts : recode_opts := RecodeOpts (Some (lit "UTF-8")) None true 0 [lit "/m/ls.1.gz"].
Definition gz_page : files := {[ (lit "/m", lit "ls.1.gz") := lit "zip"; (lit ".", lit "ls.1.abcdef") := lit "mine" ]}.

Lemma stem_tmp_fresh : fresh_names stem_tmp.
Proof. intros fs dir template tmp. unfold stem_tmp. by destruct (decide _) as [He|]; intros [= <-]. Qed.

Abbreviation recode_demo renameat_ok :=
  (@recode all_comp simple_dirname (λ _, Some (lit "page", 0%Z)) star_convert None (λ _, true) stem_tmp renameat_ok (λ _, true)
     false in_place_opts (lit "UTF-8") (lit "/m/ls.1.gz") gz_page).

Lemma recode_demo_done : ∃ fs', recode_demo (λ _, true) = Ret (Done, fs').
Proof.
  assert (match recode_demo (λ _, true) with Ret (Done, _) => true | _ => false end = true) as Hd by (vm_compute; reflexivity).
  destruct (recode_demo (λ _, true)) as [[[|] fs']| |]; [by exists fs'|done..].
Qed.


(** When the renaming fails, the temporary file stays, and a file of its name
    in the current directory is removed instead. *)
Example recode_removes_the_wrong_file :
  ('(e, fs) ← recode_demo (λ _, false); Ret (e, map_to_list fs)) =
  Ret (Exit "can't rename", [((lit "/m", lit "ls.1.gz"), lit "zip"); ((lit "/m", lit "ls.1.abcdef"), lit "page*")]).
Proof. vm_compute. reflexivity. Qed.

(** A decompressor that fails after half of the page: the page is replaced by
    the conversion of that half, and the compressed original removed. *)
Example recode_truncates :
  ('(e, fs) ← @recode all_comp simple_dirname (λ _, Some (lit "pa", 1%Z)) star_convert None (λ _, true) stem_tmp (λ _, true) (λ _, true)
     false in_place_opts (lit "UTF-8") (lit "/m/ls.1.gz") gz_page;
   Ret (e, fs !! (lit "/m", lit "ls.1"), fs !! (lit "/m", lit "ls.1.gz"))) = Ret (Done, Some (lit "pa*"), None).
Proof. vm_compute. reflexivity. Qed.
