(* ===== verification/Preproc.v ===== *)
(** * src/man.c: which preprocessors a page needs

    The first line of a page may name its preprocessors.  [man] may have put
    prefixes in front of the page, each of which ends with a line [.lf 1], and
    looks behind them. *)

From S2P Require Import Prelude CStr Manconv Pipe Decompress.

Definition LF : cstr := NL :: lit ".lf ".

(** Behind so many prefixes: the position in [buffer], [None] when it does not
    hold them all. *)
Fixpoint skip_prefixes (prefixes : nat) (buffer : list ascii) : option nat :=
  match prefixes with
  | 0 => Some 0
  | S prefixes =>
    match strstr buffer LF with
    | None => None
    | Some k =>
      match strchr (drop (S k) buffer) NL with
      | None => None
      | Some j => let n := S k + S j in (λ i, n + i) <$> skip_prefixes prefixes (drop n buffer)
      end
    end
  end.

(** What the line asks for. *)
Definition pp_of_line (line : cstr) : option cstr :=
  if STRNEQ line PP_COOKIE 4 then
    Some (drop 4 (match strchr line NL with Some newline => take newline line | None => line end))
  else None.

Definition block : nat := 4096.

Section file.
Context `{PipelineLib}.

(** The loop over ever longer blocks; [None] when the fuel runs out.  The
    result is the line and the decompressor. *)
Fixpoint pp_loop (fuel : nat) (size : nat) (i : nat) (previous_len : nat) (prefixes : nat) (d : decompress)
    : option (option cstr * decompress) :=
  match fuel with
  | 0 => None
  | S fuel =>
    let '(buffer, d) := decompress_peek d (size * S i) in
    match buffer with
    | None | Some [] => Some (None, d)
    | Some buffer =>
      let len := length buffer in
      match skip_prefixes prefixes buffer with
      | None => pp_loop fuel size (S i) previous_len prefixes d
      | Some scan =>
        let text := drop scan buffer in
        match strchr text NL with
        | Some e => Some (Some (xstrndup (take (S e) text)), d)
        | None =>
          if decide (len = previous_len) then Some (Some (xstrndup text), d)
          else pp_loop fuel size (S i) len prefixes d
        end
      end
    end
  end.

Definition get_preprocessors_from_file (fuel : nat) (d : option decompress) (prefixes : nat) : option (option cstr * option decompress) :=
  match d with
  | None => Some (None, None)
  | Some d =>
    match pp_loop fuel block 0 0 prefixes d with
    | None => None
    | Some (line, d) => Some (line ≫= pp_of_line, Some d)
    end
  end.
End file.

(** *** The order of the sources *)

(** Unless it is configured otherwise. *)
Definition DEFAULT_MANROFFSEQ : cstr := [].

(** The string of preprocessors, and the new [save_cat]. *)
Definition get_preprocessors `{PipelineLib} (fuel : nat) (preprocessors MANROFFSEQ : option cstr) (decomp : option decompress)
    (dbfilters : option cstr) (prefixes : nat) : option (cstr * bool * option decompress) :=
  match dbfilters, preprocessors with
  | Some f, None =>
    if bool_decide (head f = Some "-"%char) then
      match get_preprocessors_from_file fuel decomp prefixes with
      | None => None
      | Some (Some pp, d) => Some (pp, true, d)
      | Some (None, d) => Some (match MANROFFSEQ with Some env => (env, false) | None => ([], true) end, d)
      end
    else Some (f, true, decomp)
  | _, Some pp => Some (pp, false, decomp)
  | None, None =>
    match get_preprocessors_from_file fuel decomp prefixes with
    | None => None
    | Some (Some pp, d) => Some (pp, true, d)
    | Some (None, d) => Some (match MANROFFSEQ with Some env => (env, false) | None => (DEFAULT_MANROFFSEQ, true) end, d)
    end
  end.

(** *** The prefixes *)

Definition lines (l : list cstr) : list ascii := concat ((λ s, s ++ [NL]) <$> l).

(** What [disable_justification] prints. *)
Definition disable_justification_text : list ascii := lines (lit <$>
  [".ie (\n(.g&((\n(.x>1):((\n(.x==1)&(\n(.y>=23)))) .ds AD l"; ".el \{\"; ".  na"; ".  de ad"; ".  ."; ".\}"; ".lf 1"]).

(** What [locale_macros] prints for [macro_lang], under the global [lang]. *)
Definition locale_macros_text (lang macro_lang : cstr) : list ascii :=
  let hyphen_lang := if STREQ lang (lit "en") then lit "us" else macro_lang in
  lines [lit ".if \n[.g] \{\"; lit ".  warn (\n[.warn] - (\n[.warn] / 1048576 % 2 * 1048576))";
         lit ".  mso " ++ macro_lang ++ lit ".tmac"; lit ".\}"; lit ".hla " ++ hyphen_lang; lit ".lf 1"].

(** ** The first line of the page *)

Definition first_line_of (text : list ascii) : list ascii :=
  match strchr text NL with Some e => take (S e) text | None => text end.

Section theorems.
Context `{PipelineLib} (contents : pipeline → list ascii).

(** Looking ahead shows the beginning of what the pipeline writes, as much as
    was asked for or everything, and takes nothing away. *)
Class PeekLaws : Prop := {
  peek_text p n : (pipeline_peek p n).1 = Some (take n (contents p)) ∨ contents p = [] ∧ (pipeline_peek p n).1 = None;
  peek_contents p n : contents (pipeline_peek p n).2 = contents p;
}.
Context `{PeekLaws}.

(** What is still to be read. *)
Definition reads (d : decompress) (t : list ascii) : Prop :=
  match d with
  | DECOMPRESS_PIPELINE p => contents p = t
  | DECOMPRESS_INPROCESS ip => ip_ok ip ∧ ip_rest ip = t
  end.

Lemma reads_peek d t n :
  reads d t →
  ∃ b d', decompress_peek d n = (b, d') ∧ reads d' t ∧ (b = Some (take n t) ∨ t = [] ∧ b = None).
Proof.
  destruct d as [p|ip]; simpl.
  - intros <-. unfold on_pipeline. pose proof (peek_text p n) as Ht. pose proof (peek_contents p n) as Hc.
    destruct (pipeline_peek p n) as [b p']. by do 2 eexists.
  - intros [Hok <-]. pose proof (decompress_op_step (Peek n) ip Hok) as Hstep. simpl in Hstep.
    destruct Hstep as (d' & [= E <-] & Hok' & Hr). do 2 eexists. split; [done|]. split; [done|]. left. by rewrite E.
Qed.

Lemma strstr_extend a b p n : strstr a p = Some n → strstr (a ++ b) p = Some n.
Proof.
  intros Hn. apply (strstr_stable p a [] b n); [by rewrite app_nil_r|].
  destruct p as [|c p]; [rewrite (strstr_here a []) in Hn by apply prefix_nil; injection Hn as <-; simpl; lia|].
  apply strstr_prefix in Hn as [x Hx]. apply (f_equal length) in Hx. rewrite length_drop, length_app in Hx. simpl in *. lia.
Qed.

(** What is found in a part of the text is what is found in the whole. *)
Lemma skip_prefixes_stable prefixes t n i :
  skip_prefixes prefixes (take n t) = Some i → skip_prefixes prefixes t = Some i ∧ i ≤ length (take n t).
Proof.
  assert (∀ a b, skip_prefixes prefixes a = Some i → skip_prefixes prefixes (a ++ b) = Some i ∧ i ≤ length a) as Hs.
  { revert i. induction prefixes as [|prefixes IH]; intros i a b; cbn [skip_prefixes]; [intros [= <-]; split; [done|lia]|].
    destruct (strstr a LF) as [k|] eqn:Ek; [|done]. rewrite (strstr_extend a b LF k Ek).
    assert (S k ≤ length a) as Hk.
    { apply strstr_prefix in Ek as [x Hx]. apply (f_equal length) in Hx. rewrite length_drop, length_app in Hx. simpl in Hx. lia. }
    destruct (strchr (drop (S k) a) NL) as [j|] eqn:Ej; [|done]. apply strchr_lt in Ej as Hj; [|done].
    rewrite drop_app_le by done. rewrite (strchr_app_inside _ b NL j Ej Hj).
    rewrite length_drop in Hj. rewrite fmap_Some. intros (i' & Hi' & ->).
    destruct (IH i' _ b Hi') as [IH1 IH2]. rewrite length_drop in IH2.
    rewrite (drop_app_le a b (S k + S j)) by lia. rewrite IH1. split; [done|]. lia. }
  intros Hi. rewrite <-(take_drop n t) at 1. by apply Hs.
Qed.

Definition answer (prefixes : nat) (t : list ascii) : option (option cstr) :=
  (λ scan, Some (xstrndup (first_line_of (drop scan t)))) <$> skip_prefixes prefixes t.

(** The block of the next turn. *)
Lemma next_buffer size i (t : list ascii) : 0 < size → t ≠ [] → ∃ c b, take (size * S i) t = c :: b.
Proof. intros Hs Ht. destruct t as [|c t]; [done|]. destruct (size * S i) as [|n] eqn:E; [lia|]. by do 2 eexists. Qed.

Lemma pp_loop_missing fuel size i previous_len prefixes d t :
  0 < size → t ≠ [] → reads d t → skip_prefixes prefixes t = None → pp_loop fuel size i previous_len prefixes d = None.
Proof.
  intros Hsize Hne. revert i previous_len d. induction fuel as [|fuel IH]; intros i pl d Hd Hskip; [done|]. cbn [pp_loop].
  destruct (reads_peek d t (size * S i) Hd) as (b & d' & -> & Hd' & [->|[? _]]); [|done].
  destruct (next_buffer size i t Hsize Hne) as (c & b & Eb). pose proof (skip_prefixes_stable prefixes t (size * S i)) as Hst.
  rewrite Eb in *. destruct (skip_prefixes prefixes (c :: b)) as [scan|]; [|by apply IH].
  destruct (Hst scan eq_refl). congruence.
Qed.

Lemma pp_loop_found fuel size i previous_len prefixes d t scan :
  0 < size → t ≠ [] → reads d t → skip_prefixes prefixes t = Some scan → previous_len ≤ size * i →
  2 ≤ fuel ∧ length t ≤ size * (i + fuel - 1) ∨ 1 ≤ fuel ∧ previous_len = length t →
  ∃ d', pp_loop fuel size i previous_len prefixes d = Some (Some (xstrndup (first_line_of (drop scan t))), d') ∧ reads d' t.
Proof.
  intros Hsize Hne. revert i previous_len d. induction fuel as [|fuel IH]; intros i pl d Hd Hskip Hpl Hfuel; [lia|]. cbn [pp_loop].
  destruct (reads_peek d t (size * S i) Hd) as (b & d' & -> & Hd' & [->|[? _]]); [|done].
  destruct (next_buffer size i t Hsize Hne) as (c & b & Eb). pose proof (skip_prefixes_stable prefixes t (size * S i)) as Hst.
  assert (length (take (size * S i) t) = (size * S i) `min` length t) as Hlen by apply length_take.
  rewrite Eb in Hst, Hlen |- *. rewrite <-Eb in Hst, Hlen |- *. set (buffer := take (size * S i) t) in *.
  destruct (skip_prefixes prefixes buffer) as [scan'|] eqn:Eskip.
  - destruct (Hst scan' eq_refl) as [Hs Hle]. assert (scan' = scan) as -> by congruence.
    assert (drop scan t = drop scan buffer ++ drop (size * S i) t) as Hdrop.
    { rewrite <-(take_drop (size * S i) t) at 1. by apply drop_app_le. }
    unfold first_line_of. destruct (strchr (drop scan buffer) NL) as [e|] eqn:Ee.
    + apply strchr_lt in Ee as Hlt; [|done]. eexists. split; [|exact Hd']. rewrite Hdrop, (strchr_app_inside _ _ _ _ Ee Hlt).
      by rewrite take_app_le by lia.
    + destruct (decide (length buffer = pl)) as [Hp|Hp].
      * assert (length t ≤ size * S i) by nia. assert (buffer = t) as -> by (apply take_ge; lia). eexists. split; [|exact Hd']. by rewrite Ee.
      * apply IH; [done|done|lia|]. destruct Hfuel as [[Hf Hlt]|[? ?]]; [|lia].
        destruct (decide (length t ≤ size * S i)); [right; lia|left; nia].
  - destruct (decide (length t ≤ size * S i)) as [Hl|Hl].
    + assert (buffer = t) as E by (apply take_ge; lia). rewrite E in Eskip. congruence.
    + apply IH; [done|done|lia|]. left. nia.
Qed.

(** *** The prefixes are skipped *)

Lemma lf_line s rest : NL ∉ s → ¬ (lit ".lf " `prefix_of` s) → ¬ (lit ".lf " `prefix_of` (s ++ NL :: rest)).
Proof.
  intros Hs Hp Hx. apply Hp. destruct (decide (4 ≤ length s)) as [Hl|Hl].
  - apply take_prefix_eq in Hx. simpl in Hx. rewrite take_app_le in Hx by done. apply take_prefix_eq. exact Hx.
  - exfalso. apply take_prefix_eq in Hx. rewrite take_app_ge in Hx by (simpl; lia).
    destruct (length (lit ".lf ") - length s) as [|k] eqn:E; [simpl in *; lia|]. simpl in Hx.
    assert (NL ∈ lit ".lf ") as Hin by (rewrite <-Hx, elem_of_app; right; left). by apply (bool_decide_eq_true_2 _) in Hin.
Qed.

(** A prefix: some lines, of which none but the first may begin with [.lf ],
    and a line that does. *)
Record prefix_block (b : list ascii) (first : cstr) (ls : list cstr) : Prop := PrefixBlock {
  pb_text : b = lines (first :: ls) ++ lit ".lf 1" ++ [NL];
  pb_first : NL ∉ first;
  pb_lines : Forall (λ s, (NL ∉ s) ∧ ¬ (lit ".lf " `prefix_of` s)) ls;
}.

Lemma strstr_block first ls rest :
  NL ∉ first → Forall (λ s, (NL ∉ s) ∧ ¬ (lit ".lf " `prefix_of` s)) ls →
  strstr (lines (first :: ls) ++ lit ".lf 1" ++ rest) LF = Some (length (lines (first :: ls)) - 1).
Proof.
  revert first. induction ls as [|s ls IH]; intros first Hf Hls; unfold lines; cbn [fmap list_fmap concat]; rewrite <-!app_assoc; unfold LF.
  - rewrite strstr_skip by done. cbn [app]. rewrite strstr_here by (by eexists).
    simpl. f_equal. rewrite !length_app. simpl. lia.
  - apply Forall_cons in Hls as [[Hs Hp] Hls]. rewrite strstr_skip by done. cbn [app].
    rewrite strstr_next; [|intros [x Hx]; injection Hx as Hx; apply (lf_line s (concat ((λ s, s ++ [NL]) <$> ls) ++ lit ".lf 1" ++ rest) Hs Hp);
      exists x; exact Hx].
    specialize (IH s Hs Hls). unfold lines in IH. cbn [fmap list_fmap concat] in IH. rewrite <-!app_assoc in IH. cbn [app] in IH.
    unfold LF in IH. rewrite IH. simpl. f_equal. rewrite !length_app. simpl. rewrite !length_app. simpl. lia.
Qed.

Lemma skip_block b first ls n rest :
  prefix_block b first ls → skip_prefixes (S n) (b ++ rest) = (λ i, length b + i) <$> skip_prefixes n rest.
Proof.
  intros [-> Hf Hls]. cbn [skip_prefixes]. rewrite <-!app_assoc, strstr_block by done.
  set (t := lines (first :: ls)). assert (0 < length t) as Ht by (unfold t, lines; simpl; rewrite !length_app; simpl; lia).
  replace (S (length t - 1)) with (length t) by lia. rewrite (drop_app_length t).
  change (lit ".lf 1" ++ [NL] ++ rest) with (lit ".lf 1" ++ NL :: rest).
  rewrite strchr_app_sep by (done || not_in). cbn [length].
  assert (drop (length t + S (length (lit ".lf 1"))) (t ++ lit ".lf 1" ++ NL :: rest) = rest) as ->.
  { rewrite (cons_middle NL), !app_assoc. apply drop_app_length'. rewrite !length_app. simpl. lia. }
  assert (length t + S (length (lit ".lf 1")) = length (t ++ lit ".lf 1" ++ [NL])) as -> by (rewrite !length_app; simpl; lia). done.
Qed.

(** The prefixes [man] inserts. *)
Inductive inserted : list ascii → Prop :=
| inserted_justification : inserted disable_justification_text
| inserted_locale lang macro_lang : NL ∉ macro_lang → inserted (locale_macros_text lang macro_lang).

Lemma inserted_block b : inserted b → ∃ first ls, prefix_block b first ls.
Proof.
  destruct 1 as [|lang macro_lang Hn].
  - exists (lit ".ie (\n(.g&((\n(.x>1):((\n(.x==1)&(\n(.y>=23)))) .ds AD l"),
      (lit <$> [".el \{\"; ".  na"; ".  de ad"; ".  ."; ".\}"]).
    split; [vm_compute; reflexivity|not_in|]. apply (bool_decide_unpack _). vm_compute. exact I.
  - unfold locale_macros_text. set (h := if STREQ lang (lit "en") then lit "us" else macro_lang).
    assert (NL ∉ h) as Hh by (unfold h; destruct (STREQ _ _); [not_in|done]). clearbody h.
    exists (lit ".if \n[.g] \{\"), [lit ".  warn (\n[.warn] - (\n[.warn] / 1048576 % 2 * 1048576))";
      lit ".  mso " ++ macro_lang ++ lit ".tmac"; lit ".\}"; lit ".hla " ++ h].
    split; [|not_in|].
    + unfold lines. cbn [fmap list_fmap concat]. by rewrite <-!app_assoc, app_nil_r.
    + assert (∀ s, NL ∉ s → ¬ (lit ".lf " `prefix_of` s) → (NL ∉ s) ∧ ¬ (lit ".lf " `prefix_of` s)) as Hi by done.
      repeat apply Forall_cons_2; [..|apply Forall_nil_2]; apply Hi; try (intros [x Hx]; discriminate Hx); try not_in.
Qed.

Lemma skip_inserted prefixes page : Forall inserted prefixes →
  skip_prefixes (length prefixes) (concat prefixes ++ page) = Some (length (concat prefixes)).
Proof.
  induction 1 as [|b bs Hb _ IH]; [done|]. destruct (inserted_block b Hb) as (first & ls & Hpb).
  cbn [length concat]. rewrite <-app_assoc, (skip_block b first ls) by done. rewrite IH. simpl. by rewrite length_app.
Qed.

(** C24: looking for the preprocessors of a page behind the prefixes [man] has
    put in front of it ends, and finds what the first line of the page itself
    asks for. *)
Theorem preprocessors_behind_prefixes fuel prefixes page d :
  Forall inserted prefixes → reads d (concat prefixes ++ page) → page ≠ [] →
  length (concat prefixes ++ page) ≤ block * (fuel - 1) → 2 ≤ fuel →
  ∃ d', get_preprocessors_from_file fuel (Some d) (length prefixes) =
      Some (pp_of_line (xstrndup (first_line_of page)), Some d') ∧ reads d' (concat prefixes ++ page).
Proof.
  intros Hp Hd Hne Hlen Hfuel. unfold get_preprocessors_from_file.
  destruct (pp_loop_found fuel block 0 0 (length prefixes) d (concat prefixes ++ page) (length (concat prefixes)))
    as (d' & -> & Hd'); [apply Nat.lt_0_succ|by destruct (concat prefixes)|done|by apply skip_inserted|apply Nat.le_0_l|left; split; [done|exact Hlen]|].
  exists d'. split; [|done]. by rewrite drop_app_length.
Qed.

(** When the prefixes are not in the text the loop never ends. *)
Theorem preprocessors_missing_prefix fuel prefixes d t :
  reads d t → t ≠ [] → skip_prefixes prefixes t = None → get_preprocessors_from_file fuel (Some d) prefixes = None.
Proof. intros Hd Hne Hs. unfold get_preprocessors_from_file. by rewrite (pp_loop_missing fuel block 0 0 prefixes d t) by (done || apply Nat.lt_0_succ). Qed.
End theorems.

(** ** Evaluation *)

(** A page in memory, behind a prefix. *)
Definition tbl_page : list ascii := PP_COOKIE ++ lit "et" ++ [NL] ++ lit ".TH X 1".
#[local] Instance no_peek_laws : PeekLaws (H := no_lib) (λ _, []).
Proof. split; [by right|done]. Qed.
Definition in_memory (t : list ascii) : decompress := decompress_new_inprocess t (length t).

Lemma preprocessors_behind_prefixes_witness :
  ∃ d', @get_preprocessors_from_file no_lib 2 (Some (in_memory (disable_justification_text ++ tbl_page))) 1 =
    Some (pp_of_line (xstrndup (first_line_of tbl_page)), Some d') ∧ reads (λ _, []) d' (disable_justification_text ++ tbl_page).
Proof.
  apply (preprocessors_behind_prefixes (H := no_lib) (λ _, []) 2 [disable_justification_text] tbl_page
    (in_memory (disable_justification_text ++ tbl_page))).
  - apply Forall_cons_2; [apply inserted_justification|apply Forall_nil_2].
  - split; [|reflexivity]. unfold ip_ok. simpl. lia.
  - discriminate.
  - apply Nat.leb_le. vm_compute. reflexivity.
  - lia.
Defined.

Example tbl_page_asks : pp_of_line (xstrndup (first_line_of tbl_page)) = Some (lit "et").
Proof. by vm_compute. Qed.
