(* ===== verification/Globbing.v ===== *)
(** * src/globbing.c: finding page files in a hierarchy

    Directory listings are cached, sorted without regard to case; a wildcard
    is matched only against the names that share its literal beginning, which
    a binary search finds.  The theorems say that this optimisation and the
    cache lose nothing. *)

From S2P Require Import Prelude CStr Fs Wordfnmatch Util.

(** ** Definitions *)

(** [enum look_for_file_opts], bit by bit. *)
Record lff := Lff { LFF_MATCHCASE : bool; LFF_REGEX : bool; LFF_WILDCARD : bool }.

Definition make_pattern (extension : option cstr) (name sec : cstr) (opts : lff) : cstr :=
  let esc s := default [] (escape_shell (Some s)) in
  if LFF_REGEX opts then
    match extension with
    | Some ext => name ++ lit "\..*" ++ esc ext ++ lit ".*"
    | None => name ++ lit "\." ++ esc sec ++ lit ".*"
    end
  else
    match extension with
    | Some ext => name ++ lit ".*" ++ ext ++ lit "*"
    | None => name ++ lit "." ++ sec ++ lit "*"
    end.

Definition LAYOUT_GNU : Z := 1.
Definition LAYOUT_HPUX : Z := 2.
Definition LAYOUT_IRIX : Z := 4.
Definition LAYOUT_SOLARIS : Z := 8.
Definition LAYOUT_BSD : Z := 16.

Definition parse_layout (layout : cstr) : Z :=
  if bool_decide (layout = []) then 31%Z
  else
    let upper_layout := toupper <$> layout in
    let flag name bit flags :=
      if bool_decide (is_Some (strstr upper_layout (lit name))) then Z.lor flags bit else flags in
    flag "BSD"%string LAYOUT_BSD
      (flag "SOLARIS"%string LAYOUT_SOLARIS
        (flag "IRIX"%string LAYOUT_IRIX
          (flag "HPUX"%string LAYOUT_HPUX
            (flag "GNU"%string LAYOUT_GNU 0%Z)))).

Definition has_layout (layout bit : Z) : bool := negb (bool_decide (Z.land layout bit = 0%Z)).

(** The C library's [bsearch] (the loop of glibc); [cmp] compares the key with
    an element.  The fuel bounds the turns by the length. *)
Fixpoint bsearch_loop {A} (cmp : A → comparison) (base : list A) (fuel l u : nat) : option nat :=
  match fuel with
  | 0 => None
  | S fuel =>
    if decide (l < u) then
      let idx := (l + u) / 2 in
      match base !! idx with
      | None => None
      | Some x =>
        match cmp x with
        | Lt => bsearch_loop cmp base fuel l idx
        | Gt => bsearch_loop cmp base fuel (S idx) u
        | Eq => Some idx
        end
      end
    else None
  end.
Definition bsearch {A} (cmp : A → comparison) (base : list A) : option nat :=
  bsearch_loop cmp base (S (length base)) 0 (length base).

Section globbing.
Context `{FileSystem} `{Matcher}.

Definition dirent_map := gmap cstr (list cstr).

(** [update_directory_cache]: the sorted names of a directory.  [qsort] leaves
    the order of names that differ only in case open; one order is fixed. *)
Definition read_directory (path : cstr) : option (list cstr) :=
  (λ entries, gl_sorted_of strcasecmp (d_name <$> entries)) <$> fs_readdir path.

Definition update_directory_cache (path : cstr) (cache : dirent_map)
    : option (list cstr) * dirent_map :=
  match cache !! path with
  | Some names => (Some names, cache)
  | None =>
    match read_directory path with
    | None => (None, cache)
    | Some names => (Some names, <[path:=names]> cache)
    end
  end.

Definition pattern_compare (pattern memb : cstr) : comparison :=
  strncasecmp pattern memb (length pattern).

Definition match_regex_in_directory (path pattern : cstr) (opts : lff) (names : list cstr) : list cstr :=
  (λ n, path ++ lit "/" ++ n) <$>
    filter (λ n, regexec (negb (LFF_MATCHCASE opts)) pattern n = true) names.

(** The literal beginning of a pattern. *)
Definition pattern_start (pattern : cstr) : cstr :=
  take (strcspn (one_of (lit "?*{}\")) pattern) pattern.

(** [while (bsearched > cache->names && ...) --bsearched;] *)
Fixpoint walk_back (start : cstr) (names : list cstr) (i : nat) : nat :=
  match i with
  | 0 => 0
  | S j =>
    match pattern_compare start (default [] (names !! j)) with
    | Eq => walk_back start names j
    | _ => i
    end
  end.

(** The loop from there on: it stops at the first name that does not share the
    beginning. *)
Fixpoint match_from (path pattern start : cstr) (opts : lff) (names : list cstr) : list cstr :=
  match names with
  | [] => []
  | n :: names =>
    match pattern_compare start n with
    | Eq =>
      if fnmatch (negb (LFF_MATCHCASE opts)) pattern n
      then (path ++ lit "/" ++ n) :: match_from path pattern start opts names
      else match_from path pattern start opts names
    | _ => []
    end
  end.

Definition match_wildcard_in_directory (path pattern : cstr) (opts : lff) (names : list cstr)
    : list cstr :=
  let start := pattern_start pattern in
  match bsearch (pattern_compare start) names with
  | None => []
  | Some bsearched => match_from path pattern start opts (drop (walk_back start names bsearched) names)
  end.

Definition match_in_directory (path pattern : cstr) (opts : lff) (cache : dirent_map)
    : list cstr * dirent_map :=
  let '(names, cache) := update_directory_cache path cache in
  match names with
  | None => ([], cache)
  | Some names =>
    (if LFF_REGEX opts then match_regex_in_directory path pattern opts names
     else match_wildcard_in_directory path pattern opts names, cache)
  end.

Fixpoint match_in_directories (dirs : list cstr) (pattern : cstr) (opts : lff) (cache : dirent_map)
    : list cstr * dirent_map :=
  match dirs with
  | [] => ([], cache)
  | dir :: dirs =>
    let '(found, cache) := match_in_directory dir pattern opts cache in
    let '(rest, cache) := match_in_directories dirs pattern opts cache in
    (found ++ rest, cache)
  end.

(** The pattern that finds the section's directories: its tab is overwritten
    by the first character of the section, which for an empty section is the
    terminator. *)
Definition section_pattern (cat : bool) (sec : cstr) : cstr :=
  (if cat then lit "cat" else lit "man") ++
  match sec with c :: _ => c :: lit "*" | [] => [] end.

Section look_for_file.
Context (layout : Z) (extension : option cstr).

Definition look_for_file (hier sec unesc_name : cstr) (cat : bool) (opts : lff) (cache : dirent_map)
    : list cstr * dirent_map :=
  let name := if LFF_REGEX opts || LFF_WILDCARD opts then unesc_name
              else default [] (escape_shell (Some unesc_name)) in
  let dir := hier ++ (if cat then lit "/cat" else lit "/man") ++ sec in
  (* one layout, tried when nothing has been found yet *)
  let try_layout bit path pattern (found : list cstr * dirent_map) :=
    if has_layout layout bit && bool_decide (found.1 = [])
    then match_in_directory path pattern opts found.2 else found in
  let found : list cstr * dirent_map :=
    if has_layout layout LAYOUT_GNU then
      let '(dirs, cache) :=
        match_in_directory hier (section_pattern cat sec) (Lff true false false) cache in
      match_in_directories dirs (make_pattern extension name sec opts) opts cache
    else ([], cache) in
  let found := try_layout LAYOUT_HPUX (dir ++ lit ".Z") (make_pattern extension name sec opts) found in
  let found := try_layout LAYOUT_IRIX dir
                 (name ++ (if LFF_REGEX opts then lit "\..*" else lit ".*")) found in
  let found := try_layout LAYOUT_SOLARIS dir (make_pattern extension name sec opts) found in
  try_layout LAYOUT_BSD dir
    (if cat then name ++ (if LFF_REGEX opts then lit "\.0.*" else lit ".0*")
     else make_pattern extension name sec opts) found.
End look_for_file.

Definition expand_path (path : cstr) : list cstr :=
  match fs_glob path with None => [path] | Some paths => paths end.
End globbing.

(** ** Binary search *)

Section bsearch.
Context {A : Type} (cmp : A → comparison) (base : list A).
(** The key is greater than the elements of a first part, equal to those of a
    second, less than those of a third. *)
Definition partitioned : Prop :=
  ∀ i j x y, i ≤ j → base !! i = Some x → base !! j = Some y →
    (cmp x = Lt → cmp y = Lt) ∧ (cmp y = Gt → cmp x = Gt).

Lemma bsearch_loop_sound fuel l u i :
  bsearch_loop cmp base fuel l u = Some i → ∃ x, base !! i = Some x ∧ cmp x = Eq.
Proof.
  revert l u. induction fuel as [|fuel IH]; intros l u; cbn [bsearch_loop]; [done|].
  case_decide; [|done]. destruct (base !! ((l + u) / 2)) as [x|] eqn:E; [|done].
  destruct (cmp x) eqn:Ec; [|apply IH..]. intros [= <-]. eauto.
Qed.

Lemma bsearch_loop_complete fuel l u i x :
  partitioned → u ≤ length base → u - l < fuel → l ≤ i < u → base !! i = Some x → cmp x = Eq →
  is_Some (bsearch_loop cmp base fuel l u).
Proof.
  intros Hp. revert l u. induction fuel as [|fuel IH]; intros l u Hu Hf Hi Hx Hc; [lia|].
  cbn [bsearch_loop]. rewrite decide_True by lia.
  set (idx := (l + u) / 2).
  assert (l ≤ idx < u) as Hidx.
  { unfold idx. pose proof (Nat.div_mod (l + u) 2). pose proof (Nat.mod_upper_bound (l + u) 2). lia. }
  destruct (base !! idx) as [y|] eqn:Ey.
  2: { apply lookup_ge_None in Ey. lia. }
  destruct (cmp y) eqn:Ec; [by eexists| |].
  - apply IH; try done; try lia. destruct (decide (i < idx)); [lia|].
    destruct (Hp idx i y x) as [Hlt _]; [lia|done..|]. rewrite Hlt in Hc by done. done.
  - apply IH; try done; try lia. destruct (decide (idx < i)); [lia|].
    destruct (Hp i idx x y) as [_ Hgt]; [lia|done..|]. rewrite Hgt in Hc by done. done.
Qed.

Lemma bsearch_spec :
  partitioned →
  match bsearch cmp base with
  | Some i => ∃ x, base !! i = Some x ∧ cmp x = Eq
  | None => Forall (λ x, cmp x ≠ Eq) base
  end.
Proof.
  intros Hp. unfold bsearch. destruct (bsearch_loop _ _ _ _ _) as [i|] eqn:E.
  - by eapply bsearch_loop_sound.
  - apply Forall_lookup. intros i x Hx Hc.
    destruct (bsearch_loop_complete (S (length base)) 0 (length base) i x) as [? Hs]; try done; try lia.
    + apply lookup_lt_Some in Hx. lia.
    + congruence.
Qed.
End bsearch.

(** ** Names that share a beginning are adjacent *)

Lemma strcmp_take n a b : strcmp a b ≠ Gt → strcmp (take n a) (take n b) ≠ Gt.
Proof.
  revert a b. induction n as [|n IH]; intros [|x a] [|y b]; simpl; try done.
  destruct (uchar_cmp x y); simpl; [apply IH|done|done].
Qed.

Lemma pattern_compare_take p m : pattern_compare p m = strcmp (tolower <$> p) (take (length p) (tolower <$> m)).
Proof.
  unfold pattern_compare, strncasecmp, strcasecmp. rewrite firstn_all, fmap_take. done.
Qed.

Lemma pattern_compare_mono p a b :
  cmp_le strcasecmp a b →
  (pattern_compare p a = Lt → pattern_compare p b = Lt) ∧
  (pattern_compare p b = Gt → pattern_compare p a = Gt).
Proof.
  intros Hab. rewrite !pattern_compare_take.
  pose proof (strcmp_take (length p) _ _ Hab) as Ht. split.
  - intros Hlt. by eapply (cmp_lt_le_trans strcmp).
  - rewrite !(cmp_gt_lt strcmp). intros Hlt. by eapply (cmp_le_lt_trans strcmp).
Qed.

Lemma sorted_partitioned p names :
  StronglySorted (cmp_le strcasecmp) names → partitioned (pattern_compare p) names.
Proof.
  intros Hs i j x y Hij Hx Hy. apply pattern_compare_mono.
  destruct (decide (i = j)) as [->|Hne].
  - assert (x = y) as -> by congruence. unfold cmp_le. by rewrite (cmp_refl strcasecmp).
  - revert i j Hij Hx Hy Hne. induction Hs as [|z names Hs IH Hz]; intros i j Hij Hx Hy Hne; [done|].
    destruct i as [|i], j as [|j]; simpl in *; try lia.
    + simplify_eq. rewrite Forall_lookup in Hz. by eapply Hz.
    + by apply (IH i j); try lia.
Qed.

Section matching.
Context `{FileSystem} `{Matcher}.

(** What [fnmatch] documents: the characters of a pattern before the first
    special one ([?], [*], [\[] or backslash) match themselves. *)
Class FnmatchLiteral : Prop :=
  fnmatch_literal icase p s :
    fnmatch icase p s = true →
    let l := take (strcspn (one_of (lit "?*[\")) p) p in strncasecmp l s (length l) = Eq.

Context `{!FnmatchLiteral}.
Context (path pattern : cstr) (opts : lff).
Let start := pattern_start pattern.
Let hit (n : cstr) : bool := fnmatch (negb (LFF_MATCHCASE opts)) pattern n.

Lemma strspn_le_mono (p q : ascii → bool) s :
  (∀ c, p c = true → q c = true) → strspn p s ≤ strspn q s.
Proof.
  intros Hpq. induction s as [|c s IH]; simpl; [done|].
  destruct (p c) eqn:E; [|lia]. rewrite (Hpq c E). lia.
Qed.

(** A name that matches shares the literal beginning. *)
Lemma hit_start n : "["%char ∉ start → hit n = true → pattern_compare start n = Eq.
Proof.
  intros Hbr Hhit. apply fnmatch_literal in Hhit. simpl in Hhit.
  set (l := take (strcspn (one_of (lit "?*[\")) pattern) pattern) in *.
  assert (start `prefix_of` l) as [k Hk].
  { unfold start, pattern_start, l. set (n1 := strcspn (one_of (lit "?*{}\")) pattern).
    assert (n1 ≤ strcspn (one_of (lit "?*[\")) pattern) as Hle.
    { assert (Forall (λ c, negb (one_of (lit "?*[\") c) = true) (take n1 pattern)) as Hall.
      { apply Forall_forall. intros c Hc.
        pose proof (strspn_take (λ c, negb (one_of (lit "?*{}\") c)) pattern) as Ht.
        rewrite Forall_forall in Ht. pose proof (Ht c Hc) as Hc'.
        assert (c ≠ "["%char) by (intros ->; by apply Hbr).
        revert Hc'. unfold one_of. clear -H2. revert H2. by all_bytes c. }
      pose proof (strspn_le (λ c, negb (one_of (lit "?*{}\") c)) pattern) as Hlen.
      clear -Hall Hlen. unfold strcspn. fold (strcspn (one_of (lit "?*{}\")) pattern) in Hlen. fold n1 in Hlen.
      revert Hall Hlen. generalize n1. generalize pattern.
      induction pattern0 as [|c s IH]; intros n Hall Hlen; simpl in *; [lia|].
      destruct n as [|n]; [lia|]. simpl in Hall. apply Forall_cons in Hall as [Hc Hall].
      rewrite Hc. specialize (IH n Hall). lia. }
    exists (drop n1 (take (strcspn (one_of (lit "?*[\")) pattern) pattern)).
    rewrite <-(take_drop n1 (take (strcspn (one_of (lit "?*[\")) pattern) pattern)) at 1.
    rewrite take_take. by rewrite Nat.min_l. }
  rewrite Hk in Hhit. unfold strncasecmp in Hhit. rewrite firstn_all in Hhit.
  rewrite pattern_compare_take. apply strcasecmp_eq in Hhit.
  rewrite fmap_app in Hhit.
  assert (take (length start) (tolower <$> n) = tolower <$> start) as ->; [|apply strcmp_refl].
  rewrite length_app, <-fmap_take in *.
  assert (take (length start) (take (length start + length k) (tolower <$> n)) =
          take (length start) ((tolower <$> start) ++ (tolower <$> k))) as Ht
    by (rewrite <-fmap_take, <-Hhit; done).
  rewrite take_take, Nat.min_l in Ht by lia.
  rewrite take_app_length' in Ht by (by rewrite length_fmap). by rewrite fmap_take.
Qed.

Lemma walk_back_spec names i :
  walk_back start names i ≤ i ∧
  (∀ k, walk_back start names i ≤ k < i → pattern_compare start (default [] (names !! k)) = Eq) ∧
  (∀ k, S k = walk_back start names i → pattern_compare start (default [] (names !! k)) ≠ Eq).
Proof.
  induction i as [|i (IH1 & IH2 & IH3)]; simpl; [split_and!; [done|lia|lia]|].
  destruct (pattern_compare start (default [] (names !! i))) eqn:E.
  - split_and!; [lia| |done]. intros k Hk. destruct (decide (k = i)) as [->|]; [done|]. apply IH2. lia.
  - split_and!; [lia|lia|]. intros k [= ->]. congruence.
  - split_and!; [lia|lia|]. intros k [= ->]. congruence.
Qed.

(** From the first name of the block on, the loop is a filter. *)
Lemma match_from_filter names :
  partitioned (pattern_compare start) names →
  Forall (λ n, pattern_compare start n ≠ Gt) names →
  match_from path pattern start opts names =
    (λ n, path ++ lit "/" ++ n) <$>
      filter (λ n, hit n = true) (filter (λ n, pattern_compare start n = Eq) names).
Proof.
  intros Hp Hgt. induction Hgt as [|n names Hn Hgt IH]; [done|].
  assert (partitioned (pattern_compare start) names) as Hp'.
  { intros i j x y Hij Hx Hy. by apply (Hp (S i) (S j)); [lia|..]. }
  cbn [match_from]. rewrite filter_cons. destruct (pattern_compare start n) eqn:E; [| |done].
  - rewrite decide_True by done. rewrite filter_cons. rewrite (IH Hp'). fold (hit n).
    by destruct (hit n).
  - rewrite decide_False by done.
    assert (filter (λ n, pattern_compare start n = Eq) names = []) as ->; [|done].
    apply filter_none. intros m Hm. apply list_elem_of_lookup in Hm as [j Hj].
    destruct (Hp 0 (S j) n m) as [Hlt _]; [lia|done|done|]. by rewrite Hlt.
Qed.

Lemma match_wildcard_filter names :
  "["%char ∉ start → StronglySorted (cmp_le strcasecmp) names →
  match_wildcard_in_directory path pattern opts names =
    (λ n, path ++ lit "/" ++ n) <$> filter (λ n, hit n = true) names.
Proof.
  intros Hbr Hs. pose proof (sorted_partitioned start names Hs) as Hp.
  assert (filter (λ n, hit n = true) names =
    filter (λ n, hit n = true) (filter (λ n, pattern_compare start n = Eq) names)) as ->.
  { rewrite list_filter_filter. apply list_filter_iff. intros n. split; [|naive_solver].
    intros Hh. split; [done|]. by apply hit_start. }
  unfold match_wildcard_in_directory. fold start.
  pose proof (bsearch_spec _ _ Hp) as Hb. destruct (bsearch _ names) as [i|].
  - destruct Hb as (x & Hx & Hxe). destruct (walk_back_spec names i) as (Hj1 & Hj2 & Hj3).
    set (j := walk_back start names i) in *.
    assert (∃ y, names !! j = Some y ∧ pattern_compare start y = Eq) as (y & Hy & Hye).
    { destruct (decide (j = i)) as [->|]; [eauto|].
      destruct (lookup_lt_is_Some_2 names j) as [y Hy].
      { apply lookup_lt_Some in Hx. lia. }
      exists y. split; [done|]. specialize (Hj2 j). rewrite Hy in Hj2. apply Hj2. lia. }
    rewrite match_from_filter.
    + do 2 f_equal. rewrite <-(take_drop j names) at 2. rewrite filter_app.
      assert (filter (λ n, pattern_compare start n = Eq) (take j names) = []) as ->; [|done].
      apply filter_none. intros m Hm. apply list_elem_of_lookup in Hm as [k Hk].
      apply lookup_take_Some in Hk as [Hk Hkj].
      destruct j as [|j']; [lia|].
      destruct (lookup_lt_is_Some_2 names j') as [z Hz]; [apply lookup_lt_Some in Hy; lia|].
      assert (pattern_compare start z = Gt) as Hzg.
      { specialize (Hj3 j' eq_refl). rewrite Hz in Hj3. simpl in Hj3.
        destruct (pattern_compare start z) eqn:Ez; [done| |done].
        destruct (Hp j' (S j') z y) as [Hlt _]; [lia|done|done|]. rewrite Hlt in Hye; done. }
      destruct (Hp k j' m z) as [_ Hgt]; [lia|done|done|]. by rewrite Hgt.
    + intros a b m n Hab Ha Hb'. rewrite lookup_drop in Ha, Hb'. by apply (Hp (j + a) (j + b)); [lia|..].
    + apply Forall_lookup. intros k m Hk. rewrite lookup_drop in Hk. intros Hg.
      destruct (Hp j (j + k) y m) as [_ Hgt]; [lia|done|done|]. rewrite Hgt in Hye; done.
  - assert (filter (λ n, pattern_compare start n = Eq) names = []) as ->; [|done].
    apply filter_none. intros m Hm. rewrite Forall_forall in Hb. by apply Hb.
Qed.
End matching.

Section theorems.
Context `{FileSystem} `{Matcher}.

(** ** The cache *)

(** While the directories do not change, the cache holds what they hold. *)
Definition cache_ok (cache : dirent_map) : Prop :=
  map_Forall (λ path names, read_directory path = Some names) cache.

(** A match without a cache. *)
Definition plain_match (path pattern : cstr) (opts : lff) : list cstr :=
  match read_directory path with
  | None => []
  | Some names =>
    if LFF_REGEX opts then match_regex_in_directory path pattern opts names
    else match_wildcard_in_directory path pattern opts names
  end.

Lemma match_in_directory_plain path pattern opts cache :
  cache_ok cache →
  ∃ cache', match_in_directory path pattern opts cache = (plain_match path pattern opts, cache') ∧
    cache_ok cache'.
Proof.
  intros Hok. unfold match_in_directory, update_directory_cache, plain_match.
  destruct (cache !! path) as [names|] eqn:E.
  - rewrite (Hok path names E). eauto.
  - destruct (read_directory path) as [names|] eqn:Er; [|eauto].
    eexists. split; [done|]. apply map_Forall_insert_2; [done|exact Hok].
Qed.

Lemma match_in_directories_plain dirs pattern opts cache :
  cache_ok cache →
  ∃ cache', match_in_directories dirs pattern opts cache =
      (concat ((λ dir, plain_match dir pattern opts) <$> dirs), cache') ∧ cache_ok cache'.
Proof.
  revert cache. induction dirs as [|dir dirs IH]; intros cache Hok; simpl; [eauto|].
  destruct (match_in_directory_plain dir pattern opts cache Hok) as (c1 & -> & Hok1).
  destruct (IH c1 Hok1) as (c2 & -> & Hok2). eauto.
Qed.

Lemma look_for_file_plain layout extension hier sec name cat opts c1 c2 :
  cache_ok c1 → cache_ok c2 →
  (look_for_file layout extension hier sec name cat opts c1).1 =
    (look_for_file layout extension hier sec name cat opts c2).1 ∧
  cache_ok (look_for_file layout extension hier sec name cat opts c1).2.
Proof.
  intros H1 H2. unfold look_for_file.
  assert (∀ bit path pattern (f1 f2 : list cstr * dirent_map),
    f1.1 = f2.1 ∧ cache_ok f1.2 ∧ cache_ok f2.2 →
    let g f := if has_layout layout bit && bool_decide (f.1 = [])
               then match_in_directory path pattern opts f.2 else f in
    (g f1).1 = (g f2).1 ∧ cache_ok (g f1).2 ∧ cache_ok (g f2).2) as Hstep.
  { intros bit path pattern f1 f2 (Hf & Hc1 & Hc2). simpl. rewrite Hf. destruct (_ && _); [|done].
    destruct (match_in_directory_plain path pattern opts f1.2 Hc1) as (c1' & -> & ?).
    destruct (match_in_directory_plain path pattern opts f2.2 Hc2) as (c2' & -> & ?). done. }
  enough (∀ f1 f2 : list cstr * dirent_map, f1.1 = f2.1 ∧ cache_ok f1.2 ∧ cache_ok f2.2 →
    f1.1 = f2.1 ∧ cache_ok f1.2) as Hfin.
  { apply Hfin. do 4 apply Hstep. destruct (has_layout layout LAYOUT_GNU); [|done].
    destruct (match_in_directory_plain hier (section_pattern cat sec) (Lff true false false) c1 H1)
      as (c1' & -> & Hc1).
    destruct (match_in_directory_plain hier (section_pattern cat sec) (Lff true false false) c2 H2)
      as (c2' & -> & Hc2).
    match goal with |- context [match_in_directories ?ds ?p opts c1'] =>
      destruct (match_in_directories_plain ds p opts c1' Hc1) as (d1 & -> & ?);
      destruct (match_in_directories_plain ds p opts c2' Hc2) as (d2 & -> & ?) end. done. }
  naive_solver.
Qed.

(** The directory cache is transparent: with any two caches that agree
    with the file system a lookup finds the same files, in the same order,
    and leaves the cache in agreement. *)
Theorem look_for_file_cache layout extension hier sec name cat opts c1 c2 :
  cache_ok c1 → cache_ok c2 →
  (look_for_file layout extension hier sec name cat opts c1).1 =
    (look_for_file layout extension hier sec name cat opts c2).1 ∧
  cache_ok (look_for_file layout extension hier sec name cat opts c1).2.
Proof. apply look_for_file_plain. Qed.

Context `{!FnmatchLiteral}.

(** Matching a wildcard through the sorted listing and the binary search
    finds exactly the names the pattern matches, whatever the case of the
    names, provided the pattern has no bracket before its first star or
    question mark. *)
Theorem match_wildcard_complete path pattern opts names :
  "["%char ∉ pattern_start pattern →
  match_wildcard_in_directory path pattern opts (gl_sorted_of strcasecmp names) ≡ₚ
    (λ n, path ++ lit "/" ++ n) <$>
      filter (λ n, fnmatch (negb (LFF_MATCHCASE opts)) pattern n = true) names.
Proof.
  intros Hbr. rewrite match_wildcard_filter; [|done|apply gl_sorted_of_sorted, _].
  apply fmap_Permutation. by rewrite gl_sorted_of_perm.
Qed.

Lemma elem_of_plain_match path pattern opts file :
  LFF_REGEX opts = false → "["%char ∉ pattern_start pattern →
  file ∈ plain_match path pattern opts ↔
    ∃ entries e, fs_readdir path = Some entries ∧ e ∈ entries ∧
      fnmatch (negb (LFF_MATCHCASE opts)) pattern (d_name e) = true ∧
      file = path ++ lit "/" ++ d_name e.
Proof.
  intros Hre Hbr. unfold plain_match, read_directory.
  destruct (fs_readdir path) as [entries|]; simpl; [|set_solver].
  rewrite Hre, match_wildcard_filter by (done || apply gl_sorted_of_sorted, _).
  rewrite list_elem_of_fmap. split.
  - intros (n & -> & [Hn Hin]%list_elem_of_filter). rewrite gl_sorted_of_perm in Hin.
    apply list_elem_of_fmap in Hin as (e & -> & He). eauto 10.
  - intros (entries' & e & [= <-] & He & Hm & ->). exists (d_name e). split; [done|].
    apply list_elem_of_filter. split; [done|]. rewrite gl_sorted_of_perm. by apply list_elem_of_fmap_2.
Qed.

(** In the GNU layout [look_for_file] finds exactly the files of the
    directories of the hierarchy whose name begins with [man] (or [cat]) and
    the first character of the section, that match the page's pattern. *)
Theorem look_for_file_gnu extension hier sec unesc_name cat opts cache file :
  let name := if LFF_WILDCARD opts then unesc_name else default [] (escape_shell (Some unesc_name)) in
  let pattern := make_pattern extension name sec opts in
  cache_ok cache → LFF_REGEX opts = false →
  "["%char ∉ pattern_start (section_pattern cat sec) → "["%char ∉ pattern_start pattern →
  file ∈ (look_for_file LAYOUT_GNU extension hier sec unesc_name cat opts cache).1 ↔
    ∃ dirs d files f, fs_readdir hier = Some dirs ∧ d ∈ dirs ∧
      fnmatch false (section_pattern cat sec) (d_name d) = true ∧
      fs_readdir (hier ++ lit "/" ++ d_name d) = Some files ∧ f ∈ files ∧
      fnmatch (negb (LFF_MATCHCASE opts)) pattern (d_name f) = true ∧
      file = (hier ++ lit "/" ++ d_name d) ++ lit "/" ++ d_name f.
Proof.
  intros name pattern Hok Hre Hsec Hpat. unfold look_for_file. rewrite Hre. cbn [orb].
  assert (∀ bit : Z, bit ∈ [LAYOUT_HPUX; LAYOUT_IRIX; LAYOUT_SOLARIS; LAYOUT_BSD] →
    has_layout LAYOUT_GNU bit = false) as Hno.
  { intros bit Hbit. assert (Forall (λ b, has_layout LAYOUT_GNU b = false)
      [LAYOUT_HPUX; LAYOUT_IRIX; LAYOUT_SOLARIS; LAYOUT_BSD]) as Hall by compute_done.
    rewrite Forall_forall in Hall. by apply Hall. }
  rewrite !Hno by set_solver. cbn [andb].
  assert (has_layout LAYOUT_GNU LAYOUT_GNU = true) as -> by done.
  destruct (match_in_directory_plain hier (section_pattern cat sec) (Lff true false false) cache Hok)
    as (c1 & -> & Hok1).
  fold name. fold pattern.
  destruct (match_in_directories_plain (plain_match hier (section_pattern cat sec) (Lff true false false))
    pattern opts c1 Hok1) as (c2 & -> & _).
  cbn [fst]. rewrite list_elem_of_In, in_concat. setoid_rewrite <-list_elem_of_In.
  split.
  - intros (l & (dir & -> & Hdir)%list_elem_of_fmap & Hfile).
    apply elem_of_plain_match in Hfile as (files & f & ? & ? & ? & ->); [|done|done].
    apply elem_of_plain_match in Hdir as (dirs & d & ? & ? & ? & ->); [|done|done].
    exists dirs, d, files, f. done.
  - intros (dirs & d & files & f & Hd & Hdin & Hdm & Hf & Hfin & Hfm & ->).
    exists (plain_match (hier ++ lit "/" ++ d_name d) pattern opts). split.
    + apply list_elem_of_fmap. eexists. split; [done|]. apply elem_of_plain_match; eauto 10.
    + apply elem_of_plain_match; eauto 10.
Qed.
End theorems.

(** ** Evaluation *)

(** A matcher for patterns with one star, at their end. *)
Definition star_matcher : Matcher := {|
  fnmatch icase p s :=
    let n := strcspn (one_of (lit "?*[\")) p in
    match strncasecmp (take n p) s (length (take n p)) with
    | Eq => (icase || STRNEQ (take n p) s (length (take n p))) &&
            (STREQ (drop n p) (lit "*") || bool_decide (drop n p = [] ∧ length s = n))
    | _ => false
    end;
  regexec _ _ _ := false;
|}.

Lemma star_matcher_literal : @FnmatchLiteral star_matcher.
Proof. intros icase p s. simpl. by destruct (strncasecmp _ s _). Qed.

(** A hierarchy with two sections. *)
Definition small_fs : FileSystem := {|
  fs_stat _ := None; fs_lstat _ := None; fs_access_R _ := false; fs_access_F _ := false;
  fs_canonicalize p := Some p; fs_glob _ := None;
  fs_readdir p :=
    if STREQ p (lit "/m") then Some [Dirent (lit "man3") 3; Dirent (lit "man1") 1]
    else if STREQ p (lit "/m/man1") then
      Some [Dirent (lit "ls.1.gz") 4; Dirent (lit "cp.1") 5; Dirent (lit "LS.1x") 6]
    else None;
|}.

Example look_for_file_ls :
  (@look_for_file small_fs star_matcher LAYOUT_GNU None (lit "/m") (lit "1") (lit "ls") false
    (Lff false false false) ∅).1 = [lit "/m/man1/ls.1.gz"; lit "/m/man1/LS.1x"].
Proof. by vm_compute. Qed.

Lemma look_for_file_cache_witness :
  (@look_for_file small_fs star_matcher 31 None (lit "/m") (lit "1") (lit "ls") false (Lff false false false) ∅).1 =
  (@look_for_file small_fs star_matcher 31 None (lit "/m") (lit "1") (lit "ls") false (Lff false false false) ∅).1 ∧
  @cache_ok small_fs
    (@look_for_file small_fs star_matcher 31 None (lit "/m") (lit "1") (lit "ls") false (Lff false false false) ∅).2.
Proof. apply (@look_for_file_cache small_fs star_matcher); apply map_Forall_empty. Defined.

Lemma match_wildcard_complete_witness :
  @match_wildcard_in_directory star_matcher (lit "/m") (lit "ls.1*") (Lff false false false)
      (gl_sorted_of strcasecmp [lit "ls.1"; lit "a"; lit "LS.1x"]) ≡ₚ
    (λ n, lit "/m" ++ lit "/" ++ n) <$>
      filter (λ n, @fnmatch star_matcher true (lit "ls.1*") n = true) [lit "ls.1"; lit "a"; lit "LS.1x"].
Proof.
  apply (@match_wildcard_complete star_matcher star_matcher_literal (lit "/m") (lit "ls.1*") (Lff false false false)).
  compute_done.
Defined.

Lemma look_for_file_gnu_witness :
  lit "/m/man1/LS.1x" ∈
    (@look_for_file small_fs star_matcher LAYOUT_GNU None (lit "/m") (lit "1") (lit "ls") false
      (Lff false false false) ∅).1.
Proof.
  apply (@look_for_file_gnu small_fs star_matcher star_matcher_literal).
  - apply map_Forall_empty.
  - done.
  - compute_done.
  - compute_done.
  - do 4 eexists. split; [done|]. split; [right; left|]. split; [done|]. split; [done|].
    split; [right; right; left|]. done.
Defined.

(** A pattern with a bracket before its star misses what it matches: the
    bracket is taken as the first characters of the names to search. *)
Example bracket_missed (M : Matcher) :
  fnmatch true (lit "l[s].1*") (lit "ls.1") = true →
  match_wildcard_in_directory (lit "/m") (lit "l[s].1*") (Lff false false true) [lit "ls.1"] = [].
Proof. intros _. by vm_compute. Qed.
