(* ===== verification/GlobbingTest.v ===== *)
(** * src/globbing_test.c: printing the files of a page

    The program the test suite uses to look at [look_for_file]. *)

From S2P Require Import Prelude CStr Fs Wordfnmatch Globbing.

(** What argp calls [parse_opt] with: an option, the arguments that are left,
    or that there are none. *)
Inductive key := Key_d | Key_e (arg : cstr) | Key_i | Key_I | Key_r | Key_w | Key_h | KEY_ARGS (args : list cstr) | KEY_NO_ARGS.

Record options := Options {
  extension : option cstr;
  match_case : bool;
  regex_opt : bool;
  wildcard : bool;
  remaining_args : option (list cstr);
}.
Definition initial_options : options := Options None false false false None.

Definition parse_opt (k : key) (o : options) : outcome options :=
  match k with
  | Key_d => Ret o
  | Key_e arg => Ret (Options (Some arg) (match_case o) (regex_opt o) (wildcard o) (remaining_args o))
  | Key_i => Ret (Options (extension o) false (regex_opt o) (wildcard o) (remaining_args o))
  | Key_I => Ret (Options (extension o) true (regex_opt o) (wildcard o) (remaining_args o))
  | Key_r => Ret (Options (extension o) (match_case o) true (wildcard o) (remaining_args o))
  | Key_w => Ret (Options (extension o) (match_case o) (regex_opt o) true (remaining_args o))
  | Key_h => Fatal "argp_state_help"
  | KEY_ARGS args =>
    if bool_decide (length args ≠ 3) then Fatal "argp_usage"
    else Ret (Options (extension o) (match_case o) (regex_opt o) (wildcard o) (Some args))
  | KEY_NO_ARGS => Fatal "argp_usage"
  end.

Fixpoint parse_opts (ks : list key) (o : options) : outcome options :=
  match ks with [] => Ret o | k :: ks => o ← parse_opt k o; parse_opts ks o end.

Section main.
Context `{FileSystem} `{Matcher}.
Context (layout : Z).

(** The source pages, then the cat pages, one to a line. *)
Definition main (ks : list key) : outcome cstr :=
  o ← parse_opts ks initial_options;
  match remaining_args o with
  | Some [hier; sec; name] =>
    let look cat := look_for_file layout (extension o) hier sec name cat (Lff (match_case o) (regex_opt o) (wildcard o)) in
    let '(pages, cache) := look false ∅ in
    let '(cats, cache) := look true cache in
    Ret (concat ((λ f, f ++ [NL]) <$> (pages ++ cats)))
  | Some _ => Undef "remaining_args: past the arguments"
  | None => Fatal "assertion: remaining_args"
  end.

(** The arguments are counted before they are used. *)
Lemma main_defined ks : (∃ out, main ks = Ret out) ∨ (∃ msg, main ks = Fatal msg).
Proof.
  unfold main. enough (∀ o, (∀ l, remaining_args o = Some l → length l = 3) →
    match parse_opts ks o with Ret o' => ∀ l, remaining_args o' = Some l → length l = 3 | Fatal _ => True | Undef _ => False end) as Hargs.
  { specialize (Hargs initial_options ltac:(done)).
    destruct (parse_opts ks initial_options) as [o|msg|]; [|right; by exists msg|done]. rewrite bind_Ret.
    destruct (remaining_args o) as [l|]; [|right; by eexists]. specialize (Hargs l eq_refl).
    destruct l as [|hier [|sec [|name [|]]]]; try discriminate Hargs. left.
    destruct (look_for_file _ _ _ _ _ _ _ _) as [pages c1]. destruct (look_for_file _ _ _ _ _ _ _ _) as [cats c2]. by eexists. }
  induction ks as [|k ks IH]; intros o Ho; [done|]. cbn [parse_opts].
  destruct k; cbn [parse_opt]; rewrite ?bind_Ret; try (by apply IH); try done.
  case_bool_decide; [done|]. rewrite bind_Ret. apply IH. intros l [= <-]. lia.
Qed.
End main.
