(* ===== verification/Descriptions.v ===== *)
(** * src/descriptions.c and src/descriptions_store.c: names and descriptions

    The NAME section of a page, as the lexer of lexgrog.l hands it over, is
    taken apart into names with descriptions ([parse_descriptions]), and each
    name is stored in the index as the page itself, as another page of the
    chain of links the page was reached through, or as a reference to it
    ([store_descriptions]). *)

From S2P Require Import Prelude CStr Fs Compression Filenames Util Mydbm DbContent Wordfnmatch DbLookup DbGroup DbStore.

Record page_description := Desc { desc_name : cstr; desc_whatis : option cstr }.

(** ** Definitions *)

(** The separator between records of a NAME section. *)
Definition DC1 : ascii := "017".

Definition name_tokens (names : cstr) : list cstr :=
  filter (λ n, strpbrk (one_of [" "; TAB]%char) n = None)
    (trim_spaces <$> strtok (λ c, bool_decide (c = ","%char)) names).

(** The loop over the records; every turn but the last moves past a
    separator. *)
Fixpoint parse_records (fuel : nat) (sep : cstr) (descs : list page_description)
    : list page_description :=
  match fuel with
  | 0 => descs
  | S fuel =>
    let sep := drop (strspn (λ c, bool_decide (c = DC1) || bool_decide (c = " "%char)) sep) sep in
    let nextsep := strchr sep DC1 in
    let record := match nextsep with Some n => take n sep | None => sep end in
    if bool_decide (record = []) then descs
    else
      let dash := strstr record (lit " - ") in
      let names :=
        match dash with
        | Some d => Some (take d record)
        | None => if bool_decide (descs = []) then Some record else None
        end in
      let whatis := (λ d, trim_spaces (drop (d + 3) record)) <$> dash in
      let descs :=
        match names with
        | Some names => descs ++ ((λ n, Desc n whatis) <$> name_tokens names)
        | None => descs
        end in
      match nextsep with
      | Some n => parse_records fuel (drop n sep) descs
      | None => descs
      end
  end.

Definition parse_descriptions (base whatis : option cstr) : list page_description :=
  match whatis with
  | None => []
  | Some w =>
    let descs := parse_records (S (length w)) w [] in
    match base with
    | Some base =>
      if bool_decide (base ∈ desc_name <$> descs) then descs
      else descs ++ [Desc base (match descs with first :: _ => desc_whatis first | [] => None end)]
    | None => descs
    end
  end.

Definition is_prefix (parent child : cstr) : bool :=
  STRNEQ child parent (length parent) && STRNEQ (drop (length parent) child) (lit "/man") 4.

Section store.
Context (cfg : comp_config) `{FileSystem} `{Dirname}.
Context {db : Type} `{Mydbm db}.

(** [trace_infos]: what [filename_info] says of every path of the trace. *)
Fixpoint trace_infos (trace : list cstr) : outcome (gmap cstr (option mandata)) :=
  match trace with
  | [] => Ret ∅
  | t :: trace =>
    i ← filename_info cfg t;
    rest ← trace_infos trace;
    (* a later put of the same key wins, with the same value *)
    Ret (<[t:=i]> rest)
  end.

Definition trace_info (infos : gmap cstr (option mandata)) (t : cstr) : option mandata :=
  default None (infos !! t).

Definition set_trace (info : mandata) (last : bool) (t : mandata) (mtime : timespec) (w : mandata) : mandata :=
  let id := if last then (if bool_decide (md_id info = SO_MAN) then ULT_MAN else md_id w)
            else (if bool_decide (md_id info = ULT_MAN) then SO_MAN else md_id w) in
  Mandata (md_name w) (md_ext t) (md_sec t) id (md_pointer w) (md_comp t) (md_filter w) (md_whatis w) mtime.

(** The loop over the trace for one description: the entry, whether a real
    page was found, and whether a link leaves the hierarchy. *)
Fixpoint trace_loop (infos : gmap cstr (option mandata)) (info : mandata) (path : option cstr)
    (name : cstr) (trace : list cstr) (w : mandata) (found_real_page : bool) : mandata * bool * bool :=
  match trace with
  | [] => (w, found_real_page, false)
  | t :: trace =>
    match trace_info infos t with
    | None => trace_loop infos info path name trace w found_real_page
    | Some ti =>
      if negb (bool_decide (md_name ti = Some name)) then
        trace_loop infos info path name trace w found_real_page
      else if match path with Some p => negb (is_prefix p t) | None => false end then
        (w, found_real_page, true)
      else
        let mtime := match fs_lstat t with Some st => st_mtim st | None => md_mtime info end in
        trace_loop infos info path name trace
          (set_trace info (bool_decide (trace = [])) ti mtime w) true
    end
  end.

(** The entry for a description before the trace is looked at. *)
Definition whatis_entry (info : mandata) (desc : page_description) : mandata :=
  Mandata None (md_ext info) (md_sec info) (md_id info) None (md_comp info) (md_filter info)
    (desc_whatis desc) (md_mtime info).

Definition whatis_reference (info w : mandata) : mandata :=
  Mandata (md_name w) (md_ext w) (md_sec w)
    (match char_cmp (md_id info) STRAY_CAT with Lt => WHATIS_MAN | _ => WHATIS_CAT end)
    (md_pointer w) (md_comp w) (md_filter w) None (md_mtime w).

(** The first loop: real pages are stored at once, references collected.  The
    boolean says whether the loop ran to its end. *)
Fixpoint store_pages (dbf : db) (infos : gmap cstr (option mandata)) (descs : list page_description)
    (info : mandata) (path : option cstr) (base : cstr) (trace : list cstr)
    (whatis_infos : list (cstr * mandata)) : outcome (bool * db * list (cstr * mandata)) :=
  match descs with
  | [] => Ret (true, dbf, whatis_infos)
  | desc :: descs =>
    let w := whatis_entry info desc in
    let '(w, found_real_page, found_external) :=
      if STREQ base (desc_name desc) then (w, true, false)
      else trace_loop infos info path (desc_name desc) trace w false in
    if found_external then store_pages dbf infos descs info path base trace whatis_infos
    else if negb found_real_page then
      store_pages dbf infos descs info path base trace
        (whatis_infos ++ [(desc_name desc, whatis_reference info w)])
    else
      '(ret, _, dbf) ← dbstore dbf w (desc_name desc);
      if decide (0 < ret)%Z then Ret (false, dbf, whatis_infos)
      else store_pages dbf infos descs info path base trace whatis_infos
  end.

(** The last page of the trace with the section and extension of the page. *)
Definition pointer_info (infos : gmap cstr (option mandata)) (info : mandata) (trace : list cstr)
    : option mandata :=
  fold_left (λ p t,
    match trace_info infos t with
    | Some ti => if STREQ (md_sec ti) (md_sec info) && STREQ (md_ext ti) (md_ext info) then Some ti else p
    | None => p
    end) trace None.

Definition set_pointer (p : cstr) (w : mandata) : mandata :=
  Mandata None (md_ext w) (md_sec w) (md_id w) (Some p) (md_comp w) (md_filter w) (md_whatis w) (md_mtime w).

Fixpoint store_references (dbf : db) (pointer : cstr) (whatis_infos : list (cstr * mandata))
    : outcome (bool * db) :=
  match whatis_infos with
  | [] => Ret (true, dbf)
  | (name, w) :: whatis_infos =>
    '(ret, _, dbf) ← dbstore dbf (set_pointer pointer w) name;
    if decide (0 < ret)%Z then Ret (false, dbf)
    else store_references dbf pointer whatis_infos
  end.

(** [store_descriptions]: the database, and whether every entry was stored. *)
Definition store_descriptions (dbf : db) (descs : list page_description) (info : mandata)
    (path : option cstr) (base : cstr) (trace : list cstr) : outcome (bool * db) :=
  if bool_decide (trace = []) then Fatal "assertion: trace"
  else
    infos ← trace_infos trace;
    '(ok, dbf, whatis_infos) ← store_pages dbf infos descs info path base trace [];
    if negb ok then Ret (false, dbf)
    else
      match pointer_info infos info trace with
      | None => Fatal "assertion: pointer_info"
      | Some p =>
        pn ← or_undef "store_descriptions: pointer name" (md_name p);
        store_references dbf pn whatis_infos
      end.
End store.

(** ** Parsing *)

Lemma name_tokens_clean names n :
  n ∈ name_tokens names →
  ((" "%char ∉ n) ∧ (TAB ∉ n) ∧ (","%char ∉ n)) ∧ ∀ c, c ∈ n → c ∈ names.
Proof.
  unfold name_tokens. intros [Hp Hin]%list_elem_of_filter.
  apply list_elem_of_fmap in Hin as (t & -> & Ht).
  assert (∀ c, c ∈ trim_spaces t → c ∈ t) as Hsub.
  { destruct (trim_spaces_parts t) as (a & b & Heq & _). intros c Hc. rewrite Heq. set_solver. }
  apply strtok_elem in Ht as Ht'. destruct Ht' as [_ Hcomma].
  assert (∀ c, c ∈ trim_spaces t → one_of [" "; TAB]%char c = false) as Hblank.
  { unfold strpbrk, strcspn in Hp. case_decide as Hlt; [done|].
    pose proof (strspn_take (λ c, negb (one_of [" "; TAB]%char c)) (trim_spaces t)) as Hall.
    rewrite take_ge in Hall by lia. rewrite Forall_forall in Hall.
    intros c Hc. specialize (Hall c Hc). by apply negb_true_iff in Hall. }
  split; [split_and!|].
  - intros Hc%Hblank. done.
  - intros Hc%Hblank. done.
  - intros Hc%Hsub. rewrite Forall_forall in Hcomma. by apply Hcomma in Hc.
  - intros c Hc%Hsub. unfold strtok in Ht. apply list_elem_of_filter in Ht as [_ Ht].
    by eapply split_by_sub.
Qed.

Definition clean_name (n : cstr) : Prop :=
  (" "%char ∉ n) ∧ (TAB ∉ n) ∧ (","%char ∉ n) ∧ (DC1 ∉ n).

Lemma parse_records_clean fuel sep descs :
  Forall (λ d, clean_name (desc_name d)) descs →
  Forall (λ d, clean_name (desc_name d)) (parse_records fuel sep descs).
Proof.
  revert sep descs. induction fuel as [|fuel IH]; intros sep descs Hall; cbn [parse_records]; [done|].
  set (s := drop _ sep). set (record := match strchr s DC1 with Some n => take n s | None => s end).
  assert (DC1 ∉ record) as Hdc.
  { unfold record. destruct (strchr s DC1) as [n|] eqn:E.
    - by apply strchr_Some in E as [_ ?].
    - by apply strchr_None in E. }
  case_bool_decide; [done|].
  set (names := match strstr record (lit " - ") with Some d => Some (take d record) | None => _ end).
  assert (∀ ns, names = Some ns → ∀ c, c ∈ ns → c ∈ record) as Hsub.
  { unfold names. intros ns Hns c Hc. destruct (strstr record _) as [d|].
    - injection Hns as <-. by eapply (subseteq_take d).
    - case_bool_decide; by simplify_eq. }
  match goal with |- context [match names with Some ns => descs ++ @?f ns | None => descs end] =>
    assert (Forall (λ d, clean_name (desc_name d)) (match names with Some ns => descs ++ f ns | None => descs end)) as Hnew
  end.
  { destruct names as [ns|]; [|done]. apply Forall_app. split; [done|]. apply Forall_forall.
    intros d (n & -> & Hn)%list_elem_of_fmap. simpl.
    apply name_tokens_clean in Hn as [(? & ? & ?) Hin]. split_and!; try done.
    intros Hc. apply Hdc. eapply Hsub; [done|]. by apply Hin. }
  destruct (strchr s DC1) as [n|]; [by apply IH|done].
Qed.

Lemma parse_descriptions_base base w : base ∈ desc_name <$> parse_descriptions (Some base) (Some w).
Proof. unfold parse_descriptions. case_bool_decide; [done|]. rewrite fmap_app. set_solver. Qed.

(** Every name [parse_descriptions] returns is free of blanks, tabs,
    commas and record separators (the base name, which is added as it is,
    apart), and the base name is always among them. *)
Theorem parse_descriptions_names base w :
  base ∈ desc_name <$> parse_descriptions (Some base) (Some w) ∧
  Forall (λ d, desc_name d = base ∨ clean_name (desc_name d)) (parse_descriptions (Some base) (Some w)).
Proof.
  split; [apply parse_descriptions_base|]. unfold parse_descriptions.
  assert (Forall (λ d, clean_name (desc_name d)) (parse_records (S (length w)) w [])) as Hall
    by (apply parse_records_clean; constructor).
  assert (Forall (λ d, desc_name d = base ∨ clean_name (desc_name d)) (parse_records (S (length w)) w []))
    by (eapply Forall_impl; [done|]; by right).
  case_bool_decide; [done|]. apply Forall_app. split; [done|]. repeat constructor.
Qed.

(** ** Printing and parsing *)

(** A record: its names and their description. *)
Definition name_list (names : list cstr) : cstr :=
  match names with
  | [] => []
  | n :: names => join ","%char (n :: (cons " "%char <$> names))
  end.
Definition record_text (r : list cstr * cstr) : cstr := name_list r.1 ++ lit " - " ++ r.2.
Definition name_section (rs : list (list cstr * cstr)) : cstr := join DC1 (record_text <$> rs).

Definition good_name (n : cstr) : Prop := clean_name n ∧ n ≠ [] ∧ n ≠ lit "-".
Definition good_record (r : list cstr * cstr) : Prop :=
  r.1 ≠ [] ∧ Forall good_name r.1 ∧ (DC1 ∉ r.2) ∧
  head r.2 ≠ Some " "%char ∧ last r.2 ≠ Some " "%char.

Definition record_descs (r : list cstr * cstr) : list page_description :=
  (λ n, Desc n (Some r.2)) <$> r.1.

Lemma good_name_trim n : good_name n → trim_spaces n = n.
Proof.
  intros [(Hsp & _) _]. apply trim_spaces_id.
  - destruct n; [done|]. intros [= ->]. apply Hsp. by left.
  - intros Hl. apply Hsp. by apply last_Some_elem_of.
Qed.

Lemma strpbrk_None p s : (∀ c, c ∈ s → p c = false) → strpbrk p s = None.
Proof.
  intros Hs. unfold strpbrk. rewrite decide_False; [done|]. unfold strcspn.
  enough (strspn (λ c, negb (p c)) s = length s) by lia.
  induction s as [|c s IH]; simpl; [done|]. rewrite (Hs c) by by left. simpl. f_equal.
  apply IH. intros d Hd. apply Hs. by right.
Qed.

Lemma name_tokens_list names : Forall good_name names → name_tokens (name_list names) = names.
Proof.
  intros Hall. destruct Hall as [|n names Hn Hall]; [done|].
  unfold name_tokens, name_list, strtok. fold (split_on ","%char).
  rewrite split_join; [|done|].
  2: { constructor; [apply Hn|]. apply Forall_fmap. eapply Forall_impl; [done|].
       intros m Hm. simpl. rewrite not_elem_of_cons. split; [done|]. apply Hm. }
  assert (filter (λ t, t ≠ []) (n :: (cons " "%char <$> names)) = n :: (cons " "%char <$> names)) as ->.
  { apply filter_all. constructor; [apply Hn|]. apply Forall_fmap. by apply Forall_true. }
  assert (trim_spaces <$> (n :: (cons " "%char <$> names)) = n :: names) as ->.
  { cbn [fmap list_fmap]. rewrite good_name_trim by done. f_equal.
    change (trim_spaces <$> (cons " "%char <$> names) = names).
    rewrite <-list_fmap_compose. rewrite <-(list_fmap_id names) at 2. apply Forall_fmap_ext_1.
    eapply Forall_impl; [done|]. intros m Hm. simpl. rewrite trim_spaces_cons. by apply good_name_trim. }
  apply filter_all. constructor.
  - apply strpbrk_None. intros c Hc. apply bool_decide_eq_false_2. destruct Hn as [(H1 & H2 & _) _]. set_solver.
  - eapply Forall_impl; [done|]. intros m [(H1 & H2 & _) _]. apply strpbrk_None.
    intros c Hc. apply bool_decide_eq_false_2. set_solver.
Qed.

(** The first dash between blanks is the one after the names. *)
Lemma strstr_names n names w :
  good_name n → Forall good_name names →
  strstr (join ","%char (n :: (cons " "%char <$> names)) ++ lit " - " ++ w) (lit " - ") =
    Some (length (join ","%char (n :: (cons " "%char <$> names)))).
Proof.
  intros Hn Hall. revert n Hn. induction Hall as [|m names Hm Hall IH]; intros n Hn.
  - simpl. change (lit " - ") with (" "%char :: lit "- "). rewrite strstr_skip by apply Hn.
    rewrite strstr_here by (by eexists). simpl. f_equal. lia.
  - change (join ","%char (n :: (cons " "%char <$> (m :: names)))) with
      (n ++ ","%char :: join ","%char ((" "%char :: m) :: (cons " "%char <$> names))).
    set (tl := join ","%char ((" "%char :: m) :: (cons " "%char <$> names))).
    assert (tl = " "%char :: join ","%char (m :: (cons " "%char <$> names))) as Htl
      by (unfold tl; by destruct names).
    specialize (IH m Hm). set (jm := join ","%char (m :: (cons " "%char <$> names))) in *.
    assert ((n ++ ","%char :: tl) ++ lit " - " ++ w =
      (n ++ [","%char]) ++ (" "%char :: (jm ++ lit " - " ++ w))) as -> by (rewrite Htl; by app_norm).
    change (lit " - ") with (" "%char :: lit "- ") at 2.
    rewrite strstr_skip by (destruct Hn as [(? & _) _]; not_in).
    rewrite strstr_next.
    + change (" "%char :: lit "- ") with (lit " - "). rewrite IH. simpl. f_equal.
      rewrite Htl, !length_app. simpl. lia.
    + (* a name does not begin with a dash and a blank *)
      intros Hp%prefix_cons_inv_2. destruct Hm as [(Hsp & _) [Hne Hdash]].
      destruct m as [|c m]; [done|]. unfold jm in Hp.
      assert (∃ x, join ","%char ((c :: m) :: (cons " "%char <$> names)) ++ lit " - " ++ w = c :: m ++ x ∧
        head x ≠ None) as (x & Hx & Hxh).
      { destruct names as [|n' names].
        - exists (lit " - " ++ w). by app_norm.
        - exists (","%char :: join ","%char (cons " "%char <$> (n' :: names)) ++ lit " - " ++ w).
          split; [|done]. simpl. by rewrite <-app_assoc. }
      rewrite Hx in Hp. destruct Hp as [y Hy]. simpl in Hy. injection Hy as -> Hy.
      destruct m as [|d m]; [done|]. simpl in Hy. injection Hy as -> _. apply Hsp. right. by left.
Qed.

Lemma elem_of_join c d l : d ∈ join c l → d = c ∨ ∃ t, t ∈ l ∧ d ∈ t.
Proof.
  induction l as [|t l IH]; simpl; [by intros ?%elem_of_nil|].
  destruct l as [|u l]; [intros Hd; right; exists t; set_solver|].
  rewrite elem_of_app, elem_of_cons. intros [Hd|[->|Hd]]; [right; exists t; set_solver|by left|].
  destruct (IH Hd) as [->|(t' & ? & ?)]; [by left|right; exists t'; set_solver].
Qed.

Lemma length_join (c : ascii) l : length l ≤ S (length (join c l)).
Proof.
  induction l as [|t l IH]; [simpl; lia|]. destruct l as [|u l]; [simpl; lia|].
  change (join c (t :: u :: l)) with (t ++ c :: join c (u :: l)). rewrite length_app. simpl in *. lia.
Qed.

Lemma DC1_not_dash : DC1 ∉ lit " - ".
Proof. apply (bool_decide_unpack _). by vm_compute. Qed.

Lemma record_text_facts r :
  good_record r →
  (DC1 ∉ record_text r) ∧
  (∃ c t, record_text r = c :: t ∧ c ≠ DC1 ∧ c ≠ " "%char) ∧
  strstr (record_text r) (lit " - ") = Some (length (name_list r.1)).
Proof.
  destruct r as [[|n names] w]; intros (Hne & Hall & Hw & _); simpl in *; [done|].
  apply Forall_cons in Hall as [Hn Hall]. split_and!.
  - unfold record_text. rewrite !elem_of_app.
    intros [Hd|[Hd|Hd]]; [revert Hd; cbn [fst name_list]|by apply DC1_not_dash in Hd|done].
    intros [?|(t & Ht & Hd)]%elem_of_join; [done|]. apply elem_of_cons in Ht as [->|Ht].
    + by apply Hn in Hd.
    + apply list_elem_of_fmap in Ht as (m & -> & Hm). rewrite Forall_forall in Hall.
      apply elem_of_cons in Hd as [?|Hd]; [done|]. by apply (Hall m Hm) in Hd.
  - destruct Hn as [(H1 & _ & _ & H2) [Hn0 _]]. destruct n as [|c n]; [done|].
    exists c. unfold record_text. simpl. destruct names as [|m names]; simpl; eexists; split; try done;
      split; intros ->; set_solver.
  - by apply strstr_names.
Qed.

Lemma parse_record_step fuel pre r rest descs :
  good_record r → pre = [] ∨ pre = [DC1] ∨ pre = [DC1; " "%char] → rest = [] ∨ head rest = Some DC1 →
  parse_records (S fuel) (pre ++ record_text r ++ rest) descs =
    match rest with
    | [] => descs ++ record_descs r
    | _ => parse_records fuel rest (descs ++ record_descs r)
    end.
Proof.
  intros Hr Hpre Hrest. destruct (record_text_facts r Hr) as (Hdc & (c & t & Hct & Hc1 & Hc2) & Hss).
  cbn [parse_records].
  assert (drop (strspn (λ c, bool_decide (c = DC1) || bool_decide (c = " "%char)) (pre ++ record_text r ++ rest))
    (pre ++ record_text r ++ rest) = record_text r ++ rest) as ->.
  { assert (strspn (λ c, bool_decide (c = DC1) || bool_decide (c = " "%char)) (record_text r ++ rest) = 0) as H0.
    { rewrite Hct. simpl. by rewrite !bool_decide_eq_false_2. }
    destruct Hpre as [-> | [-> | ->]]; simpl; rewrite H0; by rewrite drop_0. }
  assert (∃ nextsep, strchr (record_text r ++ rest) DC1 = nextsep ∧
    match nextsep with Some n => take n (record_text r ++ rest) | None => record_text r ++ rest end = record_text r ∧
    match nextsep with Some n => rest ≠ [] ∧ drop n (record_text r ++ rest) = rest | None => rest = [] end)
    as (nextsep & -> & -> & Hnext).
  { destruct rest as [|d rest].
    - exists None. rewrite app_nil_r. split; [by apply strchr_None|done].
    - destruct Hrest as [?|[= ->]]; [done|]. exists (Some (length (record_text r))).
      rewrite strchr_app_sep by done. by rewrite take_app_length, drop_app_length. }
  rewrite bool_decide_eq_false_2 by by rewrite Hct. rewrite Hss. cbn [fmap option_fmap option_map].
  assert (take (length (name_list r.1)) (record_text r) = name_list r.1) as ->
    by (unfold record_text; by rewrite take_app_length).
  assert (trim_spaces (drop (length (name_list r.1) + 3) (record_text r)) = r.2) as ->.
  { unfold record_text. rewrite drop_app_ge by lia.
    replace (length (name_list r.1) + 3 - length (name_list r.1)) with 3 by lia. simpl.
    rewrite drop_0. destruct Hr as (_ & _ & _ & ? & ?). by apply trim_spaces_id. }
  rewrite name_tokens_list by apply Hr. fold (record_descs r).
  destruct nextsep as [n|]; [|by subst]. destruct Hnext as [Hne ->]. by destruct rest.
Qed.

Lemma parse_records_print fuel pre rs descs :
  rs ≠ [] → Forall good_record rs → pre = [] ∨ pre = [DC1] ∨ pre = [DC1; " "%char] → length rs ≤ fuel →
  parse_records fuel (pre ++ name_section rs) descs = descs ++ concat (record_descs <$> rs).
Proof.
  intros Hne Hall. revert fuel pre descs Hne.
  induction Hall as [|r rs Hr Hall IH]; intros fuel pre descs Hne Hpre Hf; [done|].
  destruct fuel as [|fuel]; [simpl in Hf; lia|]. destruct rs as [|r' rs].
  - change (name_section [r]) with (record_text r). rewrite <-(app_nil_r (record_text r)).
    rewrite parse_record_step by eauto. simpl. by rewrite app_nil_r.
  - change (name_section (r :: r' :: rs)) with (record_text r ++ DC1 :: name_section (r' :: rs)).
    rewrite parse_record_step by eauto.
    change (DC1 :: name_section (r' :: rs)) with ([DC1] ++ name_section (r' :: rs)).
    rewrite IH; [|done|by right; left|simpl in *; lia]. cbn [fmap list_fmap concat]. by rewrite <-app_assoc.
Qed.

(** A NAME section printed as records of names, separated by commas, a
    dash and a description is parsed back into exactly those names with those
    descriptions, in order. *)
Theorem parse_descriptions_roundtrip rs :
  rs ≠ [] → Forall good_record rs →
  parse_descriptions None (Some (name_section rs)) = concat (record_descs <$> rs).
Proof.
  intros Hne Hall. unfold parse_descriptions.
  rewrite <-(app_nil_l (name_section rs)) at 2. rewrite parse_records_print; [done|done|done|by left|].
  unfold name_section. pose proof (length_join DC1 (record_text <$> rs)) as Hl.
  by rewrite length_fmap in Hl.
Qed.

(** ** Storing *)

Section store_theorems.
Context (cfg : comp_config) `{FileSystem} `{Dirname}.
Context {db : Type} `{MydbmReliable db}.

(** What every store keeps: the pages that were there are still there. *)
Definition keeps (d d' : db) : Prop :=
  ∀ r, TAB ∉ ne_name r → is_Some (page_at (db_view d) r) → is_Some (page_at (db_view d') r).

#[export] Instance keeps_preorder : PreOrder keeps.
Proof. split; [by intros ???|]. intros a b c Hab Hbc r Hr Hs. by apply Hbc, Hab. Qed.

Definition storable (name : cstr) : Prop := field_ok name ∧ name_to_key name ≠ VER_KEY.

(** [dbstore] always returns; unless it reports an error the index is
    well-formed, holds the page, and holds what it held. *)
Lemma dbstore_total (dbf : db) i base :
  wf (db_view dbf) → entry_ok (set_name None i) → storable base →
  ∃ ret i' dbf', dbstore dbf i base = Ret (ret, i', dbf') ∧
    (¬ (0 < ret)%Z → wf (db_view dbf') ∧ is_Some (page_at (db_view dbf') (NameExt base (md_ext i))) ∧
       keeps dbf dbf').
Proof.
  intros Hwf Hi [Hb Hv]. destruct (decide (base = [])) as [->|Hne].
  { exists 2%Z, i, dbf. unfold dbstore. simpl. split; [done|]. lia. }
  destruct (dbstore_returns i base Hi Hb Hne Hv dbf Hwf) as (ret & d & Heq & [[_ [Hw Hp]]|(_ & -> & _)]).
  - do 3 eexists. split; [exact Heq|]. intros _. split; [done|].
    split; [|intros r Hr Hs]; rewrite Hp; try done; try apply Hb;
      unfold store_spec, upd; destruct (page_at (db_view dbf) (NameExt base (md_ext (set_name None i)))) as [old|] eqn:E;
      try (destruct (replace_decision _ old)); cbn [snd]; try (case_decide; by eauto); by eauto.
  - do 3 eexists. split; [exact Heq|]. lia.
Qed.

Lemma store_references_total (dbf : db) pointer ws :
  wf (db_view dbf) → Forall (λ nw, storable nw.1 ∧ entry_ok (set_pointer pointer nw.2)) ws →
  ∃ ok dbf', store_references dbf pointer ws = Ret (ok, dbf') ∧
    (ok = true → wf (db_view dbf') ∧ keeps dbf dbf' ∧
      ∀ n w, (n, w) ∈ ws → is_Some (page_at (db_view dbf') (NameExt n (md_ext w)))).
Proof.
  intros Hwf Hall. revert dbf Hwf. induction Hall as [|[n w] ws [Hn Hw] Hall IH]; intros dbf Hwf; simpl.
  { do 2 eexists. split; [done|]. intros _. split_and!; [done|done|]. by intros ?? ?%elem_of_nil. }
  destruct (dbstore_total dbf (set_pointer pointer w) n Hwf Hw Hn) as (ret & i' & d & -> & Hret).
  rewrite bind_Ret. case_decide as Hr; [by do 2 eexists|]. apply Hret in Hr as (Hwf' & Hpage & Hk).
  destruct (IH d Hwf') as (ok & d' & -> & Hd'). do 2 eexists. split; [done|].
  intros Hok. destruct (Hd' Hok) as (? & Hk' & Hin). split_and!; [done|by etrans|].
  intros m v [[= -> ->]|Hm]%elem_of_cons; [|by apply Hin]. apply Hk'; [apply Hn|done].
Qed.

(** The pages of a trace have members that can be stored, and so has
    everything the file system says of times. *)
Definition trace_ok (infos : gmap cstr (option mandata)) : Prop :=
  map_Forall (λ _ oi, ∀ ti, oi = Some ti →
    field_ok (md_ext ti) ∧ field_ok (md_sec ti) ∧ field_ok (default [] (md_comp ti)) ∧
    ∃ n, md_name ti = Some n ∧ field_ok n) infos.
Definition times_ok : Prop :=
  ∀ t st, fs_lstat t = Some st → is_long (tv_sec (st_mtim st)) ∧ is_long (tv_nsec (st_mtim st)).

Definition desc_ok (d : page_description) : Prop :=
  storable (desc_name d) ∧ nonul (default [] (desc_whatis d)).

Context (infos : gmap cstr (option mandata)) (info : mandata) (path : option cstr).
Hypotheses (Hinfos : trace_ok infos) (Htimes : times_ok) (Hinfo : entry_ok (set_name None info)).

Lemma trace_info_ok t ti :
  trace_info infos t = Some ti →
  field_ok (md_ext ti) ∧ field_ok (md_sec ti) ∧ field_ok (default [] (md_comp ti)) ∧
  ∃ n, md_name ti = Some n ∧ field_ok n.
Proof using Hinfos.
  unfold trace_info. intros Ht. destruct (infos !! t) as [oi|] eqn:E; simpl in Ht; [|done].
  by eapply (Hinfos t oi).
Qed.

Lemma trace_loop_ok name trace w found :
  md_name w = None → entry_ok w →
  let '(w', _, _) := trace_loop infos info path name trace w found in md_name w' = None ∧ entry_ok w'.
Proof using All.
  revert w found. induction trace as [|t trace IH]; intros w found Hn Hw; simpl; [done|].
  destruct (trace_info infos t) as [ti|] eqn:E; [|by apply IH].
  destruct (negb _); [by apply IH|]. destruct (match path with Some _ => _ | None => _ end); [done|].
  apply IH; [done|]. apply trace_info_ok in E as (? & ? & ? & _).
  destruct Hw, Hinfo. split; simpl in *; try done.
  - by repeat case_bool_decide.
  - destruct (fs_lstat t) as [st|] eqn:Es; [by eapply Htimes|done].
Qed.

Lemma trace_loop_absent name trace w :
  (∀ t ti, t ∈ trace → trace_info infos t = Some ti → md_name ti ≠ Some name) →
  trace_loop infos info path name trace w false = (w, false, false).
Proof using Type.
  induction trace as [|t trace IH]; intros Hall; simpl; [done|].
  assert (trace_loop infos info path name trace w false = (w, false, false)) as ->
    by (apply IH; intros t' ti Ht'; apply Hall; by right).
  destruct (trace_info infos t) as [ti|] eqn:E; [|done].
  by rewrite bool_decide_eq_false_2 by (eapply Hall; [by left|done]).
Qed.

Definition reference_ok (nw : cstr * mandata) : Prop :=
  storable nw.1 ∧ entry_ok nw.2 ∧ md_name nw.2 = None.

Lemma whatis_reference_ok w : entry_ok w → entry_ok (whatis_reference info w).
Proof using Type. intros []. split; simpl; try done; [by destruct (char_cmp _ _)|compute_done]. Qed.

Lemma whatis_entry_ok d : desc_ok d → entry_ok (whatis_entry info d).
Proof using Hinfo. intros [_ Hw]. destruct Hinfo. split; simpl in *; try done. compute_done. Qed.

(** The name is the page's own, or no page of the trace has it. *)
Definition own_name (base : cstr) (trace : list cstr) (name : cstr) : Prop :=
  name = base ∨ ∀ t ti, t ∈ trace → trace_info infos t = Some ti → md_name ti ≠ Some name.

Lemma store_pages_total (dbf : db) descs base trace ws :
  wf (db_view dbf) → Forall desc_ok descs → Forall reference_ok ws →
  ∃ ok dbf' ws', store_pages dbf infos descs info path base trace ws = Ret (ok, dbf', ws') ∧
    (ok = true → wf (db_view dbf') ∧ keeps dbf dbf' ∧ Forall reference_ok ws' ∧ ws ⊆ ws' ∧
      ∀ d, d ∈ descs → own_name base trace (desc_name d) →
        is_Some (page_at (db_view dbf') (NameExt (desc_name d) (md_ext info))) ∨
        ∃ w, (desc_name d, w) ∈ ws' ∧ md_ext w = md_ext info).
Proof using All.
  intros Hwf Hall. revert dbf ws Hwf. induction Hall as [|d descs Hd Hall IH]; intros dbf ws Hwf Hws; cbn [store_pages].
  { do 3 eexists. split; [done|]. intros _. split_and!; try done. by intros ??%elem_of_nil. }
  assert (∃ w found ext, (if STREQ base (desc_name d) then (whatis_entry info d, true, false)
      else trace_loop infos info path (desc_name d) trace (whatis_entry info d) false) = (w, found, ext) ∧
    md_name w = None ∧ entry_ok w ∧
    (own_name base trace (desc_name d) → md_ext w = md_ext info ∧ ext = false))
    as (w & found & ext & -> & Hn & Hw & Hown).
  { pose proof (whatis_entry_ok d Hd) as Hw. destruct (STREQ base (desc_name d)) eqn:Es.
    - do 3 eexists. split; [done|]. split_and!; by try done.
    - pose proof (trace_loop_ok (desc_name d) trace (whatis_entry info d) false eq_refl Hw) as Hl.
      destruct (trace_loop infos info path (desc_name d) trace (whatis_entry info d) false) as [[w found] ext] eqn:El.
      do 3 eexists. split; [done|]. split_and!; [apply Hl..|]. intros [Heq|Habs]; [by apply STREQ_false in Es|].
      rewrite trace_loop_absent in El by done. by simplify_eq. }
  destruct ext; [|destruct found].
  - destruct (IH dbf ws Hwf Hws) as (ok & d' & ws' & Heq & Hok). do 3 eexists. split; [exact Heq|].
    intros Ht. destruct (Hok Ht) as (? & ? & ? & ? & Hin). split_and!; try done.
    intros d0 [->|Hd0]%elem_of_cons Ho; [by apply Hown in Ho as []|by apply Hin].
  - cbn [negb]. destruct (dbstore_total dbf w (desc_name d) Hwf) as (ret & i' & d1 & -> & Hret);
      [by destruct w; simpl in *; subst|apply Hd|].
    rewrite bind_Ret. case_decide as Hr; [by do 3 eexists|]. destruct (Hret Hr) as (Hwf1 & Hp & Hk1).
    destruct (IH d1 ws Hwf1 Hws) as (ok & d' & ws' & Heq & Hok). do 3 eexists. split; [exact Heq|].
    intros Ht. destruct (Hok Ht) as (? & Hk & ? & ? & Hin). split_and!; try done; [by etrans|].
    intros d0 [->|Hd0]%elem_of_cons Ho; [left|by apply Hin]. apply Hk; [apply Hd|].
    by rewrite <-(proj1 (Hown Ho)).
  - cbn [negb]. destruct (IH dbf (ws ++ [(desc_name d, whatis_reference info w)]) Hwf) as (ok & d' & ws' & Heq & Hok).
    { apply Forall_app. split; [done|]. apply Forall_singleton.
      split; [apply Hd|]. split; [by apply whatis_reference_ok|done]. }
    do 3 eexists. split; [exact Heq|]. intros Ht. destruct (Hok Ht) as (? & Hk & ? & Hsub & Hin).
    split_and!; try done; [set_solver|].
    intros d0 [->|Hd0]%elem_of_cons Ho; [right|by apply Hin]. exists (whatis_reference info w).
    split; [apply Hsub, elem_of_app; right; by left|].
    by rewrite <-(proj1 (Hown Ho)).
Qed.

Lemma store_descriptions_returns (dbf : db) descs base trace p n :
  wf (db_view dbf) → Forall desc_ok descs → trace ≠ [] → trace_infos cfg trace = Ret infos →
  pointer_info infos info trace = Some p → md_name p = Some n → field_ok n →
  ∃ ok dbf', store_descriptions cfg dbf descs info path base trace = Ret (ok, dbf') ∧
    (ok = true → wf (db_view dbf') ∧ keeps dbf dbf' ∧
      ∀ d, d ∈ descs → own_name base trace (desc_name d) →
        is_Some (page_at (db_view dbf') (NameExt (desc_name d) (md_ext info)))).
Proof using All.
  intros Hwf Hdescs Htr Hti Hp Hn Hnok. unfold store_descriptions.
  rewrite bool_decide_eq_false_2, Hti by done. rewrite bind_Ret.
  destruct (store_pages_total dbf descs base trace [] Hwf Hdescs) as (ok & d1 & ws & -> & Hok); [constructor|].
  rewrite bind_Ret. destruct ok; cbn [negb]; [|by do 2 eexists].
  destruct (Hok eq_refl) as (Hwf1 & Hk1 & Hws & _ & Hin). rewrite Hp, Hn. cbn [or_undef]. rewrite bind_Ret.
  destruct (store_references_total d1 n ws Hwf1) as (ok & d2 & -> & Hok2).
  { eapply Forall_impl; [done|]. intros [m w] (? & [] & _). split; [done|]. by split. }
  do 2 eexists. split; [done|]. intros ->. destruct (Hok2 eq_refl) as (Hwf2 & Hk2 & Hin2).
  split_and!; [done|by etrans|]. intros d Hd Ho. destruct (Hin d Hd Ho) as [Hs|(w & Hw & <-)].
  - apply Hk2; [|done]. rewrite Forall_forall in Hdescs. apply (Hdescs d Hd).
  - by apply Hin2.
Qed.

End store_theorems.

(** ** Evaluation *)

Lemma parse_descriptions_roundtrip_witness :
  parse_descriptions None (Some (lit "ls, dir - list directory contents")) =
    [Desc (lit "ls") (Some (lit "list directory contents"));
     Desc (lit "dir") (Some (lit "list directory contents"))].
Proof.
  refine (parse_descriptions_roundtrip [([lit "ls"; lit "dir"], lit "list directory contents")] _ _).
  - done.
  - apply (bool_decide_unpack _). by vm_compute.
Defined.

Definition ls_path : cstr := lit "/usr/man/man1/ls.1".
Definition ls_info : mandata :=
  Mandata (Some (lit "ls")) (lit "1") (lit "1") NUL None None None None (Timespec 0 0).

Lemma ls_infos : trace_infos all_comp [ls_path] = Ret {[ls_path := Some ls_info]}.
Proof.
  assert (filename_info all_comp ls_path = Ret (Some ls_info)) as Hi by by vm_compute.
  cbn [trace_infos]. by rewrite Hi.
Qed.


(** A NAME section with two commas around a blank yields an empty name, which
    [dbstore] refuses; the names after it are then never stored. *)
Example empty_name_stops :
  (let descs := parse_descriptions (Some (lit "foo")) (Some (lit "foo, , bar - do things")) in
   '(ok, d) ← store_descriptions (H:=full_fs) all_comp (∅ : gmap cstr cstr) descs (page "A" "1" None) None
     (lit "foo") [lit "/usr/man/man1/foo.1"];
   bar ← dblookup_all d (lit "bar") None true;
   Ret (map desc_name descs, ok, map md_name bar)) =
  Ret ([lit "foo"; []; lit "bar"], false, []).
Proof. by vm_compute. Qed.
