(* ===== verification/Lexgrog.v ===== *)
(** * src/lexgrog.l: the NAME section of a page

    The scanner that reads a page, or a formatted page, and leaves what its
    NAME section says in a buffer, with the filters the page asks for.  The
    rules are the scanner's, in its order; how flex chooses among them is in
    Regex. *)

From S2P Require Import Prelude CStr Xdbm Globbing Descriptions Regex.

(** ** The scanner's state *)

Inductive cond :=
  | MAN_PRENAME | MAN_NAME | MAN_DESC | MAN_DESC_AT | MAN_DESC_BSX | MAN_DESC_BX | MAN_DESC_BX_RELEASE
  | MAN_DESC_DQ | MAN_DESC_FX | MAN_DESC_NX | MAN_DESC_OX | CAT_NAME | CAT_FILE | MAN_FILE | CAT_REST | MAN_REST
  | FORCE_EXIT.
#[export] Instance cond_eq_dec : EqDecision cond.
Proof. solve_decision. Defined.

(** [lx_name]: what [newname] holds before [p_name]; [lx_echo]: what flex's
    default rule writes to the standard output. *)
Record lexer := Lexer {
  lx_cond : cond; lx_name : list ascii; lx_filters : list ascii; fill_mode : bool; waiting_for_quote : bool;
  lx_echo : list ascii;
}.

Definition set_cond (c : cond) (x : lexer) : lexer :=
  Lexer c (lx_name x) (lx_filters x) (fill_mode x) (waiting_for_quote x) (lx_echo x).
Definition set_name (n : list ascii) (x : lexer) : lexer :=
  Lexer (lx_cond x) n (lx_filters x) (fill_mode x) (waiting_for_quote x) (lx_echo x).
Definition set_filters (f : list ascii) (x : lexer) : lexer :=
  Lexer (lx_cond x) (lx_name x) f (fill_mode x) (waiting_for_quote x) (lx_echo x).
Definition set_fill (b : bool) (x : lexer) : lexer :=
  Lexer (lx_cond x) (lx_name x) (lx_filters x) b (waiting_for_quote x) (lx_echo x).
Definition set_quote (b : bool) (x : lexer) : lexer :=
  Lexer (lx_cond x) (lx_name x) (lx_filters x) (fill_mode x) b (lx_echo x).
Definition add_echo (e : list ascii) (x : lexer) : lexer :=
  Lexer (lx_cond x) (lx_name x) (lx_filters x) (fill_mode x) (waiting_for_quote x) (lx_echo x ++ e).

Definition SP : ascii := " "%char.
Definition CR : ascii := "013"%char.
Definition BACKSLASH : ascii := "\"%char.

(** ** What the rules do with the buffer *)

Definition MAX_NAME : Z := 8192.

Definition fits (x : lexer) (n : nat) : bool := (Z.of_nat (length (lx_name x)) + Z.of_nat n <? MAX_NAME)%Z.

Definition too_big (x : lexer) : lexer := set_cond FORCE_EXIT x.

(** [strncpy] copies up to a NUL and fills the rest with NULs. *)
Definition strncpy (s : list ascii) (n : nat) : list ascii :=
  let t := xstrndup (take n s) in t ++ replicate (n - length t) NUL.

Definition add_str_to_whatis (s : list ascii) (n : nat) (x : lexer) : lexer :=
  if fits x n then set_name (lx_name x ++ strncpy s n) x else too_big x.

Definition add_char_to_whatis (c : ascii) (x : lexer) : lexer :=
  if negb (fits x 1) then too_big x
  else if waiting_for_quote x && Ascii.eqb c DQUOTE then set_quote false x
  else set_name (lx_name x ++ [c]) x.

(** [p_name != newname && *(p_name - 1) != ' '] *)
Definition needs_space (x : lexer) : bool :=
  match last (lx_name x) with Some c => negb (Ascii.eqb c SP) | None => false end.

Definition add_separator_to_whatis (x : lexer) : lexer :=
  add_str_to_whatis (lit "- ") 2 (if needs_space x then add_char_to_whatis SP x else x).

(** [while (length && string[length - 1] == ' ') --length;] *)
Fixpoint trim_length (s : list ascii) (n : nat) : nat :=
  match n with
  | 0 => 0
  | S m => match s !! m with Some c => if Ascii.eqb c SP then trim_length s m else n | None => n end
  end.

Definition add_wordn_to_whatis (s : list ascii) (n : nat) (x : lexer) : lexer :=
  let x := if needs_space x then add_char_to_whatis SP x else x in
  let n := trim_length s n in
  if bool_decide (n = 0) then x else add_str_to_whatis s n x.

Definition add_word_to_whatis (s : cstr) (x : lexer) : lexer := add_wordn_to_whatis s (length s) x.

Definition glyphs : list (cstr * cstr) := [
  (lit "'A", lit "Á"); (lit "'C", lit "Ć"); (lit "'E", lit "É"); (lit "'I", lit "Í"); (lit "'O", lit "Ó");
  (lit "'U", lit "Ú"); (lit "'Y", lit "Ý"); (lit "'a", lit "á"); (lit "'c", lit "ć"); (lit "'e", lit "é");
  (lit "'i", lit "í"); (lit "'o", lit "ó"); (lit "'u", lit "ú"); (lit "'y", lit "ý"); (lit ",C", lit "Ç");
  (lit ",c", lit "ç"); (lit "-D", lit "Ð"); (lit ".i", lit "ı"); (lit "/L", lit "Ł"); (lit "/O", lit "Ø");
  (lit "/l", lit "ł"); (lit "/o", lit "ø"); (lit ":A", lit "Ä"); (lit ":E", lit "Ë"); (lit ":I", lit "Ï");
  (lit ":O", lit "Ö"); (lit ":U", lit "Ü"); (lit ":Y", lit "Ÿ"); (lit ":a", lit "ä"); (lit ":e", lit "ë");
  (lit ":i", lit "ï"); (lit ":o", lit "ö"); (lit ":u", lit "ü"); (lit ":y", lit "ÿ"); (lit "AE", lit "Æ");
  (lit "Bq", lit "„"); (lit "Fc", lit "»"); (lit "Fi", lit "ffi"); (lit "Fl", lit "ffl");
  (lit "Fo", lit "«"); (lit "IJ", lit "Ĳ"); (lit "OE", lit "Œ"); (lit "Sd", lit "ð"); (lit "TP", lit "Þ");
  (lit "Tp", lit "þ"); (lit "^A", lit "Â"); (lit "^E", lit "Ê"); (lit "^I", lit "Î"); (lit "^O", lit "Ô");
  (lit "^U", lit "Û"); (lit "^a", lit "â"); (lit "^e", lit "ê"); (lit "^i", lit "î"); (lit "^o", lit "ô");
  (lit "^u", lit "û"); (lit "`A", lit "À"); (lit "`E", lit "È"); (lit "`I", lit "Ì"); (lit "`O", lit "Ò");
  (lit "`U", lit "Ù"); (lit "`a", lit "à"); (lit "`e", lit "è"); (lit "`i", lit "ì"); (lit "`o", lit "ò");
  (lit "`u", lit "ù"); (lit "a" ++ [DQUOTE], lit "˝"); (lit "a-", lit "¯"); (lit "a.", lit "˙");
  (lit "a^", lit "^"); (lit "aa", lit "´"); (lit "ab", lit "˘"); (lit "ac", lit "¸"); (lit "ad", lit "¨");
  (lit "ae", lit "æ"); (lit "ah", lit "ˇ"); (lit "ao", lit "˚"); (lit "aq", lit "'"); (lit "a~", lit "~");
  (lit "bq", lit "‚"); (lit "cq", lit "’"); (lit "dq", [DQUOTE]); (lit "em", lit "—"); (lit "en", lit "–");
  (lit "fc", lit "›"); (lit "ff", lit "ff"); (lit "fi", lit "fi"); (lit "fl", lit "fl"); (lit "fo", lit "‹");
  (lit "ga", lit "`"); (lit "ha", lit "^"); (lit "ho", lit "˛"); (lit "hy", lit "‐"); (lit "ij", lit "ĳ");
  (lit "lq", lit "“"); (lit "oA", lit "Å"); (lit "oa", lit "å"); (lit "oe", lit "œ"); (lit "oq", lit "‘");
  (lit "r!", lit "¡"); (lit "r?", lit "¿"); (lit "rq", lit "”"); (lit "ss", lit "ß"); (lit "ti", lit "~");
  (lit "vS", lit "Š"); (lit "vZ", lit "Ž"); (lit "vs", lit "š"); (lit "vz", lit "ž"); (lit "~A", lit "Ã");
  (lit "~N", lit "Ñ"); (lit "~O", lit "Õ"); (lit "~a", lit "ã"); (lit "~n", lit "ñ"); (lit "~o", lit "õ")
].

Definition perldocs : list (cstr * cstr) := [
  (lit "--", lit "-"); (lit "Aq", lit "'"); (lit "C'", lit "'"); (lit "C+", lit "C++"); (lit "C`", lit "`");
  (lit "L" ++ [DQUOTE], [DQUOTE]); (lit "PI", lit "π"); (lit "R" ++ [DQUOTE], [DQUOTE])
].

Definition compare_macro (key : list ascii) (n : nat) (value : cstr * cstr) : comparison :=
  match strncmp n key (value.1 ++ [NUL]) with
  | Eq => match cget value.1 n with Some c => if Ascii.eqb c NUL then Eq else Lt | None => Lt end
  | cmp => cmp
  end.

Definition add_macro_to_whatis (macros : list (cstr * cstr)) (s : list ascii) (n : nat) (x : lexer) : lexer :=
  match bsearch (compare_macro s n) macros with
  | Some i => match macros !! i with Some m => add_str_to_whatis m.2 (length m.2) x | None => x end
  | None => x
  end.

Definition add_glyph_to_whatis : list ascii → nat → lexer → lexer := add_macro_to_whatis glyphs.
Definition add_perldoc_to_whatis : list ascii → nat → lexer → lexer := add_macro_to_whatis perldocs.

Definition mdoc_text (s : cstr) (x : lexer) : lexer := set_cond MAN_DESC (add_word_to_whatis s x).

Definition newline_found (x : lexer) : lexer :=
  set_quote false
    (if needs_space x then
       if fill_mode x then add_char_to_whatis SP x else set_cond MAN_NAME (add_char_to_whatis DC1 x)
     else x).

(** ** The patterns *)

(** A word whose first letter is a capital and whose other letters are either. *)
Definition caps (s : string) : regex :=
  match lit s with
  | [] => Eps
  | c :: s => cat (chr c) (foldr (λ c r, cat (Cls (one_of [toupper c; tolower c])) r) Eps s)
  end.

Section patterns.
Local Open Scope re_scope.

Definition digit : regex := Cls isdigit.
Definition upper : regex := Cls isupper.
Definition alpha : regex := Cls isalpha.
Definition alnum : regex := Cls isalnum.
Definition isblank (c : ascii) : bool := Ascii.eqb c SP || Ascii.eqb c TAB.
Definition blank : regex := Cls isblank.
Definition blank_eol : regex := Cls (λ c, isblank c || Ascii.eqb c CR || Ascii.eqb c NL)%bool.
Definition word : regex := alnum ++ Star (Cls (λ c, negb (isblank c || Ascii.eqb c CR || Ascii.eqb c NL))).
Definition eol : regex := opt (chr CR) ++ chr NL.
Definition bol : regex := plus eol.
Definition next : regex := Star eol.
Definition empty : regex := eol ++ Star blank.
Definition indent : regex := eol ++ plus blank.
Definition dbl_quote : regex := chr DQUOTE.
Definition font_change : regex :=
  str "\f" ++ (Cls (λ c, isupper c || one_of (lit "1234") c)%bool ∣ (str "(" ++ upper ++ upper)).
Definition size_change : regex := str "\s" ++ opt (set "+-") ++ digit.
Definition style_change : regex := (font_change ++ opt size_change) ∣ (size_change ++ opt font_change).
Definition typeface : regex :=
  str "." ++ ((str "B" ++ opt (set "IR")) ∣ (str "I" ++ opt (set "BR")) ∣ (str "R" ++ set "BI") ∣ (str "S" ++ set "BM")).
Definition sec_request : regex := str "." ++ set "Ss" ++ set "HhYySs".
Definition comment : regex := set "'." ++ str "\" ++ dbl_quote.

(** The title of the section, in many languages. *)
Definition name : regex := alts [
  any ["اﻹسم"; "الإسم"];
  str "И" ++ any ["М"; "м"] ++ any ["Е"; "е"];
  (caps "JM" ++ (any ["É"; "é"; "E"; "e"] ∣ (str "\('" ++ set "Ee")) ++ set "Nn" ++ set "Oo") ∣
    (str "N" ++ any ["Á"; "á"] ++ set "Zz" ++ set "Ee" ++ set "Vv");
  caps "NAVN"; caps "BEZEICHNUNG"; caps "NAME"; caps "NOMO"; caps "NOMBRE"; str "نام"; caps "NIMI"; caps "NOM";
  str "N" ++ (any ["É"; "é"; "E"; "e"] ∣ (str "\('" ++ set "Ee")) ++ set "Vv";
  caps "NAMA"; caps "NOME";
  any ["名"; "̾"] ++ any ["前"; "称"];
  any ["이름"; "명칭"];
  caps "NOMEN"; caps "PAVADINIMAS"; caps "NAAM"; caps "NAZWA"; caps "NUME";
  (str "И" ++ any ["М"; "м"] ++ any ["Я"; "я"]) ∣
    (str "Н" ++ any ["А"; "а"] ++ any ["З"; "з"] ++ any ["В"; "в"] ++ any ["А"; "а"] ++ any ["Н"; "н"] ++ any ["И"; "и"] ++ any ["Е"; "е"]) ∣
    (str "Н" ++ any ["А"; "а"] ++ any ["И"; "и"] ++ any ["М"; "м"] ++ any ["Е"; "е"] ++ any ["Н"; "н"] ++ any ["О"; "о"] ++
     any ["В"; "в"] ++ any ["А"; "а"] ++ any ["Н"; "н"] ++ any ["И"; "и"] ++ any ["Е"; "е"]);
  caps "MENO";
  (str "И" ++ any ["М"; "м"] ++ any ["Е"; "е"]) ∣ (str "Н" ++ any ["А"; "а"] ++ any ["З"; "з"] ++ any ["И"; "и"] ++ any ["В"; "в"]);
  caps "IME" ∣ caps "NAZIV";
  caps "NAMN"; str "பெய";
  caps "AD" ∣ (any ["İ"; "i"] ++ str "S" ++ any ["İ"; "i"] ++ str "M");
  str "Н" ++ any ["А"; "а"] ++ any ["З"; "з"] ++ any ["В"; "в"] ++ any ["А"; "а"];
  str "T" ++ any ["Ê"; "ê"] ++ set "Nn";
  str "名" ++ opt blank ++ any ["称"; "字"] ++ opt blank ++ Star dot;
  ((str "名" ++ opt blank ++ any ["稱"; "字"]) ∣ str "命令名") ++ opt blank ++ Star dot ].
Definition name_sec : regex :=
  opt dbl_quote ++ opt style_change ++ name ++ opt style_change ++ opt (Star blank ++ dbl_quote).
End patterns.

(** ** The rules *)

(** [rl_trail]: the pattern ends in [$], and the newline is left; [rl_less]:
    the argument of [yyless]; [rl_end]: [yyterminate ()] follows. *)
Record rule := Rule {
  rl_conds : list cond; rl_pat : regex; rl_trail : bool; rl_less : option nat;
  rl_act : list ascii → lexer → lexer; rl_end : bool;
}.

Definition on (cs : list cond) (pats : list regex) (act : list ascii → lexer → lexer) : list rule :=
  (λ p, Rule cs p false None act false) <$> pats.
Definition on_end_of_line (cs : list cond) (pats : list regex) (act : list ascii → lexer → lexer) : list rule :=
  (λ p, Rule cs (cat p (chr NL)) true None act false) <$> pats.
Definition less (n : nat) (rs : list rule) : list rule :=
  (λ r, Rule (rl_conds r) (rl_pat r) (rl_trail r) (Some n) (rl_act r) (rl_end r)) <$> rs.
Definition yyterminate (rs : list rule) : list rule :=
  (λ r, Rule (rl_conds r) (rl_pat r) (rl_trail r) (rl_less r) (rl_act r) true) <$> rs.

Definition nothing (yytext : list ascii) (x : lexer) : lexer := x.
Definition begin (c : cond) (yytext : list ascii) (x : lexer) : lexer := set_cond c x.
Definition filter_rule (i : nat) (c : ascii) (yytext : list ascii) (x : lexer) : lexer :=
  set_filters (<[i:=c]> (lx_filters x)) x.
Definition add_char (c : ascii) (yytext : list ascii) (x : lexer) : lexer := add_char_to_whatis c x.
Definition add_yytext (yytext : list ascii) (x : lexer) : lexer := add_str_to_whatis yytext (length yytext) x.
Definition add_glyph (yytext : list ascii) (x : lexer) : lexer := add_glyph_to_whatis (drop 2 yytext) 2 x.
Definition add_perldoc (k n : nat) (yytext : list ascii) (x : lexer) : lexer := add_perldoc_to_whatis (drop k yytext) n x.
Definition mdoc (s : string) (yytext : list ascii) (x : lexer) : lexer := mdoc_text (lit s) x.

Definition bsd_word (s : string) (yytext : list ascii) (x : lexer) : lexer :=
  set_cond MAN_DESC (add_wordn_to_whatis yytext (length yytext) (add_word_to_whatis (lit s) x)).
Definition bsd_release (s : string) (yytext : list ascii) (x : lexer) : lexer :=
  set_cond MAN_DESC (add_str_to_whatis (lit s) (String.length s) x).

Definition dquoted (yytext : list ascii) (x : lexer) : lexer :=
  set_cond MAN_DESC (add_char_to_whatis DQUOTE (add_str_to_whatis yytext (length yytext) x)).

Section rules.
Local Open Scope re_scope.

Definition dashes : regex := any ["mi"; "hy"; "em"; "en"].
Definition blanks : regex := Star blank.
Definition quoted_arg : regex := str "'" ++ plus (notin (lit "'")) ++ str "'".

Definition file_rules : list rule := concat [
  on [MAN_FILE] [sec_request ++ plus blank_eol ++ name_sec ++ blanks] (begin MAN_PRENAME);
  on [CAT_FILE] [empty ++ plus empty ++ name ++ blanks ++ indent] (begin CAT_NAME);
  on [MAN_FILE] [
    str "." ++ notin (lit "Ss" ++ [CR; NL])%list ++ Star dot;
    str "." ++ upto 3 dot ++ opt dbl_quote ++ upto 4 dot ++ opt dbl_quote;
    comment ++ Star dot;
    dot ∣ eol ] nothing;
  on [CAT_FILE] [dot ++ upto 8 dot; Star (str " "); eol ++ plus eol; dot ∣ eol] nothing ].

Definition rest_rules : list rule := concat [
  on [MAN_REST] [bol ++ str ".TS"] (filter_rule 0 "t");
  on [MAN_REST] [bol ++ str ".EQ"] (filter_rule 1 "e");
  on [MAN_REST] [bol ++ str ".PS"] (filter_rule 2 "p");
  on [MAN_REST] [bol ++ str ".G1"] (filter_rule 3 "g");
  on [MAN_REST] [bol ++ str ".R1"; bol ++ str ".["] (filter_rule 4 "r");
  on [MAN_REST] [bol ++ str ".vS"] (filter_rule 5 "v");
  on [MAN_REST] [plus dot; eol] nothing;
  yyterminate (on [FORCE_EXIT] [dot ∣ eol] nothing) ].

Definition prename_rules : list rule := concat [
  on [MAN_PRENAME] [bol ++ sec_request ++ blanks] (begin MAN_REST);
  less 0 (on [MAN_PRENAME] [
    bol ++ typeface ++ blank ++ Star dot;
    bol ++ str ".Tn" ++ blank ++ Star dot;
    bol ++ str ".ft" ++ blank ++ Star dot;
    bol ++ str ".V" ++ set "be" ++ blank ++ Star dot;
    bol ++ str ".IX" ++ blank ++ Star dot;
    bol ++ str ".Nm" ++ blank ++ Star dot ] (begin MAN_NAME));
  on [MAN_PRENAME] [bol ++ set "'." ++ Star dot] nothing;
  less 1 (on [MAN_PRENAME] [empty ++ eol] nothing);
  less 0 (on [MAN_PRENAME] [dot ∣ eol] (begin MAN_NAME)) ].

Definition end_rules : list rule := concat [
  on [MAN_NAME; MAN_DESC] [
    bol ++ sec_request ++ blanks;
    bol ++ str ".X" ++ upper ++ plus blank;
    bol ++ str ".sp" ++ blanks;
    bol ++ str ".ig" ++ blanks;
    bol ++ str ".de" ++ opt (set "1i") ++ blanks;
    bol ++ str ".i" ++ set "ef" ++ blanks;
    empty ++ bol ++ plus dot ] (begin MAN_REST);
  yyterminate (on [CAT_NAME] [
    bol ++ str "S" ++ set "yYeE";
    eol ++ plus eol ++ plus dot;
    next ++ str "__" ] (begin CAT_REST)) ].

Definition roff_rules : list rule := concat [
  on [MAN_NAME; MAN_DESC] [bol ++ typeface ++ plus blank ++ dbl_quote] (λ _ x, set_quote true (newline_found x));
  on [MAN_NAME; MAN_DESC] [
    bol ++ typeface ++ plus blank;
    bol ++ str ".Tn" ++ plus blank;
    bol ++ str ".ft" ++ blank ++ Star dot;
    bol ++ str ".V" ++ set "be" ++ blank ++ Star dot;
    bol ++ str ".IX" ++ blank ++ Star dot;
    bol ++ str ".Nm" ++ plus blank;
    bol ++ str ".PD" ++ blanks;
    bol ++ str "\&";
    next ++ comment ++ Star dot ] (λ _, newline_found);
  on_end_of_line [MAN_NAME; MAN_DESC] [bol ++ str "." ++ blanks; bol ++ str ".."] (λ _, newline_found);
  on [MAN_NAME; MAN_DESC] [bol ++ str ".nf" ++ Star dot] (λ _, set_fill false);
  on [MAN_NAME; MAN_DESC] [bol ++ str ".fi" ++ Star dot] (λ _, set_fill true);
  on [CAT_NAME] [str "-" ++ eol ++ Star blank_eol] nothing ].

Definition dash_rules : list rule := concat [
  on [MAN_NAME] [
    next ++ blanks ++ str "\(" ++ dashes ++ blanks;
    next ++ blanks ++ str "\[" ++ dashes ++ str "]" ++ blanks;
    next ++ plus blank_eol ++ set "-\" ++ str "-" ++ blanks;
    next ++ Star blank_eol ++ set "-\" ++ str "-" ++ plus blank;
    bol ++ str ".Nd" ++ blanks ] (λ _ x, set_cond MAN_DESC (add_separator_to_whatis x));
  on [CAT_NAME] [next ++ plus blank ++ str "-" ++ opt (str "-") ++ plus blank_eol] (λ _, add_separator_to_whatis) ].

Definition escape_rules : list rule := concat [
  on [MAN_NAME; MAN_DESC] [next ++ str "\" ++ set "\e"] (add_char BACKSLASH);
  on [MAN_NAME; MAN_DESC] [next ++ str "\" ++ any ["'"; "(aa"]] (add_char "'");
  on [MAN_NAME; MAN_DESC] [next ++ str "\" ++ any ["`"; "(ga"]] (add_char "`");
  on [MAN_NAME; MAN_DESC] [next ++ str "\" ++ (str "-" ∣ (str "(" ++ dashes)); next ++ str "\[" ++ dashes ++ str "]"] (add_char "-");
  on [MAN_NAME; MAN_DESC] [next ++ str "\."] (add_char ".");
  on [MAN_NAME; MAN_DESC] [next ++ Star ((str "\" ++ set " 0t~") ∣ str " " ∣ chr TAB)] (add_char SP);
  on [MAN_NAME; MAN_DESC] [next ++ str "\(" ++ any ["ru"; "ul"]] (add_char "_");
  on [MAN_NAME; MAN_DESC] [next ++ str "\\t"] (add_char TAB);
  on [MAN_NAME; MAN_DESC] [
    next ++ str "\" ++ Cls (one_of (lit "|^&!%acdpruz{}" ++ [CR; NL]));
    next ++ str "\" ++ set "bhlLvx" ++ blanks ++ quoted_arg;
    next ++ str "\$" ++ Cls (in_range 49 57) ] nothing;
  on [MAN_NAME; MAN_DESC] [next ++ (str "\(" ++ dot ++ dot ∣ str "\[" ++ dot ++ dot ++ str "]")] add_glyph;
  on [MAN_NAME; MAN_DESC] [next ++ (str "\*(" ++ dot ++ dot ∣ str "\*[" ++ dot ++ dot ++ str "]")] (add_perldoc 3 2);
  on [MAN_NAME; MAN_DESC] [next ++ str "\*" ++ dot] (add_perldoc 2 1);
  on [MAN_NAME; MAN_DESC] [
    next ++ str "\" ++ Cls (one_of [DQUOTE; "#"%char]) ++ Star dot;
    next ++ font_change;
    next ++ str "\k" ++ alpha;
    next ++ str "\n" ++ opt (str "(" ++ alpha) ++ alpha;
    next ++ str "\o" ++ dbl_quote ++ plus (notin [DQUOTE]) ++ dbl_quote;
    next ++ size_change;
    next ++ str "\w" ++ blanks ++ quoted_arg ++ Star (notin [SP; TAB]);
    next ++ str "\";
    next ++ str "(\|)" ++ blanks ] nothing ].

Definition mdoc_rules : list rule := concat [
  on [MAN_DESC] [bol ++ str ".At" ++ blanks] (begin MAN_DESC_AT);
  on [MAN_DESC] [bol ++ str ".Bsx" ++ blanks] (begin MAN_DESC_BSX);
  on [MAN_DESC] [bol ++ str ".Bx" ++ blanks] (begin MAN_DESC_BX);
  on [MAN_DESC] [bol ++ str ".Fx" ++ blanks] (begin MAN_DESC_FX);
  on [MAN_DESC] [bol ++ str ".Nx" ++ blanks] (begin MAN_DESC_NX);
  on [MAN_DESC] [bol ++ str ".Ox" ++ blanks] (begin MAN_DESC_OX);
  on [MAN_DESC] [bol ++ str ".Ux" ++ blanks] (λ _, add_word_to_whatis (lit "UNIX"));
  on [MAN_DESC] [bol ++ str ".Dq" ++ blanks] (λ _ x, set_cond MAN_DESC_DQ (add_word_to_whatis [DQUOTE] x)) ].

Definition at_rules : list rule := concat [
  on [MAN_DESC_AT] [str "32v" ++ blanks] (mdoc "Version 32V AT&T UNIX");
  on [MAN_DESC_AT] [str "v1" ++ blanks] (mdoc "Version 1 AT&T UNIX");
  on [MAN_DESC_AT] [str "v2" ++ blanks] (mdoc "Version 2 AT&T UNIX");
  on [MAN_DESC_AT] [str "v3" ++ blanks] (mdoc "Version 3 AT&T UNIX");
  on [MAN_DESC_AT] [str "v4" ++ blanks] (mdoc "Version 4 AT&T UNIX");
  on [MAN_DESC_AT] [str "v5" ++ blanks] (mdoc "Version 5 AT&T UNIX");
  on [MAN_DESC_AT] [str "v6" ++ blanks] (mdoc "Version 6 AT&T UNIX");
  on [MAN_DESC_AT] [str "v7" ++ blanks] (mdoc "Version 7 AT&T UNIX");
  on [MAN_DESC_AT] [str "V" ++ blanks] (mdoc "AT&T System V UNIX");
  on [MAN_DESC_AT] [str "V" ++ dot ++ str "1" ++ blanks] (mdoc "AT&T System V.1 UNIX");
  on [MAN_DESC_AT] [str "V" ++ dot ++ str "2" ++ blanks] (mdoc "AT&T System V.2 UNIX");
  on [MAN_DESC_AT] [str "V" ++ dot ++ str "3" ++ blanks] (mdoc "AT&T System V.3 UNIX");
  on [MAN_DESC_AT] [str "V" ++ dot ++ str "4" ++ blanks] (mdoc "AT&T System V.4 UNIX");
  less 0 (on [MAN_DESC_AT] [dot ∣ eol] (mdoc "AT&T UNIX")) ].

Definition bsd_rules : list rule := concat [
  on [MAN_DESC_BSX] [word] (bsd_word "BSD/OS");
  less 0 (on [MAN_DESC_BSX] [dot ∣ eol] (mdoc "BSD/OS"));
  on [MAN_DESC_BX] [str "-alpha" ++ blanks] (mdoc "BSD (currently in alpha test)");
  on [MAN_DESC_BX] [str "-beta" ++ blanks] (mdoc "BSD (currently in beta test)");
  on [MAN_DESC_BX] [str "-devel" ++ blanks] (mdoc "BSD (currently under development");
  on [MAN_DESC_BX] [word ++ blanks] (λ yytext x,
    set_cond MAN_DESC_BX_RELEASE (add_str_to_whatis (lit "BSD") 3 (add_wordn_to_whatis yytext (length yytext) x)));
  less 0 (on [MAN_DESC_BX] [dot ∣ eol] (mdoc "BSD"));
  on [MAN_DESC_BX_RELEASE] [set "Rr" ++ str "eno" ++ blanks] (bsd_release "-Reno");
  on [MAN_DESC_BX_RELEASE] [set "Tt" ++ str "ahoe" ++ blanks] (bsd_release "-Tahoe");
  on [MAN_DESC_BX_RELEASE] [set "Ll" ++ str "ite" ++ blanks] (bsd_release "-Lite");
  on [MAN_DESC_BX_RELEASE] [set "Ll" ++ str "ite2" ++ blanks] (bsd_release "-Lite2");
  less 0 (on [MAN_DESC_BX_RELEASE] [dot ∣ eol] (begin MAN_DESC));
  on [MAN_DESC_DQ] [Star dot] dquoted;
  on [MAN_DESC_FX] [word] (bsd_word "FreeBSD");
  less 0 (on [MAN_DESC_FX] [dot ∣ eol] (mdoc "FreeBSD"));
  on [MAN_DESC_NX] [word] (bsd_word "NetBSD");
  less 0 (on [MAN_DESC_NX] [dot ∣ eol] (mdoc "NetBSD"));
  on [MAN_DESC_OX] [word] (bsd_word "OpenBSD");
  less 0 (on [MAN_DESC_OX] [dot ∣ eol] (mdoc "OpenBSD")) ].

Definition text_rules : list rule := concat [
  on [CAT_NAME] [next ++ Star (str "\ " ∣ blank)] (add_char SP);
  on [MAN_NAME; MAN_DESC] [
    bol ++ str ".br" ++ blanks;
    bol ++ str ".LP" ++ blanks;
    bol ++ str ".PP" ++ blanks;
    bol ++ str ".P" ++ blanks;
    bol ++ str ".IP" ++ blank ++ Star dot;
    bol ++ str ".HP" ++ blank ++ Star dot;
    bol ++ str ".RS" ++ blank ++ Star dot;
    bol ++ str ".RE" ++ blank ++ Star dot ] (λ _ x, set_cond MAN_NAME (add_char_to_whatis DC1 x));
  on [MAN_NAME; MAN_DESC] [bol ++ set "'."] (begin MAN_REST);
  on [MAN_NAME; MAN_DESC] [Star alnum] add_yytext;
  on [CAT_NAME] [blanks ++ str "," ++ Star (Cls (one_of [SP; TAB; CR; NL]))] (λ _, add_str_to_whatis (lit ", ") 2);
  on [MAN_NAME; MAN_DESC] [blanks ++ str "," ++ blanks] (λ _, add_str_to_whatis (lit ", ") 2);
  on [CAT_NAME; MAN_NAME; MAN_DESC] [bol ++ dot] (λ yytext x, add_char_to_whatis (default NUL (last yytext)) (newline_found x));
  on [CAT_NAME; MAN_NAME; MAN_DESC] [dot] (λ yytext, add_char_to_whatis (default NUL (head yytext))) ].
End rules.

Definition rules : list rule :=
  file_rules ++ rest_rules ++ prename_rules ++ end_rules ++ roff_rules ++ dash_rules ++ escape_rules ++ mdoc_rules ++
  at_rules ++ bsd_rules ++ text_rules.

(** ** The scanner *)

(** The patterns of a start condition, each with the place of its rule. *)
Definition scanner (c : cond) : list (nat * regex) :=
  (λ ir, (ir.1, rl_pat ir.2)) <$> filter (λ ir, c ∈ rl_conds ir.2) (imap pair rules).

(** The rules for the end of the file: [inr] is what [yylex] returns. *)
Definition at_eof (x : lexer) : lexer + Z :=
  match lx_cond x with
  | MAN_REST => inr 0%Z
  | MAN_PRENAME | MAN_NAME | MAN_DESC => inl (set_cond MAN_REST x)
  | _ => inr 1%Z
  end.

(** What a rule does with a match of [n] characters: the scanner, what is left
    of the page, and whether [yylex] returns. *)
Definition apply_rule (r : rule) (n : nat) (s : list ascii) (x : lexer) : lexer * list ascii * bool :=
  let n := if rl_trail r then n - 1 else n in
  let x := rl_act r (take n s) x in
  (x, drop (default n (rl_less r)) s, rl_end r).

Definition yylex_step (s : list ascii) (x : lexer) : lexer * list ascii * bool :=
  match longest_match (scanner (lx_cond x)) s with
  | Some (n, i) => match rules !! i with Some r => apply_rule r n s x | None => (x, s, true) end
  | None => (add_echo (take 1 s) x, drop 1 s, false)
  end.

(** [None]: the fuel was not enough. *)
Fixpoint yylex (fuel : nat) (s : list ascii) (x : lexer) : option (Z * lexer) :=
  match fuel with
  | 0 => None
  | S fuel =>
    match s with
    | [] => match at_eof x with inr ret => Some (ret, x) | inl x => yylex fuel [] x end
    | _ =>
      let '(x, s, done) := yylex_step s x in
      if done then Some (0%Z, x) else yylex fuel s x
    end
  end.

Inductive page_type := MANPAGE | CATPAGE.
#[export] Instance page_type_eq_dec : EqDecision page_type.
Proof. solve_decision. Defined.

Definition start (t : page_type) : lexer :=
  Lexer (match t with CATPAGE => CAT_FILE | MANPAGE => MAN_FILE end) [] (replicate 6 "_"%char) true false [].

(** Leading and trailing spaces go.  When there are only spaces, the loop that
    looks for the last other character reads before the buffer. *)
Definition trim_name (name : cstr) : outcome cstr :=
  if negb (bool_decide (name = [])) && forallb (Ascii.eqb SP) name then Undef "newname[-1]"
  else Ret (let name := drop (strspn (Ascii.eqb SP) name) name in take (trim_length name (length name)) name).

(** The filters that were found, or a dash; all six fill the array, and leave no
    room for its terminating NUL. *)
Definition filter_string (filters : list ascii) : outcome cstr :=
  match filter (λ c, c ≠ "_"%char) filters with
  | [] => Ret (lit "-")
  | fs => if bool_decide (length fs = 6) then Undef "f_tmp[MAX_FILTERS]" else Ret fs
  end.

(** The value returned, the NAME section and the filters.  The fuel is enough
    for any page ([yylex_ends]). *)
Definition find_name_decompressed (page : list ascii) (t : page_type) : outcome (Z * option (cstr * cstr)) :=
  match yylex (3 * length page + 3) page (start t) with
  | None => Undef "fuel"
  | Some (ret, x) =>
    if bool_decide (ret = 0%Z) then
      whatis ← trim_name (xstrndup (lx_name x));
      filters ← filter_string (lx_filters x);
      Ret (match whatis with c :: _ => schar c | [] => 0%Z end, Some (whatis, filters))
    else Ret (0%Z, None)
  end.

(** ** Every scan ends, within the buffer *)

Lemma scanner_elem c i p :
  (i, p) ∈ scanner c → ∃ r, rules !! i = Some r ∧ c ∈ rl_conds r ∧ p = rl_pat r.
Proof.
  unfold scanner. intros ([j r] & [= -> ->] & [Hc Hj]%list_elem_of_filter)%list_elem_of_fmap.
  apply list_elem_of_lookup in Hj as [k Hk]. rewrite list_lookup_imap in Hk. apply fmap_Some in Hk as (r' & Hr & [= -> ->]). eauto.
Qed.

(** How a step that reads something goes. *)
Lemma yylex_step_cases c s x :
  yylex_step (c :: s) x = (add_echo [c] x, s, false) ∨
  ∃ i r n, rules !! i = Some r ∧ lx_cond x ∈ rl_conds r ∧ 0 < n ≤ length (c :: s) ∧
    matches (rl_pat r) (take n (c :: s)) ∧ yylex_step (c :: s) x = apply_rule r n (c :: s) x.
Proof.
  unfold yylex_step. pose proof (longest_match_correct (scanner (lx_cond x)) (c :: s)) as H.
  destruct (longest_match _ _) as [[n i]|]; [|by left]. right. destruct H as [Hpos Hroom (pre & p & post & Hs & Hm & _) _].
  assert ((i, p) ∈ scanner (lx_cond x)) as (r & Hr & Hc & ->)%scanner_elem by (rewrite Hs; set_solver).
  exists i, r, n. by rewrite Hr.
Qed.

(** What the code relies on: room for a NUL after the name, an entry for each
    filter. *)
Record in_bounds (x : lexer) : Prop := InBounds {
  ib_name : (Z.of_nat (length (lx_name x)) < MAX_NAME)%Z;
  ib_filters : length (lx_filters x) = 6;
}.

Create HintDb lexgrog.
Section bounds.
Implicit Types x : lexer.

Lemma length_strncpy s n : length (strncpy s n) = n.
Proof.
  unfold strncpy. rewrite length_app, length_replicate.
  assert (length (xstrndup (take n s)) ≤ n); [|lia]. unfold xstrndup. rewrite !length_take. lia.
Qed.

Lemma set_cond_bounds c x : in_bounds x → in_bounds (set_cond c x).
Proof. by intros []. Qed.
Lemma set_fill_bounds b x : in_bounds x → in_bounds (set_fill b x).
Proof. by intros []. Qed.
Lemma set_quote_bounds b x : in_bounds x → in_bounds (set_quote b x).
Proof. by intros []. Qed.
Lemma add_echo_bounds e x : in_bounds x → in_bounds (add_echo e x).
Proof. by intros []. Qed.
Lemma filter_rule_bounds i c s x : in_bounds x → in_bounds (filter_rule i c s x).
Proof. intros []. split; [done|]. cbn. by rewrite length_insert. Qed.
Lemma add_str_bounds s n x : in_bounds x → in_bounds (add_str_to_whatis s n x).
Proof.
  intros [? ?]. unfold add_str_to_whatis, fits. case_match eqn:Ef; [|by split]. split; [|done].
  cbn. rewrite length_app, length_strncpy. lia.
Qed.
Lemma add_char_bounds c x : in_bounds x → in_bounds (add_char_to_whatis c x).
Proof.
  intros [? ?]. unfold add_char_to_whatis, fits. case_match eqn:Ef; [by split|]. case_match; [by split|]. split; [|done].
  cbn. rewrite length_app. cbn. apply negb_false_iff, Z.ltb_lt in Ef. lia.
Qed.
#[local] Hint Resolve set_cond_bounds set_fill_bounds set_quote_bounds add_echo_bounds filter_rule_bounds add_str_bounds add_char_bounds : lexgrog.
Lemma newline_found_bounds x : in_bounds x → in_bounds (newline_found x).
Proof. intros. unfold newline_found. repeat case_match; auto with lexgrog. Qed.
Lemma add_separator_bounds x : in_bounds x → in_bounds (add_separator_to_whatis x).
Proof. intros. unfold add_separator_to_whatis. repeat case_match; auto with lexgrog. Qed.
Lemma add_wordn_bounds s n x : in_bounds x → in_bounds (add_wordn_to_whatis s n x).
Proof. intros. unfold add_wordn_to_whatis. repeat case_match; auto with lexgrog. Qed.
Lemma add_macro_bounds ms s n x : in_bounds x → in_bounds (add_macro_to_whatis ms s n x).
Proof. intros. unfold add_macro_to_whatis. repeat case_match; auto with lexgrog. Qed.
End bounds.
#[export] Hint Resolve set_cond_bounds set_fill_bounds set_quote_bounds add_echo_bounds filter_rule_bounds add_str_bounds
  add_char_bounds newline_found_bounds add_separator_bounds add_wordn_bounds add_macro_bounds : lexgrog.
#[export] Hint Unfold nothing begin add_char add_yytext mdoc mdoc_text bsd_word bsd_release dquoted add_word_to_whatis add_glyph
  add_glyph_to_whatis add_perldoc add_perldoc_to_whatis : lexgrog.

(** A rule keeps to the bounds. *)
Definition safe (r : rule) : Prop := ∀ s x, in_bounds x → in_bounds (rl_act r s x).

(** Scans in these conditions go on to the next without reading anything. *)
Definition rank (c : cond) : nat :=
  match c with
  | MAN_PRENAME | MAN_DESC_AT | MAN_DESC_BSX | MAN_DESC_BX | MAN_DESC_BX_RELEASE | MAN_DESC_FX | MAN_DESC_NX | MAN_DESC_OX => 2
  | MAN_NAME | MAN_DESC => 1
  | _ => 0
  end.

(** A rule that leaves all it matched ends its condition; one that leaves the
    newline matches more than that. *)
Definition advances (r : rule) : Prop :=
  (rl_less r = Some 0 → (∀ c, c ∈ rl_conds r → rank c = 2) ∧ ∀ s x, rank (lx_cond (rl_act r s x)) ≤ 1) ∧
  (rl_trail r = true → 2 ≤ min_length (rl_pat r)).

Lemma on_rules (P : rule → Prop) cs pats act : (∀ p, P (Rule cs p false None act false)) → Forall P (on cs pats act).
Proof. intros H. apply Forall_fmap, Forall_true. exact H. Qed.

Lemma on_advances cs pats act : Forall advances (on cs pats act).
Proof. apply on_rules. done. Qed.

Lemma yyterminate_advances rs : Forall advances rs → Forall advances (yyterminate rs).
Proof. intros. by apply Forall_fmap. Qed.

Lemma less_advances cs pats act n :
  (n = 0 → (∀ c, c ∈ cs → rank c = 2) ∧ ∀ s x, rank (lx_cond (act s x)) ≤ 1) → Forall advances (less n (on cs pats act)).
Proof. intros H. apply Forall_fmap, on_rules. intros p. split; cbn; [|done]. intros [= ->]. by apply H. Qed.

(** A claim of all rules, for each group of them. *)
Ltac each_group :=
  unfold rules, file_rules, rest_rules, prename_rules, end_rules, roff_rules, dash_rules, escape_rules, mdoc_rules, at_rules,
    bsd_rules, text_rules;
  cbn [concat]; repeat match goal with |- Forall _ (_ ++ _) => apply Forall_app_2 end.

Lemma rules_safe : Forall safe rules.
Proof.
  assert (∀ cs pats act, (∀ s x, in_bounds x → in_bounds (act s x)) → Forall safe (on cs pats act)) as Hon by (intros; by apply on_rules).
  assert (∀ n rs, Forall safe rs → Forall safe (less n rs)) as Hless by (intros n rs H; by apply Forall_fmap).
  assert (∀ rs, Forall safe rs → Forall safe (yyterminate rs)) as Hend by (intros rs H; by apply Forall_fmap).
  assert (∀ cs pats act, (∀ s x, in_bounds x → in_bounds (act s x)) → Forall safe (on_end_of_line cs pats act)) as Heol.
  { intros cs pats act H. apply Forall_fmap, Forall_true. intros p. exact H. }
  each_group; try done; repeat (first [apply Hless|apply Hend]);
    (first [apply Hon|apply Heol]); intros; repeat autounfold with lexgrog; auto 10 with lexgrog.
Qed.

Lemma rules_advance : Forall advances rules.
Proof.
  each_group; try done; try (by apply on_advances); try (by apply yyterminate_advances, on_advances);
    try (apply less_advances; intros ?; split; [intros c ->%list_elem_of_singleton; done|intros; cbn; lia]).
  apply Forall_fmap. repeat constructor; cbn; done.
Qed.

(** A step that does not end the scan keeps to the bounds and comes closer to
    the end. *)
Lemma yylex_step_ok c s x x' s' d :
  yylex_step (c :: s) x = (x', s', d) → in_bounds x →
  in_bounds x' ∧ 3 * length s' + rank (lx_cond x') < 3 * length (c :: s) + rank (lx_cond x).
Proof.
  intros Hstep Hx. assert (∀ c, rank c ≤ 2) as Hrank by (intros []; cbn; lia).
  destruct (yylex_step_cases c s x) as [E|(i & r & n & Hr & Hc & Hn & Hm & E)]; rewrite E in Hstep.
  - injection Hstep as <- <- <-. split; [by apply add_echo_bounds|]. cbn. lia.
  - unfold apply_rule in Hstep. injection Hstep as <- <- <-.
    pose proof (proj1 (Forall_lookup _ _) rules_safe _ _ Hr) as Hsafe. pose proof (proj1 (Forall_lookup _ _) rules_advance _ _ Hr) as [Hless Htrail].
    split; [by apply Hsafe|]. rewrite length_drop. apply min_length_spec in Hm. rewrite length_take in Hm.
    assert (length (c :: s) = S (length s)) as Hlen by done. set (n' := if rl_trail r then n - 1 else n). assert (0 < n' ≤ length (c :: s)).
    { unfold n'. destruct (rl_trail r); [specialize (Htrail eq_refl)|]; lia. }
    destruct (rl_less r) as [[|k]|] eqn:El; cbn [from_option id].
    + destruct (Hless eq_refl) as [H1 H2]. specialize (H1 _ Hc). specialize (H2 (take n' (c :: s)) x). lia.
    + pose proof (Hrank (lx_cond (rl_act r (take n' (c :: s)) x))). lia.
    + pose proof (Hrank (lx_cond (rl_act r (take n' (c :: s)) x))). lia.
Qed.

Lemma yylex_total fuel s x :
  3 * length s + rank (lx_cond x) < fuel → in_bounds x →
  ∃ ret y, yylex fuel s x = Some (ret, y) ∧ in_bounds y.
Proof.
  revert s x. induction fuel as [|fuel IH]; intros s x Hf Hx; [lia|]. cbn [yylex]. destruct s as [|c s].
  - unfold at_eof. destruct (lx_cond x) eqn:Ec; eauto; apply IH; cbn in *; auto with lexgrog; lia.
  - destruct (yylex_step (c :: s) x) as [[x' s'] d] eqn:Es. apply yylex_step_ok in Es as [Hx' Hlt]; [|done].
    destruct d; [eauto|]. apply IH; [lia|done].
Qed.

Lemma start_bounds t : in_bounds (start t).
Proof. by split. Qed.

Lemma yylex_ends page t : ∃ ret y, yylex (3 * length page + 3) page (start t) = Some (ret, y) ∧ in_bounds y.
Proof. apply yylex_total; [|apply start_bounds]. destruct t; cbn; lia. Qed.

(** ** What a scan returns *)

Lemma yylex_more fuel s x r k : yylex fuel s x = Some r → yylex (fuel + k) s x = Some r.
Proof.
  revert s x. induction fuel as [|fuel IH]; intros s x; [done|]. cbn [yylex Nat.add]. destruct s as [|c s].
  - destruct (at_eof x); [apply IH|done].
  - destruct (yylex_step (c :: s) x) as [[x' s'] d]. destruct d; [done|apply IH].
Qed.

(** With enough fuel the scan returns [ret] and leaves [y]. *)
Definition scans (s : list ascii) (x : lexer) (ret : Z) (y : lexer) : Prop := ∃ fuel, yylex fuel s x = Some (ret, y).

Lemma scans_fuel page t ret y : scans page (start t) ret y → yylex (3 * length page + 3) page (start t) = Some (ret, y).
Proof.
  intros [f Hf]. destruct (yylex_ends page t) as (r' & y' & H & _). rewrite H.
  apply (yylex_more _ _ _ _ (3 * length page + 3)) in Hf. apply (yylex_more _ _ _ _ f) in H. rewrite Nat.add_comm in H. congruence.
Qed.

(** Reading from [s] to [s'] takes [x] to [x']. *)
Definition reads (s s' : list ascii) (x x' : lexer) : Prop := ∀ ret y, scans s' x' ret y → scans s x ret y.

Lemma reads_refl s x : reads s s x x.
Proof. by intros ret y. Qed.
Lemma reads_trans s1 s2 s3 x1 x2 x3 : reads s1 s2 x1 x2 → reads s2 s3 x2 x3 → reads s1 s3 x1 x3.
Proof. intros H1 H2 ret y H. by apply H1, H2. Qed.

Lemma reads_step c s s' x x' : yylex_step (c :: s) x = (x', s', false) → reads (c :: s) s' x x'.
Proof. intros E ret y [f Hf]. exists (S f). cbn [yylex]. by rewrite E. Qed.

(** A step by the rule that flex chooses. *)
Lemma reads_rule i r n c s x :
  longest_match (scanner (lx_cond x)) (c :: s) = Some (n, i) → rules !! i = Some r → rl_trail r = false → rl_end r = false →
  reads (c :: s) (drop (default n (rl_less r)) (c :: s)) x (rl_act r (take n (c :: s)) x).
Proof. intros Hl Hr Ht He. apply reads_step. unfold yylex_step. rewrite Hl, Hr. unfold apply_rule. by rewrite Ht, He. Qed.

(** ** The filters *)

(** The requests that ask for filters, each where a line begins. *)
Definition requests : list (cstr * nat * ascii) :=
  [(lit ".TS", 0, "t"%char); (lit ".EQ", 1, "e"%char); (lit ".PS", 2, "p"%char); (lit ".G1", 3, "g"%char);
   (lit ".R1", 4, "r"%char); (lit ".[", 4, "r"%char); (lit ".vS", 5, "v"%char)].

Fixpoint begins (p s : list ascii) : bool :=
  match p, s with
  | [], _ => true
  | c :: p, d :: s => Ascii.eqb c d && begins p s
  | _, [] => false
  end.

(** The filters of a text: those whose request begins a line after the first. *)
Definition asked (s : list ascii) (q : cstr * nat * ascii) (f : list ascii) : list ascii :=
  if begins (NL :: q.1.1) s then <[q.1.2:=q.2]> f else f.
Fixpoint filters_of (s : list ascii) (f : list ascii) : list ascii :=
  match s with
  | [] => f
  | _ :: t => filters_of t (foldr (asked s) f requests)
  end.

Lemma begins_app p s : begins p (p ++ s) = true.
Proof. induction p as [|c p IH]; [done|]. cbn. by rewrite Ascii.eqb_refl. Qed.

Lemma begins_split p s : begins p s = true → ∃ t, s = p ++ t.
Proof.
  revert s. induction p as [|c p IH]; intros [|d s]; cbn; try done; [eauto..|].
  intros [->%Ascii.eqb_eq (t & ->)%IH]%andb_true_iff. eauto.
Qed.

Lemma matches_eol s : matches eol s ↔ s = [NL] ∨ s = [CR; NL].
Proof.
  unfold eol. rewrite matches_mkcat, matches_cat. unfold opt. split.
  - intros (s1 & s2 & -> & [->%matches_chr| ->%matches_eps]%matches_mkalt%matches_alt & ->%matches_chr); [by right|by left].
  - intros [->| ->]; [exists [], [NL]|exists [CR], [NL]]; (split_and!; [done| |by apply matches_chr]); apply matches_mkalt, matches_alt;
      [right; constructor|left; by apply matches_chr].
Qed.

Lemma asked_none s f : (∀ q, q ∈ requests → begins (NL :: q.1.1) s = false) → foldr (asked s) f requests = f.
Proof. intros H. unfold asked. cbn [foldr requests]. rewrite !H; [done|unfold requests; set_solver..]. Qed.

Lemma asked_here s f : begins [NL] s = false → foldr (asked s) f requests = f.
Proof.
  intros H. apply asked_none. intros q _. destruct s as [|c s]; [done|]. cbn [begins] in *. rewrite andb_true_r in H. by rewrite H.
Qed.

Lemma filters_of_line u t f : NL ∉ u → filters_of (u ++ t) f = filters_of t f.
Proof.
  induction u as [|c u IH]; intros Hu; [done|]. cbn [app filters_of]. rewrite asked_here; [apply IH; set_solver|].
  cbn [begins]. rewrite andb_true_r. apply Ascii.eqb_neq. set_solver.
Qed.

Lemma filters_of_eols u t f : matches (Star eol) u → filters_of (NL :: u ++ t) f = filters_of (NL :: t) f.
Proof.
  intros H. remember (Star eol) as q eqn:E. induction H as [| | | | | |r s1 s2 H1 _ H2 IH]; simplify_eq; [done|].
  rewrite <-IH by done. by apply matches_eol in H1 as [->| ->].
Qed.

Lemma filters_of_bol u t f : matches bol u → filters_of (u ++ t) f = filters_of (NL :: t) f.
Proof.
  change bol with (Cat eol (Star eol)). intros (s1 & s2 & -> & H1 & H2)%matches_cat. rewrite <-app_assoc.
  apply matches_eol in H1 as [->| ->]; cbn [app]; [by apply filters_of_eols|].
  change (filters_of (CR :: NL :: s2 ++ t) f) with (filters_of (NL :: s2 ++ t) f). by apply filters_of_eols.
Qed.

Lemma filters_of_request q t f : q ∈ requests → filters_of (NL :: q.1.1 ++ t) f = filters_of t (<[q.1.2:=q.2]> f).
Proof. intros Hq. repeat (apply elem_of_cons in Hq as [->|Hq]; [reflexivity|]). by apply elem_of_nil in Hq. Qed.

(** The rules of the rest of a page. *)
Definition rest_acts : list (regex * (list ascii → lexer → lexer)) :=
  ((λ q, (cat bol (strl q.1.1), filter_rule q.1.2 q.2)) <$> requests) ++ [(plus dot, nothing); (eol, nothing)].

Lemma scanner_rest : scanner MAN_REST = imap (λ i pa, (10 + i, pa.1)) rest_acts.
Proof. vm_compute. reflexivity. Qed.

Lemma rest_rule i pa : rest_acts !! i = Some pa → rules !! (10 + i) = Some (Rule [MAN_REST] pa.1 false None pa.2 false).
Proof. intros H. do 9 (destruct i as [|i]; [injection H as <-; reflexivity|]). by destruct i. Qed.

Lemma rest_acts_elem pa :
  pa ∈ rest_acts → (∃ q, q ∈ requests ∧ pa = (cat bol (strl q.1.1), filter_rule q.1.2 q.2)) ∨ pa = (plus dot, nothing) ∨ pa = (eol, nothing).
Proof.
  intros [Hq|Hq]%elem_of_app; [left; apply list_elem_of_fmap in Hq as (q & -> & Hq); eauto|right].
  by apply elem_of_cons in Hq as [->| ->%list_elem_of_singleton]; [left|right].
Qed.

(** No request begins where a line end is the longest match. *)
Lemma no_request u t f :
  matches eol u → (∀ pa m, pa ∈ rest_acts → m ≤ length (u ++ t) → matches pa.1 (take m (u ++ t)) → m ≤ length u) →
  filters_of (u ++ t) f = filters_of t f.
Proof.
  intros Hu Hlong.
  assert (∀ q, q ∈ requests → begins (NL :: q.1.1) (NL :: t) = false) as Hno.
  { intros q Hq. destruct (begins _ _) eqn:E; [|done]. exfalso. apply begins_split in E as [t' E].
    assert (t = q.1.1 ++ t') as -> by by injection E. 
    assert (0 < length q.1.1) by (repeat (apply elem_of_cons in Hq as [->|Hq]; [by apply Nat.ltb_lt|]); by apply elem_of_nil in Hq).
    specialize (Hlong (cat bol (strl q.1.1), filter_rule q.1.2 q.2) (length u + length q.1.1)). cut (length u + length q.1.1 ≤ length u); [lia|].
    apply Hlong; [apply elem_of_app; left; by apply (list_elem_of_fmap_2 (λ q, (cat bol (strl q.1.1), filter_rule q.1.2 q.2)))|rewrite !length_app; lia|].
    rewrite app_assoc, <-length_app, take_app_length. apply matches_mkcat, matches_cat. exists u, q.1.1. split_and!; [done| |by apply matches_strl].
    change bol with (Cat eol (Star eol)). rewrite <-(app_nil_r u). constructor; [done|constructor]. }
  assert (filters_of (NL :: t) f = filters_of t f) as H.
  { cbn [filters_of]. f_equal. by apply asked_none. }
  by apply matches_eol in Hu as [->| ->].
Qed.

(** After the NAME section only the filters can change, and they are those the
    rest of the page asks for. *)
Lemma rest_scan s x :
  lx_cond x = MAN_REST → ∃ y, scans s x 0 y ∧ lx_name y = lx_name x ∧ lx_filters y = filters_of s (lx_filters x).
Proof.
  remember (length s) as n eqn:En. revert s x En. induction (lt_wf n) as [n _ IH]. intros s x -> Hc. destruct s as [|c s].
  { exists x. split; [|done]. exists 1. cbn. unfold at_eof. by rewrite Hc. }
  pose proof (longest_match_correct (scanner (lx_cond x)) (c :: s)) as Hl. destruct (longest_match _ _) as [[k i]|] eqn:El.
  - destruct Hl as [Hpos Hroom (pre & p & post & Hsplit & Hm & _) Hlong].
    assert ((i, p) ∈ scanner (lx_cond x)) as Hin by (rewrite Hsplit; apply elem_of_app; right; left). rewrite Hc, scanner_rest in Hin.
    apply list_elem_of_lookup in Hin as [j Hj]. rewrite list_lookup_imap in Hj. apply fmap_Some in Hj as (pa & Hpa & [= -> ->]).
    pose proof (rest_rule _ _ Hpa) as Hr. pose proof (reads_rule _ _ _ _ _ _ El Hr eq_refl eq_refl) as Hread. cbn [rl_less rl_act default from_option] in Hread.
    change (from_option id k None) with k in Hread.
    set (u := take k (c :: s)) in *. set (t := drop k (c :: s)) in *. assert (c :: s = u ++ t) as Es by (symmetry; apply take_drop).
    assert (length u = k) as Hu by (unfold u; rewrite length_take; lia).
    assert (pa.2 u x = set_filters (lx_filters (pa.2 u x)) x ∧ lx_name (pa.2 u x) = lx_name x ∧ lx_cond (pa.2 u x) = MAN_REST ∧
      filters_of (c :: s) (lx_filters x) = filters_of t (lx_filters (pa.2 u x))) as (_ & Hn & Hc' & Hf).
    { rewrite Es. apply list_elem_of_lookup_2, rest_acts_elem in Hpa as [(q & Hq & ->)|[->| ->]]; cbn [fst snd] in *.
      - split_and!; [done..|]. apply matches_mkcat, matches_cat in Hm as (b & b' & Eb & Hb & ->%matches_strl). rewrite Eb, <-app_assoc, filters_of_bol by done.
        rewrite filters_of_request by done. done.
      - split_and!; [by destruct x|done..|]. apply matches_dots1 in Hm as [_ Hm]. by rewrite filters_of_line.
      - split_and!; [by destruct x|done..|]. apply no_request; [done|]. intros pa m Hpa Hm' Hmm. rewrite <-Es in Hmm, Hm'. rewrite Hu.
        apply list_elem_of_lookup in Hpa as [l Hl]. apply (Hlong (10 + l, pa.1) m); [|done|done]. rewrite Hc, scanner_rest.
        apply list_elem_of_lookup. exists l. by rewrite list_lookup_imap, Hl. }
    destruct (IH (length t)) with (s := t) (x := pa.2 u x) as (y & Hy & Hyn & Hyf); [unfold t; rewrite length_drop; lia|done|done|].
    exists y. split_and!; [by apply Hread|congruence|congruence].
  - exfalso. assert (∀ p, p ∈ rest_acts → ∀ m, 0 < m ≤ length (c :: s) → ¬ matches p.1 (take m (c :: s))) as Hnone.
    { intros p Hp m Hm. apply list_elem_of_lookup in Hp as [l Hp]. apply (Hl (10 + l, p.1) m); [|done]. rewrite Hc, scanner_rest.
      apply list_elem_of_lookup. exists l. by rewrite list_lookup_imap, Hp. }
    destruct (decide (c = NL)) as [->|Hn].
    + apply (Hnone (eol, nothing)) with 1; [apply elem_of_app; right; right; left|cbn; lia|]. apply matches_eol. by left.
    + apply (Hnone (plus dot, nothing)) with 1; [apply elem_of_app; right; left|cbn; lia|]. apply matches_dots1. split; [done|by intros E%list_elem_of_singleton].
Qed.

(** ** Reading a NAME section *)

(** A step by a rule whose match is [u]; a step for [u], when the match stops
    before [d]. *)
Lemma reads_match i r u s x :
  u ≠ [] → longest_match (scanner (lx_cond x)) (u ++ s) = Some (length u, i) → rules !! i = Some r → rl_trail r = false → rl_end r = false →
  reads (u ++ s) (match rl_less r with Some k => drop k (u ++ s) | None => s end) x (rl_act r u x).
Proof.
  intros Hu Hl Hr Ht He. destruct u as [|c u]; [done|]. cbn [app] in *.
  pose proof (reads_rule _ _ _ _ _ _ Hl Hr Ht He) as H. change (c :: u ++ s) with ((c :: u) ++ s) in *.
  rewrite take_app_length in H. destruct (rl_less r); [exact H|]. cbn [from_option] in H. by rewrite drop_app_length in H.
Qed.

Lemma reads_token i r u d s x :
  u ≠ [] → accepting (after (scanner (lx_cond x)) u) = Some i → step_all d (after (scanner (lx_cond x)) u) = [] →
  rules !! i = Some r → rl_trail r = false → rl_end r = false →
  reads (u ++ d :: s) (match rl_less r with Some k => drop k (u ++ d :: s) | None => d :: s end) x (rl_act r u x).
Proof. intros Hu Ha Hd Hr Ht He. apply reads_match with (i := i); [done|by apply longest_match_stop|done..]. Qed.

(** Characters without a meaning of their own in a NAME section. *)
Definition plain (c : ascii) : bool := negb (one_of [NUL; TAB; NL; CR; SP; ","%char; BACKSLASH; DC1] c).

Definition in_name (k : cond) : Prop := k = MAN_NAME ∨ k = MAN_DESC.

Lemma plain_stops k c d :
  in_name k → plain c = true → isalnum c = false → d ≠ BACKSLASH → (k = MAN_NAME → c = "-"%char → d ≠ "-"%char) →
  stops (after (scanner k) [c]) d 140 = true.
Proof.
  intros Hk Hc Ha Hd Hdash.
  set (ok (k : cond) (c d : ascii) := plain c && negb (isalnum c) && negb (Ascii.eqb d BACKSLASH) &&
    negb (bool_decide (k = MAN_NAME) && Ascii.eqb c "-" && Ascii.eqb d "-")).
  assert (∀ k, in_name k → forallb (λ c, let rs := after (scanner k) [c] in forallb (λ d, implb (ok k c d) (stops rs d 140)) all_chars) all_chars = true) as H.
  { intros k' [-> | ->]; vm_compute; reflexivity. }
  specialize (H k Hk). apply for_all_chars with (c := c), for_all_chars with (c := d) in H. rewrite implb_true_iff in H. apply H.
  unfold ok. rewrite Hc, Ha. apply Ascii.eqb_neq in Hd. rewrite Hd. cbn [andb negb]. apply negb_true_iff. destruct (bool_decide_reflect (k = MAN_NAME)); [|done].
  destruct (Ascii.eqb_spec c "-"); [|done]. apply Ascii.eqb_neq. by apply Hdash.
Qed.

Lemma alnum_after k c : in_name k → isalnum c = true → step_all c (scanner k) = [(136, Star alnum); (140, Eps)].
Proof. intros [-> | ->]; destruct c as [[] [] [] [] [] [] [] []]; intros H; try discriminate H; vm_cast_no_check (@eq_refl _ [(136, Star alnum); (140, Eps)]). Qed.

Lemma alnum_match k w d s :
  in_name k → w ≠ [] → Forall (λ c, isalnum c = true) w → isalnum d = false →
  longest_match (scanner k) (w ++ d :: s) = Some (length w, 136).
Proof.
  intros Hk Hne Hw Hd. destruct Hw as [|c w Hc Hw]; [done|]. cbn [app]. rewrite longest_match_cons, alnum_after by done.
  assert (∀ e, step_all e [(136, Star alnum); (140, Eps)] = step_all e [(136, Star alnum)]) as E by (intros e; by rewrite !step_all_cons).
  assert (strspn isalnum (w ++ d :: s) = length w) as Hs by (clear Hne; induction Hw as [|e w He Hw IH]; cbn; [by rewrite Hd|by rewrite He, IH]).
  assert (longest_match [(136, Star alnum); (140, Eps)] (w ++ d :: s) = longest_match [(136, Star alnum)] (w ++ d :: s)) as ->.
  { destruct w; cbn [app]; rewrite !longest_match_cons; by rewrite E. }
  unfold alnum. rewrite longest_match_star, Hs. by destruct w.
Qed.

(** The scanner in the middle of a NAME section. *)
Definition st (k : cond) (n f : list ascii) : lexer := Lexer k n f true false [].

Definition short (n : list ascii) : Prop := (Z.of_nat (length n) < MAX_NAME)%Z.

Lemma short_prefix a b : short (a ++ b) → short a.
Proof. unfold short. rewrite length_app. lia. Qed.

Lemma add_str_st k n f s : NUL ∉ s → short (n ++ s) → add_str_to_whatis s (length s) (st k n f) = st k (n ++ s) f.
Proof.
  intros Hs Hn. unfold add_str_to_whatis, fits. cbn [lx_name st]. unfold short in Hn. rewrite length_app, Nat2Z.inj_add in Hn.
  apply Z.ltb_lt in Hn. rewrite Hn. unfold strncpy. rewrite firstn_all, xstrndup_id, Nat.sub_diag by done. cbn. by rewrite app_nil_r.
Qed.

Lemma add_char_st k n f c : short (n ++ [c]) → add_char_to_whatis c (st k n f) = st k (n ++ [c]) f.
Proof.
  intros Hn. unfold add_char_to_whatis, fits. cbn [lx_name st waiting_for_quote andb]. unfold short in Hn. rewrite length_app, Nat2Z.inj_add in Hn.
  apply Z.ltb_lt in Hn. cbn [length] in Hn. by rewrite Hn.
Qed.

Lemma plain_not c : plain c = true → c ≠ NUL ∧ c ≠ BACKSLASH ∧ c ≠ SP ∧ c ≠ TAB ∧ c ≠ ","%char ∧ c ≠ DC1.
Proof. unfold plain, one_of. intros H%negb_true_iff%bool_decide_eq_false. set_solver. Qed.

Lemma plain_nul w : Forall (λ c, plain c = true) w → NUL ∉ w.
Proof. intros Hw Hin. rewrite Forall_forall in Hw. by apply Hw, plain_not in Hin as []. Qed.

Definition no_dashes (w : list ascii) : Prop := ∀ a b, w ≠ a ++ lit "--" ++ b.

(** What may follow a word. *)
Definition ends_word (d : ascii) : Prop := isalnum d = false ∧ d ≠ BACKSLASH ∧ d ≠ "-"%char.

Lemma reads_word k w d s n f :
  in_name k → Forall (λ c, plain c = true) w → (k = MAN_NAME → no_dashes w) → ends_word d → short (n ++ w) →
  reads (w ++ d :: s) (d :: s) (st k n f) (st k (n ++ w) f).
Proof.
  intros Hk. remember (length w) as m eqn:Em. revert w n Em. induction (lt_wf m) as [m _ IH]. intros w n -> Hw Hdash Hd Hn.
  destruct w as [|c w]; [rewrite app_nil_r; apply reads_refl|].
  assert (∀ u v, c :: w = u ++ v → u ≠ [] → reads (u ++ v ++ d :: s) (v ++ d :: s) (st k n f) (st k (n ++ u) f) →
    reads (c :: w ++ d :: s) (d :: s) (st k n f) (st k (n ++ c :: w) f)) as Hgo.
  { intros u v E Hu Hread. change (c :: w ++ d :: s) with ((c :: w) ++ d :: s). rewrite E in *. rewrite <-app_assoc. eapply reads_trans; [exact Hread|].
    rewrite app_assoc in *. eapply (IH (length v)); [|done| | | |done].
    - rewrite length_app. destruct u; [done|cbn; lia].
    - by apply Forall_app in Hw as [].
    - intros E' a b ->. by apply (Hdash E' (u ++ a) b); rewrite <-app_assoc. 
    - done. }
  destruct (isalnum c) eqn:Ea.
  - set (u := take (strspn isalnum (c :: w)) (c :: w)). set (v := drop (strspn isalnum (c :: w)) (c :: w)).
    assert (c :: w = u ++ v) as E by (symmetry; apply take_drop). assert (u ≠ []) as Hu by (unfold u; cbn; by rewrite Ea).
    assert (Forall (λ c, isalnum c = true) u) as Hua by apply strspn_take. apply (Hgo u v E Hu).
    assert (∃ e t, v ++ d :: s = e :: t ∧ isalnum e = false) as (e & t & -> & He).
    { pose proof (strspn_drop_head isalnum (c :: w)) as Hh. fold v in Hh. destruct v as [|e v]; [exists d, s|exists e, (v ++ d :: s)]; (split; [done|]); [apply Hd|done]. }
    pose proof (reads_match 136 _ u (e :: t) (st k n f) Hu (alnum_match k u e t Hk Hu Hua He) eq_refl eq_refl eq_refl) as Hr. cbn [rl_less rl_act] in Hr.
    unfold add_yytext in Hr. rewrite add_str_st in Hr; [exact Hr| |].
    + rewrite E in Hw. apply Forall_app in Hw as [Hw _]. by apply plain_nul.
    + rewrite E, app_assoc in Hn. by eapply short_prefix.
  - apply (Hgo [c] w eq_refl); [done|]. apply Forall_cons in Hw as [Hc Hw].
    assert (∃ e t, w ++ d :: s = e :: t ∧ e ≠ BACKSLASH ∧ (k = MAN_NAME → c = "-"%char → e ≠ "-"%char)) as (e & t & -> & He & Hde).
    { destruct w as [|e w]; [exists d, s; split_and!; [done|apply Hd|intros _ _; apply Hd]|]. exists e, (w ++ d :: s). split_and!; [done| |].
      - apply Forall_cons in Hw as [He _]. by apply plain_not in He as (? & ? & _).
      - intros E -> ->. by apply (Hdash E [] w). }
    destruct (stops_spec _ _ _ (plain_stops k c e Hk Hc Ea He Hde)) as [Hac Hst].
    pose proof (reads_token 140 _ [c] e t (st k n f) ltac:(done) Hac Hst eq_refl eq_refl eq_refl) as Hr. cbn [rl_less rl_act head default from_option] in Hr.
    rewrite add_char_st in Hr; [exact Hr|]. change (c :: w) with ([c] ++ w) in Hn. rewrite app_assoc in Hn. by eapply short_prefix.
Qed.

(** The same for the fixed parts: the text [u] in condition [k] is one match, of
    rule [i], before any character with [p]. *)
Lemma reads_fixed i r u (p : ascii → bool) d s k n f :
  u ≠ [] → stops_before p (scanner k) u i = true → p d = true → rules !! i = Some r → rl_trail r = false → rl_end r = false →
  reads (u ++ d :: s) (match rl_less r with Some k => drop k (u ++ d :: s) | None => d :: s end) (st k n f) (rl_act r u (st k n f)).
Proof.
  intros Hu Hall Hp. apply stops_before_spec with (d := d) in Hall as [Ha Hd]; [|done].
  by apply reads_token with (i := i).
Qed.

Lemma reads_comma d s n f :
  plain d = true → short (n ++ lit ", ") → reads (lit ", " ++ d :: s) (d :: s) (st MAN_NAME n f) (st MAN_NAME (n ++ lit ", ") f).
Proof.
  intros Hd Hn. pose proof (reads_fixed 138 _ (lit ", ") plain d s MAN_NAME n f ltac:(done) ltac:(vm_compute; reflexivity) Hd eq_refl eq_refl eq_refl) as H.
  cbn [rl_less rl_act] in H. change 2 with (length (lit ", ")) in H. by rewrite add_str_st in H by (done || not_in).
Qed.

Lemma reads_dash d s n f c :
  plain d = true → last n = Some c → c ≠ SP → short (n ++ lit " - ") →
  reads (lit " \- " ++ d :: s) (d :: s) (st MAN_NAME n f) (st MAN_DESC (n ++ lit " - ") f).
Proof.
  intros Hd Hl Hc Hn. pose proof (reads_fixed 57 _ (lit " \- ") plain d s MAN_NAME n f ltac:(done) ltac:(vm_compute; reflexivity) Hd eq_refl eq_refl eq_refl) as H.
  cbn [rl_less rl_act] in H. unfold add_separator_to_whatis, needs_space in H. cbn [lx_name st] in H. rewrite Hl in H.
  apply Ascii.eqb_neq in Hc. rewrite Hc in H. cbn [negb] in H. change (lit " - ") with ([SP] ++ lit "- ") in *. rewrite app_assoc in Hn.
  change 2 with (length (lit "- ")) in H. rewrite add_char_st, add_str_st in H by (done || not_in || by eapply short_prefix). by rewrite <-app_assoc in H.
Qed.

Lemma reads_space d s n f :
  plain d = true → short (n ++ [SP]) → reads ([SP] ++ d :: s) (d :: s) (st MAN_DESC n f) (st MAN_DESC (n ++ [SP]) f).
Proof.
  intros Hd Hn. pose proof (reads_fixed 67 _ [SP] plain d s MAN_DESC n f ltac:(done) ltac:(vm_compute; reflexivity) Hd eq_refl eq_refl eq_refl) as H.
  cbn [rl_less rl_act] in H. unfold add_char in H. by rewrite add_char_st in H.
Qed.

(** What separates a line from the one before it. *)
Definition gap (n : list ascii) : list ascii := if decide (n = []) then [] else [SP].

Lemma newline_found_st k n f :
  n = [] ∨ last n = Some DC1 → short (n ++ gap n) → newline_found (st k n f) = st k (n ++ gap n) f.
Proof.
  unfold newline_found, needs_space, gap. intros [->|Hl] Hs; [done|]. cbn [lx_name st]. rewrite Hl, decide_False in * by by intros ->.
  change (negb (Ascii.eqb DC1 SP)) with true. cbn [fill_mode st]. by rewrite add_char_st.
Qed.

Lemma line_stops c : isalnum c = true → stops_before (λ _, true) (scanner MAN_NAME) [NL; c] 139 = true.
Proof.
  assert (forallb (λ c, implb (isalnum c) (stops_before (λ _, true) (scanner MAN_NAME) [NL; c] 139)) all_chars = true) as H by (vm_compute; reflexivity).
  apply for_all_chars with (c := c) in H. rewrite implb_true_iff in H. exact H.
Qed.

(** A line that begins with a letter. *)
Lemma reads_line c d s n f :
  isalnum c = true → n = [] ∨ last n = Some DC1 → short (n ++ gap n ++ [c]) →
  reads ([NL; c] ++ d :: s) (d :: s) (st MAN_NAME n f) (st MAN_NAME (n ++ gap n ++ [c]) f).
Proof.
  intros Hc Hn Hs. pose proof (line_stops c Hc) as Hall.
  pose proof (reads_fixed 139 _ [NL; c] (λ _, true) d s MAN_NAME n f ltac:(done) Hall eq_refl eq_refl eq_refl eq_refl) as H.
  cbn [rl_less rl_act last default from_option] in H. rewrite app_assoc in *. rewrite newline_found_st in H by (done || by eapply short_prefix).
  change (default NUL (Some c)) with c in H. by rewrite add_char_st in H.
Qed.

Lemma reads_break s n f :
  short (n ++ [DC1]) → reads (NL :: lit ".br" ++ NL :: s) (NL :: s) (st MAN_DESC n f) (st MAN_NAME (n ++ [DC1]) f).
Proof.
  intros Hn. pose proof (reads_fixed 127 _ (NL :: lit ".br") (Ascii.eqb NL) NL s MAN_DESC n f ltac:(done) ltac:(vm_compute; reflexivity) eq_refl eq_refl eq_refl eq_refl) as H.
  cbn [rl_less rl_act] in H. by rewrite add_char_st in H.
Qed.

Lemma reads_end rest n f :
  ∃ t, reads (NL :: lit ".SH" ++ rest) t (st MAN_DESC n f) (st MAN_REST n f) ∧ ∀ g, filters_of t g = filters_of rest g.
Proof.
  assert (accepting (after (scanner MAN_DESC) (NL :: lit ".SH")) = Some 30) as Ha by (vm_compute; reflexivity).
  assert (after (scanner MAN_DESC) (NL :: lit ".SH") = [(30, Star blank)]) as Hs by (vm_compute; reflexivity).
  pose proof (longest_match_after _ (NL :: lit ".SH") rest _ ltac:(done) Ha) as Hl. rewrite Hs in Hl. unfold blank in Hl. rewrite longest_match_star in Hl.
  set (k := strspn isblank rest) in *. assert (longest_match (scanner MAN_DESC) (NL :: lit ".SH" ++ rest) = Some (4 + k, 30)) as Hm.
  { change (NL :: lit ".SH" ++ rest) with ((NL :: lit ".SH") ++ rest). rewrite Hl. by destruct k. }
  pose proof (reads_rule _ _ _ _ _ (st MAN_DESC n f) Hm eq_refl eq_refl eq_refl) as H. exists (drop k rest). split; [exact H|]. intros g.
  rewrite <-(take_drop k rest) at 2. rewrite filters_of_line; [done|]. intros Hin. pose proof (strspn_take isblank rest) as Hk.
  rewrite Forall_forall in Hk. by apply Hk in Hin.
Qed.

(** Lines before the section: requests other than those for sections. *)
Definition head_line (l : list ascii) : Prop :=
  ∃ c t, l = "."%char :: c :: t ∧ one_of (lit "Ss" ++ [CR; NL]) c = false ∧ NL ∉ t.

Lemma head_after c :
  one_of (lit "Ss" ++ [CR; NL]) c = false →
  ∃ rs, after (scanner MAN_FILE) ["."%char; c] = (2, Star dot) :: rs ∧ forallb (λ x, avoids NL x.2) rs = true.
Proof.
  destruct c as [[] [] [] [] [] [] [] []]; intros H; try discriminate H; eexists; (split; [vm_compute; reflexivity|vm_compute; reflexivity]).
Qed.

Lemma reads_head l s x : head_line l → lx_cond x = MAN_FILE → reads (l ++ NL :: s) (NL :: s) x x.
Proof.
  intros (c & t & -> & Hc & Ht) Hx. destruct (head_after c Hc) as (rs & Hr & Hav).
  assert (longest_match (scanner MAN_FILE) (("."%char :: c :: t) ++ NL :: s) = Some (length ("."%char :: c :: t), 2)) as Hl.
  { change ("."%char :: c :: t) with (["."%char; c] ++ t). rewrite <-app_assoc. eapply longest_match_rest; [done|exact Hr| |done|exact Hav].
    intros e He. apply negb_true_iff, Ascii.eqb_neq. by intros ->. }
  rewrite <-Hx in Hl. exact (reads_match 2 _ ("."%char :: c :: t) (NL :: s) x ltac:(done) Hl eq_refl eq_refl eq_refl).
Qed.

Definition head_text (heads : list (list ascii)) : list ascii := concat ((λ l, l ++ [NL]) <$> heads).

Lemma reads_heads heads s f :
  Forall head_line heads → reads (head_text heads ++ "."%char :: s) ("."%char :: s) (st MAN_FILE [] f) (st MAN_FILE [] f).
Proof.
  induction 1 as [|l heads Hl Hall IH]; [apply reads_refl|]. unfold head_text. cbn [fmap list_fmap concat]. rewrite <-!app_assoc. cbn [app].
  eapply reads_trans; [by apply reads_head|].
  assert (∃ t, concat ((λ l, l ++ [NL]) <$> heads) ++ "."%char :: s = "."%char :: t) as [t Et].
  { destruct Hall as [|l' heads (c & t & -> & _) _]; [by exists s|]. cbn. eauto. }
  change (fmap (λ l0 : list ascii, l0 ++ [NL]) heads) with ((λ l, l ++ [NL]) <$> heads). 
  eapply reads_trans; [|exact IH]. unfold head_text. rewrite Et.
  exact (reads_fixed 5 _ [NL] (λ _, true) "."%char t MAN_FILE [] f ltac:(done) ltac:(vm_compute; reflexivity) eq_refl eq_refl eq_refl eq_refl).
Qed.

(** Records: names, and the words of their description. *)
Definition name_ok (n : cstr) : Prop :=
  match n with c :: _ => isalnum c = true | [] => False end ∧ Forall (λ c, plain c = true) n ∧ no_dashes n.
Definition word_ok (w : cstr) : Prop := w ≠ [] ∧ Forall (λ c, plain c = true) w.
Definition record_ok (r : list cstr * list cstr) : Prop := r.1 ≠ [] ∧ r.2 ≠ [] ∧ Forall name_ok r.1 ∧ Forall word_ok r.2.

(** A record in a page, and in the result. *)
Definition page_record (r : list cstr * list cstr) : list ascii := name_list r.1 ++ lit " \- " ++ join SP r.2.
Definition described (r : list cstr * list cstr) : list cstr * cstr := (r.1, join SP r.2).

(** Records are set apart by a request for a line break. *)
Fixpoint page_section (rs : list (list cstr * list cstr)) : list ascii :=
  match rs with
  | [] => []
  | r :: rs => NL :: page_record r ++ match rs with [] => [] | _ => NL :: lit ".br" ++ page_section rs end
  end.
Fixpoint section_text (rs : list (list cstr * list cstr)) : list ascii :=
  match rs with
  | [] => []
  | r :: rs => record_text (described r) ++ match rs with [] => [] | _ => [DC1; SP] ++ section_text rs end
  end.

Definition names_text (names : list cstr) : list ascii := concat ((λ n, lit ", " ++ n) <$> names).

Lemma name_list_text n names : name_list (n :: names) = n ++ names_text names.
Proof.
  revert n. induction names as [|m names IH]; intros n; [by cbn; rewrite app_nil_r|].
  change (name_list (n :: m :: names)) with (n ++ ","%char :: name_list ((SP :: m) :: names)).
  rewrite IH. unfold names_text. cbn [fmap list_fmap concat]. by rewrite <-!app_assoc.
Qed.

Lemma reads_names w names s n f :
  Forall (λ c, plain c = true) w → no_dashes w → Forall name_ok names → short (n ++ w ++ names_text names) →
  reads ((w ++ names_text names) ++ SP :: s) (SP :: s) (st MAN_NAME n f) (st MAN_NAME (n ++ w ++ names_text names) f).
Proof.
  intros Hw Hd Hall. revert w n Hw Hd. induction Hall as [|m names (Hm1 & Hm2 & Hm3) Hall IH]; intros w n Hw Hd Hs.
  - unfold names_text in *. cbn [fmap list_fmap concat] in *. rewrite app_nil_r in *. by apply reads_word; [left| | | |].
  - unfold names_text in *. cbn [fmap list_fmap concat] in *. fold (names_text names) in *. rewrite <-!app_assoc. rewrite <-!app_assoc in Hs.
    eapply reads_trans; [apply (reads_word MAN_NAME w ","%char); [by left|done|done|done|rewrite app_assoc in Hs; by eapply short_prefix]|].
    destruct m as [|c m]; [done|]. rewrite !app_assoc in Hs. rewrite <-app_assoc in Hs.
    eapply reads_trans; [apply (reads_comma c (m ++ names_text names ++ SP :: s)); [by apply Forall_cons in Hm2 as []|by eapply short_prefix]|].
    change (c :: m ++ names_text names ++ SP :: s) with ((c :: m) ++ names_text names ++ SP :: s). rewrite app_assoc.
    rewrite (app_assoc n w), (app_assoc (n ++ w)). apply IH; [done|done|exact Hs].
Qed.

Lemma reads_words words s n f :
  words ≠ [] → Forall word_ok words → short (n ++ join SP words) →
  reads (join SP words ++ NL :: s) (NL :: s) (st MAN_DESC n f) (st MAN_DESC (n ++ join SP words) f).
Proof.
  intros Hne Hall. revert n. induction Hall as [|w words [Hw0 Hw] Hall IH]; intros n Hs; [done|]. destruct words as [|v words].
  - cbn [join] in *. apply reads_word; [by right|done|done|done|done].
  - change (join SP (w :: v :: words)) with (w ++ [SP] ++ join SP (v :: words)) in *. rewrite <-!app_assoc. rewrite !app_assoc in Hs.
    eapply reads_trans; [apply (reads_word MAN_DESC w SP); [by right|done|done|done|rewrite <-app_assoc in Hs; by eapply short_prefix]|].
    assert (∃ c t, join SP (v :: words) ++ NL :: s = c :: t ∧ plain c = true) as (c & t & E & Hc).
    { apply Forall_cons in Hall as [[Hv0 Hv] _]. destruct v as [|c v]; [done|]. apply Forall_cons in Hv as [Hc _]. exists c. destruct words; cbn; eauto. }
    rewrite E. eapply reads_trans; [apply reads_space; [done|by eapply short_prefix]|]. rewrite <-E, !app_assoc. by apply IH.
Qed.

Lemma reads_record r s n f :
  record_ok r → n = [] ∨ last n = Some DC1 → short (n ++ gap n ++ record_text (described r)) →
  reads (NL :: page_record r ++ NL :: s) (NL :: s) (st MAN_NAME n f)
    (st MAN_DESC (n ++ gap n ++ record_text (described r)) f).
Proof.
  destruct r as [names words]. intros (Hn0 & Hw0 & Hn & Hw) Hlast. cbn [fst snd] in *. destruct Hn as [|m names (Hc & Hm & Hd) Hn]; [done|].
  set (p := gap n). unfold record_text, described, page_record. cbn [fst snd].
  rewrite name_list_text, <-!app_assoc. destruct m as [|c m]; [done|]. cbn [app]. intros Hs.
  assert (short ((n ++ p ++ [c]) ++ m ++ names_text names) ∧ short ((n ++ p ++ [c]) ++ (m ++ names_text names) ++ lit " - ")) as [Hs1 Hs2].
  { split; [apply short_prefix with (lit " - " ++ join SP words)|apply short_prefix with (join SP words)]; by rewrite <-!app_assoc. }
  assert (Forall (λ c, plain c = true) m ∧ no_dashes m) as [Hm' Hd'].
  { split; [by apply Forall_cons in Hm as []|]. intros a b ->. by apply (Hd (c :: a) b). }
  assert (∃ d t, m ++ names_text names ++ lit " \- " ++ join SP words ++ NL :: s = d :: t) as (d & t & E).
  { destruct m, names; cbn; eauto. }
  rewrite E. change (NL :: c :: d :: t) with ([NL; c] ++ d :: t).
  eapply reads_trans; [apply reads_line; [done|done|by eapply short_prefix]|]. rewrite <-E. fold p. 
  rewrite app_assoc. change (lit " \- " ++ join SP words ++ NL :: s) with (SP :: lit "\- " ++ join SP words ++ NL :: s).
  eapply reads_trans; [by apply reads_names|]. change (SP :: lit "\- " ++ join SP words ++ NL :: s) with (lit " \- " ++ join SP words ++ NL :: s).
  assert (∃ e t, join SP words ++ NL :: s = e :: t ∧ plain e = true) as (e & t' & E' & He).
  { destruct Hw as [|[|e v] words [Hv0 Hv] _]; [done|done|]. apply Forall_cons in Hv as [He _]. exists e. destruct words; cbn; eauto. }
  assert (∃ e, last ((n ++ p ++ [c]) ++ m ++ names_text names) = Some e ∧ e ≠ SP) as (e' & He1 & He2).
  { assert (Forall (λ e, plain e = true) [c]) as Hpc by (apply Forall_cons in Hm as [? _]; by constructor).
    clear -Hm' Hn Hpc. induction names as [|v names IH] using rev_ind.
    - unfold names_text. cbn [fmap list_fmap concat]. rewrite app_nil_r, <-app_assoc. rewrite <-app_assoc, !last_app.
      destruct (last m) as [e|] eqn:El; [exists e; split; [done|]; rewrite Forall_forall in Hm'; by apply last_Some_elem_of, Hm', plain_not in El as (_ & _ & ? & _)|].
      cbn. exists c. split; [done|]. apply Forall_cons in Hpc as [Hpc _]. by apply plain_not in Hpc as (_ & _ & ? & _).
    - apply Forall_app in Hn as [_ Hv]. apply Forall_cons in Hv as [(Hv1 & Hv2 & _) _]. unfold names_text. rewrite fmap_app, concat_app. cbn [fmap list_fmap concat].
      rewrite app_nil_r, !app_assoc, last_app. destruct (last v) as [e|] eqn:El; [|destruct v; [done|by apply last_None in El]].
      exists e. split; [done|]. rewrite Forall_forall in Hv2. by apply last_Some_elem_of, Hv2, plain_not in El as (_ & _ & ? & _). }
  rewrite E'. eapply reads_trans; [apply (reads_dash e t' _ f e'); [done|done|done|by rewrite <-app_assoc]|]. rewrite <-E'.
  replace (n ++ p ++ c :: m ++ names_text names ++ lit " - " ++ join SP words) with ((((n ++ p ++ [c]) ++ m ++ names_text names) ++ lit " - ") ++ join SP words) by (by rewrite <-!app_assoc).
  apply reads_words; [done|done|]. by rewrite <-!app_assoc.
Qed.

Lemma reads_section rs s n f :
  rs ≠ [] → Forall record_ok rs → n = [] ∨ last n = Some DC1 → short (n ++ gap n ++ section_text rs) →
  reads (page_section rs ++ NL :: s) (NL :: s) (st MAN_NAME n f)
    (st MAN_DESC (n ++ gap n ++ section_text rs) f).
Proof.
  intros Hne Hall. revert n. induction Hall as [|r rs Hr Hall IH]; intros n Hn Hs; [done|]. cbn [page_section section_text] in *. destruct rs as [|r' rs].
  - rewrite !app_nil_r in *. by apply reads_record.
  - set (p := gap n) in *. set (rest := page_section (r' :: rs)) in *. set (text := section_text (r' :: rs)) in *.
    assert (∃ t, rest ++ NL :: s = NL :: t) as [t E] by (unfold rest; cbn; eauto).
    assert (short ((n ++ p ++ record_text (described r) ++ [DC1]) ++ [SP] ++ text)) as Hs' by by rewrite <-!app_assoc.
    replace ((NL :: page_record r ++ NL :: lit ".br" ++ rest) ++ NL :: s) with (NL :: page_record r ++ NL :: lit ".br" ++ rest ++ NL :: s)
      by (cbn [app]; rewrite <-!app_assoc; cbn [app]; by rewrite <-?app_assoc).
    eapply reads_trans; [apply reads_record; [done|done|]|].
    { apply short_prefix in Hs'. rewrite !app_assoc in Hs'. apply short_prefix in Hs'. by rewrite <-!app_assoc in Hs'. }
    rewrite E. eapply reads_trans; [apply reads_break; apply short_prefix in Hs'; by rewrite <-!app_assoc|]. rewrite <-E. fold p.
    replace ((n ++ p ++ record_text (described r)) ++ [DC1]) with (n ++ p ++ record_text (described r) ++ [DC1]) by (by rewrite <-!app_assoc).
    assert (last (n ++ p ++ record_text (described r) ++ [DC1]) = Some DC1) as Hl by by rewrite !app_assoc, last_snoc.
    specialize (IH ltac:(done) (n ++ p ++ record_text (described r) ++ [DC1]) (or_intror Hl)).
    unfold gap in IH. rewrite decide_False in IH by (intros En; by rewrite En in Hl). specialize (IH Hs'). by rewrite <-!app_assoc in IH.
Qed.

(** ** What is read back *)

Lemma join_words words :
  words ≠ [] → Forall word_ok words →
  (∃ c, head (join SP words) = Some c ∧ plain c = true) ∧ (∃ c, last (join SP words) = Some c ∧ plain c = true) ∧
  Forall (λ c, c = SP ∨ plain c = true) (join SP words).
Proof.
  intros Hne Hall. induction Hall as [|w words [Hw0 Hw] Hall IH]; [done|].
  assert (∃ c, head w = Some c ∧ plain c = true) as (c & Hc & Hp) by (destruct Hw; cbn; eauto; done).
  assert (∃ c, last w = Some c ∧ plain c = true) as (e & He & Hpe).
  { destruct (last w) as [e|] eqn:E; [|by apply last_None in E]. exists e. split; [done|]. rewrite Forall_forall in Hw. by apply Hw, last_Some_elem_of. }
  assert (Forall (λ c, c = SP ∨ plain c = true) w) as Hs by (eapply Forall_impl; [exact Hw|auto]).
  destruct words as [|v words]; [cbn [join]; eauto 10|]. change (join SP (w :: v :: words)) with (w ++ SP :: join SP (v :: words)).
  destruct (IH ltac:(done)) as (_ & (l & Hl & Hpl) & Hj). split_and!.
  - exists c. destruct w; [done|]. by rewrite <-Hc.
  - exists l. split; [|done]. by rewrite last_app, last_cons, Hl.
  - apply Forall_app. split; [done|]. constructor; [by left|done].
Qed.

Lemma name_good n : name_ok n → good_name n ∧ Forall (λ c, plain c = true) n ∧ head n ≠ Some SP.
Proof.
  intros (Hc & Hn & _). destruct n as [|c n]; [done|]. split_and!; [|done|intros [= ->]; done].
  rewrite Forall_forall in Hn. unfold good_name, clean_name. split_and!; try done; try (by intros Hin%Hn).
  intros [= -> _]. done.
Qed.

Lemma described_good r : record_ok r → good_record (described r).
Proof.
  intros (Hn0 & Hw0 & Hn & Hw). destruct (join_words _ Hw0 Hw) as ((c & Hc & Hpc) & (e & He & Hpe) & Hall). split_and!; cbn [described fst snd].
  - done.
  - eapply Forall_impl; [exact Hn|]. intros n Hnn. by apply name_good.
  - rewrite Forall_forall in Hall. intros Hin. by destruct (Hall _ Hin).
  - rewrite Hc. intros [= ->]. done.
  - rewrite He. intros [= ->]. done.
Qed.

Lemma record_nul r : record_ok r → NUL ∉ record_text (described r).
Proof.
  intros (Hn0 & Hw0 & Hn & Hw). destruct (join_words _ Hw0 Hw) as (_ & _ & Hall). unfold record_text, described. cbn [fst snd].
  assert (∀ n, n ∈ r.1 → NUL ∉ n) as Hnul by (intros n Hin; rewrite Forall_forall in Hn; apply plain_nul, name_good, Hn; done).
  rewrite !elem_of_app. intros [Hin|[Hin|Hin]].
  - destruct (r.1) as [|n names]; [done|]. rewrite name_list_text in Hin. apply elem_of_app in Hin as [Hin|Hin]; [apply (Hnul n); [by left|done]|].
    unfold names_text in Hin. apply list_elem_of_In, in_concat in Hin as (t & Hin%list_elem_of_In & Ht%list_elem_of_In). apply list_elem_of_fmap in Hin as (m & -> & Hm).
    apply elem_of_app in Ht as [Ht|Ht]; [revert Ht; not_in|]. by apply (Hnul m); [right|].
  - revert Hin. not_in.
  - rewrite Forall_forall in Hall. by destruct (Hall _ Hin).
Qed.

Lemma section_text_facts rs :
  rs ≠ [] → Forall record_ok rs →
  (NUL ∉ section_text rs) ∧ (∃ c, head (section_text rs) = Some c ∧ isalnum c = true) ∧ (∃ c, last (section_text rs) = Some c ∧ plain c = true).
Proof.
  intros Hne Hall. induction Hall as [|r rs Hr Hall IH]; [done|]. cbn [section_text]. pose proof (record_nul r Hr) as Hnul.
  assert (∃ c, head (record_text (described r)) = Some c ∧ isalnum c = true) as (c & Hc & Hac).
  { destruct Hr as (Hn0 & _ & Hn & _). unfold record_text, described. cbn [fst snd]. destruct Hn as [|[|c n] names (Ha & _)]; [done|done|].
    exists c. rewrite name_list_text. done. }
  assert (∃ c, last (record_text (described r)) = Some c ∧ plain c = true) as (e & He & Hpe).
  { destruct Hr as (_ & Hw0 & _ & Hw). destruct (join_words _ Hw0 Hw) as (_ & (e & He & Hpe) & _). exists e. split; [|done].
    unfold record_text, described. cbn [fst snd]. rewrite app_assoc, last_app, He. done. }
  assert (∀ t, head (record_text (described r) ++ t) = Some c) as Hh by (intros t; destruct (record_text (described r)); [done|exact Hc]).
  destruct rs as [|r' rs]; [rewrite app_nil_r; eauto 10|]. destruct (IH ltac:(done)) as (Hnul' & _ & (l & Hl & Hpl)). split_and!.
  - rewrite !not_elem_of_app. split_and!; [done|not_in|done].
  - exists c. by rewrite Hh.
  - exists l. split; [|done]. by rewrite !last_app, Hl.
Qed.

Lemma trim_length_id s c : last s = Some c → c ≠ SP → trim_length s (length s) = length s.
Proof.
  intros Hl Hc. destruct (length s) as [|n] eqn:En; [done|]. cbn [trim_length]. rewrite last_lookup, En in Hl. cbn [pred] in Hl. rewrite Hl.
  apply Ascii.eqb_neq in Hc. by rewrite Hc.
Qed.

Lemma trim_name_id s c e : head s = Some c → c ≠ SP → last s = Some e → e ≠ SP → trim_name s = Ret s.
Proof.
  intros Hh Hc Hl He. unfold trim_name. destruct s as [|c' s]; [done|]. injection Hh as ->. apply not_eq_sym, Ascii.eqb_neq in Hc. cbn [forallb strspn]. rewrite Hc.
  cbn [andb]. rewrite andb_false_r. cbn [drop]. rewrite trim_length_id with (c := e) by done. by rewrite firstn_all.
Qed.

Lemma parse_section rs fuel pre descs :
  rs ≠ [] → Forall record_ok rs → pre = [] ∨ pre = [DC1; SP] → length rs ≤ fuel →
  parse_records fuel (pre ++ section_text rs) descs = descs ++ concat (record_descs <$> (described <$> rs)).
Proof.
  intros Hne Hall. revert fuel pre descs. induction Hall as [|r rs Hr Hall IH]; intros fuel pre descs Hpre Hf; [done|].
  destruct fuel as [|fuel]; [cbn in Hf; lia|]. cbn [section_text fmap list_fmap concat].
  rewrite parse_record_step; [|by apply described_good|destruct Hpre as [->| ->]; auto|destruct rs; [by left|by right]].
  destruct rs as [|r' rs]; [cbn; by rewrite app_nil_r|]. cbn [app].
  change (DC1 :: SP :: section_text (r' :: rs)) with ([DC1; SP] ++ section_text (r' :: rs)).
  rewrite IH; [by rewrite <-app_assoc|done|by right|cbn in *; lia].
Qed.

Lemma length_section_text rs : length rs ≤ length (section_text rs).
Proof.
  induction rs as [|r rs IH]; [done|]. cbn [section_text]. rewrite length_app. unfold record_text at 1. rewrite !length_app. change (length (lit " - ")) with 3.
  destruct rs; cbn [length app] in *; lia.
Qed.

(** A page: its title and other requests, the NAME section, and the rest from
    the next section on. *)
Definition man_page (heads : list (list ascii)) (rs : list (list cstr * list cstr)) (rest : list ascii) : list ascii :=
  head_text heads ++ lit ".SH NAME" ++ page_section rs ++ NL :: lit ".SH" ++ rest.

Lemma man_page_scan heads rs rest :
  Forall head_line heads → rs ≠ [] → Forall record_ok rs → short (section_text rs) →
  ∃ y, scans (man_page heads rs rest) (start MANPAGE) 0 y ∧ lx_name y = section_text rs ∧ lx_filters y = filters_of rest (replicate 6 "_"%char).
Proof.
  intros Hheads Hne Hall Hs. set (f := replicate 6 "_"%char).
  destruct (reads_end rest (section_text rs) f) as (t & Hend & Hf). destruct (rest_scan t (st MAN_REST (section_text rs) f) eq_refl) as (y & Hy & Hyn & Hyf).
  exists y. split_and!; [|done|by rewrite Hyf, Hf]. change (start MANPAGE) with (st MAN_FILE [] f).
  assert (∃ c u, page_section rs = NL :: c :: u ∧ isalnum c = true) as (c & u & E & Hc).
  { destruct Hall as [|r rs (Hn0 & _ & Hn & _) _]; [done|]. destruct r as [names words]. cbn [fst snd] in *. destruct Hn as [|[|c n] names (Hc & _)]; [done|done|].
    exists c. unfold page_section, page_record. fold page_section. cbn [fst snd]. rewrite name_list_text. cbn [app]. eauto. }
  revert y Hy Hyn Hyf. intros y Hy _ _. revert Hy. apply (reads_trans _ t _ _ (st MAN_REST (section_text rs) f)); [|apply reads_refl].
  unfold man_page. eapply reads_trans; [apply (reads_heads heads _ f Hheads)|].
  change ("."%char :: (lit "SH NAME" ++ page_section rs ++ NL :: lit ".SH" ++ rest)) with (lit ".SH NAME" ++ page_section rs ++ NL :: lit ".SH" ++ rest).
  rewrite E. cbn [app].
  eapply reads_trans; [exact (reads_fixed 0 _ (lit ".SH NAME") (Ascii.eqb NL) NL _ MAN_FILE [] f ltac:(done) ltac:(vm_compute; reflexivity) eq_refl eq_refl eq_refl eq_refl)|].
  cbn [rl_less rl_act].
  eapply reads_trans; [exact (reads_fixed 29 _ [NL] isalnum c _ MAN_PRENAME [] f ltac:(done) ltac:(vm_compute; reflexivity) Hc eq_refl eq_refl eq_refl)|].
  cbn [rl_less rl_act]. change (drop 0 ([NL] ++ c :: u ++ NL :: lit ".SH" ++ rest)) with ((NL :: c :: u) ++ NL :: lit ".SH" ++ rest). rewrite <-E.
  eapply reads_trans; [apply (reads_section rs (lit ".SH" ++ rest) [] f Hne Hall); [by left|exact Hs]|]. exact Hend.
Qed.

(** ** Properties *)

Lemma trim_name_defined name :
  is_ret (trim_name name) = negb (negb (bool_decide (name = [])) && forallb (Ascii.eqb SP) name).
Proof. unfold trim_name. by destruct (_ && _). Qed.

Lemma filter_string_defined fs : length fs = 6 → is_ret (filter_string fs) = negb (forallb (λ c, negb (Ascii.eqb c "_")) fs).
Proof.
  intros Hl. unfold filter_string. assert (∀ l, length (filter (λ c, c ≠ "_"%char) l) ≤ length l ∧
    (length (filter (λ c, c ≠ "_"%char) l) = length l ↔ forallb (λ c, negb (Ascii.eqb c "_")) l = true)) as H.
  { induction l as [|c l [IH1 IH2]]; [done|]. rewrite filter_cons. cbn [forallb length]. destruct (Ascii.eqb_spec c "_") as [->|Hc].
    - rewrite decide_False by (intros Hf; by apply Hf). cbn [negb andb]. split; [lia|]. split; [lia|done].
    - rewrite decide_True by done. cbn [negb andb length]. split; [lia|]. rewrite <-IH2. lia. }
  destruct (H fs) as [_ He]. destruct (filter _ fs) as [|c l] eqn:E.
  - rewrite Hl in He. destruct (forallb _ fs); [|done]. by destruct He as [_ He]; specialize (He eq_refl).
  - rewrite Hl in He. case_bool_decide as Hb; cbn [is_ret]; symmetry.
    + apply negb_false_iff. by apply He.
    + apply negb_true_iff, not_true_is_false. intros Ht. by apply Hb, He.
Qed.

(** C18: the scan of any page ends, within a number of steps linear in its
    length; what it writes to the buffer leaves room for a NUL there, and the
    result is defined unless the NAME section consists of spaces or the page
    asks for all six filters. *)
Theorem find_name_safe page t :
  ∃ ret x, yylex (3 * length page + 3) page (start t) = Some (ret, x) ∧
    (Z.of_nat (length (lx_name x)) < MAX_NAME)%Z ∧ length (lx_filters x) = 6 ∧
    let name := xstrndup (lx_name x) in
    is_ret (find_name_decompressed page t) =
      (bool_decide (ret ≠ 0%Z) ||
       negb (negb (bool_decide (name = [])) && forallb (Ascii.eqb SP) name) && negb (forallb (λ c, negb (Ascii.eqb c "_")) (lx_filters x)))%bool.
Proof.
  destruct (yylex_ends page t) as (ret & x & E & [Hn Hf]). exists ret, x. split_and!; [done..|]. cbn zeta.
  rewrite <-trim_name_defined, <-filter_string_defined by done. unfold find_name_decompressed. rewrite E.
  destruct (bool_decide_reflect (ret = 0%Z)) as [->|Hr]; [|by rewrite bool_decide_true].
  rewrite bool_decide_false by (by intros []). cbn [orb]. destruct (trim_name _); try done. cbn. by destruct (filter_string _).
Qed.

Lemma name_section_reads heads rs rest :
  Forall head_line heads → rs ≠ [] → Forall record_ok rs → short (section_text rs) →
  find_name_decompressed (man_page heads rs rest) MANPAGE =
    (filters ← filter_string (filters_of rest (replicate 6 "_"%char));
     Ret (schar (default NUL (head (section_text rs))), Some (section_text rs, filters))) ∧
  parse_descriptions None (Some (section_text rs)) = concat (record_descs <$> (described <$> rs)).
Proof.
  intros Hheads Hne Hall Hs. split.
  - destruct (man_page_scan heads rs rest Hheads Hne Hall Hs) as (y & Hy%scans_fuel & Hn & Hf). unfold find_name_decompressed. rewrite Hy.
    rewrite bool_decide_true by done. rewrite Hn, Hf. destruct (section_text_facts rs Hne Hall) as (Hnul & (c & Hc & Hac) & (e & He & Hpe)).
    rewrite xstrndup_id, (trim_name_id _ c e) by (done || by intros ->). cbn [mbind outcome_bind]. destruct (filter_string _); try done. cbn. do 2 f_equal.
    destruct (section_text rs); [done|]. by injection Hc as ->.
  - unfold parse_descriptions. rewrite <-(app_nil_l (section_text rs)) at 2. rewrite parse_section; [done|done|done|by left|].
    pose proof (length_section_text rs). lia.
Qed.

(** C16: a page whose NAME section holds records of names and descriptions is
    read as just those: whatever titles and requests come before and whatever
    follows, the result is the records, with one character between them, and
    the filters that lines of the rest ask for; and taken apart it gives every
    name with its description, in order. *)
Theorem name_section_read heads rs rest :
  Forall head_line heads → rs ≠ [] → Forall record_ok rs → short (section_text rs) →
  find_name_decompressed (man_page heads rs rest) MANPAGE =
    (filters ← filter_string (filters_of rest (replicate 6 "_"%char));
     Ret (schar (default NUL (head (section_text rs))), Some (section_text rs, filters))) ∧
  parse_descriptions None (Some (section_text rs)) = concat (record_descs <$> (described <$> rs)).
Proof. apply name_section_reads. Qed.

Lemma name_section_read_witness :
  let heads := [lit ".TH LS 1"] in
  let rs := [([lit "ls"; lit "dir"], [lit "list"; lit "files"]); ([lit "vdir"], [lit "list,"]) ] in
  let rs := take 1 rs ++ [([lit "vdir"], [lit "list"; lit "more"])] in
  let rest := lit " SYNOPSIS" ++ [NL] ++ lit ".TS" in
  filter_string (filters_of rest (replicate 6 "_"%char)) = Ret (lit "t") ∧
  find_name_decompressed (man_page heads rs rest) MANPAGE =
    (filters ← filter_string (filters_of rest (replicate 6 "_"%char));
     Ret (schar (default NUL (head (section_text rs))), Some (section_text rs, filters))) ∧
  parse_descriptions None (Some (section_text rs)) = concat (record_descs <$> (described <$> rs)).
Proof.
  split; [reflexivity|]. apply (name_section_read [lit ".TH LS 1"]).
  - constructor; [|done]. exists "T"%char, (lit "H LS 1"). split_and!; [done|reflexivity|not_in].
  - done.
  - assert (∀ w, forallb plain w = true → Forall (λ c, plain c = true) w) as Hp by (intros w Hw; rewrite forallb_forall in Hw; apply Forall_forall; intros c Hc; by apply Hw, list_elem_of_In).
    assert (∀ w, forallb (λ c, negb (Ascii.eqb c "-")) w = true → no_dashes w) as Hd.
    { intros w Hw a b ->. rewrite !forallb_app in Hw. cbn in Hw. by rewrite andb_false_r in Hw. }
    repeat constructor; cbn [fst snd]; try done; try (by apply Hp); by apply Hd.
  - reflexivity.
Defined.

(** *** The tables *)

Lemma strncmp_take n a b : strncmp n (take n a) b = strncmp n a b.
Proof.
  revert a b. induction n as [|n IH]; intros [|x a] [|y b]; cbn; try done. destruct (uchar_cmp x y); try done. by rewrite IH.
Qed.

Lemma compare_macro_take s n m : compare_macro (take n s) n m = compare_macro s n m.
Proof. unfold compare_macro. by rewrite strncmp_take. Qed.

(** A table whose names have two characters each, all found by a search. *)
Definition table_ok (ms : list (cstr * cstr)) : bool :=
  forallb (λ m, (length m.1 =? 2) && negb (one_of m.1 NUL) &&
    match bsearch (compare_macro m.1 2) ms with Some i => bool_decide (ms !! i = Some m) | None => false end) ms.

Lemma tables_ok : table_ok glyphs = true ∧ table_ok perldocs = true.
Proof. split; vm_compute; reflexivity. Qed.

Lemma compare_macro_eq s n m :
  length m.1 = 2 → one_of m.1 NUL = false → n ≤ 2 → n ≤ length s → compare_macro s n m = Eq → m.1 = take n s.
Proof.
  destruct m as [[|a [|b [|]]] v]; try done. cbn [fst]. intros _ Hnul Hn Hs. unfold compare_macro. cbn [fst]. unfold one_of in Hnul. apply bool_decide_eq_false in Hnul.
  assert (∀ x y, uchar_cmp x y = Eq → x = y) as Hcmp.
  { intros x y E. apply Z.compare_eq in E. unfold uchar in E. apply (f_equal Z.to_N) in E. rewrite !N2Z.id in E. by apply (f_equal ascii_of_N) in E; rewrite !ascii_N_embedding in E. }
  assert (Ascii.eqb a NUL = false ∧ Ascii.eqb b NUL = false) as [Ha Hb] by (split; apply Ascii.eqb_neq; intros ->; set_solver).
  assert (cget [a; b] 0 = Some a ∧ cget [a; b] 1 = Some b ∧ cget [a; b] 2 = Some NUL) as (E0 & E1 & _) by done.
  destruct n as [|[|[|n]]]; [| | |lia]; cbn [strncmp app]; rewrite ?E0, ?E1, ?Ha, ?Hb.
  - done.
  - destruct s as [|x s]; [cbn in Hs; lia|]. destruct (uchar_cmp x a), (decide (x = NUL)); done.
  - destruct s as [|x [|y s]]; [cbn in Hs; lia..|]. destruct (uchar_cmp x a) eqn:Exa; try done. apply Hcmp in Exa as ->.
    rewrite decide_False by (intros ->; set_solver). destruct (uchar_cmp y b) eqn:Eyb; try done. by apply Hcmp in Eyb as ->.
Qed.

Lemma bsearch_loop_ext {A} (c1 c2 : A → comparison) base f l u :
  (∀ x, c1 x = c2 x) → bsearch_loop c1 base f l u = bsearch_loop c2 base f l u.
Proof.
  intros H. revert l u. induction f as [|f IH]; intros l u; [done|]. cbn [bsearch_loop]. destruct (decide (l < u)); [|done].
  destruct (base !! _) as [x|]; [|done]. rewrite H. by destruct (c2 x); rewrite ?IH.
Qed.

Lemma macro_search ms s n x :
  table_ok ms = true → n ≤ 2 → n ≤ length s →
  add_macro_to_whatis ms s n x = match find (λ m, bool_decide (m.1 = take n s)) ms with Some m => add_str_to_whatis m.2 (length m.2) x | None => x end.
Proof.
  intros Hok Hn Hs. unfold table_ok in Hok. rewrite forallb_forall in Hok.
  assert (∀ m, In m ms → length m.1 = 2 ∧ one_of m.1 NUL = false ∧ ∃ i, bsearch (compare_macro m.1 2) ms = Some i ∧ ms !! i = Some m) as Hm.
  { intros m Hin. specialize (Hok m Hin). apply andb_true_iff in Hok as [[H1%Nat.eqb_eq H2%negb_true_iff]%andb_true_iff H3].
    split_and!; [done|done|]. destruct (bsearch _ ms) as [i|]; [|done]. exists i. split; [done|]. by apply bool_decide_eq_true in H3. }
  (* the search for the name of an element finds that element *)
  assert (∀ m, In m ms → m.1 = take n s → n = 2 ∧ ∃ i, bsearch (compare_macro s n) ms = Some i ∧ ms !! i = Some m) as Hfound.
  { intros m Hin E. destruct (Hm m Hin) as (Hlen & _ & i & Hi & Hx). rewrite E, length_take in Hlen. assert (n = 2) as -> by lia. split; [done|].
    exists i. split; [|done]. rewrite <-Hi, E. apply bsearch_loop_ext. intros m'. by rewrite compare_macro_take. }
  unfold add_macro_to_whatis. destruct (find _ ms) as [m|] eqn:Ef.
  - apply find_some in Ef as [Hin E%bool_decide_eq_true]. destruct (Hfound m Hin E) as (_ & i & -> & ->). done.
  - destruct (bsearch (compare_macro s n) ms) as [i|] eqn:Eb; [|done]. pose proof Eb as (m & Hx & Hc)%bsearch_loop_sound. rewrite Hx.
    assert (In m ms) as Hin by (apply list_elem_of_In; by eapply list_elem_of_lookup_2). destruct (Hm m Hin) as (H1 & H2 & _).
    apply (compare_macro_eq s n m H1 H2 Hn Hs) in Hc. eapply find_none in Ef; [|exact Hin]. by rewrite bool_decide_true in Ef.
Qed.

(** The binary search over each table finds what a search from its beginning
    would: the characters a glyph stands for, the expansion of a Perl string. *)
Theorem macros_found s n x :
  n ≤ 2 → n ≤ length s →
  add_glyph_to_whatis s n x = match find (λ m, bool_decide (m.1 = take n s)) glyphs with Some m => add_str_to_whatis m.2 (length m.2) x | None => x end ∧
  add_perldoc_to_whatis s n x = match find (λ m, bool_decide (m.1 = take n s)) perldocs with Some m => add_str_to_whatis m.2 (length m.2) x | None => x end.
Proof. destruct tables_ok. split; by apply macro_search. Qed.

(** ** What the scanner gets wrong *)

Definition page_of (ls : list string) : list ascii := concat ((λ l, lit l ++ [NL]) <$> ls).

(** A NAME section of a single space: the byte before the buffer is read. *)
Example name_of_spaces : find_name_decompressed (page_of [".SH NAME"; " "; ".SH X"]) MANPAGE = Undef "newname[-1]".
Proof. vm_compute. reflexivity. Qed.

(** All six filters: the array of filters is not terminated. *)
Example six_filters :
  find_name_decompressed (page_of [".SH NAME"; "a \- b"; ".SH X"; ".TS"; ".EQ"; ".PS"; ".G1"; ".R1"; ".vS"]) MANPAGE = Undef "f_tmp[MAX_FILTERS]".
Proof. vm_compute. reflexivity. Qed.

(** A glyph at the beginning of a line is looked up one character too early. *)
Example glyph_after_newline :
  find_name_decompressed (page_of [".SH NAME"; "a \- b\('e"; ".SH X"]) MANPAGE = Ret (97%Z, Some (lit "a - bé", lit "-")) ∧
  find_name_decompressed (page_of [".SH NAME"; "a \- b"; "\('e"; ".SH X"]) MANPAGE = Ret (97%Z, Some (lit "a - b", lit "-")).
Proof. split; vm_compute; reflexivity. Qed.

(** A NAME section without a dash that ends the page is still read; a formatted
    page that ends in its NAME section is not. *)
Example ends_in_name :
  find_name_decompressed (lit ".SH NAME" ++ [NL] ++ lit "ls") MANPAGE = Ret (108%Z, Some (lit "ls", lit "-")) ∧
  find_name_decompressed ([NL; NL] ++ lit "NAME" ++ [NL] ++ lit "   ls - list") CATPAGE = Ret (0%Z, None).
Proof. split; vm_compute; reflexivity. Qed.

(** [mdoc_text] goes on with the description even when the buffer is full. *)
Example too_big_overridden :
  let full := Lexer MAN_DESC_AT (replicate (Z.to_nat MAX_NAME - 1) "x"%char) [] true false [] in
  lx_cond (add_word_to_whatis (lit "UNIX") full) = FORCE_EXIT ∧ lx_cond (mdoc_text (lit "UNIX") full) = MAN_DESC.
Proof. split; vm_compute; reflexivity. Qed.

(** An empty [.Dq] request: the end of its line goes to the standard output,
    and the next line is quoted in its place. *)
Example empty_dq :
  (λ r, (r.1, lx_echo r.2)) <$> yylex 200 (page_of [".SH NAME"; "a \- b"; ".Dq"; "c"; ".SH X"]) (start MANPAGE) = Some (0%Z, [NL]).
Proof. vm_compute. reflexivity. Qed.
