(* ===== verification/Cleanup.v ===== *)
(** * lib/cleanup.c: the stack of cleanup functions

    An array of slots with a top-of-stack index, and the dispositions of the
    three signals on which the cleanups run.  A call of a cleanup function is
    recorded; what the function does is its owner's business. *)

From S2P Require Import Prelude.

Inductive signo := SIGHUP | SIGINT | SIGTERM.
#[export] Instance signo_eq_dec : EqDecision signo.
Proof. solve_decision. Defined.

(** [sa_handler]: the default action, the handler of this file, or any other
    (one the program inherited as ignored, or one set elsewhere). *)
Inductive handler := SIG_DFL | sighandler | OtherHandler (n : nat).
#[export] Instance handler_eq_dec : EqDecision handler.
Proof. solve_decision. Defined.

Section cleanup.
Context {fn arg : Type} `{EqDecision fn} `{EqDecision arg}.
(** [sigaction] and [atexit] can fail. *)
Context (sigaction_ok : signo → bool) (atexit_ok : bool).

Record slot := Slot { sl_fun : fn; sl_arg : arg; sl_sigsafe : bool }.

(** [stack] is the allocated array, so [nslots] is its length. *)
Record state := State {
  stack : list slot;
  tos : nat;
  handler_installed : bool;
  action : signo → handler;
  saved_action : signo → handler;
}.

Definition nslots (s : state) : nat := length (stack s).
Definition set_action (s : state) (f : signo → handler) : state :=
  State (stack s) (tos s) (handler_installed s) f (saved_action s).
Definition set_saved (s : state) (f : signo → handler) : state :=
  State (stack s) (tos s) (handler_installed s) (action s) f.
Definition set_stack (s : state) (l : list slot) (t : nat) : state :=
  State l t (handler_installed s) (action s) (saved_action s).
Definition upd_sig (f : signo → handler) (g : signo) (h : handler) : signo → handler :=
  λ g', if decide (g' = g) then h else f g'.

(** ** Signals *)

(** The boolean is true for success. *)
Definition trap_signal (g : signo) (s : state) : bool * state :=
  if negb (sigaction_ok g) then (false, s)
  else
    let s := set_saved s (upd_sig (saved_action s) g (action s g)) in
    if bool_decide (saved_action s g = SIG_DFL) then
      (true, set_action s (upd_sig (action s) g sighandler))
    else (true, s).

Definition trap_abnormal_exits (s : state) : bool * state :=
  let '(ok, s) := trap_signal SIGHUP s in
  if negb ok then (false, s)
  else
    let '(ok, s) := trap_signal SIGINT s in
    if negb ok then (false, s) else trap_signal SIGTERM s.

Definition untrap_signal (g : signo) (s : state) : bool * state :=
  if negb (sigaction_ok g) then (false, s)
  else if bool_decide (action s g = sighandler) then
    (true, set_action s (upd_sig (action s) g (saved_action s g)))
  else (true, s).

Definition untrap_abnormal_exits (s : state) : bool * state :=
  let '(ok, s) := untrap_signal SIGHUP s in
  if negb ok then (false, s)
  else
    let '(ok, s) := untrap_signal SIGINT s in
    if negb ok then (false, s) else untrap_signal SIGTERM s.

(** ** The stack *)

(** The calls made, in order. *)
Fixpoint do_cleanups_loop (i : nat) (in_sighandler : bool) (l : list slot) : outcome (list (fn * arg)) :=
  match i with
  | 0 => Ret []
  | S i =>
    sl ← or_undef "do_cleanups: past the stack" (l !! i);
    rest ← do_cleanups_loop i in_sighandler l;
    Ret (if negb in_sighandler || sl_sigsafe sl then (sl_fun sl, sl_arg sl) :: rest else rest)
  end.

Definition do_cleanups_sigsafe (in_sighandler : bool) (s : state) : outcome (list (fn * arg)) :=
  if decide (tos s ≤ nslots s) then do_cleanups_loop (tos s) in_sighandler (stack s)
  else Fatal "assertion: tos <= nslots".

(** How the handler ends the program: through the signal it was called for,
    now with the default action, or through [_exit]. *)
Inductive death := Killed_by (g : signo) | Exited_FATAL.

(** The body of [sighandler].  [unblock_ok]: the signal could be unmasked. *)
Definition run_sighandler (unblock_ok : bool) (g : signo) (s : state) : outcome (list (fn * arg) * death) :=
  calls ← do_cleanups_sigsafe true s;
  Ret (calls,
       if negb (sigaction_ok g) then Exited_FATAL
       else if negb unblock_ok then Exited_FATAL
       else Killed_by g).

Definition do_cleanups (s : state) : outcome (list (fn * arg) * state) :=
  calls ← do_cleanups_sigsafe false s;
  Ret (calls, set_stack s [] 0).

(** Returns 0 or -1. *)
Definition push_cleanup (f : fn) (a : arg) (sigsafe : bool) (s : state) : outcome (Z * state) :=
  if decide (nslots s < tos s) then Fatal "assertion: tos <= nslots"
  else if negb (handler_installed s) && negb atexit_ok then Ret ((-1)%Z, s)
  else
    let s := State (stack s) (tos s) true (action s) (saved_action s) in
    let new := Slot f a sigsafe in
    (* a full stack gets one more slot, which is the one written *)
    let l := if decide (tos s = nslots s) then stack s ++ [new] else <[tos s := new]> (stack s) in
    Ret (0%Z, (trap_abnormal_exits (set_stack s l (S (tos s)))).2).

(** [for (j = i; j < tos; ++j) stack[j - 1] = stack[j]] *)
Fixpoint shift_down (n j : nat) (l : list slot) : outcome (list slot) :=
  match n with
  | 0 => Ret l
  | S n =>
    x ← or_undef "pop_cleanup: past the stack" (l !! j);
    shift_down n (S j) (<[j - 1 := x]> l)
  end.

(** The search from the top. *)
Fixpoint pop_loop (i : nat) (f : fn) (a : arg) (l : list slot) (t : nat) : outcome (list slot * nat) :=
  match i with
  | 0 => Ret (l, t)
  | S i' =>
    sl ← or_undef "pop_cleanup: past the stack" (l !! i');
    if bool_decide (sl_fun sl = f) && bool_decide (sl_arg sl = a) then
      l ← shift_down (t - i) i l;
      Ret (l, t - 1)
    else pop_loop i' f a l t
  end.

Definition pop_cleanup (f : fn) (a : arg) (s : state) : outcome state :=
  if decide (tos s = 0) then Fatal "assertion: tos > 0"
  else
    '(l, t) ← pop_loop (tos s) f a (stack s) (tos s);
    let s := set_stack s l t in
    Ret (if decide (t = 0) then (untrap_abnormal_exits s).2 else s).

Definition pop_all_cleanups (s : state) : state :=
  (untrap_abnormal_exits (set_stack s (stack s) 0)).2.

(** ** The abstract stack

    The live part of the array, topmost entry first. *)
Definition live (s : state) : list slot := reverse (take (tos s) (stack s)).
Definition inv (s : state) : Prop := tos s ≤ nslots s.

(** Remove the topmost entry for [f] and [a]. *)
Fixpoint remove_top (f : fn) (a : arg) (l : list slot) : list slot :=
  match l with
  | [] => []
  | sl :: l =>
    if bool_decide (sl_fun sl = f) && bool_decide (sl_arg sl = a) then l else sl :: remove_top f a l
  end.

Definition calls_of (in_sighandler : bool) (l : list slot) : list (fn * arg) :=
  (λ sl, (sl_fun sl, sl_arg sl)) <$> filter (λ sl, in_sighandler = false ∨ sl_sigsafe sl = true) l.

Lemma trap_live s : live (trap_abnormal_exits s).2 = live s ∧ (inv s → inv (trap_abnormal_exits s).2) ∧
  handler_installed (trap_abnormal_exits s).2 = handler_installed s.
Proof. unfold trap_abnormal_exits, trap_signal. by repeat (case_match; simplify_eq/=). Qed.

Lemma untrap_live s : live (untrap_abnormal_exits s).2 = live s ∧ (inv s → inv (untrap_abnormal_exits s).2).
Proof. unfold untrap_abnormal_exits, untrap_signal. by repeat (case_match; simplify_eq/=). Qed.

Lemma do_cleanups_loop_spec i b l :
  i ≤ length l → do_cleanups_loop i b l = Ret (calls_of b (reverse (take i l))).
Proof.
  induction i as [|i IH]; intros Hi; simpl; [done|].
  destruct (lookup_lt_is_Some_2 l i) as [sl Hsl]; [lia|]. rewrite Hsl, IH by lia. simpl.
  rewrite (take_S_r _ _ _ Hsl), reverse_snoc. unfold calls_of. rewrite filter_cons.
  case_decide; destruct b, (sl_sigsafe sl) eqn:E; simpl; naive_solver.
Qed.

Lemma shift_down_spec n j l :
  0 < j → j + n ≤ length l →
  ∃ tl, shift_down n j l = Ret (take (j - 1) l ++ take n (drop j l) ++ tl) ∧
    length (take (j - 1) l ++ take n (drop j l) ++ tl) = length l.
Proof.
  revert j l. induction n as [|n IH]; intros j l Hj Hl; cbn [shift_down].
  { exists (drop (j - 1) l). rewrite take_0. simpl. by rewrite take_drop. }
  destruct (lookup_lt_is_Some_2 l j) as [x Hx]; [lia|]. rewrite Hx. cbn [or_undef]. rewrite bind_Ret.
  destruct (IH (S j) (<[j - 1:=x]> l)) as (tl & -> & Hlen); [lia|rewrite length_insert; lia|].
  assert (take (S j - 1) (<[j - 1:=x]> l) ++ take n (drop (S j) (<[j - 1:=x]> l)) ++ tl =
    take (j - 1) l ++ take (S n) (drop j l) ++ tl) as Heq.
  { replace (S j - 1) with (S (j - 1)) by lia.
    rewrite (take_S_r _ _ x) by (rewrite list_lookup_insert_eq; [done|lia]).
    rewrite take_insert_ge, drop_insert_lt by lia. rewrite (drop_S l x j Hx). simpl.
    by rewrite <-app_assoc. }
  exists tl. rewrite Heq in *. split; [done|]. by rewrite Hlen, length_insert.
Qed.

(** What [pop_loop] leaves: the array without the topmost match. *)
Lemma pop_loop_spec i f a l t :
  i ≤ t → t ≤ length l →
  ∃ l' t', pop_loop i f a l t = Ret (l', t') ∧ t' ≤ length l' ∧
    reverse (take t' l') = reverse (drop i (take t l)) ++ remove_top f a (reverse (take i l)).
Proof.
  intros Hi Ht. induction i as [|i IH]; simpl.
  { do 2 eexists. split; [done|]. split; [done|]. by rewrite drop_0, app_nil_r. }
  destruct (lookup_lt_is_Some_2 l i) as [sl Hsl]; [lia|]. rewrite Hsl. simpl.
  rewrite (take_S_r _ _ _ Hsl), reverse_snoc. cbn [remove_top].
  destruct (bool_decide (sl_fun sl = f) && bool_decide (sl_arg sl = a)) eqn:E.
  - destruct (shift_down_spec (t - S i) (S i) l) as (tl & -> & Hlen); [lia..|].
    rewrite bind_Ret. replace (S i - 1) with i in * by lia. do 2 eexists. split; [done|].
    split; [rewrite Hlen; lia|]. rewrite app_assoc, take_app_length'.
    + rewrite reverse_app. f_equal. rewrite take_drop_commute. by replace (S i + (t - S i)) with t by lia.
    + rewrite length_app, !length_take, length_drop. lia.
  - destruct IH as (l' & t' & -> & Hl & Heq); [lia|]. do 2 eexists. split; [done|]. split; [done|].
    rewrite Heq. rewrite (drop_S (take t l) sl i) by (rewrite lookup_take_lt; [done|lia]).
    rewrite reverse_cons, <-app_assoc. done.
Qed.

Lemma push_live f a sigsafe s :
  inv s → handler_installed s = true ∨ atexit_ok = true →
  ∃ s', push_cleanup f a sigsafe s = Ret (0%Z, s') ∧ inv s' ∧ live s' = Slot f a sigsafe :: live s ∧
    handler_installed s' = true.
Proof.
  intros Hinv Hat. unfold inv, nslots in Hinv. unfold push_cleanup. rewrite decide_False by (unfold nslots; lia).
  replace (negb (handler_installed s) && negb atexit_ok) with false by (destruct Hat as [-> | ->]; by rewrite ?andb_false_r).
  eexists. split; [done|]. match goal with |- context [trap_abnormal_exits ?x] => destruct (trap_live x) as (-> & Hi & Hh); set (s1 := x) in * end.
  assert (take (S (tos s)) (stack s1) = take (tos s) (stack s) ++ [Slot f a sigsafe] ∧ inv s1) as [Htake Hs1].
  { unfold s1, inv, nslots. simpl. case_decide as Ht.
    - unfold nslots in Ht. simpl in Ht. rewrite Ht, length_app. simpl. split; [|lia].
      by rewrite take_ge, firstn_all by (rewrite length_app; simpl; lia).
    - unfold nslots in Ht. simpl in Ht. rewrite length_insert. split; [|lia].
      rewrite (take_S_r _ _ (Slot f a sigsafe)) by (rewrite list_lookup_insert_eq; [done|lia]).
      by rewrite take_insert_ge. }
  split; [by apply Hi|]. split; [|by rewrite Hh]. unfold live. change (tos s1) with (S (tos s)). by rewrite Htake, reverse_snoc.
Qed.

Lemma pop_live f a s :
  inv s → tos s ≠ 0 → ∃ s', pop_cleanup f a s = Ret s' ∧ inv s' ∧ live s' = remove_top f a (live s).
Proof.
  intros Hinv Ht. unfold inv, nslots in Hinv. unfold pop_cleanup. rewrite decide_False by done.
  destruct (pop_loop_spec (tos s) f a (stack s) (tos s)) as (l & t & -> & Hl & Heq); [lia..|].
  rewrite bind_Ret. eexists. split; [done|]. unfold live at 2. rewrite drop_ge in Heq by (rewrite length_take; lia).
  simpl in Heq. rewrite <-Heq. case_decide as H0; [|done].
  destruct (untrap_live (set_stack s l t)) as [-> Hi]. split; [by apply Hi|done].
Qed.

Lemma live_tos s : inv s → length (live s) = tos s.
Proof. unfold inv, nslots, live. intros. rewrite length_reverse, length_take. lia. Qed.

(** The array implements a stack.  Pushing adds an entry on top, popping
    removes the topmost entry for the given function and argument and keeps
    the order of the others, and the cleanups run from the top to the bottom,
    in a signal handler only the ones marked safe there.  No operation reads
    past the array and every assertion but the one on popping an empty stack
    holds. *)
Theorem cleanup_stack (s : state) :
  inv s →
  (∀ f a sigsafe, handler_installed s = true ∨ atexit_ok = true →
     ∃ s', push_cleanup f a sigsafe s = Ret (0%Z, s') ∧ inv s' ∧ live s' = Slot f a sigsafe :: live s) ∧
  (∀ f a, tos s ≠ 0 → ∃ s', pop_cleanup f a s = Ret s' ∧ inv s' ∧ live s' = remove_top f a (live s)) ∧
  (∀ b, do_cleanups_sigsafe b s = Ret (calls_of b (live s))) ∧
  (∃ s', do_cleanups s = Ret (calls_of false (live s), s') ∧ inv s' ∧ live s' = []) ∧
  (inv (pop_all_cleanups s) ∧ live (pop_all_cleanups s) = []).
Proof.
  intros Hinv.
  assert (∀ b, do_cleanups_sigsafe b s = Ret (calls_of b (live s))) as Hdo.
  { intros b. unfold do_cleanups_sigsafe. rewrite decide_True by done. by apply do_cleanups_loop_spec. }
  split; [|split; [|split; [done|split]]].
  - intros f a sigsafe Hat. destruct (push_live f a sigsafe s Hinv Hat) as (s' & ? & ? & ? & _). by exists s'.
  - intros f a. by apply pop_live.
  - unfold do_cleanups. rewrite Hdo. eexists. split; [done|]. split; [|done]. unfold inv. simpl. lia.
  - unfold pop_all_cleanups. destruct (untrap_live (set_stack s (stack s) 0)) as [-> Hi].
    split; [apply Hi; unfold inv; simpl; lia|done].
Qed.

(** A signal runs the cleanups marked safe, from the top, and the program then
    dies of that signal, unless the library refuses to restore its action. *)
Lemma sighandler_calls unblock_ok g (s : state) :
  inv s →
  ∃ how, run_sighandler unblock_ok g s = Ret (calls_of true (live s), how) ∧
    (sigaction_ok g = true → unblock_ok = true → how = Killed_by g).
Proof.
  intros Hinv. unfold run_sighandler, do_cleanups_sigsafe. rewrite decide_True by done.
  rewrite do_cleanups_loop_spec by done. rewrite bind_Ret. eexists. split; [done|]. by intros -> ->.
Qed.
End cleanup.

(** ** Evaluation *)

Definition no_signals : state (fn:=nat) (arg:=nat) := State [] 0 false (λ _, SIG_DFL) (λ _, SIG_DFL).
Definition good_sigaction : signo → bool := λ _, true.

Lemma cleanup_stack_witness :
  (∃ s', push_cleanup good_sigaction true 1 2 false no_signals = Ret (0%Z, s') ∧
     inv s' ∧ live s' = Slot 1 2 false :: live no_signals).
Proof.
  refine (proj1 (cleanup_stack good_sigaction true no_signals _) 1 2 false _).
  - unfold inv. simpl. lia.
  - by right.
Defined.

(** The dispositions after [n] pushes and as many pops. *)
Definition push_pop (n : nat) : outcome (list handler) :=
  s ← foldl (λ o k, s ← o; '(_, s) ← push_cleanup good_sigaction true k 0 false s; Ret s) (Ret no_signals) (seq 0 n);
  s ← foldl (λ o k, s ← o; pop_cleanup good_sigaction k 0 s) (Ret s) (seq 0 n);
  Ret (action s <$> [SIGHUP; SIGINT; SIGTERM]).

(** One push and pop leave the signals as they were.  Two pushes do not:
    the second one saves the handler the first installed as the action to
    restore, so that after both are popped the signals are still trapped. *)
Theorem untrap_restores_own_handler :
  push_pop 1 = Ret [SIG_DFL; SIG_DFL; SIG_DFL] ∧
  push_pop 2 = Ret [sighandler; sighandler; sighandler].
Proof. by vm_compute. Qed.
