(* ===== verification/Security.v ===== *)
(** * lib/security.c: dropping and regaining privileges

    The part compiled when [MAN_OWNER] is configured: a setuid man runs most
    of the time with the ids of the user who started it, and counts how often
    it dropped its privileges. *)

From S2P Require Import Prelude.

(** The ids of the process: real, effective and saved. *)
Record ids := Ids { id_real : Z; id_eff : Z; id_saved : Z }.
Record process := Process { p_uid : ids; p_gid : ids }.
#[export] Instance ids_eq_dec : EqDecision ids.
Proof. solve_decision. Defined.
#[export] Instance process_eq_dec : EqDecision process.
Proof. solve_decision. Defined.

(** gnulib's idpriv: drop the effective ids and keep the saved ones, take
    them back, and give up all privileges; [None] is a failure. *)
Class IdPriv := {
  idpriv_temp_drop : process → option process;
  idpriv_temp_restore : process → option process;
  idpriv_drop : process → option process;
}.

Definition dropped (p : process) : process :=
  Process (Ids (id_real (p_uid p)) (id_real (p_uid p)) (id_saved (p_uid p)))
          (Ids (id_real (p_gid p)) (id_real (p_gid p)) (id_saved (p_gid p))).
Definition restored (p : process) : process :=
  Process (Ids (id_real (p_uid p)) (id_saved (p_uid p)) (id_saved (p_uid p)))
          (Ids (id_real (p_gid p)) (id_saved (p_gid p)) (id_saved (p_gid p))).

(** What idpriv.h documents of the two temporary functions. *)
Class IdPrivLaws `{IdPriv} : Prop := {
  temp_drop_law p p' : idpriv_temp_drop p = Some p' → p' = dropped p;
  temp_restore_law p p' : idpriv_temp_restore p = Some p' → p' = restored p;
}.

Section security.
Context `{IdPriv}.

(** The variables of the file, with the process they describe. *)
Record sec_state := Sec {
  ruid : Z; euid : Z; uid : Z;
  rgid : Z; egid : Z; gid : Z;
  priv_drop_count : Z;
  proc : process;
}.

Definition gripe_set_euid {A} : outcome A := Fatal "can't set effective uid".

Definition drop_effective_privs (s : sec_state) : outcome sec_state :=
  s ← (if bool_decide (uid s = ruid s) then Ret s
       else match idpriv_temp_drop (proc s) with
            | None => gripe_set_euid
            | Some p => Ret (Sec (ruid s) (euid s) (ruid s) (rgid s) (egid s) (rgid s) (priv_drop_count s) p)
            end);
  Ret (Sec (ruid s) (euid s) (uid s) (rgid s) (egid s) (gid s) (priv_drop_count s + 1) (proc s)).

Definition regain_effective_privs (s : sec_state) : outcome sec_state :=
  let n := priv_drop_count s in
  let n' := if bool_decide (n = 0)%Z then n else (n - 1)%Z in
  let s := Sec (ruid s) (euid s) (uid s) (rgid s) (egid s) (gid s) n' (proc s) in
  if negb (bool_decide (n = 0)%Z) && negb (bool_decide (n' = 0)%Z) then Ret s
  else if bool_decide (uid s = euid s) then Ret s
  else match idpriv_temp_restore (proc s) with
       | None => gripe_set_euid
       | Some p => Ret (Sec (ruid s) (euid s) (euid s) (rgid s) (egid s) (egid s) (priv_drop_count s) p)
       end.

Definition init_security (p : process) : outcome sec_state :=
  drop_effective_privs
    (Sec (id_real (p_uid p)) (id_eff (p_uid p)) (id_eff (p_uid p))
         (id_real (p_gid p)) (id_eff (p_gid p)) (id_eff (p_gid p)) 0 p).

Definition running_setuid (s : sec_state) : bool := negb (bool_decide (ruid s = euid s)).

Definition drop_privs (s : sec_state) : outcome sec_state :=
  match idpriv_drop (proc s) with
  | None => gripe_set_euid
  | Some p => Ret (Sec (ruid s) (euid s) (uid s) (rgid s) (egid s) (gid s) (priv_drop_count s) p)
  end.

(** [get_man_owner]: the password entry, looked up once; the second component
    is what is remembered. *)
Definition get_man_owner {passwd : Type} (getpwnam : option passwd) (man_owner : option passwd)
    : outcome (passwd * option passwd) :=
  match man_owner with
  | Some pw => Ret (pw, man_owner)
  | None =>
    match getpwnam with
    | None => Fatal "the setuid man user does not exist"
    | Some pw => Ret (pw, Some pw)
    end
  end.

(** ** Reachable states *)

(** A setuid program: the saved id is the effective one it was started with. *)
Definition setuid_process (p : process) : Prop :=
  id_saved (p_uid p) = id_eff (p_uid p) ∧ id_saved (p_gid p) = id_eff (p_gid p).

(** [privileged]: how many drops are outstanding is tracked as a natural
    number; zero means the privileges are in force. *)
Inductive reachable (p0 : process) : nat → sec_state → Prop :=
| reach_init s : init_security p0 = Ret s → reachable p0 1 s
| reach_drop n s s' : reachable p0 n s → drop_effective_privs s = Ret s' → reachable p0 (S n) s'
| reach_regain n s s' : reachable p0 n s → regain_effective_privs s = Ret s' → reachable p0 (n - 1) s'.

Context `{!IdPrivLaws}.

(** The variables describe the process, and the count the drops. *)
Record sec_inv (p0 : process) (n : nat) (s : sec_state) : Prop := SecInv {
  si_ruid : ruid s = id_real (p_uid p0);
  si_euid : euid s = id_eff (p_uid p0);
  si_rgid : rgid s = id_real (p_gid p0);
  si_egid : egid s = id_eff (p_gid p0);
  si_count : priv_drop_count s = Z.of_nat n;
  si_uid : uid s = if decide (n = 0) then euid s else ruid s;
  si_proc : ruid s ≠ euid s → proc s = if decide (n = 0) then p0 else dropped p0;
  si_same : ruid s = euid s → proc s = p0;
}.

Lemma drop_inv p0 n s s' :
  sec_inv p0 n s → drop_effective_privs s = Ret s' → sec_inv p0 (S n) s'.
Proof.
  intros [] Heq. unfold drop_effective_privs in Heq. bind_inv. subst s'.
  case_bool_decide as Hu.
  - simplify_eq. split; simpl; try done; [lia|].
    intros Hne. rewrite si_proc0 by done. destruct (decide (n = 0)); [congruence|done].
  - destruct (idpriv_temp_drop (proc s)) as [p|] eqn:E; [|done]. simplify_eq/=.
    destruct (decide (n = 0)) as [->|]; [|congruence]. apply temp_drop_law in E.
    split; simpl; try done; [lia|intros Hne|congruence]. by rewrite E, si_proc0.
Qed.

Lemma regain_inv p0 n s s' :
  setuid_process p0 → sec_inv p0 n s → regain_effective_privs s = Ret s' → sec_inv p0 (n - 1) s'.
Proof.
  intros [Hsu Hsg] [] Heq. unfold regain_effective_privs in Heq. rewrite si_count0 in Heq.
  destruct (decide (n ≤ 1)) as [Hn|Hn].
  - replace (n - 1) with 0 by lia.
    replace (if bool_decide (Z.of_nat n = 0)%Z then Z.of_nat n else (Z.of_nat n - 1)%Z) with 0%Z in Heq
      by (case_bool_decide; lia).
    rewrite andb_false_r in Heq. simpl in Heq. case_bool_decide as Hu.
    + simplify_eq. split; simpl; try done. intros Hne. rewrite si_proc0 by done. case_decide; [done|congruence].
    + destruct (idpriv_temp_restore (proc s)) as [p|] eqn:E; [|done]. simplify_eq/=.
      apply temp_restore_law in E. destruct (decide (n = 0)); [congruence|].
      split; simpl; try done; [intros Hne|congruence]. rewrite E, si_proc0 by done.
      destruct p0 as [[] []]. unfold restored, dropped. simpl in *. by subst.
  - rewrite !bool_decide_eq_false_2 in Heq by (rewrite ?bool_decide_eq_false_2; lia).
    simpl in Heq. simplify_eq. destruct (decide (n = 0)); [lia|].
    split; simpl; try done; [lia|case_decide; [lia|done]|case_decide; [lia|done]].
Qed.

Lemma reachable_inv p0 n s : setuid_process p0 → reachable p0 n s → sec_inv p0 n s.
Proof.
  intros Hp Hr. induction Hr as [s Heq|n s s' _ IH Heq|n s s' _ IH Heq].
  - eapply drop_inv; [|done]. by split.
  - by eapply drop_inv.
  - by eapply regain_inv.
Qed.

(** The number of drops outstanding determines the ids of the process. *)
Lemma reachable_proc p0 n s s' : setuid_process p0 → reachable p0 n s → reachable p0 n s' → proc s = proc s'.
Proof.
  intros Hp Hr Hr'. pose proof (reachable_inv p0 n s Hp Hr) as [H1 H2 _ _ _ _ H3 H4].
  pose proof (reachable_inv p0 n s' Hp Hr') as [H1' H2' _ _ _ _ H3' H4'].
  destruct (decide (ruid s = euid s)); [rewrite H4, H4' by congruence; done|by rewrite H3, H3' by congruence].
Qed.

(** C38: whatever the sequence of drops and regains after [init_security],
    while more privileges were dropped than regained the program runs with
    the effective ids of the user who started it, and when as many were
    regained it runs with its own again; a regain too many does nothing.  The
    variables describe the process at every point. *)
Theorem privileges_balanced p0 n s :
  setuid_process p0 → reachable p0 n s →
  sec_inv p0 n s ∧
  p_uid (proc s) = (if decide (n = 0) then p_uid p0
                    else if running_setuid s then p_uid (dropped p0) else p_uid p0) ∧
  (0 < n → id_eff (p_uid (proc s)) = ruid s).
Proof.
  intros Hp Hr. pose proof (reachable_inv p0 n s Hp Hr) as Hinv. split; [done|]. destruct Hinv. unfold running_setuid. case_bool_decide as Hrun; simpl.
  - rewrite si_same0 by done. split; [by case_decide|]. intros _. congruence.
  - rewrite si_proc0 by done. split; [by case_decide|]. intros Hn. rewrite decide_False by lia. simpl. done.
Qed.
End security.

(** ** Evaluation *)

(** A process that may always change its ids. *)
#[export] Instance able_idpriv : IdPriv := {|
  idpriv_temp_drop p := Some (dropped p);
  idpriv_temp_restore p := Some (restored p);
  idpriv_drop p := Some (dropped p);
|}.
#[export] Instance able_idpriv_laws : IdPrivLaws.
Proof. split; by intros ?? [= <-]. Qed.

Definition setuid_man : process := Process (Ids 1000 6 6) (Ids 1000 12 12).
Definition started : sec_state := Sec 1000 6 1000 1000 12 1000 1 (dropped setuid_man).

Lemma privileges_balanced_witness :
  sec_inv setuid_man 1 started ∧
  p_uid (proc started) = Ids 1000 1000 6 ∧
  (0 < 1 → id_eff (p_uid (proc started)) = 1000%Z).
Proof.
  refine (privileges_balanced setuid_man 1 started _ _).
  - done.
  - by constructor.
Defined.
