(* ===== verification/CatDirs.v ===== *)
(** * src/check_mandirs.c: the directories for cat pages

    Before a hierarchy is scanned, directories left setgid by old versions are
    repaired ([fix_permissions_tree]); when its index is made, the cat
    directories for its sections are made too ([mkcatdirs]).  The directories
    are a map from paths to their mode and owner, or to the target of a link. *)

From S2P Require Import Prelude CStr StateM Fs Util Security.

Record node := Node { nd_mode : Z; nd_owner : Z * Z; nd_link : option cstr }.
Abbreviation tree := (gmap cstr node).

(** ** System calls *)

(** The path at the end of the links, as [stat] follows them. *)
Fixpoint resolve (fuel : nat) (t : tree) (path : cstr) : option cstr :=
  nd ← t !! path;
  match nd_link nd, fuel with
  | None, _ => Some path
  | Some target, S fuel => resolve fuel t target
  | Some _, 0 => None
  end.
Definition MAXSYMLINKS : nat := 40.
Definition stat_node (t : tree) (path : cstr) : option node := resolve MAXSYMLINKS t path ≫= λ p, t !! p.

(** The view that [is_directory] has of it. *)
Definition tree_fs (t : tree) : FileSystem := {|
  fs_stat path := (λ nd, Stat (nd_mode nd) 0 1 0 (Timespec 0 0)) <$> stat_node t path;
  fs_lstat _ := None; fs_readdir _ := None; fs_access_R _ := false; fs_access_F _ := false;
  fs_canonicalize _ := None; fs_glob _ := None;
|}.
Definition is_dir (t : tree) (path : cstr) : bool := (is_directory (H := tree_fs t) path =? 1)%Z.

Definition S_ISGID : Z := 1024.

(** [mkdir] as the process with these ids, with umask 022; whether ownership and
    mode can be changed. *)
Class CatDirEnv := {
  cd_mkdir : sec_state → tree → cstr → Z → option node;
  cd_lchown_ok : sec_state → cstr → bool;
  cd_chmod_ok : sec_state → cstr → bool;
  cd_man_owner : option (Z * Z);
}.
Class MkdirLaws `{CatDirEnv} : Prop := {
  mkdir_new s t path mode nd : cd_mkdir s t path mode = Some nd → t !! path = None;
  mkdir_directory s t path mode nd : cd_mkdir s t path mode = Some nd → nd_link nd = None ∧ Z.land (nd_mode nd) S_IFDIR ≠ 0%Z;
}.

Record cat_dirs := CatDirs { cd_tree : tree; cd_sec : sec_state }.

Section catdirs.
Context `{IdPriv} `{CatDirEnv}.
Abbreviation dirs := (exitM cat_dirs).

Definition set_tree (f : tree → tree) (s : cat_dirs) : cat_dirs := CatDirs (f (cd_tree s)) (cd_sec s).
Definition on_sec (f : sec_state → outcome sec_state) : dirs unit :=
  s ← exit_get; x ← exit_lift (f (cd_sec s)); exit_modify (λ s, CatDirs (cd_tree s) x).

Definition set_owner (ids : Z * Z) (path : cstr) : tree → tree := alter (λ nd, Node (nd_mode nd) ids (nd_link nd)) path.
Definition set_mode (mode : Z) (path : cstr) : tree → tree := alter (λ nd, Node mode (nd_owner nd) (nd_link nd)) path.

Definition chown_if_possible (path : cstr) : dirs unit :=
  s ← exit_get;
  match cd_man_owner with
  | None => exit_lift (Fatal "the setuid man user does not exist")
  | Some (pw_uid, pw_gid) =>
    match cd_tree s !! path with
    | None => mret tt
    | Some nd =>
      let '(st_uid, st_gid) := nd_owner nd in
      if ((uid (cd_sec s) =? 0)%Z
          || ((uid (cd_sec s) =? pw_uid)%Z && (st_uid =? pw_uid)%Z && (gid (cd_sec s) =? pw_gid)%Z))
         && (negb (st_uid =? pw_uid)%Z || negb (st_gid =? pw_gid)%Z)
      then if cd_lchown_ok (cd_sec s) path then exit_modify (set_tree (set_owner (pw_uid, pw_gid) path)) else exit_lift (Fatal "can't chown")
      else mret tt
    end
  end.

(** A directory that cannot be made is only warned about. *)
Definition make_dir (path : cstr) : dirs unit :=
  s ← exit_get;
  _ ← (match cd_mkdir (cd_sec s) (cd_tree s) path 493 with
       | Some nd => exit_modify (set_tree <[path := nd]>)
       | None => mret tt
       end);
  chown_if_possible path.

(** [cat1] to [cat9], and [man1] to [man9]. *)
Definition numbered (dir : cstr) (name : string) (j : nat) : cstr := dir ++ lit "/" ++ lit name ++ [ascii_of_nat (48 + j)].
Definition sections_1_9 : list nat := seq 1 9.

Fixpoint make_sections (mandir catdir : cstr) (js : list nat) : dirs unit :=
  match js with
  | [] => mret tt
  | j :: js =>
    s ← exit_get;
    let catname := numbered catdir "cat" j in
    _ ← (if is_dir (cd_tree s) (numbered mandir "man" j) && negb (is_dir (cd_tree s) catname) then make_dir catname else mret tt);
    make_sections mandir catdir js
  end.

Definition mkcatdirs (mandir : cstr) (catdir : option cstr) : dirs unit :=
  match catdir with
  | None => mret tt
  | Some catdir =>
    s ← exit_get;
    _ ← (if is_dir (cd_tree s) catdir then mret tt
         else
           _ ← on_sec regain_effective_privs;
           _ ← make_dir catdir;
           on_sec drop_effective_privs);
    s ← exit_get;
    if is_dir (cd_tree s) catdir then
      _ ← on_sec regain_effective_privs;
      _ ← make_sections mandir catdir sections_1_9;
      on_sec drop_effective_privs
    else mret tt
  end.

Definition fix_permissions (dir : cstr) : dirs unit :=
  s ← exit_get;
  match resolve MAXSYMLINKS (cd_tree s) dir with
  | None => mret tt
  | Some path =>
    let mode := default 0%Z (nd_mode <$> cd_tree s !! path) in
    _ ← (if negb (Z.land mode S_ISGID =? 0)%Z && cd_chmod_ok (cd_sec s) dir then exit_modify (set_tree (set_mode (Z.ldiff mode S_ISGID) path))
         else mret tt);
    chown_if_possible dir
  end.

Fixpoint fix_all (names : list cstr) : dirs unit :=
  match names with
  | [] => mret tt
  | name :: names => _ ← fix_permissions name; fix_all names
  end.

Definition fix_permissions_tree (catdir : cstr) : dirs unit :=
  s ← exit_get;
  if is_dir (cd_tree s) catdir then fix_all (catdir :: (numbered catdir "cat" <$> sections_1_9)) else mret tt.
End catdirs.

(** ** What the directories become *)

(** Between two trees: what was there keeps its kind and mode and is given to
    nobody but the owner of man's files; what is new is a directory; nothing
    outside [P] is touched. *)
Record grown `{CatDirEnv} (P : cstr → Prop) (t t' : tree) : Prop := Grown {
  gr_old p nd : t !! p = Some nd → ∃ nd', t' !! p = Some nd' ∧ nd_mode nd' = nd_mode nd ∧ nd_link nd' = nd_link nd ∧
    (nd_owner nd' = nd_owner nd ∨ Some (nd_owner nd') = cd_man_owner);
  gr_new p nd : t !! p = None → t' !! p = Some nd → nd_link nd = None ∧ Z.land (nd_mode nd) S_IFDIR ≠ 0%Z;
  gr_out p : ¬ P p → t' !! p = t !! p;
}.

(** What is new belongs to the owner of man's files. *)
Definition given `{CatDirEnv} (t t' : tree) : Prop := ∀ p nd, t !! p = None → t' !! p = Some nd → Some (nd_owner nd) = cd_man_owner.

Definition absent_or_dir (t : tree) (p : cstr) : Prop := t !! p = None ∨ is_dir t p = true.

Lemma is_dir_spec t p :
  is_dir t p = true ↔ ∃ nd, stat_node t p = Some nd ∧ Z.land (nd_mode nd) S_IFDIR ≠ 0%Z.
Proof.
  unfold is_dir, is_directory. cbn [fs_stat tree_fs]. destruct (stat_node t p) as [nd|]; cbn [fmap option_fmap option_map st_mode].
  - destruct (decide (Z.land (nd_mode nd) S_IFDIR = 0)%Z) as [E|E]; (split; [try done; eauto|]); [|done]. by intros (? & [= <-] & ?).
  - split; [done|]. by intros (? & [=] & _).
Qed.

Lemma resolve_here n t p nd : t !! p = Some nd → nd_link nd = None → resolve n t p = Some p.
Proof. intros Hp Hl. destruct n; cbn; by rewrite Hp; cbn; rewrite Hl. Qed.

Lemma resolve_there n t p q : resolve n t p = Some q → ∃ nd, t !! q = Some nd ∧ nd_link nd = None.
Proof.
  revert p. induction n as [|n IH]; intros p; cbn; destruct (t !! p) as [nd|] eqn:E; cbn; try done;
    destruct (nd_link nd) eqn:El; try done; [intros [= <-]; eauto|apply IH|intros [= <-]; eauto].
Qed.

Section grown.
Context `{IdPriv} `{CatDirEnv}.

#[export] Instance grown_preorder P : PreOrder (grown P).
Proof.
  split.
  - intros t. split; [intros p nd Hp; eauto 10|congruence|done].
  - intros t1 t2 t3 [O1 N1 U1] [O2 N2 U2]. split.
    + intros p nd Hp. destruct (O1 p nd Hp) as (nd1 & Hp1 & Hm1 & Hl1 & Ho1), (O2 p nd1 Hp1) as (nd2 & Hp2 & Hm2 & Hl2 & Ho2).
      exists nd2. split_and!; [done|congruence..|]. destruct Ho2 as [->|]; [done|by right].
    + intros p nd Hp Hn. destruct (t2 !! p) as [nd1|] eqn:E; [|by eapply N2].
      destruct (O2 p nd1 E) as (nd2 & Hp2 & Hm & Hl & _). assert (nd2 = nd) as -> by congruence. rewrite Hm, Hl. by eapply N1.
    + intros p Hp. rewrite U2, U1; done.
Qed.

Lemma given_trans P t1 t2 t3 : grown P t2 t3 → given t1 t2 → given t2 t3 → given t1 t3.
Proof.
  intros [O _ _] H1 H2 p nd Hp Hn. destruct (t2 !! p) as [nd1|] eqn:E; [|by eapply H2].
  destruct (O p nd1 E) as (nd2 & Hp2 & _ & _ & Ho). simplify_eq. destruct Ho as [->|]; [by eapply H1|done].
Qed.

Lemma resolve_grown P n t t' p q : grown P t t' → resolve n t p = Some q → resolve n t' p = Some q.
Proof.
  intros Hg. revert p. induction n as [|n IH]; intros p; cbn; destruct (t !! p) as [nd|] eqn:E; try done;
    destruct (gr_old _ _ _ Hg p nd E) as (nd' & -> & _ & Hl & _); cbn; rewrite Hl; destruct (nd_link nd); auto.
Qed.

Lemma is_dir_grown P t t' p : grown P t t' → is_dir t p = true → is_dir t' p = true.
Proof.
  intros Hg. rewrite !is_dir_spec. intros (nd & Hs & Hm). unfold stat_node in *. apply bind_Some in Hs as (q & Hq & Hs).
  destruct (gr_old _ _ _ Hg q nd Hs) as (nd' & Hq' & Hmode & _). exists nd'. rewrite (resolve_grown _ _ _ _ _ _ Hg Hq). cbn. by rewrite Hq', Hmode.
Qed.

Lemma absent_or_dir_grown P t t' p : grown P t t' → absent_or_dir t p → absent_or_dir t' p.
Proof.
  intros Hg [Hn|Hd]; [|right; by eapply is_dir_grown]. destruct (t' !! p) as [nd|] eqn:E; [right|by left].
  destruct (gr_new _ _ _ Hg p nd Hn E) as [Hl Hm]. apply is_dir_spec. exists nd. split; [|done]. unfold stat_node.
  rewrite (resolve_here _ _ _ nd) by done. done.
Qed.

(** ** The operations *)

Definition tree_grown (P : cstr → Prop) (s s' : cat_dirs) : Prop := grown P (cd_tree s) (cd_tree s').
#[export] Instance tree_grown_preorder P : PreOrder (tree_grown P).
Proof. split; [intros s; unfold tree_grown; reflexivity|]. intros s1 s2 s3 ??. unfold tree_grown in *. by etrans. Qed.

Lemma on_sec_grown P f : exit_keeps (tree_grown P) (on_sec f).
Proof. unfold on_sec. exit_keeps_auto. unfold tree_grown. cbn. reflexivity. Qed.

Lemma set_owner_grown P ids path t : P path → cd_man_owner = Some ids → grown P t (set_owner ids path t).
Proof.
  intros Hp Hm. unfold set_owner. split.
  - intros p nd Hn. destruct (decide (p = path)) as [->|Hne]; [rewrite lookup_alter_eq, Hn|rewrite lookup_alter_ne by done; eauto 10].
    cbn. eexists. split_and!; [done..|]. by right.
  - intros p nd Hn. destruct (decide (p = path)) as [->|Hne]; [rewrite lookup_alter_eq, Hn|rewrite lookup_alter_ne by done]; intros; simplify_eq/=.
  - intros p Hn. apply lookup_alter_ne. by intros ->.
Qed.

Lemma chown_grown P path : P path → exit_keeps (tree_grown P) (chown_if_possible path).
Proof.
  intros Hp s r s' Hr. unfold chown_if_possible in Hr. exit_step Hr s0 s1 Hg; [|discriminate..]. injection Hg as <- <-.
  destruct cd_man_owner as [[u g]|] eqn:Em; [|by injection Hr as _ <-]. destruct (cd_tree s !! path) as [nd|]; [|by injection Hr as _ <-].
  destruct (nd_owner nd). destruct (_ && _); [|by injection Hr as _ <-].
  destruct (cd_lchown_ok _ _); injection Hr as _ <-; [|done]. by apply set_owner_grown.
Qed.

(** What [chown_if_possible] leaves to root. *)
Lemma chown_given path s u s' :
  chown_if_possible path s = (Ret u, s') → uid (cd_sec s) = 0%Z →
  cd_sec s' = cd_sec s ∧ ∀ nd, cd_tree s' !! path = Some nd → Some (nd_owner nd) = cd_man_owner.
Proof.
  intros Hr Hu. unfold chown_if_possible in Hr. exit_step Hr s0 s1 Hg; [|discriminate..]. injection Hg as <- <-.
  destruct cd_man_owner as [[pu pg]|] eqn:Em; [|discriminate]. destruct (cd_tree s !! path) as [nd|] eqn:E; [|injection Hr as _ <-; split; [done|congruence]].
  destruct (nd_owner nd) as [ou og] eqn:Eo. rewrite Hu in Hr. cbn [Z.eqb orb] in Hr. destruct (negb _ || negb _) eqn:Eq; cbn [andb] in Hr.
  - destruct (cd_lchown_ok _ _); [|discriminate]. injection Hr as _ <-. split; [done|]. cbn. unfold set_owner. rewrite lookup_alter_eq, E. by intros ? [= <-].
  - injection Hr as _ <-. split; [done|]. rewrite E. intros ? [= <-]. rewrite Eo. apply orb_false_iff in Eq as [?%negb_false_iff ?%negb_false_iff].
    by f_equal; f_equal; apply Z.eqb_eq.
Qed.

Lemma chown_sec path s r s' : chown_if_possible path s = (r, s') → cd_sec s' = cd_sec s.
Proof.
  intros Hr. unfold chown_if_possible in Hr. exit_step Hr s0 s1 Hg; [|discriminate..]. injection Hg as <- <-.
  destruct cd_man_owner as [[u g]|]; [|by injection Hr as _ <-]. destruct (cd_tree s !! path) as [nd|]; [|by injection Hr as _ <-].
  destruct (nd_owner nd). destruct (_ && _); [|by injection Hr as _ <-]. destruct (cd_lchown_ok _ _); by injection Hr as _ <-.
Qed.

Context `{!MkdirLaws}.

Lemma insert_grown P s t path mode nd : P path → cd_mkdir s t path mode = Some nd → grown P t (<[path := nd]> t).
Proof.
  intros Hp Hm. pose proof (mkdir_new _ _ _ _ _ Hm) as Hn. split.
  - intros p nd' Hp'. rewrite lookup_insert_ne by congruence. eauto 10.
  - intros p nd' Hn' Hi. destruct (decide (p = path)) as [->|]; [rewrite lookup_insert_eq in Hi; injection Hi as <-; by eapply mkdir_directory|].
    rewrite lookup_insert_ne in Hi by done. congruence.
  - intros p Hn'. apply lookup_insert_ne. by intros ->.
Qed.

Lemma make_dir_grown P path : P path → exit_keeps (tree_grown P) (make_dir path).
Proof.
  intros Hp s r s' Hr. unfold make_dir in Hr. exit_step Hr s0 s1 Hg; [|discriminate..]. injection Hg as <- <-.
  exit_step Hr u s1 Hm; [|by destruct (cd_mkdir _ _ _ _)..]. apply chown_grown with (P := P) in Hr; [|done].
  destruct (cd_mkdir _ _ _ _) as [nd|] eqn:E; injection Hm as _ <-; [|done]. unfold tree_grown in *. etrans; [|exact Hr]. by eapply insert_grown.
Qed.

(** Whether every directory that is not there can be made. *)
Definition mkdir_works : Prop := ∀ s t p, t !! p = None → is_Some (cd_mkdir s t p 493).

Lemma make_dir_result path s u s' :
  make_dir path s = (Ret u, s') →
  cd_sec s' = cd_sec s ∧
  (uid (cd_sec s) = 0%Z → given (cd_tree s) (cd_tree s')) ∧
  (mkdir_works → absent_or_dir (cd_tree s) path → is_dir (cd_tree s') path = true).
Proof.
  intros Hr. pose proof (make_dir_grown (λ p, p = path) path eq_refl _ _ _ Hr) as Hg0.
  unfold make_dir in Hr. exit_step Hr s0 s1 Hg; [|discriminate..]. injection Hg as <- <-.
  exit_step Hr v s1 Hm; [|by destruct (cd_mkdir _ _ _ _)..].
  assert (cd_sec s1 = cd_sec s) as Hs1 by (destruct (cd_mkdir _ _ _ _); by injection Hm as _ <-).
  pose proof (chown_sec _ _ _ _ Hr) as Hs2. pose proof (chown_grown (λ p, p = path) _ eq_refl _ _ _ Hr) as Hg1. split_and!; [congruence|..].
  - intros Hu p nd Hn Hp. destruct (decide (p = path)) as [->|Hne].
    + rewrite <-Hs1 in Hu. by eapply chown_given in Hr as [_ Hr]; [apply Hr|].
    + rewrite (gr_out _ _ _ Hg0 p Hne) in Hp. congruence.
  - intros Hw [Hn|Hd]; [|exact (is_dir_grown _ _ _ _ Hg0 Hd)]. eapply is_dir_grown; [exact Hg1|].
    destruct (Hw (cd_sec s) (cd_tree s) path Hn) as [nd E]. rewrite E in Hm. injection Hm as _ <-. cbn.
    apply is_dir_spec. destruct (mkdir_directory _ _ _ _ _ E). exists nd. split; [|done]. unfold stat_node.
    rewrite (resolve_here _ _ _ nd) by (done || apply lookup_insert_eq). cbn. apply lookup_insert_eq.
Qed.

Lemma make_sections_grown P mandir catdir js :
  (∀ j, j ∈ js → P (numbered catdir "cat" j)) → exit_keeps (tree_grown P) (make_sections mandir catdir js).
Proof.
  induction js as [|j js IH]; intros Hp; cbn [make_sections]; exit_keeps_auto; [by apply make_dir_grown, Hp; left|].
  apply IH; [|done..]. intros k Hk. apply Hp. by right.
Qed.

Lemma make_sections_result mandir catdir js s u s' :
  make_sections mandir catdir js s = (Ret u, s') →
  cd_sec s' = cd_sec s ∧
  (uid (cd_sec s) = 0%Z → given (cd_tree s) (cd_tree s')) ∧
  (mkdir_works → (∀ j, j ∈ js → absent_or_dir (cd_tree s) (numbered catdir "cat" j)) →
    ∀ j, j ∈ js → is_dir (cd_tree s) (numbered mandir "man" j) = true → is_dir (cd_tree s') (numbered catdir "cat" j) = true).
Proof.
  revert s. induction js as [|j js IH]; intros s Hr; cbn [make_sections] in Hr.
  { injection Hr as _ <-. split_and!; [done|intros _ p nd Hn Hp; congruence|by intros _ _ j ?%elem_of_nil]. }
  exit_step Hr s0 s1 Hg; [|discriminate..]. injection Hg as <- <-. set (cat := numbered catdir "cat" j) in *.
  exit_step Hr v s1 Hm; [|discriminate..].
  pose proof (make_sections_grown (λ _, True) mandir catdir js (λ _ _, I) _ _ _ Hr) as Hg2. apply IH in Hr as (Hs2 & Ho2 & Hc2). clear IH.
  assert (tree_grown (λ _, True) s s1 ∧ cd_sec s1 = cd_sec s ∧ (uid (cd_sec s) = 0%Z → given (cd_tree s) (cd_tree s1)) ∧
    (mkdir_works → absent_or_dir (cd_tree s) cat → is_dir (cd_tree s) (numbered mandir "man" j) = true → is_dir (cd_tree s1) cat = true))
    as (Hg1 & Hs1 & Ho1 & Hc1).
  { destruct (is_dir (cd_tree s) (numbered mandir "man" j)); [destruct (is_dir (cd_tree s) cat) eqn:Ed|]; cbn [andb negb] in Hm.
    2: { pose proof (make_dir_grown (λ _, True) cat I _ _ _ Hm) as Hg1. apply make_dir_result in Hm as (? & ? & ?). split_and!; auto. }
    all: injection Hm as _ <-; split_and!; [reflexivity|done|intros _ p nd ??; congruence|done]. }
  split_and!; [congruence|..].
  - intros Hu. rewrite Hs1 in Ho2. eapply given_trans; [exact Hg2|auto..].
  - intros Hw Ha k [->|Hk]%elem_of_cons Hman; [eapply is_dir_grown; [exact Hg2|]; apply Hc1; auto; apply Ha; by left|].
    apply Hc2; [done| |done|exact (is_dir_grown _ _ _ _ Hg1 Hman)]. intros i Hi. eapply absent_or_dir_grown; [exact Hg1|]. apply Ha. by right.
Qed.

(** *** mkcatdirs *)

Definition cat_path (catdir p : cstr) : Prop := p = catdir ∨ ∃ j, j ∈ sections_1_9 ∧ p = numbered catdir "cat" j.

Lemma mkcatdirs_grown mandir catdir : exit_keeps (tree_grown (cat_path catdir)) (mkcatdirs mandir (Some catdir)).
Proof.
  cbn [mkcatdirs]. exit_keeps_auto; first [apply on_sec_grown|apply make_dir_grown; by left|apply make_sections_grown; by right; eauto].
Qed.

Context (p0 : process) `{!IdPrivLaws} (Hp0 : setuid_process p0).

(** A step taken with the privileges back: what is between a regain and a drop. *)
Lemma on_sec_run f s u s' : on_sec f s = (Ret u, s') → cd_tree s' = cd_tree s ∧ f (cd_sec s) = Ret (cd_sec s').
Proof.
  intros Hr. unfold on_sec in Hr. exit_step Hr s0 s1 Hg; [|discriminate..]. injection Hg as <- <-.
  exit_step Hr x s1 Hx; [|discriminate..]. injection Hx as Hx <-. injection Hr as _ <-. done.
Qed.

Lemma with_privileges (m : exitM cat_dirs unit) s u s' :
  reachable p0 1 (cd_sec s) → (_ ← on_sec regain_effective_privs; _ ← m; on_sec drop_effective_privs) s = (Ret u, s') →
  ∃ s1 v s2, m s1 = (Ret v, s2) ∧ cd_tree s1 = cd_tree s ∧ cd_tree s' = cd_tree s2 ∧ uid (cd_sec s1) = id_eff (p_uid p0) ∧
    (cd_sec s2 = cd_sec s1 → reachable p0 1 (cd_sec s')).
Proof using Type*.
  intros Hre Hr. exit_step Hr u1 s1 Hr1; [|discriminate..]. exit_step Hr v s2 Hr2; [|discriminate..].
  apply on_sec_run in Hr1 as [Ht1 Hs1], Hr as [Ht2 Hs2]. eapply reach_regain in Hre; [|exact Hs1]. cbn in Hre.
  exists s1, v, s2. split_and!; try done.
  - destruct (reachable_inv p0 0 _ Hp0 Hre) as [_ He _ _ _ Hu _ _]. by rewrite Hu, decide_True, He.
  - intros E. rewrite E in Hs2. by eapply reach_drop.
Qed.

(** C28: making the cat directories of a hierarchy adds directories where cat
    pages belong and touches nothing else; root gives them all to the owner of
    man's files; the privileges are dropped again; and where directories can be
    made, every section of the hierarchy has one afterwards. *)
Theorem cat_hierarchy mandir catdir s r s' :
  reachable p0 1 (cd_sec s) → mkcatdirs mandir (Some catdir) s = (r, s') →
  grown (cat_path catdir) (cd_tree s) (cd_tree s') ∧
  ∀ u, r = Ret u →
    reachable p0 1 (cd_sec s') ∧
    (id_eff (p_uid p0) = 0%Z → given (cd_tree s) (cd_tree s')) ∧
    (mkdir_works → (∀ p, cat_path catdir p → absent_or_dir (cd_tree s) p) →
      ∀ j, 1 ≤ j ≤ 9 → is_dir (cd_tree s) (numbered mandir "man" j) = true → is_dir (cd_tree s') (numbered catdir "cat" j) = true).
Proof using Type*.
  intros Hre Hr. split; [by eapply mkcatdirs_grown|]. intros u ->. cbn [mkcatdirs] in Hr.
  exit_step Hr s0 s1 Hg; [|discriminate..]. injection Hg as <- <-. exit_step Hr v s1 Hbase; [|discriminate..].
  exit_step Hr s0 s2 Hg; [|discriminate..]. injection Hg as <- <-.
  assert (tree_grown (cat_path catdir) s s1 ∧ reachable p0 1 (cd_sec s1) ∧ (id_eff (p_uid p0) = 0%Z → given (cd_tree s) (cd_tree s1)) ∧
    (mkdir_works → absent_or_dir (cd_tree s) catdir → is_dir (cd_tree s1) catdir = true)) as (Hg1 & Hre1 & Ho1 & Hc1).
  { destruct (is_dir (cd_tree s) catdir) eqn:Ed.
    { injection Hbase as _ <-. split_and!; [reflexivity|done|intros _ p nd ??; congruence|done]. }
    apply with_privileges in Hbase as (sa & w & sb & Hm & Ht1 & Ht2 & Hu & Hre1); [|done].
    pose proof (make_dir_grown (cat_path catdir) catdir (or_introl eq_refl) _ _ _ Hm) as Hg1.
    apply make_dir_result in Hm as (Hs & Ho & Hc). unfold tree_grown in *. rewrite Ht1 in *. rewrite Ht2. split_and!; auto. intros He. apply Ho. congruence. }
  destruct (is_dir (cd_tree s1) catdir) eqn:Ed.
  - apply with_privileges in Hr as (sa & w & sb & Hm & Ht1 & Ht2 & Hu & Hre2); [|done].
    pose proof (make_sections_grown (cat_path catdir) mandir catdir sections_1_9 (λ j Hj, or_intror (ex_intro _ j (conj Hj eq_refl))) _ _ _ Hm) as Hg2.
    apply make_sections_result in Hm as (Hs & Ho & Hc). unfold tree_grown in *. rewrite Ht1 in *. rewrite Ht2. split_and!; [auto|..].
    + intros He. eapply given_trans; [exact Hg2|auto|]. apply Ho. congruence.
    + intros Hw Ha j Hj Hman. apply Hc; [done| |by apply elem_of_seq; lia|exact (is_dir_grown _ _ _ _ Hg1 Hman)].
      intros i Hi. eapply absent_or_dir_grown; [exact Hg1|]. apply Ha. right. eauto.
  - injection Hr as _ <-. split_and!; [done|done|]. intros Hw Ha j Hj Hman. by specialize (Hc1 Hw (Ha catdir (or_introl eq_refl))).
Qed.
End grown.

(** ** fix_permissions_tree *)

(** What repairing may change: the setgid bit and the owner. *)
Record repaired `{CatDirEnv} (t t' : tree) : Prop := Repaired {
  rp_none p : t' !! p = None ↔ t !! p = None;
  rp_some p nd nd' : t !! p = Some nd → t' !! p = Some nd' →
    nd_link nd' = nd_link nd ∧ (nd_mode nd' = nd_mode nd ∨ nd_mode nd' = Z.ldiff (nd_mode nd) S_ISGID) ∧
    (nd_owner nd' = nd_owner nd ∨ Some (nd_owner nd') = cd_man_owner);
}.

Section repaired.
Context `{IdPriv} `{CatDirEnv}.

#[export] Instance repaired_preorder : PreOrder repaired.
Proof.
  split.
  - intros t. split; [done|]. intros p nd nd' Hp Hp'. simplify_eq. auto.
  - intros t1 t2 t3 [N1 S1] [N2 S2]. split; [intros p; by rewrite N2|]. intros p nd nd' Hp Hp'.
    destruct (t2 !! p) as [n2|] eqn:E; [|apply N2 in E; congruence].
    destruct (S1 p nd n2 Hp E) as (Hl & Hm & Ho), (S2 p n2 nd' E Hp') as (Hl' & Hm' & Ho'). split_and!; [congruence|..].
    + destruct Hm as [Hm|Hm], Hm' as [Hm'|Hm']; rewrite Hm', Hm; auto. right. apply Z.bits_inj'. intros i _. rewrite !Z.ldiff_spec.
      by destruct (Z.testbit (nd_mode nd) i), (Z.testbit S_ISGID i).
    + destruct Ho' as [->|]; auto.
Qed.

Definition tree_repaired (s s' : cat_dirs) : Prop := repaired (cd_tree s) (cd_tree s').
#[export] Instance tree_repaired_preorder : PreOrder tree_repaired.
Proof. split; [intros s; unfold tree_repaired; reflexivity|]. intros s1 s2 s3 ??. unfold tree_repaired in *. by etrans. Qed.

Lemma alter_repaired f path t :
  (∀ nd, t !! path = Some nd → nd_link (f nd) = nd_link nd ∧ (nd_mode (f nd) = nd_mode nd ∨ nd_mode (f nd) = Z.ldiff (nd_mode nd) S_ISGID) ∧
    (nd_owner (f nd) = nd_owner nd ∨ Some (nd_owner (f nd)) = cd_man_owner)) →
  repaired t (alter f path t).
Proof.
  intros Hf. split.
  - intros p. apply lookup_alter_None.
  - intros p nd nd' Hp Hp'. destruct (decide (p = path)) as [->|Hne].
    + rewrite lookup_alter_eq, Hp in Hp'. injection Hp' as <-. by apply Hf.
    + rewrite lookup_alter_ne in Hp' by done. simplify_eq. auto.
Qed.

Lemma chown_repaired path : exit_keeps tree_repaired (chown_if_possible path).
Proof.
  intros s r s' Hr. unfold chown_if_possible in Hr. exit_step Hr s0 s1 Hg; [|discriminate..]. injection Hg as <- <-.
  destruct cd_man_owner as [[u g]|] eqn:Em; [|by injection Hr as _ <-]. destruct (cd_tree s !! path) as [nd|]; [|by injection Hr as _ <-].
  destruct (nd_owner nd). destruct (_ && _); [|by injection Hr as _ <-].
  destruct (cd_lchown_ok _ _); injection Hr as _ <-; [|done]. apply alter_repaired. intros n _. cbn. auto.
Qed.

Lemma fix_repaired dir : exit_keeps tree_repaired (fix_permissions dir).
Proof.
  intros s r s' Hr. unfold fix_permissions in Hr. exit_step Hr s0 s1 Hg; [|discriminate..]. injection Hg as <- <-.
  destruct (resolve _ _ _) as [q|]; [|by injection Hr as _ <-].
  assert (∀ b x s1, (if b : bool then exit_modify (set_tree (set_mode (Z.ldiff (default 0%Z (nd_mode <$> cd_tree s !! q)) S_ISGID) q)) else mret tt) s
    = (x, s1) → tree_repaired s s1) as Hchmod.
  { intros [] x s1 Hx; injection Hx as _ <-; [|done]. apply alter_repaired. intros nd Hnd. rewrite Hnd. cbn. auto. }
  exit_step Hr u s1 Hm; [apply chown_repaired in Hr; etrans; [by eapply Hchmod|done]|by eapply Hchmod..].
Qed.

Lemma resolve_repaired n t t' p : repaired t t' → resolve n t' p = resolve n t p.
Proof.
  intros [N S]. revert p. induction n as [|n IH]; intros p; cbn; destruct (t !! p) as [nd|] eqn:E, (t' !! p) as [nd'|] eqn:E'; cbn; try done;
    try (apply N in E; congruence); try (apply N in E'; congruence); destruct (S p nd nd' E E') as [-> _]; [done|]. by destruct (nd_link nd).
Qed.

Definition not_setgid (t : tree) (dir : cstr) : Prop := ∀ nd, stat_node t dir = Some nd → Z.land (nd_mode nd) S_ISGID = 0%Z.

Lemma not_setgid_repaired t t' dir : repaired t t' → not_setgid t dir → not_setgid t' dir.
Proof.
  intros Hr Hn nd' Hs. unfold stat_node in Hs. rewrite (resolve_repaired _ _ _ _ Hr) in Hs. apply bind_Some in Hs as (q & Hq & Hs).
  destruct (t !! q) as [nd|] eqn:E; [|apply (rp_none _ _ Hr) in E; congruence]. destruct (rp_some _ _ Hr q nd nd' E Hs) as (_ & Hm & _).
  assert (Z.land (nd_mode nd) S_ISGID = 0%Z) as H0' by (apply Hn; unfold stat_node; rewrite Hq; done).
  destruct Hm as [->| ->]; [done|]. apply Z.bits_inj'. intros i _. rewrite Z.land_spec, Z.ldiff_spec, Z.bits_0.
  by destruct (Z.testbit _ i), (Z.testbit S_ISGID i).
Qed.

Lemma fix_not_setgid dir s u s' :
  (∀ x p, cd_chmod_ok x p = true) → fix_permissions dir s = (Ret u, s') → not_setgid (cd_tree s') dir.
Proof.
  intros Hok Hr. pose proof (fix_repaired dir _ _ _ Hr) as Hrp. unfold fix_permissions in Hr.
  exit_step Hr s0 s1 Hg; [|discriminate..]. injection Hg as <- <-. destruct (resolve _ _ _) as [q|] eqn:Eq.
  2: { injection Hr as _ <-. intros nd Hs. unfold stat_node in Hs. by rewrite Eq in Hs. }
  exit_step Hr v s1 Hm; [|by destruct (negb _ && _)..]. pose proof (chown_repaired dir _ _ _ Hr) as Hr1.
  eapply not_setgid_repaired; [exact Hr1|]. destruct (resolve_there _ _ _ _ Eq) as (nd & Hnd & _).
  rewrite Hnd, Hok, andb_true_r in Hm. cbn [fmap option_fmap option_map default from_option id] in Hm.
  assert (tree_repaired s s1) as Hr0 by (destruct (negb _); injection Hm as _ <-; [apply alter_repaired; intros n Hn; simplify_eq/=; auto|done]).
  intros nd' Hs. unfold stat_node in Hs. rewrite (resolve_repaired _ _ _ _ Hr0), Eq in Hs. cbn in Hs.
  destruct (Z.eqb_spec (Z.land (nd_mode nd) S_ISGID) 0) as [E|E]; injection Hm as _ <-; [congruence|].
  cbn in Hs. unfold set_mode in Hs. rewrite lookup_alter_eq, Hnd in Hs. injection Hs as <-. cbn [nd_mode].
  by rewrite Z.ldiff_land, <-Z.land_assoc, (Z.land_comm _ S_ISGID), Z.land_lnot_diag, Z.land_0_r.
Qed.

Lemma fix_all_repaired names : exit_keeps tree_repaired (fix_all names).
Proof. induction names as [|n names IH]; cbn [fix_all]; exit_keeps_auto; apply fix_repaired. Qed.

Lemma fix_all_not_setgid names s u s' :
  (∀ x p, cd_chmod_ok x p = true) → fix_all names s = (Ret u, s') → ∀ dir, dir ∈ names → not_setgid (cd_tree s') dir.
Proof.
  intros Hok. revert s. induction names as [|n names IH]; intros s Hr dir Hd; [by apply elem_of_nil in Hd|]. cbn [fix_all] in Hr.
  exit_step Hr v s1 Hf; [|discriminate..]. pose proof (fix_all_repaired names _ _ _ Hr) as Hrp.
  apply elem_of_cons in Hd as [->|Hd]; [|by eapply IH]. eapply not_setgid_repaired; [exact Hrp|]. by eapply fix_not_setgid.
Qed.

(** Repairing the cat directories leaves none of them setgid, and changes
    nothing but that bit and the owner, which only becomes that of man's files. *)
Theorem cat_permissions catdir s r s' :
  fix_permissions_tree catdir s = (r, s') →
  repaired (cd_tree s) (cd_tree s') ∧
  ((∀ x p, cd_chmod_ok x p = true) → is_dir (cd_tree s) catdir = true → ∀ u, r = Ret u →
    ∀ p, cat_path catdir p → not_setgid (cd_tree s') p).
Proof.
  intros Hr. unfold fix_permissions_tree in Hr. exit_step Hr s0 s1 Hg; [|discriminate..]. injection Hg as <- <-.
  destruct (is_dir (cd_tree s) catdir) eqn:Ed; [|injection Hr as _ <-; split; [reflexivity|done]].
  split; [by eapply fix_all_repaired|]. intros Hok _ u -> p [->|(j & Hj & ->)]; (eapply fix_all_not_setgid; [done|exact Hr|]).
  - left.
  - right. by apply list_elem_of_fmap_2.
Qed.
End repaired.

(** ** Evaluation *)

(** Directories are made when nothing is there, with the ids of the process;
    the owner of man's files is 6:12. *)
#[local] Instance plain_dirs : CatDirEnv := {|
  cd_mkdir s t path mode := match t !! path with None => Some (Node (Z.lor S_IFDIR mode) (uid s, gid s) None) | Some _ => None end;
  cd_lchown_ok _ _ := true; cd_chmod_ok _ _ := true; cd_man_owner := Some (6, 12)%Z;
|}.
#[local] Instance plain_dirs_laws : MkdirLaws.
Proof. split; cbn; intros s t path mode nd Hm; destruct (t !! path); try discriminate; injection Hm as <-; [done|]. cbn. split; [done|]. rewrite Z.land_lor_distr_l. intros [? _]%Z.lor_eq_0_iff. done. Qed.

Definition root_process : process := Process (Ids 0 0 0) (Ids 0 0 0).
Definition root_sec : sec_state := Sec 0 0 0 0 0 0 1 root_process.
Definition dir_node : node := Node (Z.lor S_IFDIR 493) (0, 0)%Z None.
(** A hierarchy with two sections, and a file where a cat directory belongs. *)
Definition demo_tree : tree := list_to_map [(lit "/m", dir_node); (lit "/m/man1", dir_node); (lit "/m/man3", dir_node); (lit "/m/man8", dir_node);
  (lit "/c/cat8", Node (Z.lor S_IFREG 384) (1000, 1000)%Z None)].
Definition before_dirs : cat_dirs := CatDirs demo_tree root_sec.
Definition demo_dirs : outcome unit * cat_dirs := mkcatdirs (lit "/m") (Some (lit "/c")) before_dirs.

Lemma root_dropped : reachable root_process 1 root_sec.
Proof. by apply reach_init. Qed.

Lemma cat_hierarchy_witness :
  grown (cat_path (lit "/c")) demo_tree (cd_tree demo_dirs.2) ∧
  ∀ u, demo_dirs.1 = Ret u →
    reachable root_process 1 (cd_sec demo_dirs.2) ∧
    (id_eff (p_uid root_process) = 0%Z → given demo_tree (cd_tree demo_dirs.2)) ∧
    (mkdir_works → (∀ p, cat_path (lit "/c") p → absent_or_dir demo_tree p) →
      ∀ j, 1 ≤ j ≤ 9 → is_dir demo_tree (numbered (lit "/m") "man" j) = true → is_dir (cd_tree demo_dirs.2) (numbered (lit "/c") "cat" j) = true).
Proof.
  apply (cat_hierarchy root_process (conj eq_refl eq_refl) (lit "/m") (lit "/c") before_dirs); [exact root_dropped|].
  unfold demo_dirs. by destruct (mkcatdirs _ _ _).
Defined.

(** Two directories are made, for root they are man's; and what is in the way
    of the third is given to man as well. *)
Example mkcatdirs_values :
  demo_dirs.1 = Ret tt ∧ is_dir (cd_tree demo_dirs.2) (lit "/c/cat1") = true ∧ cd_tree demo_dirs.2 !! lit "/c/cat2" = None ∧
  (nd_owner <$> cd_tree demo_dirs.2 !! lit "/c/cat3") = Some (6, 12)%Z ∧ (nd_owner <$> cd_tree demo_dirs.2 !! lit "/c/cat8") = Some (6, 12)%Z.
Proof. by vm_compute. Qed.
