(* ===== verification/UltSrc.v ===== *)
(** * src/ult_src.c: the ultimate source of a manual page

    A page may be a symbolic link, a hard link or a file that only includes
    another page with [.so]; [ult_src] follows all three, remembers the pages
    it came through and caches its answers. *)

From S2P Require Import Prelude CStr Fs Compression Filenames.

(** The text of a page as [decompress_readline] hands it over, line by line;
    [None] when the page cannot be opened. *)
Class PageText := { page_lines : cstr → option (list cstr) }.

(** ult_src.h *)
Definition SO_LINK : Z := 1%Z.
Definition SOFT_LINK : Z := 2%Z.
Definition HARD_LINK : Z := 4%Z.
Definition flag (flags f : Z) : bool := negb (Z.land flags f =? 0)%Z.

Record ult_value := UltValue { uv_path : cstr; uv_trace : list cstr }.
#[export] Instance ult_value_eq_dec : EqDecision ult_value.
Proof. solve_decision. Defined.

(** The cache, keyed by name and flags; a failure is cached too. *)
Abbreviation ult_cache := (gmap (cstr * Z) (option ult_value)).

Section ult_src.
Context (cfg : comp_config) `{FileSystem} `{Dirname} `{PageText}.

(** The entry with the least name among those with the inode. *)
Definition least_link (inode : Z) (base : cstr) (entries : list dirent) : cstr :=
  fold_left (λ base e,
    if bool_decide (d_ino e = inode) && match strcmp base (d_name e) with Gt => true | _ => false end
    then d_name e else base) entries base.

Definition ult_hardlink (fullpath : cstr) (inode : Z) : outcome (option cstr) :=
  match strrchr fullpath "/"%char with
  | None => Fatal "assertion: slash"
  | Some n =>
    let dir := take n fullpath in
    let slash := drop (S n) fullpath in
    match fs_readdir dir with
    | None => Ret None
    | Some entries =>
      let base := least_link inode slash entries in
      Ret (if bool_decide (base = slash) then None else Some (dir ++ "/"%char :: base))
    end
  end.

Definition ult_softlink (fullpath : cstr) : option cstr := fs_canonicalize fullpath.

(** The three characters that begin a comment line. *)
Definition comment_start : cstr := ["."; "\"; "034"]%char.

(** The first line that is not a comment. *)
Fixpoint skip_comments (lines : list cstr) : option cstr :=
  match lines with
  | [] => None
  | l :: lines => if STRNEQ l comment_start 3 then skip_comments lines else Some l
  end.

Definition find_include_directive (path : cstr) : option cstr :=
  lines ← page_lines path;
  Some (default [] (skip_comments lines)).

Definition test_for_include (buffer : cstr) : option cstr :=
  let buffer := drop (strspn isspace buffer) buffer in
  if STRNEQ buffer (lit ".so") 3 then
    let buffer := drop 3 buffer in
    let buffer := drop (strspn isspace buffer) buffer in
    if bool_decide (head buffer = Some "/"%char) then None
    else Some (take (strcspn isspace buffer) buffer)
  else None.

(** The file to include, tried as it is and compressed. *)
Definition include_target (target : cstr) : option cstr :=
  if fs_access_F target then Some target
  else comp ← comp_file cfg target; comp_stem comp.

Definition find_include (name path include : cstr) : option cstr :=
  let target :=
    match include_target (path ++ "/"%char :: include) with
    | Some t => Some t
    | None => include_target (dir_name name ++ "/"%char :: include)
    end in
  t ← target; fs_canonicalize t.

(** The loop over [.so] directives: at most [i] more turns.  [SoErr] is
    the [goto err], [SoLoop] the loop running out. *)
Inductive so_result := SoDone (base : cstr) (trace : list cstr) | SoErr | SoLoop.

Fixpoint so_loop (i : nat) (name path base : cstr) (trace : list cstr) : so_result :=
  match i with
  | 0 => SoLoop
  | S i =>
    match find_include_directive base with
    | None => SoErr
    | Some directive =>
      match test_for_include directive with
      | None => SoDone base trace
      | Some include =>
        match find_include name path include with
        | None => SoErr
        | Some base => so_loop i name path base (trace ++ [base])
        end
      end
    end
  end.

(** [ult_src] without its cache. *)
Definition ult_resolve (name path : cstr) (buf : option stat) (flags : Z) : outcome (option ult_value) :=
  let trace := [name] in
  let buf' :=
    match buf with
    | Some b => Some (Some b)
    | None => if flag flags SOFT_LINK || flag flags HARD_LINK
              then Some <$> fs_lstat name else Some None
    end in
  match buf' with
  | None => Ret None
  | Some buf =>
    base ← (if flag flags SOFT_LINK then
              match buf with
              | None => Fatal "assertion: buf"
              | Some b => if S_ISLNK (st_mode b) then Ret (ult_softlink name) else Ret (Some name)
              end
            else Ret (Some name));
    match base with
    | None => Ret None
    | Some base =>
      base ← (if flag flags HARD_LINK then
                match buf with
                | None => Fatal "assertion: buf"
                | Some b =>
                  if (1 <? st_nlink b)%Z then
                    hard ← ult_hardlink base (st_ino b); Ret (default base hard)
                  else Ret base
                end
              else Ret base);
      if flag flags SO_LINK then
        match so_loop 10 name path base trace with
        | SoDone base trace => Ret (Some (UltValue base (trace ++ [base])))
        | SoErr | SoLoop => Ret None
        end
      else Ret (Some (UltValue base (trace ++ [base])))
    end
  end.

Definition ult_src (cache : ult_cache) (name path : cstr) (buf : option stat) (flags : Z)
    : outcome (option ult_value * ult_cache) :=
  match cache !! (name, flags) with
  | Some existing => Ret (existing, cache)
  | None =>
    value ← ult_resolve name path buf flags;
    Ret (value, <[(name, flags):=value]> cache)
  end.

(** ** The chain of inclusions *)

(** [base] is a page that only includes the page [next]. *)
Definition includes (name path base next : cstr) : Prop :=
  ∃ directive include, find_include_directive base = Some directive ∧
    test_for_include directive = Some include ∧ find_include name path include = Some next.

(** [base] can be read and is not an inclusion. *)
Definition is_source (base : cstr) : Prop :=
  ∃ directive, find_include_directive base = Some directive ∧ test_for_include directive = None.

(** The pages from [base] on, each including the next, and the last of them. *)
Inductive so_chain (name path : cstr) : cstr → list cstr → cstr → Prop :=
| so_end b : so_chain name path b [] b
| so_next b c l e : includes name path b c → so_chain name path c l e → so_chain name path b (c :: l) e.

Lemma so_loop_spec i name path base trace :
  match so_loop i name path base trace with
  | SoDone e tr => ∃ l, tr = trace ++ l ∧ length l < i ∧ so_chain name path base l e ∧ is_source e
  | SoErr => ∃ l e, length l < i ∧ so_chain name path base l e ∧
      (find_include_directive e = None ∨
       ∃ d inc, find_include_directive e = Some d ∧ test_for_include d = Some inc ∧ find_include name path inc = None)
  | SoLoop => ∃ l e, length l = i ∧ so_chain name path base l e
  end.
Proof.
  revert base trace. induction i as [|i IH]; intros base trace; simpl.
  { exists [], base. split; [done|constructor]. }
  destruct (find_include_directive base) as [d|] eqn:Ed.
  2: { exists [], base. split; [simpl; lia|]. split; [constructor|by left]. }
  destruct (test_for_include d) as [inc|] eqn:Et.
  2: { exists []. rewrite app_nil_r. split; [done|]. split; [simpl; lia|]. split; [constructor|by exists d]. }
  destruct (find_include name path inc) as [b|] eqn:Ef.
  2: { exists [], base. split; [simpl; lia|]. split; [constructor|]. right. by exists d, inc. }
  assert (includes name path base b) as Hinc by by exists d, inc.
  specialize (IH b (trace ++ [b])). destruct (so_loop i name path b (trace ++ [b])) as [e tr| |].
  - destruct IH as (l & -> & ? & ? & ?). exists (b :: l). rewrite <-app_assoc. simpl.
    split; [done|]. split; [lia|]. split; [by econstructor|done].
  - destruct IH as (l & e & ? & ? & ?). exists (b :: l), e. simpl. split; [lia|]. split; [by econstructor|done].
  - destruct IH as (l & e & ? & ?). exists (b :: l), e. simpl. split; [lia|by econstructor].
Qed.

Lemma so_chain_det name path b l e l' e' :
  so_chain name path b l e → so_chain name path b l' e' → is_source e' → length l ≤ length l'.
Proof.
  intros Hc. revert l' e'. induction Hc as [b|b c l e Hinc Hc IH]; intros l' e' Hc' Hsrc; simpl; [lia|].
  destruct Hinc as (d & inc & Hd & Ht & Hf). destruct Hc' as [b|b c' l' e' (d' & inc' & Hd' & Ht' & Hf') Hc'].
  - destruct Hsrc as (d' & Hd' & Ht'). congruence.
  - simpl. assert (c' = c) as -> by congruence. specialize (IH l' e' Hc' Hsrc). lia.
Qed.

Lemma so_chain_unique name path b l e l' e' :
  so_chain name path b l e → is_source e → so_chain name path b l' e' → is_source e' → l = l' ∧ e = e'.
Proof.
  intros Hc Hs. revert l' e'. induction Hc as [b|b c l e Hinc Hc IH]; intros l' e' Hc' Hs'.
  - destruct Hc' as [|b c' l' e' (d & inc & Hd & Ht & _)]; [done|].
    destruct Hs as (d' & ? & ?). congruence.
  - destruct Hinc as (d & inc & Hd & Ht & Hf). destruct Hc' as [b|b c' l' e' (d' & inc' & Hd' & Ht' & Hf') Hc'].
    + destruct Hs' as (d' & ? & ?). congruence.
    + assert (c' = c) as -> by congruence. by destruct (IH Hs l' e' Hc' Hs') as [-> ->].
Qed.

(** Following inclusions only. *)
Lemma ult_resolve_so name path buf :
  ult_resolve name path buf SO_LINK =
    Ret match so_loop 10 name path name [name] with
        | SoDone base trace => Some (UltValue base (trace ++ [base]))
        | _ => None
        end.
Proof. unfold ult_resolve. simpl. destruct buf; simpl; by case_match. Qed.

(** A chain that ends in an error never reaches a source. *)
Lemma so_chain_error name path b l e l' e' :
  so_chain name path b l e →
  find_include_directive e = None ∨
    (∃ d inc, find_include_directive e = Some d ∧ test_for_include d = Some inc ∧ find_include name path inc = None) →
  so_chain name path b l' e' → is_source e' → False.
Proof.
  intros Hc Herr. revert l' e'. induction Hc as [b|b c l e Hinc Hc IH]; intros l' e' Hc' Hsrc'.
  - destruct Hc' as [b|b c' l' e' (d & inc & Hd & Ht & Hf) _].
    + destruct Hsrc' as (d & Hd & Ht). destruct Herr as [|(? & ? & ? & ? & ?)]; congruence.
    + destruct Herr as [|(? & ? & ? & ? & ?)]; congruence.
  - destruct Hinc as (d & inc & Hd & Ht & Hf). destruct Hc' as [b|b c' l' e' (d' & inc' & Hd' & Ht' & Hf') Hc'].
    + destruct Hsrc' as (d' & Hd' & Ht'). congruence.
    + assert (c' = c) as -> by congruence. by eapply IH.
Qed.

Lemma ult_resolve_chain name path buf :
  ∃ v, ult_resolve name path buf SO_LINK = Ret v ∧ ∀ e tr, v = Some (UltValue e tr) ↔
     ∃ l, tr = name :: l ++ [e] ∧ length l < 10 ∧ so_chain name path name l e ∧ is_source e.
Proof.
  rewrite ult_resolve_so. eexists. split; [done|]. intros e tr.
  pose proof (so_loop_spec 10 name path name [name]) as Hs.
  destruct (so_loop 10 name path name [name]) as [e' tr'| |].
  - destruct Hs as (l & -> & Hl & Hc & Hsrc). simpl. split.
    + intros [= <- <-]. by exists l.
    + intros (l' & -> & Hl' & Hc' & Hsrc').
      by destruct (so_chain_unique _ _ _ _ _ _ _ Hc Hsrc Hc' Hsrc') as [-> ->].
  - split; [done|]. intros (l' & -> & Hl' & Hc' & Hsrc'). destruct Hs as (l & e' & Hl & Hc & Herr).
    by destruct (so_chain_error _ _ _ _ _ _ _ Hc Herr Hc' Hsrc').
  - split; [done|]. intros (l' & -> & Hl' & Hc' & Hsrc'). destruct Hs as (l & e' & Hl & Hc).
    pose proof (so_chain_det _ _ _ _ _ _ _ Hc Hc' Hsrc'). lia.
Qed.

(** Following [.so] inclusions from a page always returns, and finds the
    page [e] exactly when [e] is a readable page without an inclusion at the
    end of a chain of fewer than ten inclusions; its trace is then the page,
    the pages included and the source.  A page of a set of pages that only
    include one another (a cycle, say) has no source. *)
Theorem ult_src_so name path buf :
  ∃ v, ult_resolve name path buf SO_LINK = Ret v ∧
    (∀ e tr, v = Some (UltValue e tr) ↔
       ∃ l, tr = name :: l ++ [e] ∧ length l < 10 ∧ so_chain name path name l e ∧ is_source e) ∧
    (∀ P : cstr → Prop, P name ∧ (∀ b, P b → ∃ c, P c ∧ includes name path b c) → v = None).
Proof.
  destruct (ult_resolve_chain name path buf) as (v & -> & Hv). exists v. split; [done|]. split; [done|].
  intros P [Hn Hcl]. destruct v as [[e tr]|]; [|done]. exfalso.
  destruct (proj1 (Hv e tr) eq_refl) as (l & _ & _ & Hc & Hsrc). clear Hv.
  assert (∀ b, so_chain name path b l e → ¬ P b) as Hno; [|by apply (Hno name)].
  clear Hc Hn. intros b Hc. induction Hc as [b|b c l e Hinc Hc IH]; intros Hb;
    destruct (Hcl b Hb) as (c' & Hc' & d & inc & Hd & Ht & Hf).
  - destruct Hsrc as (d' & ? & ?). congruence.
  - destruct Hinc as (d' & inc' & ? & ? & ?). assert (c' = c) as -> by congruence. by apply IH.
Qed.

(** ** The cache *)

(** The cache holds what would be computed: every name belongs to the
    hierarchy [path_of name] and is looked up with its own status. *)
Definition ult_cache_ok (path_of : cstr → cstr) (cache : ult_cache) : Prop :=
  map_Forall (λ k v, ult_resolve k.1 (path_of k.1) None k.2 = Ret v) cache.

Lemma ult_resolve_buf name path st flags :
  fs_lstat name = Some st → ult_resolve name path (Some st) flags = ult_resolve name path None flags.
Proof.
  intros Hst. unfold ult_resolve. rewrite Hst.
  destruct (flag flags SOFT_LINK) eqn:E1, (flag flags HARD_LINK) eqn:E2; done.
Qed.

Lemma ult_src_plain path_of cache name buf flags :
  ult_cache_ok path_of cache → buf = None ∨ buf = fs_lstat name →
  match ult_resolve name (path_of name) None flags with
  | Ret v => ∃ cache', ult_src cache name (path_of name) buf flags = Ret (v, cache') ∧ ult_cache_ok path_of cache'
  | _ => ult_src cache name (path_of name) buf flags = (ult_resolve name (path_of name) None flags ≫= λ v, Ret (v, cache))
  end ∧ ult_cache_ok path_of ∅.
Proof.
  intros Hc Hbuf. split; [|apply map_Forall_empty].
  assert (ult_resolve name (path_of name) buf flags = ult_resolve name (path_of name) None flags) as Hb.
  { destruct Hbuf as [->| ->]; [done|]. destruct (fs_lstat name) as [st|] eqn:E; [|done].
    by apply ult_resolve_buf. }
  unfold ult_src. destruct (cache !! (name, flags)) as [v|] eqn:E.
  - pose proof (Hc _ _ E) as Hv. cbn in Hv. rewrite Hv. by exists cache.
  - rewrite Hb. destruct (ult_resolve name (path_of name) None flags) as [v| |] eqn:Er; [|done|done].
    eexists. split; [done|]. by apply map_Forall_insert_2.
Qed.

(** [ult_src] answers what it would answer without its cache, from the
    empty cache on, as long as a name is always given with the same
    hierarchy and, if any, its own status. *)
Theorem ult_src_cached path_of cache name buf flags :
  ult_cache_ok path_of cache → buf = None ∨ buf = fs_lstat name →
  match ult_resolve name (path_of name) None flags with
  | Ret v => ∃ cache', ult_src cache name (path_of name) buf flags = Ret (v, cache') ∧ ult_cache_ok path_of cache'
  | _ => ult_src cache name (path_of name) buf flags = (ult_resolve name (path_of name) None flags ≫= λ v, Ret (v, cache))
  end ∧ ult_cache_ok path_of ∅.
Proof. apply ult_src_plain. Qed.
End ult_src.

(** ** Evaluation *)

(** A hierarchy with a page that includes another, and one that includes
    itself. *)
#[local] Instance two_texts : PageText := {|
  page_lines p :=
    if bool_decide (p = lit "/m/man1/a.1") then Some [comment_start; lit ".so man1/b.1"]
    else if bool_decide (p = lit "/m/man1/c.1") then Some [lit ".so man1/c.1"]
    else Some [lit ".TH B 1"];
|}.

Definition no_cache : ult_cache := ∅.

Lemma ult_src_cached_witness :
  ∃ cache', ult_src (H:=full_fs) all_comp no_cache (lit "/m/man1/a.1") (lit "/m") None SO_LINK =
    Ret (Some (UltValue (lit "/m/man1/b.1") [lit "/m/man1/a.1"; lit "/m/man1/b.1"; lit "/m/man1/b.1"]), cache').
Proof.
  pose proof (proj1 (ult_src_cached (H:=full_fs) all_comp (λ _, lit "/m") no_cache (lit "/m/man1/a.1") None SO_LINK
    (map_Forall_empty _) (or_introl eq_refl))) as Hw.
  assert (ult_resolve (H:=full_fs) all_comp (lit "/m/man1/a.1") (lit "/m") None SO_LINK =
    Ret (Some (UltValue (lit "/m/man1/b.1") [lit "/m/man1/a.1"; lit "/m/man1/b.1"; lit "/m/man1/b.1"]))) as E
    by by vm_compute.
  cbv beta in Hw. rewrite E in Hw. destruct Hw as (cache' & Hw & _). by exists cache'.
Defined.

(** The self-including page is an error. *)
Example self_include :
  ult_resolve (H:=full_fs) all_comp (lit "/m/man1/c.1") (lit "/m") None SO_LINK = Ret None.
Proof. by vm_compute. Qed.
