(* ===== verification/Purge.v ===== *)
(** * src/check_mandirs.c: purging pages that are gone

    [purge_missing] walks over the index and deletes the entries whose page
    no longer exists.  The scan for new pages is in the file [CheckMandirs]. *)

From S2P Require Import Prelude CStr Fs Compression Filenames Util Mydbm DbContent Wordfnmatch DbLookup DbGroup DbKeys DbStore DbDelete Globbing.

(** What the functions change: the index, the listings cached by
    [look_for_file] and the global [force_rescan]. *)
Record purge_state (db : Type) := PState { ps_db : db; ps_cache : dirent_map; ps_force : bool }.
Arguments PState {db} _ _ _.
Arguments ps_db {db} _.
Arguments ps_cache {db} _.
Arguments ps_force {db} _.

(** [walk] is the text from the pointer on, [None] a null pointer.  Every turn
    passes at least one character. *)
Fixpoint multi_key_loop (fuel : nat) (name : cstr) (walk : option cstr) : bool :=
  match fuel, walk with
  | S fuel, Some (_ :: walk) =>
    match strchr walk TAB with
    | Some n =>
      match strncasecmp name walk n with
      | Eq =>
        let walk := drop n walk in
        multi_key_loop fuel name ((λ m, drop m (drop 1 walk)) <$> strchr (drop 1 walk) TAB)
      | _ => true
      end
    | None => match strcasecmp name walk with Eq => false | _ => true end
    end
  | _, _ => false
  end.

(** [true]: the key is broken, and a rescan is forced. *)
Definition check_multi_key (name content : cstr) : bool :=
  multi_key_loop (S (length content)) name (Some content).

Section purge.
Context (cfg : comp_config) `{FileSystem} `{Dirname} `{Matcher}.
Context (layout : Z) (extension : option cstr).
Context {db : Type} `{Mydbm db}.
Context (opt_test : bool).

Definition ensure_db_open (opened : option db) : option db := opened.

Fixpoint check_contents (dbf : db) (keys : list cstr) : bool :=
  match keys with
  | [] => true
  | key :: keys =>
    match MYDBM_FETCH dbf key with
    | None => false
    | Some _ => check_contents dbf keys
    end
  end.

Definition sanity_check_db (dbf : db) : bool :=
  if negb (bool_decide (dbver_rd dbf = 0%Z)) then false
  else check_contents dbf (db_keys dbf).

(** The loop of [purge_pointers] over the keys that the traversal found. *)
Fixpoint purge_pointers_loop (dbf : db) (name : cstr) (keys : list cstr) : outcome db :=
  match keys with
  | [] => Ret dbf
  | key :: keys =>
    if bool_decide (head key = Some "$"%char) then purge_pointers_loop dbf name keys
    else
      match MYDBM_FETCH dbf key with
      | None => Ret dbf
      | Some content =>
        if bool_decide (head content = Some TAB) then purge_pointers_loop dbf name keys
        else
          entry ← split_content (Some content);
          if negb (bool_decide (md_id entry = SO_MAN)) && negb (bool_decide (md_id entry = WHATIS_MAN))
          then purge_pointers_loop dbf name keys
          else
            pointer ← or_undef "purge_pointers: pointer" (md_pointer entry);
            if STREQ pointer name && negb opt_test then
              '(_, dbf) ← dbdelete dbf (nicekey key) entry;
              purge_pointers_loop dbf name keys
            else purge_pointers_loop dbf name keys
      end
  end.

Definition purge_pointers (dbf : db) (name : cstr) : outcome db :=
  purge_pointers_loop dbf name (db_keys dbf).

Definition no_time : timespec := Timespec (-1) (-1).

Fixpoint count_glob_matches (ext : cstr) (source : list cstr) (db_mtime : timespec) : outcome nat :=
  match source with
  | [] => Ret 0
  | walk :: source =>
    match fs_stat walk with
    | None => count_glob_matches ext source db_mtime
    | Some st =>
      if negb (bool_decide (tv_sec db_mtime = (-1)%Z)) &&
         match timespec_cmp (st_mtim st) db_mtime with Gt => false | _ => true end
      then count_glob_matches ext source db_mtime
      else
        info ← filename_info cfg walk;
        rest ← count_glob_matches ext source db_mtime;
        Ret (match info with
             | Some info => if STREQ ext (md_ext info) then S rest else rest
             | None => rest
             end)
    end
  end.

(** Delete the entry, unless this is a test run. *)
Definition purge_entry (s : purge_state db) (name : cstr) (info : mandata) : outcome (purge_state db) :=
  if opt_test then Ret s
  else
    '(_, dbf) ← dbdelete (ps_db s) name info;
    Ret (PState dbf (ps_cache s) (ps_force s)).

Definition purge_normal (s : purge_state db) (name : cstr) (info : mandata) (found : list cstr)
    : outcome (nat * purge_state db) :=
  count ← count_glob_matches (md_ext info) found no_time;
  if decide (count ≠ 0) then Ret (0, s)
  else
    s ← purge_entry s name info;
    Ret (1, s).

Definition force (s : purge_state db) : purge_state db := PState (ps_db s) (ps_cache s) true.

Definition matchcase : lff := Lff true false false.

(** [look_for_file] with the cached listings of the state. *)
Definition find_file (s : purge_state db) (hier sec name : cstr) (cat : bool)
    : list cstr * purge_state db :=
  let '(found, cache) := look_for_file layout extension hier sec name cat matchcase (ps_cache s) in
  (found, PState (ps_db s) cache (ps_force s)).

Definition purge_whatis (s : purge_state db) (path : cstr) (cat : bool) (name : cstr) (info : mandata)
    (found : list cstr) (db_mtime : timespec) : outcome (nat * purge_state db) :=
  count ← count_glob_matches (md_ext info) found db_mtime;
  if decide (count ≠ 0) then Ret (0, force s)
  else
    pointer ← or_undef "purge_whatis: pointer" (md_pointer info);
    if STREQ pointer (lit "-") then
      s ← purge_entry s name info;
      Ret (1, force s)
    else
      let '(real_found, s) := find_file s path (md_ext info) pointer cat in
      count ← count_glob_matches (md_ext info) real_found no_time;
      if decide (count ≠ 0) then Ret (0, s)
      else
        s ← purge_entry s name info;
        Ret (1, s).

(** One turn of [purge_missing]: the entries purged, 0 or 1. *)
Definition purge_key (s : purge_state db) (manpath catpath : cstr) (db_mtime : timespec) (key : cstr)
    : outcome (nat * purge_state db) :=
  if bool_decide (head key = Some "$"%char) then Ret (0, s)
  else
    match MYDBM_FETCH (ps_db s) key with
    | None => Ret (0, s)
    | Some content =>
      let name := nicekey key in
      if bool_decide (head content = Some TAB) then
        Ret (0, if check_multi_key name content
                then PState (MYDBM_DELETE (ps_db s) key) (ps_cache s) true else s)
      else
        entry ← split_content (Some content);
        let page_name := default name (md_name entry) in
        let '(found, s) :=
          match char_cmp (md_id entry) WHATIS_MAN with
          | Gt => find_file s catpath (md_ext entry) page_name true
          | _ => find_file s manpath (md_ext entry) page_name false
          end in
        if bool_decide (md_id entry = ULT_MAN) || bool_decide (md_id entry = SO_MAN)
           || bool_decide (md_id entry = STRAY_CAT)
        then purge_normal s name entry found
        else if bool_decide (md_id entry = WHATIS_MAN)
        then purge_whatis s manpath false name entry found db_mtime
        else purge_whatis s catpath true name entry found db_mtime
    end.

Fixpoint purge_keys (s : purge_state db) (manpath catpath : cstr) (db_mtime : timespec) (keys : list cstr)
    : outcome (nat * purge_state db) :=
  match keys with
  | [] => Ret (0, s)
  | key :: keys =>
    '(n, s) ← purge_key s manpath catpath db_mtime key;
    '(rest, s) ← purge_keys s manpath catpath db_mtime keys;
    Ret (n + rest, s)
  end.

(** [db_exists] is the [stat] of the database file; [opened] the database as
    [ensure_db_open] leaves it, [None] when it could not be opened; [db_mtime]
    is [MYDBM_GET_TIME]. *)
Definition purge_missing (db_exists : bool) (opened : option db) (db_mtime : timespec)
    (manpath catpath : cstr) (cache : dirent_map) (force_rescan : bool)
    : outcome (nat * option (purge_state db)) :=
  if negb db_exists then Ret (0, None)
  else
    match ensure_db_open opened with
    | None => Ret (0, None)
    | Some dbf =>
      if negb (sanity_check_db dbf) then Ret (0, None)
      else
        '(n, s) ← purge_keys (PState dbf cache force_rescan) manpath catpath db_mtime (db_keys dbf);
        Ret (n, Some s)
    end.
End purge.

(** ** Multi keys *)

Lemma reference_next e refs :
  TAB ∉ e →
  (λ m, drop m (e ++ make_extensions_reference refs)) <$> strchr (e ++ make_extensions_reference refs) TAB =
    if decide (refs = []) then None else Some (make_extensions_reference refs).
Proof.
  intros He. destruct refs as [|r refs].
  - rewrite decide_True by done. unfold make_extensions_reference. simpl. rewrite app_nil_r.
    by rewrite (proj2 (strchr_None e TAB ltac:(done)) He).
  - rewrite decide_False, make_extensions_reference_cons, strchr_ext by done. simpl. by rewrite drop_app_length.
Qed.

(** The check accepts the references that the store writes. *)
Lemma check_multi_key_ok k refs :
  Forall (λ r, ref_ok r ∧ name_to_key (ne_name r) = k) refs →
  check_multi_key k (make_extensions_reference refs) = false.
Proof.
  intros Hall. unfold check_multi_key.
  assert (∀ fuel, length refs ≤ fuel →
    multi_key_loop fuel k (Some (make_extensions_reference refs)) = false) as Hl.
  { induction Hall as [|r refs [Hr Hk] Hall IH]; intros fuel Hf; [by destruct fuel|].
    destruct fuel as [|fuel]; [simpl in Hf; lia|]. rewrite make_extensions_reference_cons. cbn [multi_key_loop].
    rewrite strchr_ext by apply Hr.
    replace (strncasecmp k _ _) with Eq.
    2: { symmetry. unfold strncasecmp. rewrite take_app_length. apply strcasecmp_eq. subst k.
         unfold name_to_key. rewrite take_ge by by rewrite length_fmap.
         rewrite <-list_fmap_compose. apply list_fmap_ext. intros ???. apply tolower_idemp. }
    rewrite drop_app_length. change (drop 1 (TAB :: ?x)) with x. rewrite reference_next by apply Hr.
    case_decide; [by destruct fuel|]. apply IH. simpl in Hf. lia. }
  apply Hl. clear. induction refs as [|r refs IH]; [simpl; lia|].
  rewrite make_extensions_reference_cons. simpl. rewrite !length_app. simpl. rewrite length_app. lia.
Qed.

(** A change that leaves every content but the lists of references alone. *)
Definition refs_only (m m' : gmap cstr cstr) (x : cstr) : Prop :=
  m' !! x = m !! x ∨
  (∃ c, m !! x = Some c ∧ head c = Some TAB) ∧ ∀ c, m' !! x = Some c → head c = Some TAB.

Lemma refs_only_trans m1 m2 m3 x : refs_only m1 m2 x → refs_only m2 m3 x → refs_only m1 m3 x.
Proof.
  intros [H1|[H1 H1']] [H2|[[c [H2 Hc]] H2']].
  - left. congruence.
  - right. split; [|done]. exists c. split; [congruence|done].
  - right. split; [done|]. intros c. rewrite H2. apply H1'.
  - by right.
Qed.

Section purge_theorems.
Context (cfg : comp_config) `{FileSystem} `{Dirname} `{Matcher}.
Context (layout : Z) (extension : option cstr).
Context {db : Type} `{MydbmReliable db}.

Lemma dbdelete_frame (d : db) name i ret d' :
  dbdelete d name i = Ret (ret, d') →
  (∀ y, y ≠ name_to_key name → y ≠ make_multi_key name (md_ext i) → db_view d' !! y = db_view d !! y) ∧
  (∀ c, db_view d !! name_to_key name = Some c →
    if decide (head c = Some TAB)
    then ∀ c', db_view d' !! name_to_key name = Some c' → head c' = Some TAB
    else ∀ y, y ≠ name_to_key name → db_view d' !! y = db_view d !! y).
Proof.
  unfold dbdelete. rewrite fetch_view. set (k := name_to_key name).
  destruct (db_view d !! k) as [c|] eqn:Ec.
  2: { intros [= <- <-]. split; [done|]. congruence. }
  case_bool_decide as Hh; cbn [negb].
  2: { intros [= <- <-]. rewrite delete_view. split; [intros; by rewrite lookup_delete_ne|].
       intros c' [= <-]. rewrite decide_False by done. intros. by rewrite lookup_delete_ne. }
  assert (∀ c', Some c = Some c' → (if decide (head c' = Some TAB)
    then ∀ c', db_view d' !! k = Some c' → head c' = Some TAB
    else ∀ y, y ≠ k → db_view d' !! y = db_view d !! y) ↔ ∀ c', db_view d' !! k = Some c' → head c' = Some TAB) as Hif.
  { intros c' [= <-]. by rewrite decide_True. }
  destruct (gl_list_member _ _); cbn [negb].
  2: { intros [= <- <-]. split; [done|]. intros c' Hc'. apply Hif; [done|]. congruence. }
  destruct (MYDBM_EXISTS _ _); cbn [negb]; [|done].
  set (refs := gl_list_remove _ _). case_bool_decide as Hr.
  - intros [= <- <-]. split.
    + intros y Hy1 Hy2. rewrite !delete_view. by rewrite !lookup_delete_ne.
    + intros c' Hc'. apply Hif; [done|]. rewrite delete_view, lookup_delete_eq. done.
  - destruct (MYDBM_REPLACE _ _ _) as [[] d2] eqn:E; [done|]. intros [= <- <-].
    apply replace_Ret in E. rewrite delete_view in E. split.
    + intros y Hy1 Hy2. rewrite E. by rewrite lookup_insert_ne, lookup_delete_ne.
    + intros c' Hc'. apply Hif; [done|]. rewrite E, lookup_insert_eq. intros c2 [= <-].
      rewrite multi_content_reference. by destruct (make_extensions_reference_head refs Hr) as [data ->].
Qed.

(** Deleting the entry under a key: its page is gone, and the only other key
    that may change is the list of references it was in. *)
Lemma dbdelete_entry (d : db) x c r i :
  wf (db_view d) → db_view d !! x = Some c → page_entry (db_view d) x c r i →
  ∃ d', dbdelete d (nicekey x) i = Ret (0%Z, d') ∧ wf (db_view d') ∧
    (∀ r', TAB ∉ ne_name r' → page_at (db_view d') r' = if decide (r' = r) then None else page_at (db_view d) r') ∧
    ∀ y, y ≠ x → refs_only (db_view d) (db_view d') y.
Proof.
  intros Hwf Hx [Hc Ht Hv Hp Hn He Hk Hnice Hkind].
  assert (TAB ∉ nicekey x) as Htn by (rewrite <-name_to_key_tab, Hnice, name_to_key_tab; done).
  destruct (dbdelete_returns d (nicekey x) i Hwf Htn) as (ret & d' & Heq & Hwf' & Hres); [by rewrite Hnice|].
  pose proof (dbdelete_frame _ _ _ _ _ Heq) as [Hf1 Hf2].
  destruct Hkind as [[Hsg Hnk]|(-> & Hnk & refs & Hrg)].
  - assert (name_to_key x = x) as Hxx.
    { destruct Hsg as (_ & _ & Hk' & _). pose proof (name_to_key_idemp (default x (md_name i))) as E.
      by rewrite Hk' in E. }
    assert (dbdelete d (nicekey x) i = Ret (0%Z, MYDBM_DELETE d x)) as Heq2.
    { unfold dbdelete. rewrite Hnk, Hxx, fetch_view, Hx. by rewrite bool_decide_eq_false_2 by apply Hc. }
    rewrite Heq in Heq2. injection Heq2 as -> ->. rewrite Hnk in *. rewrite Hxx in *.
    exists (MYDBM_DELETE d x). split; [done|]. split; [done|]. split.
    + destruct Hres as [(? & _)|[(_ & _ & Hpages)|(_ & Hsome & Hpages)]]; [done| |].
      * intros r' Hr'. rewrite Hpages by done.
        case_decide as Hk2; case_decide as Hr3; try done; [|by subst; rewrite <-Hnice in Hk2].
        rewrite (page_at_single_group _ x c i r' Hsg) by done. case_decide as Hr2; [|done].
        exfalso. destruct r, r'; simpl in *; congruence.
      * intros r' Hr'. rewrite Hpages by done. unfold del.
        assert (NameExt x (md_ext i) = r) as ->; [|done].
        destruct Hsome as [j Hj]. rewrite (page_at_single_group _ x c i _ Hsg) in Hj by done.
        case_decide as Hr2; [|done]. injection Hr2 as Hr2. destruct r; simpl in *. by rewrite He, <-Hn, <-Hr2.
    + intros y Hy. left. rewrite delete_view. by rewrite lookup_delete_ne.
  - rewrite Hnk in *. destruct (refs_group_head _ _ _ _ Hrg) as (ck & Hck & Hhk).
    assert (NameExt (ne_name r) (md_ext i) = r) as Hr by (rewrite He; by destruct r).
    rewrite Hr in Hres. destruct Hres as [(_ & Hnone & _)|[(_ & (c1 & old & Hsg) & _)|(-> & _ & Hpages)]].
    { congruence. }
    { destruct Hsg as (? & [] & _). congruence. }
    exists d'. split; [done|]. split; [done|]. split; [done|].
    intros y Hy. destruct (decide (y = name_to_key (ne_name r))) as [->|Hne].
    + right. split; [by exists ck|]. specialize (Hf2 ck Hck). by rewrite decide_True in Hf2.
    + left. apply Hf1; [done|]. by rewrite He.
Qed.

(** ** Which pages are gone *)

(** The files found for a name, from an empty cache. *)
Definition files (hier sec name : cstr) (cat : bool) : list cstr :=
  (look_for_file layout extension hier sec name cat matchcase ∅).1.

Definition matches (ext : cstr) (source : list cstr) (t : timespec) : nat :=
  match count_glob_matches cfg ext source t with Ret n => n | _ => 0 end.

(** The names of the files found can be taken apart. *)
Definition finder_ok : Prop :=
  ∀ hier sec name cat p, p ∈ files hier sec name cat → is_ret (filename_info cfg p) = true.

Definition normal_id (id : ascii) : bool :=
  bool_decide (id = ULT_MAN) || bool_decide (id = SO_MAN) || bool_decide (id = STRAY_CAT).

(** A page is gone when no file has its name and extension; a name that only
    a description mentions, when moreover nothing newer than the index has
    it, and it points nowhere or at a page that is gone. *)
Definition gone (manpath catpath : cstr) (db_mtime : timespec) (name : cstr) (i : mandata) : bool :=
  let found :=
    match char_cmp (md_id i) WHATIS_MAN with
    | Gt => files catpath (md_ext i) name true
    | _ => files manpath (md_ext i) name false
    end in
  if normal_id (md_id i) then bool_decide (matches (md_ext i) found no_time = 0)
  else
    let real :=
      if bool_decide (md_id i = WHATIS_MAN)
      then files manpath (md_ext i) (default [] (md_pointer i)) false
      else files catpath (md_ext i) (default [] (md_pointer i)) true in
    bool_decide (matches (md_ext i) found db_mtime = 0) &&
    (bool_decide (md_pointer i = Some (lit "-")) || bool_decide (matches (md_ext i) real no_time = 0)).

Context (Hfinder : finder_ok).

Lemma count_matches ext source t :
  (∀ p, p ∈ source → is_ret (filename_info cfg p) = true) →
  count_glob_matches cfg ext source t = Ret (matches ext source t).
Proof using Type.
  unfold matches. induction source as [|p source IH]; intros Hall; simpl; [done|].
  assert (∀ q, q ∈ source → is_ret (filename_info cfg q) = true) as Hall' by (intros q Hq; apply Hall; by right).
  specialize (IH Hall'). destruct (fs_stat p) as [st|]; [|done]. destruct (_ && _); [done|].
  specialize (Hall p ltac:(by left)). destruct (filename_info cfg p) as [oi| |]; [|done|done].
  simpl. by rewrite IH.
Qed.

Lemma find_file_spec (s : purge_state db) hier sec name cat :
  cache_ok (ps_cache s) →
  ∃ cache, find_file layout extension s hier sec name cat =
      (files hier sec name cat, PState (ps_db s) cache (ps_force s)) ∧ cache_ok cache.
Proof using Type.
  intros Hc. unfold find_file, files.
  destruct (look_for_file_plain layout extension hier sec name cat matchcase (ps_cache s) ∅ Hc) as [Heq Hok].
  { apply map_Forall_empty. }
  destruct (look_for_file layout extension hier sec name cat matchcase (ps_cache s)) as [found cache].
  simpl in *. subst found. by exists cache.
Qed.

(** What one deletion amounts to. *)
Definition deletes (s : purge_state db) (name : cstr) (i : mandata) (b : bool)
    (o : outcome (nat * purge_state db)) : Prop :=
  ∃ s', o = Ret (if b then 1 else 0, s') ∧ cache_ok (ps_cache s') ∧
    if b then dbdelete (ps_db s) name i = Ret (0%Z, ps_db s') else ps_db s' = ps_db s.

Lemma purge_normal_spec s name i found d' :
  cache_ok (ps_cache s) → (∀ p, p ∈ found → is_ret (filename_info cfg p) = true) →
  dbdelete (ps_db s) name i = Ret (0%Z, d') →
  deletes s name i (bool_decide (matches (md_ext i) found no_time = 0))
    (purge_normal cfg false s name i found).
Proof using Type.
  intros Hc Hf Hd. unfold purge_normal, purge_entry. rewrite count_matches, bind_Ret by done.
  case_bool_decide as Hm.
  - rewrite decide_False by (by intros ?). rewrite Hd, !bind_Ret. by eexists.
  - rewrite decide_True by done. by eexists.
Qed.

Lemma purge_whatis_spec s path cat name i found t d' pointer :
  cache_ok (ps_cache s) → (∀ p, p ∈ found → is_ret (filename_info cfg p) = true) →
  dbdelete (ps_db s) name i = Ret (0%Z, d') → md_pointer i = Some pointer →
  deletes s name i
    (bool_decide (matches (md_ext i) found t = 0) &&
     (bool_decide (md_pointer i = Some (lit "-")) ||
      bool_decide (matches (md_ext i) (files path (md_ext i) pointer cat) no_time = 0)))
    (purge_whatis cfg layout extension false s path cat name i found t).
Proof using Hfinder.
  intros Hc Hf Hd Hp. unfold purge_whatis, purge_entry. rewrite count_matches, bind_Ret by done.
  case_bool_decide as Hm; cbn [andb].
  2: { rewrite decide_True by done. by eexists. }
  rewrite decide_False by (by intros ?). rewrite Hp. cbn [or_undef]. rewrite bind_Ret, STREQ_spec.
  destruct (decide (pointer = lit "-")) as [->|Hpt].
  - rewrite !bool_decide_eq_true_2 by done. cbn [orb]. rewrite Hd, !bind_Ret. by eexists.
  - rewrite (bool_decide_eq_false_2 (pointer = lit "-")) by done.
    rewrite (bool_decide_eq_false_2 (Some pointer = Some (lit "-"))) by congruence. cbn [orb].
    destruct (find_file_spec s path (md_ext i) pointer cat Hc) as (cache & -> & Hc').
    rewrite count_matches, bind_Ret by (apply Hfinder). case_bool_decide as Hm2.
    + rewrite decide_False by (by intros ?). cbn [ps_db]. rewrite Hd, !bind_Ret. by eexists.
    + rewrite decide_True by done. by eexists.
Qed.

Lemma parsed_pointer c i : split_content c = Ret i → ∃ p, md_pointer i = Some p.
Proof using Type. intros Hs%fill_unset_parsed. rewrite <-Hs. simpl. eauto. Qed.

Lemma deletes_eq s s' name i b b' o :
  deletes s' name i b' o → ps_db s' = ps_db s → b' = b → deletes s name i b o.
Proof using Type. intros (s2 & -> & Hc & Hb) Hs ->. exists s2. rewrite <-Hs. done. Qed.

Lemma purge_key_entry s manpath catpath t x c r i :
  cache_ok (ps_cache s) → wf (db_view (ps_db s)) → db_view (ps_db s) !! x = Some c →
  head x ≠ Some "$"%char → page_entry (db_view (ps_db s)) x c r i →
  deletes s (nicekey x) i (gone manpath catpath t (ne_name r) i)
    (purge_key cfg layout extension false s manpath catpath t x).
Proof using All.
  intros Hc Hwf Hx Hd Hpe. destruct (dbdelete_entry (ps_db s) x c r i Hwf Hx Hpe) as (d' & Hdel & _).
  destruct Hpe as [[Hh Hs Hok] _ _ _ Hn _ _ _ _]. destruct (parsed_pointer _ _ Hs) as [pointer Hp].
  unfold purge_key. rewrite bool_decide_eq_false_2 by done. rewrite fetch_view, Hx.
  rewrite bool_decide_eq_false_2 by done. rewrite Hs, bind_Ret, Hn.
  assert (∃ path cat cache,
    match char_cmp (md_id i) WHATIS_MAN with
    | Gt => find_file layout extension s catpath (md_ext i) (ne_name r) true
    | _ => find_file layout extension s manpath (md_ext i) (ne_name r) false
    end = (files path (md_ext i) (ne_name r) cat, PState (ps_db s) cache (ps_force s)) ∧ cache_ok cache ∧
    files path (md_ext i) (ne_name r) cat =
    match char_cmp (md_id i) WHATIS_MAN with
    | Gt => files catpath (md_ext i) (ne_name r) true
    | _ => files manpath (md_ext i) (ne_name r) false
    end) as (path & cat & cache & -> & Hc' & Hfiles).
  { destruct (find_file_spec s catpath (md_ext i) (ne_name r) true Hc) as (c1 & -> & Hc1).
    destruct (find_file_spec s manpath (md_ext i) (ne_name r) false Hc) as (c2 & -> & Hc2).
    destruct (char_cmp (md_id i) WHATIS_MAN); by do 3 eexists. }
  cbv zeta. unfold gone. rewrite <-Hfiles. unfold normal_id.
  destruct (bool_decide (md_id i = ULT_MAN) || bool_decide (md_id i = SO_MAN) || bool_decide (md_id i = STRAY_CAT)).
  { eapply deletes_eq; [eapply purge_normal_spec|done|done]; [done|apply Hfinder|done]. }
  rewrite Hp. cbn [default]. rewrite <-Hp.
  destruct (bool_decide (md_id i = WHATIS_MAN));
    (eapply deletes_eq; [eapply purge_whatis_spec|done|done]; [done|apply Hfinder|done|done]).
Qed.

(** ** The whole walk *)

Section walk.
Context (manpath catpath : cstr) (db_mtime : timespec) (m0 : gmap cstr cstr) (Hwf0 : wf m0).

(** What the purge leaves of a page; names that begin with a dollar are taken
    for entries of the database itself and left alone. *)
Definition survives (r : name_ext) (oi : option mandata) : option mandata :=
  match oi with
  | Some i =>
    if decide (head (ne_name r) = Some "$"%char) then oi
    else if gone manpath catpath db_mtime (ne_name r) i then None else oi
  | None => None
  end.

Definition good_ref (r : name_ext) : Prop := (TAB ∉ ne_name r) ∧ name_to_key (ne_name r) ≠ VER_KEY.

(** The keys [todo] have not been visited. *)
Record walk_inv (todo : list cstr) (s : purge_state db) : Prop := WalkInv {
  wi_wf : wf (db_view (ps_db s));
  wi_cache : cache_ok (ps_cache s);
  wi_todo : ∀ x, x ∈ todo → refs_only m0 (db_view (ps_db s)) x;
  wi_ver : refs_only m0 (db_view (ps_db s)) VER_KEY;
  wi_pages : ∀ r, good_ref r →
    page_at (db_view (ps_db s)) r =
      if decide (page_key m0 r ∈ todo) then page_at m0 r else survives r (page_at m0 r);
}.

(** The next key holds no page of the index at the start, or one that stays:
    nothing to do. *)
Lemma walk_skip x todo s :
  walk_inv (x :: todo) s →
  (∀ r, good_ref r → page_key m0 r = x → is_Some (page_at m0 r) → survives r (page_at m0 r) = page_at m0 r) →
  walk_inv todo s.
Proof using Type.
  intros [Hwf Hc Ht Hver Hp] Hskip. split; [done|done|intros; apply Ht; by right|done|].
  intros r Hr. rewrite Hp by done. destruct (decide (page_key m0 r ∈ todo)) as [Hin|Hin].
  { rewrite decide_True by by right. done. }
  destruct (decide (page_key m0 r = x)) as [Hx|Hx].
  - rewrite decide_True by (rewrite Hx; by left). destruct (page_at m0 r) as [i|] eqn:E; [|done].
    rewrite <-E. symmetry. apply Hskip; [done|done|]. rewrite E. eauto.
  - rewrite decide_False by (rewrite elem_of_cons; tauto). done.
Qed.

Lemma gone_name t n i : gone manpath catpath t n (set_name None i) = gone manpath catpath t n i.
Proof. done. Qed.

Lemma head_key n : head (name_to_key n) = Some "$"%char ↔ head n = Some "$"%char.
Proof.
  destruct n as [|a n]; simpl; [done|]. split; intros [= Ha]; f_equal; revert Ha; by all_bytes a.
Qed.

(** A key that begins with a dollar belongs to such a name. *)
Lemma dollar_page r : good_ref r → head (page_key m0 r) = Some "$"%char ↔ head (ne_name r) = Some "$"%char.
Proof.
  intros _. unfold page_key. destruct (m0 !! _) as [c|]; [|apply head_key].
  case_decide; [|apply head_key]. unfold make_multi_key. by destruct (ne_name r).
Qed.

(** A key without a page at the start. *)
Lemma walk_nopage x todo s :
  walk_inv (x :: todo) s → (∀ c0, m0 !! x = Some c0 → head c0 = Some TAB) → walk_inv todo s.
Proof using Hwf0.
  intros Hinv Hno. apply (walk_skip x); [done|]. intros r [Hr1 Hr2] Hk Hs.
  destruct (page_key_Some m0 r Hwf0 Hr1 Hr2 Hs) as (c1 & Hc1 & Hh1). rewrite Hk in Hc1. by apply Hno in Hc1.
Qed.

Lemma refs_checked m x c :
  wf m → m !! x = Some c → x ≠ VER_KEY → head c = Some TAB → check_multi_key (nicekey x) c = false.
Proof.
  intros Hwf Hx Hver Hh. assert (TAB ∉ x) as Htab.
  { intros Htab. destruct (wf_multi _ Hwf x c Hx Htab) as (n & e & i & c' & _ & _ & [] & _). done. }
  destruct (wf_simple _ Hwf x c Hx Hver Htab) as [(i & [] & _)|Hok]; [done|].
  apply refs_ok_inv in Hok as (_ & Heq & _ & _ & _ & Hall). rewrite nicekey_free by done.
  rewrite Heq. apply check_multi_key_ok. eapply Forall_impl; [done|]. naive_solver.
Qed.

(** The page under [x], at the start and now. *)
Lemma walk_entry x todo s c :
  walk_inv (x :: todo) s → db_view (ps_db s) !! x = Some c → x ≠ VER_KEY → head c ≠ Some TAB →
  ∃ r i, page_entry (db_view (ps_db s)) x c r i ∧ page_entry m0 x c r i ∧
    ∀ r', good_ref r' → r' ≠ r → page_key m0 r' = x → page_at m0 r' = None.
Proof using Hwf0.
  intros [Hwf Hc Ht _ Hp] Hx Hver Hh.
  destruct (page_entry_intro _ x c Hwf Hx Hver Hh) as (r & i & Hpe).
  assert (m0 !! x = Some c) as Hx0.
  { destruct (Ht x ltac:(by left)) as [Hm|[_ Hm]]; [congruence|]. by apply Hm in Hx. }
  destruct (page_entry_intro _ x c Hwf0 Hx0 Hver Hh) as (r0 & i0 & Hpe0).
  assert (r0 = r ∧ i0 = i) as [-> ->].
  { destruct Hpe as [[_ Hs _] _ _ _ Hn He _ _ _], Hpe0 as [[_ Hs0 _] _ _ _ Hn0 He0 _ _ _].
    assert (i0 = i) as -> by congruence. split; [|done]. destruct r, r0. simpl in *. congruence. }
  exists r, i. split; [done|]. split; [done|].
  intros r' [Hr1 Hr2] Hne Hk. destruct (page_at m0 r') as [j|] eqn:E; [|done]. destruct Hne.
  destruct Hpe0. apply (page_key_inj m0 r' r Hwf0); try done; by rewrite Hk.
Qed.

(** The page under [x] is gone and its entry is deleted. *)
Lemma walk_delete x todo s s' c r i :
  x ∉ todo → head x ≠ Some "$"%char → walk_inv (x :: todo) s → cache_ok (ps_cache s') →
  db_view (ps_db s) !! x = Some c → page_entry (db_view (ps_db s)) x c r i → page_entry m0 x c r i →
  (∀ r', good_ref r' → r' ≠ r → page_key m0 r' = x → page_at m0 r' = None) →
  gone manpath catpath db_mtime (ne_name r) i = true →
  dbdelete (ps_db s) (nicekey x) i = Ret (0%Z, ps_db s') → walk_inv todo s'.
Proof using All.
  intros Hnx Hd [Hwf Hc Ht Hver Hp] Hc' Hx Hpe Hpe0 Hother Hgone Hres.
  destruct (dbdelete_entry (ps_db s) x c r i Hwf Hx Hpe) as (d' & Hdel & Hwf' & Hpages & Hro).
  rewrite Hdel in Hres. injection Hres as ->. split; [done|done| | |].
  2: { eapply refs_only_trans; [apply Hver|]. apply Hro. by intros <-. }
  - intros y Hy. eapply refs_only_trans; [apply Ht; by right|]. apply Hro. intros ->. done.
  - intros r' Hr'. rewrite Hpages by apply Hr'. destruct (decide (r' = r)) as [->|Hne].
    + destruct Hpe0 as [_ _ _ Hp0 _ _ Hk0 _ _]. rewrite decide_False by by rewrite Hk0. rewrite Hp0. unfold survives.
      rewrite decide_False, gone_name, Hgone; [done|]. rewrite <-dollar_page by done. by rewrite Hk0.
    + rewrite Hp by done. destruct (decide (page_key m0 r' ∈ todo)) as [Hin|Hin].
      { by rewrite decide_True by by right. }
      destruct (decide (page_key m0 r' = x)) as [Hkx|Hkx].
      * rewrite (Hother r' Hr' Hne Hkx). simpl. by case_decide.
      * rewrite decide_False; [done|]. rewrite elem_of_cons. tauto.
Qed.

Lemma walk_step x todo s :
  NoDup (x :: todo) → walk_inv (x :: todo) s →
  ∃ n s', purge_key cfg layout extension false s manpath catpath db_mtime x = Ret (n, s') ∧
    walk_inv todo s' ∧ (n = 0 → ps_db s' = ps_db s).
Proof using All.
  intros [Hnx Hnd]%NoDup_cons Hinv. pose proof Hinv as [Hwf Hc Ht _ Hp].
  destruct (decide (head x = Some "$"%char)) as [Hd|Hd].
  { exists 0, s. split; [unfold purge_key; by rewrite bool_decide_eq_true_2|]. split; [|done].
    apply (walk_skip x); [done|]. intros r Hr Hk _. unfold survives.
    destruct (page_at m0 r); [|done]. rewrite decide_True; [done|]. by rewrite <-dollar_page, Hk. }
  assert (x ≠ VER_KEY) as Hver by (intros ->; by apply Hd).
  destruct (db_view (ps_db s) !! x) as [c|] eqn:Hx.
  2: { exists 0, s. unfold purge_key. rewrite bool_decide_eq_false_2 by done. rewrite fetch_view, Hx.
       split; [done|]. split; [|done]. apply (walk_nopage x); [done|]. intros c0 Hc0.
       destruct (Ht x ltac:(by left)) as [Hm|[(c1 & Hc1 & Hh1) _]]; congruence. }
  destruct (decide (head c = Some TAB)) as [Hh|Hh].
  { exists 0, s. unfold purge_key. rewrite bool_decide_eq_false_2 by done. rewrite fetch_view, Hx.
    rewrite bool_decide_eq_true_2 by done. rewrite (refs_checked _ x c Hwf Hx Hver Hh).
    split; [done|]. split; [|done]. apply (walk_nopage x); [done|]. intros c0 Hc0.
    destruct (Ht x ltac:(by left)) as [Hm|[(c1 & Hc1 & Hh1) _]]; congruence. }
  destruct (walk_entry x todo s c Hinv Hx Hver Hh) as (r & i & Hpe & Hpe0 & Hother).
  destruct (purge_key_entry s manpath catpath db_mtime x c r i Hc Hwf Hx Hd Hpe) as (s' & -> & Hc' & Hres).
  do 2 eexists. split; [done|]. destruct (gone manpath catpath db_mtime (ne_name r) i) eqn:Hgone.
  - split; [|done]. by apply (walk_delete x todo s s' c r i).
  - split; [|by intros _]. assert (walk_inv todo s) as [].
    { apply (walk_skip x); [done|]. intros r' Hr' Hk Hs. destruct (decide (r' = r)) as [->|Hne].
      - rewrite (pe_page _ _ _ _ _ Hpe0). unfold survives. case_decide; [done|]. by rewrite gone_name, Hgone.
      - rewrite (Hother r' Hr' Hne Hk) in Hs. by destruct Hs. }
    split; rewrite ?Hres; done.
Qed.

Lemma walk_keys todo s :
  NoDup todo → walk_inv todo s →
  ∃ n s', purge_keys cfg layout extension false s manpath catpath db_mtime todo = Ret (n, s') ∧
    walk_inv [] s' ∧ (n = 0 → ps_db s' = ps_db s).
Proof using All.
  revert s. induction todo as [|x todo IH]; intros s Hnd Hinv; [by do 2 eexists|].
  destruct (walk_step x todo s Hnd Hinv) as (n & s1 & Heq & Hinv1 & Hn).
  apply NoDup_cons in Hnd as [_ Hnd]. destruct (IH s1 Hnd Hinv1) as (n' & s2 & Heq2 & Hinv2 & Hn').
  exists (n + n'), s2. cbn [purge_keys]. rewrite Heq, bind_Ret, Heq2, bind_Ret. split; [done|]. split; [done|].
  intros ?. rewrite Hn', Hn; [done|lia|lia].
Qed.
End walk.

Lemma sanity_check_ok (d : db) : dbver_rd d = 0%Z → sanity_check_db d = true.
Proof.
  intros Hv. unfold sanity_check_db. rewrite bool_decide_eq_true_2 by done. cbn [negb].
  assert (∀ x, x ∈ db_keys d → is_Some (db_view d !! x)) as Hall by (intros x; by rewrite elem_of_db_keys).
  induction (db_keys d) as [|x keys IH]; [done|]. cbn [check_contents]. rewrite fetch_view.
  destruct (Hall x) as [c ->]; [by left|]. apply IH. intros y Hy. apply Hall. by right.
Qed.

(** The version entry is no list of references. *)
Lemma dbver_refs_only (d d' : db) :
  dbver_rd d = 0%Z → refs_only (db_view d) (db_view d') VER_KEY → dbver_rd d' = 0%Z.
Proof using Type.
  unfold dbver_rd. rewrite !fetch_view. intros Hv [->|[(c & Hc & Hh) _]]; [done|]. rewrite Hc in Hv.
  rewrite STREQ_spec in Hv. case_bool_decide as Heq; [|done]. subst c. by vm_compute in Hh.
Qed.

Lemma purge_missing_spec (d : db) manpath catpath db_mtime cache force :
  wf (db_view d) → dbver_rd d = 0%Z → cache_ok cache →
  ∃ n s, purge_missing cfg layout extension false true (Some d) db_mtime manpath catpath cache force =
      Ret (n, Some s) ∧ wf (db_view (ps_db s)) ∧ (n = 0 → ps_db s = d) ∧ cache_ok (ps_cache s) ∧ dbver_rd (ps_db s) = 0%Z ∧
    ∀ r, good_ref r → page_at (db_view (ps_db s)) r =
      survives manpath catpath db_mtime r (page_at (db_view d) r).
Proof using All.
  intros Hwf Hv Hc. unfold purge_missing, ensure_db_open. cbn [negb]. rewrite sanity_check_ok by done. cbn [negb].
  destruct (walk_keys manpath catpath db_mtime (db_view d) Hwf (db_keys d) (PState d cache force))
    as (n & s & -> & [Hw Hca _ Hver Hp] & Hn).
  - apply db_keys_NoDup.
  - split; [done|done|by left|by left|]. intros r [Hr1 Hr2]. case_decide as Hin; [done|].
    destruct (page_at (db_view d) r) as [i|] eqn:E; [|done]. exfalso. apply Hin, elem_of_db_keys.
    destruct (page_key_Some (db_view d) r Hwf Hr1 Hr2) as (c & Hk & _); by eexists.
  - exists n, s. split; [done|]. split; [done|]. split; [done|]. split; [done|]. split.
    + by apply (dbver_refs_only d).
    + intros r Hr. rewrite Hp by done. done.
Qed.

(** C4: purging a well-formed index of the right version always returns and
    leaves a well-formed index that holds exactly the pages that are not gone
    (and every page whose name begins with a dollar), unchanged; if it counts
    no purged page, it left the index alone. *)
Theorem purge_missing_correct (d : db) manpath catpath db_mtime cache force :
  wf (db_view d) → dbver_rd d = 0%Z → cache_ok cache →
  ∃ n s, purge_missing cfg layout extension false true (Some d) db_mtime manpath catpath cache force =
      Ret (n, Some s) ∧ wf (db_view (ps_db s)) ∧ (n = 0 → ps_db s = d) ∧
    ∀ r, good_ref r → page_at (db_view (ps_db s)) r =
      survives manpath catpath db_mtime r (page_at (db_view d) r).
Proof using All.
  intros Hwf Hv Hc.
  destruct (purge_missing_spec d manpath catpath db_mtime cache force Hwf Hv Hc) as (n & s & Hs & Hw & Hn & _ & _ & Hp).
  by exists n, s.
Qed.
End purge_theorems.

(** ** Evaluation *)

(** A file system without any file. *)
Definition empty_fs : FileSystem := {|
  fs_stat _ := None; fs_lstat _ := None; fs_readdir _ := None;
  fs_access_R _ := false; fs_access_F _ := false;
  fs_canonicalize _ := None; fs_glob _ := None;
|}.

(** The index with one page and its version entry. *)
Definition versioned : gmap cstr cstr := <[VER_KEY:=VER_ID]> one_page.

Lemma versioned_wf : wf versioned.
Proof.
  apply map_Forall_insert_2; [by vm_compute|]. intros k c Hk. pose proof (one_page_wf k c Hk) as He.
  unfold one_page in Hk. apply lookup_singleton_Some in Hk as [<- <-].
  unfold entry_wf in *. simpl in *. destruct He as [He|(refs & Heq & Hne & _)]; [by left|].
  exfalso. destruct (make_extensions_reference_head refs Hne) as [data Hd]. rewrite Hd in Heq. by vm_compute in Heq.
Qed.

Lemma purge_missing_correct_witness :
  ∃ n s, purge_missing (H:=empty_fs) (H1:=literal_matcher) all_comp 1 None false true (Some versioned) (Timespec 5 0)
      (lit "/usr/man") (lit "/var/cache/man") ∅ false = Ret (n, Some s) ∧
    wf (db_view (ps_db s)) ∧ (n = 0 → ps_db s = versioned) ∧
    ∀ r, good_ref r → page_at (db_view (ps_db s)) r =
      survives (H:=empty_fs) (H1:=literal_matcher) all_comp 1 None (lit "/usr/man") (lit "/var/cache/man") (Timespec 5 0) r
        (page_at versioned r).
Proof.
  refine (purge_missing_correct (H:=empty_fs) (H1:=literal_matcher) (db:=gmap cstr cstr) all_comp 1 None _ versioned _ _ _ ∅ false
    versioned_wf _ (map_Forall_empty _)).
  - intros hier sec name cat p Hp. by apply elem_of_nil in Hp.
  - by vm_compute.
Defined.

(** ** Two behaviours the code does not mean to have *)

Definition link_to (target : string) (ext : string) : mandata :=
  Mandata None (lit ext) (lit "1") SO_MAN (Some (lit target)) None None (Some (lit "about it")) (Timespec 1000 5).

Definition after (o : outcome (Z * mandata * gmap cstr cstr)) : outcome (gmap cstr cstr) :=
  '(_, _, d) ← o; Ret d.

(** [purge_pointers] is to delete every link to a page that vanished.  When
    deleting one of them empties the list of references of its name, the walk
    comes to the deleted key of that list, finds no content and stops: here
    [zz], which points at [foo] too, stays. *)
Theorem purge_pointers_stops :
  (d ← after (dbstore ∅ (page "A" "1" None) (lit "ls"));
   d ← after (dbstore d (link_to "foo" "1x") (lit "LS"));
   '(_, d) ← dbdelete d (lit "ls") (page "A" "1" None);
   d ← after (dbstore d (link_to "foo" "1") (lit "zz"));
   d ← purge_pointers false d (lit "foo");
   Ret (md_pointer <$> page_at d (NameExt (lit "LS") (lit "1x")), md_pointer <$> page_at d (NameExt (lit "zz") (lit "1")))) =
  Ret (None, Some (Some (lit "foo"))).
Proof. by vm_compute. Qed.

(** [check_multi_key] accepts a reference whose name is only a beginning of
    the key. *)
Example check_multi_key_prefix :
  check_multi_key (lit "lsof") (make_extensions_reference [NameExt (lit "ls") (lit "1")]) = false.
Proof. by vm_compute. Qed.
