(* ===== verification/CheckMandirs.v ===== *)
(** * src/check_mandirs.c: scanning a hierarchy for new pages

    [test_manfile] looks at one file and stores what it describes;
    [testmandirs] does so for every file of the directories that changed since
    the index was written. *)

From S2P Require Import Prelude CStr Fs Compression Filenames Util Mydbm DbContent Wordfnmatch DbLookup DbGroup DbStore DbDelete Globbing Descriptions UltSrc Purge.

(** The lexer of lexgrog.l: the raw NAME section of a page and the filters it
    needs, for the path of the page and the name it is known under. *)
Class Lexgrog := { find_name : cstr → cstr → option cstr * option cstr }.

(** lib/orderfiles.c: the order in which to read the files of a directory. *)
Class OrderFiles := { order_files : cstr → list cstr → list cstr }.

(** The database ([None]: not open), the two caches and the page count. *)
Record scan_state (db : Type) := Scan {
  sc_db : option db;
  sc_ult : ult_cache;
  sc_whatis : gmap cstr (option cstr * option cstr);
  sc_pages : nat;
}.
Arguments Scan {db} _ _ _ _.
Arguments sc_db {db} _.
Arguments sc_ult {db} _.
Arguments sc_whatis {db} _.
Arguments sc_pages {db} _.

Section scan.
Context (cfg : comp_config) `{FileSystem} `{Dirname} `{PageText} `{Lexgrog} `{OrderFiles}.
Context {db : Type} `{Mydbm db}.
Context (opt_test : bool).

(** The entry of the page before its whatis is known. *)
Definition page_info (i : mandata) (mtime : timespec) (id : ascii) (filter : option cstr) : mandata :=
  Mandata None (md_ext i) (md_sec i) id None (md_comp i) filter None mtime.

(** The length of the name of the file without its compression extension. *)
Definition stem_length (file : cstr) : nat :=
  match comp_info cfg file true with
  | Some comp => length (default [] (comp_stem comp))
  | None => length file
  end.

(** A page already in the index under another compression extension: [None]
    when its file exists and this one is to be left out. *)
Definition check_extensions (dbf : db) (path base : cstr) (i : mandata) : outcome (option db) :=
  existing ← dblookup_exact dbf base (Some (md_ext i)) true;
  match existing with
  | None => Ret (Some dbf)
  | Some e =>
    comp ← or_undef "test_manfile: comp" (md_comp e);
    if STREQ comp (default (lit "-") (md_comp i)) then Ret (Some dbf)
    else
      abs_filename ← make_filename path None e (lit "man");
      match abs_filename with
      | Some _ => Ret None
      | None =>
        if opt_test then Ret (Some dbf)
        else '(_, dbf) ← dbdelete dbf base e; Ret (Some dbf)
      end
  end.

(** The whatis of the source, from the cache or the lexer. *)
Definition get_whatis (whatis_map : gmap cstr (option cstr * option cstr)) (source file : cstr)
    : (option cstr * option cstr) * gmap cstr (option cstr * option cstr) :=
  match whatis_map !! source with
  | Some w => (w, whatis_map)
  | None => let w := find_name source (base_name file) in (w, <[source:=w]> whatis_map)
  end.

(** The boolean is false when a store failed with a warning. *)
Definition test_manfile (dbf : db) (s : scan_state db) (file path : cstr) : outcome (bool * scan_state db) :=
  let s := Scan (Some dbf) (sc_ult s) (sc_whatis s) (sc_pages s) in
  info ← filename_info cfg file;
  match info with
  | None => Ret (true, s)
  | Some i =>
    manpage_base ← or_undef "test_manfile: name" (md_name i);
    buf ← or_undef "test_manfile: status never read" (fs_lstat file);
    if (st_size buf =? 0)%Z then Ret (true, s)
    else
      checked ← check_extensions dbf path manpage_base i;
      match checked with
      | None => Ret (true, s)
      | Some dbf =>
        '(ult, cache) ← ult_src cfg (sc_ult s) file path (Some buf)
                          (Z.lor (Z.lor SO_LINK SOFT_LINK) HARD_LINK);
        match ult with
        | None => Ret (true, Scan (Some dbf) cache (sc_whatis s) (sc_pages s))
        | Some ult =>
          let id := if STRNEQ (uv_path ult) file (stem_length file) then ULT_MAN else SO_MAN in
          let '((whatis, filters), whatis_map) := get_whatis (sc_whatis s) (uv_path ult) file in
          let info := page_info i (st_mtim buf) id filters in
          match whatis with
          | None => Ret (true, Scan (Some dbf) cache whatis_map (S (sc_pages s)))
          | Some w =>
            let descs := parse_descriptions (Some manpage_base) (Some w) in
            if opt_test then Ret (true, Scan (Some dbf) cache whatis_map (S (sc_pages s)))
            else
              '(ok, dbf) ← store_descriptions cfg dbf descs info (Some path) manpage_base (uv_trace ult);
              Ret (ok, Scan (Some dbf) cache whatis_map (S (sc_pages s)))
          end
        end
      end
  end.

(** The files of a directory, one after the other. *)
Fixpoint test_manfiles (s : scan_state db) (dir path : cstr) (names : list cstr)
    : outcome (bool * scan_state db) :=
  match names with
  | [] => Ret (true, s)
  | name :: names =>
    dbf ← or_undef "add_dir_entries: database" (sc_db s);
    '(ok, s) ← test_manfile dbf s (dir ++ name) path;
    '(ok', s) ← test_manfiles s dir path names;
    Ret (ok && ok', s)
  end.

Definition page_file_name (name : cstr) : bool :=
  negb (bool_decide (head name = Some "."%char) && bool_decide (length name < 3)).

Definition add_dir_entries (s : scan_state db) (path infile : cstr) : outcome (bool * scan_state db) :=
  match fs_readdir (path ++ lit "/" ++ infile) with
  | None => Ret (true, s)
  | Some entries =>
    let names := filter (λ n, page_file_name n = true) (d_name <$> entries) in
    test_manfiles s (path ++ lit "/" ++ infile ++ lit "/") path (order_files infile names)
  end.

(** How opening the database can end: read-only, another error, or open. *)
Inductive opening := ReadOnly | OpenError | Opened (dbf : db).

Section testmandirs.
(** [MYDBM_CTRWOPEN], [MYDBM_RWOPEN] and [chdir]. *)
Context (ctrwopen : opening) (rwopen : option db) (chdir_ok : bool).

Definition set_db (s : scan_state db) (dbf : db) : scan_state db :=
  Scan (Some dbf) (sc_ult s) (sc_whatis s) (sc_pages s).

(** A directory of pages changed since [last]? *)
Definition modified (path : cstr) (last : timespec) (name : cstr) : bool :=
  STRNEQ name (lit "man") 3 &&
  match fs_stat (path ++ lit "/" ++ name) with
  | None => false
  | Some st =>
    S_ISDIR (st_mode st) &&
    (bool_decide (tv_sec last = 0%Z) ||
     match timespec_cmp (st_mtim st) last with Gt => true | _ => false end)
  end.

(** The database before the first modified directory is scanned: it is created
    with its version, or opened. [inl] ends [testmandirs] with that result. *)
Definition prepare (s : scan_state db) (create : bool) : outcome (Z + scan_state db) :=
  if create then
    match ctrwopen with
    | ReadOnly => Ret (inl 0%Z)
    | OpenError => Ret (inl (-1)%Z)
    | Opened dbf => dbf ← dbver_wr dbf; Ret (inr (set_db s dbf))
    end
  else
    match sc_db s with
    | Some _ => Ret (inr s)
    | None => match rwopen with
              | None => Ret (inl 0%Z)
              | Some dbf => Ret (inr (set_db s dbf))
              end
    end.

(** The loop over the directories; [create] until the database was created. *)
Fixpoint scan_dirs (s : scan_state db) (path : cstr) (last : timespec) (create : bool) (amount : Z)
    (names : list cstr) : outcome (Z * bool * scan_state db) :=
  match names with
  | [] => Ret (amount, true, s)
  | name :: names =>
    if negb (modified path last name) then scan_dirs s path last create amount names
    else
      prepared ← prepare s create;
      match prepared with
      | inl r => Ret (r, true, s)
      | inr s =>
        '(ok, s) ← add_dir_entries s path name;
        '(r, ok', s) ← scan_dirs s path last false (amount + 1) names;
        Ret (r, ok && ok', s)
      end
  end.

Definition testmandirs (s : scan_state db) (path : cstr) (last : timespec) (create : bool)
    : outcome (Z * bool * scan_state db) :=
  match fs_readdir path with
  | None => Ret (0%Z, true, s)
  | Some entries =>
    if negb chdir_ok then Ret (0%Z, true, s)
    else scan_dirs s path last create 0 (d_name <$> entries)
  end.

Definition create_db (s : scan_state db) (manpath : cstr) : outcome (Z * bool * scan_state db) :=
  testmandirs s manpath (Timespec 0 0) true.

(** [get_time] is [MYDBM_GET_TIME]. *)
Definition update_db (get_time : db → timespec) (s : scan_state db) (manpath : cstr)
    : outcome (Z * bool * scan_state db) :=
  match (match sc_db s with Some dbf => Some dbf | None => rwopen end) with
  | None => Ret ((-1)%Z, true, s)
  | Some dbf =>
    if negb (sanity_check_db dbf) then Ret ((-1)%Z, true, set_db s dbf)
    else testmandirs (set_db s dbf) manpath (get_time dbf) false
  end.
End testmandirs.
End scan.

(** ** One file *)

Lemma page_at_comp m r j : page_at m r = Some j → is_Some (md_comp j).
Proof.
  unfold page_at. intros Hp. destruct (m !! name_to_key (ne_name r)) as [c|]; [|done]. case_decide.
  - case_decide; [|done]. destruct (m !! make_multi_key _ _) as [c'|]; [|done]. simpl in Hp. unfold parse_page in Hp.
    destruct (split_content (Some c')) as [i| |] eqn:E; [|done|done]. injection Hp as <-.
    apply fill_unset_parsed in E. rewrite <-E. simpl. eauto.
  - destruct (split_content (Some c)) as [i| |] eqn:E; [|done|done]. case_decide; [|done]. injection Hp as <-.
    apply fill_unset_parsed in E. rewrite <-E. simpl. eauto.
Qed.

Section scan_theorems.
Context (cfg : comp_config) `{FileSystem} `{Dirname} `{PageText} `{Lexgrog} `{OrderFiles}.
Context {db : Type} `{MydbmReliable db}.
Context (path : cstr).

Lemma ult_resolve_trace name buf flags v :
  ult_resolve cfg name path buf flags = Ret (Some v) → ∃ l, uv_trace v = name :: l.
Proof.
  unfold ult_resolve. intros Hv. case_match; [|done].
  apply bind_Ret_inv in Hv as (ob & _ & Hv). destruct ob as [b|]; [|done].
  apply bind_Ret_inv in Hv as (b' & _ & Hv). destruct (flag flags SO_LINK).
  - pose proof (so_loop_spec cfg 10 name path b' [name]) as Hs.
    destruct (so_loop cfg 10 name path b' [name]) as [e tr| |]; [|done|done]. injection Hv as <-.
    destruct Hs as (l & -> & _). simpl. eauto.
  - injection Hv as <-. simpl. eauto.
Qed.

(** What the lexer has to deliver for its result to be stored: filters without
    a tab, and names that do not clash with the version entry. *)
Definition lex_ok (w : option cstr * option cstr) : Prop :=
  field_ok (default [] w.2) ∧
  ∀ t, w.1 = Some t → Forall desc_ok (parse_descriptions None (Some t)).

Lemma lex_ok_base w t base :
  lex_ok w → w.1 = Some t → storable base → Forall desc_ok (parse_descriptions (Some base) (Some t)).
Proof.
  intros [_ Hw] Ht Hb. specialize (Hw t Ht). unfold parse_descriptions in *. revert Hw.
  generalize (parse_records (S (length t)) t []). intros ds Hw.
  case_bool_decide; [done|]. apply Forall_app. split; [done|]. constructor; [|done]. split; [done|].
  destruct ds as [|d ds]; simpl; [apply not_elem_of_nil|].
  apply Forall_cons in Hw as [[_ Hd] _]. done.
Qed.

(** A file that can be scanned: its name can be taken apart, its status read,
    and the pages it links to have names that can be stored. *)
Record file_ok (file : cstr) (i : mandata) (base : cstr) (buf : stat) : Prop := FileOk {
  fo_info : filename_info cfg file = Ret (Some i);
  fo_name : md_name i = Some base;
  fo_stat : fs_lstat file = Some buf;
  fo_base : storable base;
  fo_ext : field_ok (md_ext i);
  fo_sec : field_ok (md_sec i);
  fo_comp : field_ok (default [] (md_comp i));
  fo_ult : ∃ v, ult_resolve cfg file path None 7 = Ret v;
  fo_trace : ∀ v, ult_resolve cfg file path None 7 = Ret (Some v) →
    ∃ infos, trace_infos cfg (uv_trace v) = Ret infos ∧ trace_ok infos;
}.

Lemma check_extensions_total (dbf : db) base i :
  wf (db_view dbf) → storable base →
  ∃ o, check_extensions false dbf path base i = Ret o ∧ ∀ d, o = Some d → wf (db_view d).
Proof.
  intros Hwf [[Hb _] Hv]. unfold check_extensions, dblookup_exact.
  destruct (dblookup_returns dbf (Some (md_ext i)) true true base Hwf Hb Hv) as (infos & -> & Hin & _).
  rewrite !bind_Ret. destruct infos as [|e infos]; simpl; [eexists; split; [done|]; by intros d [= <-]|].
  destruct (proj1 (Hin e) ltac:(by left)) as (r & i0 & Hp & _ & _ & _ & ->).
  destruct (page_at_comp _ _ _ Hp) as [comp Hcomp].
  change (md_comp (set_name ?n i0)) with (md_comp i0). rewrite Hcomp. cbn [or_undef]. rewrite bind_Ret.
  destruct (STREQ _ _); [eexists; split; [done|]; by intros d [= <-]|].
  unfold make_filename. simpl. case_match; [by eexists|].
  destruct (dbdelete_returns dbf base (set_name (Some (shown_name dbf base r)) i0) Hwf Hb Hv)
    as (ret & d & -> & Hwf' & _). rewrite bind_Ret. eexists. split; [done|]. by intros ? [= <-].
Qed.

(** The file itself is in its trace, so the search for the page that the
    references point at succeeds. *)
Lemma pointer_info_head infos info file l i :
  infos !! file = Some (Some i) → md_sec i = md_sec info → md_ext i = md_ext info →
  ∃ p, pointer_info infos info (file :: l) = Some p ∧ ∃ t, t ∈ file :: l ∧ trace_info infos t = Some p.
Proof.
  intros Hf Hs He. assert (trace_info infos file = Some i) as Hti by (unfold trace_info; by rewrite Hf).
  unfold pointer_info. cbn [fold_left]. rewrite Hti, Hs, He, !STREQ_refl. cbn [andb].
  set (f := λ p t, match trace_info infos t with Some ti => _ | None => p end).
  assert (∀ p0, (∃ t, t ∈ file :: l ∧ trace_info infos t = Some p0) →
    ∃ p, fold_left f l (Some p0) = Some p ∧ ∃ t, t ∈ file :: l ∧ trace_info infos t = Some p) as Hl.
  { enough (∀ l', (∀ t, t ∈ l' → t ∈ file :: l) → ∀ p0, (∃ t, t ∈ file :: l ∧ trace_info infos t = Some p0) →
      ∃ p, fold_left f l' (Some p0) = Some p ∧ ∃ t, t ∈ file :: l ∧ trace_info infos t = Some p) as Hg
      by (apply Hg; intros; by right).
    induction l' as [|t l' IH]; intros Hsub p0 Hp0; [by exists p0|]. cbn [fold_left].
    assert (∀ t, t ∈ l' → t ∈ file :: l) as Hsub' by (intros; apply Hsub; by right).
    unfold f at 2. destruct (trace_info infos t) as [ti|] eqn:E; [|by apply IH].
    destruct (_ && _); apply IH; try done. exists t. split; [|done]. apply Hsub. by left. }
  apply Hl. exists file. split; [by left|done].
Qed.

Lemma get_whatis_ok whatis_map source file w m' :
  map_Forall (λ _, lex_ok) whatis_map → (∀ p f, lex_ok (find_name p f)) →
  get_whatis whatis_map source file = (w, m') → lex_ok w ∧ map_Forall (λ _, lex_ok) m'.
Proof.
  intros Hm Hf. unfold get_whatis. destruct (whatis_map !! source) as [w0|] eqn:E.
  - intros [= <- <-]. split; [by eapply Hm|done].
  - intros [= <- <-]. split; [done|]. by apply map_Forall_insert_2.
Qed.

Lemma trace_infos_lookup trace infos t :
  trace_infos cfg trace = Ret infos → t ∈ trace → ∃ oi, filename_info cfg t = Ret oi ∧ infos !! t = Some oi.
Proof.
  revert infos. induction trace as [|t' trace IH]; intros infos; simpl; [by intros _ ?%elem_of_nil|].
  intros Hi Ht. apply bind_Ret_inv in Hi as (oi & Hoi & Hi). apply bind_Ret_inv in Hi as (rest & Hrest & [= <-]).
  destruct (decide (t = t')) as [->|Hne].
  - exists oi. split; [done|]. apply lookup_insert_eq.
  - apply elem_of_cons in Ht as [?|Ht]; [done|]. destruct (IH rest Hrest Ht) as (oi' & ? & ?).
    exists oi'. split; [done|]. by rewrite lookup_insert_ne.
Qed.

(** Storing the descriptions of a scanned file. *)
Lemma store_scanned (dbf : db) file i base buf v w id (filters : option cstr) t :
  times_ok → wf (db_view dbf) → file_ok file i base buf → ult_resolve cfg file path None 7 = Ret (Some v) →
  lex_ok (w, filters) → w = Some t → id = ULT_MAN ∨ id = SO_MAN →
  ∃ ok d, store_descriptions cfg dbf (parse_descriptions (Some base) (Some t))
      (page_info i (st_mtim buf) id filters) (Some path) base (uv_trace v) = Ret (ok, d) ∧
    (ok = true → wf (db_view d) ∧ is_Some (page_at (db_view d) (NameExt base (md_ext i)))).
Proof.
  intros Htimes Hwf [Hinfo Hname Hst Hb Hext Hsec Hcomp _ Htr] Hv Hlex -> Hid.
  destruct (Htr v Hv) as (infos & Hi & Hok). destruct (ult_resolve_trace _ _ _ _ Hv) as [l Hl].
  set (info := page_info i (st_mtim buf) id filters).
  assert (entry_ok (set_name None info)) as Hinfo'.
  { destruct (Htimes file buf Hst). split; simpl; try done; [by destruct Hid as [-> | ->]|compute_done|apply Hlex|].
    apply not_elem_of_nil. }
  destruct (trace_infos_lookup _ _ file Hi) as (oi & Hoi & Hlook); [rewrite Hl; by left|].
  assert (oi = Some i) as -> by congruence.
  destruct (pointer_info_head infos info file l i Hlook) as (p & Hp & tp & _ & Htp); [done|done|].
  destruct (trace_info_ok infos Hok tp p Htp) as (_ & _ & _ & n & Hn & Hnok).
  rewrite Hl in *.
  destruct (store_descriptions_returns cfg infos info (Some path) Hok Htimes Hinfo' dbf
    (parse_descriptions (Some base) (Some t)) base (file :: l) p n Hwf) as (ok & d & -> & Hd); try done.
  { by eapply lex_ok_base. }
  do 2 eexists. split; [done|]. intros ->. destruct (Hd eq_refl) as (? & _ & Hin). split; [done|].
  pose proof (parse_descriptions_base base t) as (d0 & -> & Hd0)%list_elem_of_fmap.
  apply (Hin d0 Hd0). by left.
Qed.

Lemma test_manfile_spec (dbf : db) s file i base buf :
  times_ok → wf (db_view dbf) → ult_cache_ok cfg (λ _, path) (sc_ult s) →
  map_Forall (λ _, lex_ok) (sc_whatis s) → (∀ p f, lex_ok (find_name p f)) → file_ok file i base buf →
  ∃ ok s' dbf', test_manfile cfg false dbf s file path = Ret (ok, s') ∧ sc_db s' = Some dbf' ∧
    ult_cache_ok cfg (λ _, path) (sc_ult s') ∧ map_Forall (λ _, lex_ok) (sc_whatis s') ∧
    (ok = true → wf (db_view dbf') ∧
      ∀ v, ult_resolve cfg file path None 7 = Ret (Some v) → st_size buf ≠ 0%Z →
        check_extensions false dbf path base i ≠ Ret None →
        is_Some (get_whatis (sc_whatis s) (uv_path v) file).1.1 →
        is_Some (page_at (db_view dbf') (NameExt base (md_ext i)))).
Proof.
  intros Htimes Hwf Hcache Hmap Hlex Hfile. pose proof Hfile as [Hinfo Hname Hst Hb _ _ _ [v Hult] _].
  unfold test_manfile. rewrite Hinfo, bind_Ret, Hname. cbn [or_undef]. rewrite bind_Ret, Hst. cbn [or_undef].
  rewrite bind_Ret. destruct (Z.eqb_spec (st_size buf) 0) as [Hz|Hz].
  { do 3 eexists. split_and!; try done. }
  destruct (check_extensions_total dbf base i Hwf Hb) as (o & Hce & Hwf'). rewrite Hce, bind_Ret.
  destruct o as [d|]; [|by do 3 eexists; split_and!]. specialize (Hwf' d eq_refl).
  destruct (ult_src_plain cfg (λ _, path) (sc_ult s) file (Some buf) 7 Hcache) as [Hsrc _]; [by right|].
  rewrite Hult in Hsrc. destruct Hsrc as (cache & Hsrc & Hcache').
  change (Z.lor (Z.lor SO_LINK SOFT_LINK) HARD_LINK) with 7%Z. cbn [sc_ult] in *.
  rewrite Hsrc, bind_Ret. destruct v as [v|].
  2: { do 3 eexists. split_and!; try done. intros _. split; [done|]. intros v' Hv'. congruence. }
  cbn [sc_whatis sc_pages]. destruct (get_whatis (sc_whatis s) (uv_path v) file) as [[w filters] wm] eqn:Hw.
  destruct (get_whatis_ok _ _ _ _ _ Hmap Hlex Hw) as [Hw1 Hw2].
  destruct w as [t|].
  2: { do 3 eexists. split_and!; try done. intros _. split; [done|]. intros v' Hv' _ _ Hs.
       assert (v' = v) as -> by congruence. rewrite Hw in Hs. by destruct Hs. }
  destruct (store_scanned d file i base buf v (Some t)
    (if STRNEQ (uv_path v) file (stem_length cfg file) then ULT_MAN else SO_MAN) filters t)
    as (ok & d' & -> & Hd'); try done; [destruct (STRNEQ _ _ _); [by left|by right]|].
  rewrite bind_Ret. do 3 eexists. split_and!; try done. intros Hok. destruct (Hd' Hok). done.
Qed.
End scan_theorems.

(** ** Directories *)

Section dir_theorems.
Context (cfg : comp_config) `{FileSystem} `{Dirname} `{PageText} `{Lexgrog} `{OrderFiles}.
Context {db : Type} `{Mydbm db}.
Context (ctrwopen : opening (db:=db)) (rwopen : option db) (chdir_ok : bool).

(** The directories with pages that changed since [last]. *)
Definition modified_dirs (path : cstr) (last : timespec) : list cstr :=
  match fs_readdir path with
  | Some entries => filter (λ n, modified path last n = true) (d_name <$> entries)
  | None => []
  end.

Lemma test_manfile_open opt_test dbf s file path ok s' :
  test_manfile cfg opt_test dbf s file path = Ret (ok, s') → is_Some (sc_db s').
Proof.
  unfold test_manfile. intros Hs. repeat (case_match || bind_inv); simplify_eq; simpl; eauto;
    repeat match goal with H : mbind _ _ = Ret _ |- _ => apply bind_Ret_inv in H as (? & ? & ?) end;
    repeat case_match; simplify_eq; simpl; eauto.
Qed.

Lemma add_dir_entries_open opt_test s path infile ok s' :
  add_dir_entries cfg opt_test s path infile = Ret (ok, s') → is_Some (sc_db s) → is_Some (sc_db s').
Proof.
  unfold add_dir_entries. destruct (fs_readdir _) as [entries|]; [|by intros [= _ <-]].
  set (names := order_files _ _). clearbody names. revert s ok.
  induction names as [|n names IH]; intros s ok; cbn [test_manfiles]; [by intros [= _ <-]|].
  intros Hs _. apply bind_Ret_inv in Hs as (d & _ & Hs). apply bind_Ret_inv in Hs as ([ok1 s1] & Ht & Hs).
  apply bind_Ret_inv in Hs as ([ok2 s2] & Hs & [= _ <-]). apply (IH _ _ Hs). by eapply test_manfile_open.
Qed.

(** The database can be created, or is or can be opened. *)
Definition can_open (s : scan_state db) (create : bool) : Prop :=
  if create then ∃ d, ctrwopen = Opened d else is_Some (sc_db s) ∨ is_Some rwopen.

Lemma prepare_open s create p :
  can_open s create → prepare ctrwopen rwopen s create = Ret p → ∃ s', p = inr s' ∧ is_Some (sc_db s').
Proof.
  unfold can_open, prepare. destruct create.
  - intros [d ->] Hp. apply bind_Ret_inv in Hp as (d' & _ & [= <-]). eexists. split; [done|]. simpl. eauto.
  - intros Ho. destruct (sc_db s) as [d|] eqn:E; [intros [= <-]; exists s; rewrite E; eauto|].
    destruct rwopen as [d|]; [intros [= <-]; eexists; split; [done|]; simpl; eauto|].
    destruct Ho as [[? ?]|[? ?]]; done.
Qed.

Lemma scan_dirs_count opt_test path last names s create amount r ok s' :
  can_open s create →
  scan_dirs cfg opt_test ctrwopen rwopen s path last create amount names = Ret (r, ok, s') →
  r = (amount + Z.of_nat (length (filter (λ n, modified path last n = true) names)))%Z.
Proof.
  revert s create amount r ok s'. induction names as [|n names IH]; intros s create amount r ok s' Ho.
  { intros [= <- _ _]. simpl. lia. }
  rewrite filter_cons. cbn [scan_dirs]. destruct (modified path last n); cbn [negb].
  - intros Hs. rewrite decide_True by done. apply bind_Ret_inv in Hs as (p & Hp & Hs).
    destruct (prepare_open _ _ _ Ho Hp) as (s0 & -> & Hs0).
    apply bind_Ret_inv in Hs as ([ok1 s1] & Ha & Hs). apply bind_Ret_inv in Hs as ([[r1 ok2] s2] & Hs & [= <- _ _]).
    apply IH in Hs; [simpl length; lia|]. left. by eapply add_dir_entries_open.
  - intros Hs. rewrite decide_False by done. by eapply IH.
Qed.

Lemma testmandirs_unmodified opt_test s path last create :
  modified_dirs path last = [] →
  testmandirs cfg opt_test ctrwopen rwopen chdir_ok s path last create = Ret (0%Z, true, s).
Proof.
  unfold testmandirs, modified_dirs. destruct (fs_readdir path) as [entries|]; [|done].
  destruct chdir_ok; [|done]. cbn [negb]. generalize (d_name <$> entries). intros names.
  induction names as [|n names IH]; [done|]. rewrite filter_cons. cbn [scan_dirs].
  destruct (modified path last n); cbn [negb]; [by rewrite decide_True|by rewrite decide_False].
Qed.

(** A scan looks at exactly the directories of pages whose modification
    time is later than that of the index.  If there are none, nothing is
    opened, created or changed and the result is 0; otherwise, when the
    database can be created or opened, the result is their number. *)
Theorem testmandirs_modified opt_test s path last create :
  (modified_dirs path last = [] →
    testmandirs cfg opt_test ctrwopen rwopen chdir_ok s path last create = Ret (0%Z, true, s)) ∧
  (∀ r ok s', can_open s create → chdir_ok = true →
    testmandirs cfg opt_test ctrwopen rwopen chdir_ok s path last create = Ret (r, ok, s') →
    r = Z.of_nat (length (modified_dirs path last))).
Proof.
  split; [apply testmandirs_unmodified|].
  unfold testmandirs, modified_dirs. destruct (fs_readdir path) as [entries|]; [|naive_solver].
  set (names := d_name <$> entries). intros r ok s' Ho -> Hs. cbn [negb] in Hs. apply scan_dirs_count in Hs; [lia|done].
Qed.
End dir_theorems.

(** ** Evaluation *)

(** A file system where a path names a page of ten bytes unless [missing]. *)
Definition pages_fs (missing : list cstr) : FileSystem := {|
  fs_stat _ := Some (Stat S_IFREG 10 1 1 (Timespec 1000 5));
  fs_lstat _ := Some (Stat S_IFREG 10 1 1 (Timespec 1000 5));
  fs_readdir _ := None;
  fs_access_R p := negb (bool_decide (p ∈ missing));
  fs_access_F p := negb (bool_decide (p ∈ missing));
  fs_canonicalize p := Some p;
  fs_glob _ := None;
|}.

(** Pages without inclusions, with the given NAME section. *)
Definition plain_text : PageText := {| page_lines _ := Some [lit ".TH X 1"] |}.
Definition one_name (w : string) : Lexgrog := {| find_name _ _ := (Some (lit w), None) |}.

Definition fresh (d : gmap cstr cstr) : scan_state (gmap cstr cstr) := Scan (Some d) no_cache ∅ 0.

Definition scanned (missing : list cstr) (w : string) (d : gmap cstr cstr) (file : string)
    : outcome (bool * scan_state (gmap cstr cstr)) :=
  @test_manfile all_comp (pages_fs missing) simple_dirname plain_text (one_name w) _ _ false d (fresh d)
    (lit file) (lit "/usr/man").

Lemma pages_times_ok missing : @times_ok (pages_fs missing).
Proof. intros t st [= <-]. compute_done. Qed.

Lemma ls_lex_ok p f : lex_ok (@find_name (one_name "ls - list") p f).
Proof.
  split; [compute_done|]. intros t [= <-].
  assert (parse_descriptions None (Some (lit "ls - list")) = [Desc (lit "ls") (Some (lit "list"))]) as -> by by vm_compute.
  constructor; [|done]. repeat split; compute_done.
Qed.

Lemma ls_file_ok : @file_ok all_comp (pages_fs []) simple_dirname plain_text (lit "/usr/man") (lit "/usr/man/man1/ls.1")
  ls_info (lit "ls") (Stat S_IFREG 10 1 1 (Timespec 1000 5)).
Proof.
  assert (@trace_infos all_comp simple_dirname [ls_path; ls_path] =
    Ret (<[ls_path:=Some ls_info]> {[ls_path := Some ls_info]})) as Hti.
  { assert (filename_info all_comp ls_path = Ret (Some ls_info)) as Hi by by vm_compute.
    cbn [trace_infos]. by rewrite Hi. }
  split; [by vm_compute|done|done|split; [compute_done|done]|compute_done..| |].
  - exists (Some (UltValue ls_path [ls_path; ls_path])). by vm_compute.
  - intros v Hv. assert (v = UltValue ls_path [ls_path; ls_path]) as -> by (vm_compute in Hv; by injection Hv as <-).
    eexists. split; [exact Hti|]. apply map_Forall_insert_2; [|apply map_Forall_singleton];
      intros ti [= <-]; (split_and!; [compute_done..|]; eexists; split; [done|compute_done]).
Qed.


(** ** Three behaviours the code does not mean to have *)

(** What the index says of a name and an extension after a scan. *)
Definition scan_then (o : outcome (bool * scan_state (gmap cstr cstr))) (n e : string)
    : outcome (option ascii) :=
  '(_, s) ← o; Ret (md_id <$> page_at (default ∅ (sc_db s)) (NameExt (lit n) (lit e))).

(** The index knows [ls(1)].  Scanning the compressed page [LS(1)] looks up
    the latter, is given the entry of the former under the name it asked for,
    finds no uncompressed file [LS.1] and deletes the entry of [ls(1)], whose
    file exists. *)
Theorem test_manfile_loses_case :
  (d ← after (dbstore (∅ : gmap cstr cstr) (page "A" "1" None) (lit "ls"));
   let o := scanned [lit "/usr/man/man1/LS.1"] "LS - list" d "/usr/man/man1/LS.1.gz" in
   old ← scan_then o "ls" "1"; new ← scan_then o "LS" "1"; Ret (old, new)) =
  Ret (None, Some ULT_MAN).
Proof. by vm_compute. Qed.

(** A page whose NAME section mentions the name of the version entry ends
    the program when the index has that entry, which it always has. *)
Theorem test_manfile_version_name :
  scanned [] "evil, $version$ - stop the indexer" (<[VER_KEY:=VER_ID]> ∅) "/usr/man/man1/evil.1" =
  gripe_corrupt_data.
Proof. by vm_compute. Qed.

(** A page that includes a page whose path it begins is stored as the source
    page itself, because only that beginning is compared. *)
Example include_longer_name :
  (let o := @test_manfile all_comp (pages_fs []) simple_dirname
     {| page_lines p := Some (if bool_decide (p = lit "/usr/man/man1/ls.1") then [lit ".so man1/ls.1gnu"] else [lit ".TH X 1"]) |}
     (one_name "ls - list") _ _ false ∅ (fresh ∅) (lit "/usr/man/man1/ls.1") (lit "/usr/man") in
   scan_then o "ls" "1") = Ret (Some ULT_MAN).
Proof. by vm_compute. Qed.
