(* ===== verification/FindName.v ===== *)
(** * src/lexgrog.l: find_name

    A page is opened, decompressed, converted to UTF-8 and, when it is
    formatted, cleaned by col; then its NAME section is read. *)

From S2P Require Import Prelude CStr Fs Compression Util Encodings Utf8 Manconv ManconvLoop Pipe Decompress ManconvClient Descriptions Lexgrog CheckMandirs.

Section find_name.
Context (cfg : comp_config) `{FileSystem} `{Zlib} `{Iconv}.
(** The size of the conversion's buffer; what [add_manconv] looks at; the
    locale of messages; [PROG_COL]; a copy of the standard input's descriptor. *)
Context (buf_size : nat) (quiet : Z) (setuid : bool) (messages : option cstr) (PROG_COL : cstr) (stdin_fd : Z).
(** What a started pipeline delivers. *)
Context (output : pipeline → list ascii).

(** The bytes that the scanner's reads deliver, one after the other. *)
Definition page_bytes (d : decompress) : list ascii :=
  match d with DECOMPRESS_PIPELINE p => output p | DECOMPRESS_INPROCESS d => ip_bytes d (ip_left d) end.

(** Opening the file, and the encoding its directory stands for; [None] when
    there is nothing to read. *)
Definition find_page (file : cstr) (run_col : bool) (encoding : option cstr) : outcome (option (decompress * option cstr)) :=
  if STREQ file (lit "-") then Ret (Some (decompress_fdopen stdin_fd, None))
  else
    match fs_stat file with
    | None => Ret None
    | Some st =>
      if S_ISDIR (st_mode st) then Ret None
      else
        match decompress_open cfg file (if run_col then 0%Z else DECOMPRESS_ALLOW_INPROCESS) with
        | None => Ret None
        | Some d =>
          match encoding with
          | Some _ => Ret (Some (d, None))
          | None => lang ← lang_dir (Some file); Ret (Some (d, Some (get_page_encoding messages (Some lang))))
          end
        end
    end.

(** The conversion, [None] when it failed.  The fuel is enough for any page
    ([manconv_inprocess_utf8]). *)
Definition convert_page (d : decompress) (page_encoding : option cstr) : outcome (option decompress) :=
  match page_encoding with
  | None => Ret (Some d)
  | Some e =>
    if decompress_is_pipeline d then
      p ← decompress_get_pipeline d; Ret (Some (DECOMPRESS_PIPELINE (add_manconv quiet setuid p e UTF_8)))
    else
      len ← decompress_inprocess_len d;
      r ← manconv_inprocess buf_size (λ _, true) (2 * len) d e UTF_8;
      match r with
      | None => Undef "fuel"
      | Some (status, d) => Ret (if (status =? 0)%Z then d else None)
      end
  end.

Definition col_command : pipecmd := sandboxed (pipecmd_new_args [PROG_COL; lit "-b"; lit "-p"; lit "-x"]).

Definition find_name (file : cstr) (t : page_type) (encoding : option cstr) : outcome (Z * option (cstr * cstr)) :=
  let run_col := bool_decide (t = CATPAGE) && negb (bool_decide (PROG_COL = [])) in
  page ← find_page file run_col encoding;
  match page with
  | None => Ret (0%Z, None)
  | Some (d, page_encoding) =>
    let page_encoding := match page_encoding with Some e => Some e | None => encoding end in
    d ← convert_page d page_encoding;
    match d with
    | None => Ret (0%Z, None)
    | Some d =>
      d ← (if run_col then p ← decompress_get_pipeline d; Ret (DECOMPRESS_PIPELINE (pipeline_command col_command p)) else Ret d);
      find_name_decompressed (page_bytes d) t
    end
  end.

(** A page is decompressed in memory only when col is not run on it, so that
    there is a pipeline to add col to. *)
Lemma find_page_pipeline file encoding d e :
  find_page file true encoding = Ret (Some (d, e)) → decompress_is_pipeline d = true.
Proof.
  unfold find_page. destruct (STREQ file _); [by intros [= <- _]|]. destruct (fs_stat file); [|done]. destruct (S_ISDIR _); [done|].
  assert (∀ d, decompress_open cfg file 0 = Some d → decompress_is_pipeline d = true) as Hp.
  { intros d' Hd. unfold decompress_open in Hd. destruct (fs_stat file); [|done]. destruct (S_ISDIR _); [done|].
    change (negb (Z.land 0 DECOMPRESS_ALLOW_INPROCESS =? 0)%Z) with false in Hd. rewrite andb_false_r in Hd. by injection Hd as <-. }
  destruct (decompress_open cfg file 0) as [d'|] eqn:Ed; [|done]. specialize (Hp d' eq_refl).
  destruct encoding; [by intros [= <- _]|]. destruct (lang_dir _); [|done|done]. by intros [= <- _].
Qed.

Lemma convert_page_pipeline d e d' :
  decompress_is_pipeline d = true → convert_page d e = Ret (Some d') → decompress_is_pipeline d' = true.
Proof.
  intros Hp. unfold convert_page. destruct e as [e|]; [|by intros [= <-]]. rewrite Hp. destruct d; [|done]. by intros [= <-].
Qed.

(** When col is to be run there is a pipeline to add it to. *)
Theorem col_has_pipeline file encoding d e e' d' :
  find_page file true encoding = Ret (Some (d, e)) → convert_page d e' = Ret (Some d') →
  ∃ p, decompress_get_pipeline d' = Ret p.
Proof. intros Hd%find_page_pipeline Hd'%convert_page_pipeline; [|done]. destruct d'; [by eexists|done]. Qed.

(** A page that is decompressed in memory and valid UTF-8 is read as it is,
    whatever encoding its directory stands for. *)
Lemma find_name_utf8 file st lang page :
  STREQ file (lit "-") = false → fs_stat file = Some st → S_ISDIR (st_mode st) = false → lang_dir (Some file) = Ret lang →
  decompress_open cfg file DECOMPRESS_ALLOW_INPROCESS = Some (decompress_new_inprocess page (length page)) →
  utf8_validate_len page = true →
  find_name file MANPAGE None = find_name_decompressed page MANPAGE.
Proof.
  intros Hf Hst Hdir Hlang Hopen Hv. unfold find_name. change (bool_decide (MANPAGE = CATPAGE)) with false. cbn [andb].
  unfold find_page. rewrite Hf, Hst, Hdir, Hopen, Hlang, !bind_Ret. unfold convert_page. cbn [decompress_is_pipeline decompress_new_inprocess decompress_inprocess_len].
  rewrite !bind_Ret. unfold manconv_inprocess. 
  assert (page_bytes (decompress_new_inprocess page (length page)) = page) as Hb.
  { cbn [page_bytes decompress_new_inprocess]. unfold ip_bytes, ip_left. cbn. by rewrite Nat.sub_0_r, firstn_all, drop_0. }
  destruct (STREQ (get_page_encoding messages (Some lang)) UTF_8); [rewrite !bind_Ret; cbn [Z.eqb]; by rewrite !bind_Ret, Hb|].
  cbn [decompress_new_inprocess decompress_inprocess_buf decompress_inprocess_len ip_buf ip_len]. rewrite !bind_Ret.
  change (STREQ UTF_8 UTF_8) with true. rewrite firstn_all, Hv, !bind_Ret. cbn [Z.eqb]. by rewrite !bind_Ret, Hb.
Qed.

(** ** What scanning a hierarchy gets

    Where reading a page is undefined the instance gives nothing. *)
#[export] Instance page_lexgrog : CheckMandirs.Lexgrog := {|
  CheckMandirs.find_name path _ :=
    match find_name path MANPAGE None with Ret (_, Some (whatis, filters)) => (Some whatis, Some filters) | _ => (None, None) end
|}.

(** The NAME section of a page in a gzipped file reaches the scan of its
    hierarchy: every name with its description. *)
Theorem page_whatis file base st lang heads rs rest filters whatis_map :
  let page := man_page heads rs rest in
  STREQ file (lit "-") = false → fs_stat file = Some st → S_ISDIR (st_mode st) = false → lang_dir (Some file) = Ret lang →
  decompress_open cfg file DECOMPRESS_ALLOW_INPROCESS = Some (decompress_new_inprocess page (length page)) →
  utf8_validate_len page = true →
  Forall head_line heads → rs ≠ [] → Forall record_ok rs → short (section_text rs) →
  filter_string (filters_of rest (replicate 6 "_"%char)) = Ret filters → whatis_map !! file = None →
  ∃ whatis, fst (CheckMandirs.get_whatis whatis_map file base) = (Some whatis, Some filters) ∧
    parse_descriptions None (Some whatis) = concat (record_descs <$> (described <$> rs)).
Proof.
  intros page Hf Hst Hdir Hlang Hopen Hv Hheads Hne Hall Hs Hfs Hmap. unfold CheckMandirs.get_whatis. rewrite Hmap. cbn [fst CheckMandirs.find_name page_lexgrog].
  destruct (name_section_reads heads rs rest Hheads Hne Hall Hs) as [Hread Hparse]. rewrite (find_name_utf8 file st lang page) by done. unfold page. rewrite Hread, Hfs. eauto.
Qed.
End find_name.
