(* ===== verification/OrderFiles.v ===== *)
(** * lib/orderfiles.c: files in the order of their blocks

    The variant for Linux, which asks for the first extent of every file.  It
    is one implementation of the class [OrderFiles] that the scans of
    directories are proved against. *)

From S2P Require Import Prelude CStr CheckMandirs.

Definition UINT64_MAX : Z := 2 ^ 64 - 1.

(** What opening the directory, and each file in it, and the ioctl say. *)
Class Fiemap := {
  fm_dir_ok : cstr → bool;
  fm_open : cstr → cstr → bool;
  fm_physical : cstr → cstr → option Z;
}.

Section order.
Context `{Fiemap} (dir : cstr).

Definition compare_physical_offsets (physical_offsets : gmap cstr Z) (left right : cstr) : comparison :=
  Z.compare (default UINT64_MAX (physical_offsets !! left)) (default UINT64_MAX (physical_offsets !! right)).

(** One turn of the loop. *)
Definition order_step (s : gmap cstr Z * list cstr) (name : cstr) : gmap cstr Z * list cstr :=
  let '(physical_offsets, sorted_basenames) := s in
  if negb (fm_open dir name) then s
  else
    let physical_offsets := match fm_physical dir name with Some o => <[name := o]> physical_offsets | None => physical_offsets end in
    (physical_offsets, gl_sortedlist_add (compare_physical_offsets physical_offsets) name sorted_basenames).

Definition order_files_fiemap (basenames : list cstr) : list cstr :=
  if fm_dir_ok dir then (fold_left order_step basenames (∅, [])).2 else basenames.

(** ** What it does *)

(** The offsets that do not depend on what was looked at so far. *)
Definition by_offset (left right : cstr) : comparison :=
  Z.compare (default UINT64_MAX (fm_physical dir left)) (default UINT64_MAX (fm_physical dir right)).
#[export] Instance by_offset_weak : CmpWeak by_offset.
Proof. split; unfold by_offset; [intros; apply Z.compare_antisym|]. intros a b c. rewrite !Z.compare_ngt_iff. lia. Qed.

Lemma sortedlist_add_ext cmp cmp' x l :
  (∀ y, y ∈ l → cmp y x = cmp' y x) → gl_sortedlist_add cmp x l = gl_sortedlist_add (A := cstr) cmp' x l.
Proof.
  induction l as [|y l IH]; intros He; cbn; [done|]. rewrite He by (left; done). rewrite IH; [done|]. intros z Hz. apply He. by right.
Qed.

(** The map holds the offsets of the files in the list. *)
Lemma order_loop names m l :
  (∀ n, n ∈ l → m !! n = fm_physical dir n) → (∀ n o, m !! n = Some o → fm_physical dir n = Some o) →
  (fold_left order_step names (m, l)).2 =
    fold_left (λ acc n, gl_sortedlist_add by_offset n acc) (filter (λ n, fm_open dir n = true) names) l.
Proof.
  revert m l. induction names as [|n names IH]; intros m l Hl Hm; [done|]. cbn [fold_left]. rewrite filter_cons. unfold order_step at 2.
  destruct (fm_open dir n) eqn:Eo; cbn [negb]; [rewrite decide_True by done|rewrite decide_False by done; by apply IH]. cbn [fold_left].
  set (m' := match fm_physical dir n with Some o => _ | None => m end).
  assert (∀ x, m' !! x = if decide (x = n) then fm_physical dir n else m !! x) as Hm'.
  { intros x. unfold m'. destruct (fm_physical dir n) as [o|] eqn:Ep.
    - case_decide as E; [subst; by rewrite lookup_insert_eq|by rewrite lookup_insert_ne].
    - case_decide as E; [|done]. subst x. destruct (m !! n) eqn:E; [|done]. apply Hm in E. congruence. }
  rewrite (sortedlist_add_ext (compare_physical_offsets m') by_offset).
  - apply IH.
    + intros x Hx%elem_of_gl_sortedlist_add. rewrite Hm'. case_decide as E; [by rewrite E|]. destruct Hx; [congruence|by apply Hl].
    + intros x o. rewrite Hm'. case_decide as E; [by rewrite E|apply Hm].
  - intros y Hy. unfold compare_physical_offsets, by_offset. rewrite !Hm', (decide_True (P := n = n)) by done.
    case_decide as E; [by rewrite E|by rewrite Hl].
Qed.

(** In a directory that can be opened, exactly the files that can be opened
    are left, in the order of their first blocks, those without a known block
    last; otherwise nothing changes. *)
Theorem order_files_sorted basenames :
  (fm_dir_ok dir = true →
    order_files_fiemap basenames ≡ₚ filter (λ n, fm_open dir n = true) basenames ∧
    StronglySorted (cmp_le by_offset) (order_files_fiemap basenames)) ∧
  (fm_dir_ok dir = false → order_files_fiemap basenames = basenames).
Proof.
  unfold order_files_fiemap. destruct (fm_dir_ok dir); (split; [|done]); [intros _|done].
  rewrite order_loop by (done || by intros ? ?%elem_of_nil). split; [apply gl_sorted_of_perm|apply gl_sorted_of_sorted, _].
Qed.
End order.

(** The interface of the scans. *)
Definition fiemap_order `{Fiemap} : OrderFiles := {| order_files := order_files_fiemap |}.

(** A page that cannot be read is not scanned at all. *)
Example unreadable_page_dropped :
  @order_files_fiemap {| fm_dir_ok _ := true; fm_open _ n := negb (STREQ n (lit "b.1")); fm_physical _ n := if STREQ n (lit "c.1") then Some 5%Z else None |}
    (lit "man1") [lit "a.1"; lit "b.1"; lit "c.1"] = [lit "c.1"; lit "a.1"].
Proof. by vm_compute. Qed.
