(* ===== verification/Manp.v ===== *)
(** * src/manp.c: the configuration and what is looked up in it

    The configuration file ([add_to_dirlist]), the mapping from manual page
    hierarchies to cat page hierarchies, and the parts of a locale name.  The
    search path itself is built in the file [Manpath]. *)

From S2P Require Import Prelude CStr Fs Util.

(** ** Definitions *)

Inductive config_flag :=
| MANDATORY | MANPATH_MAP | MANDB_MAP | MANDB_MAP_USER | DEFINE | DEFINE_USER | SECTION | SECTION_USER.
#[export] Instance config_flag_eq_dec : EqDecision config_flag.
Proof. solve_decision. Defined.

Record config_item := Item { ci_key : cstr; ci_cont : cstr; ci_flag : config_flag }.
#[export] Instance config_item_eq_dec : EqDecision config_item.
Proof. solve_decision. Defined.

(** The globals that the configuration file sets. *)
Record config_state := Config {
  config : list config_item;
  disable_cache : bool;
  min_cat_width : Z; max_cat_width : Z; cat_width : Z;
}.

Definition no_config : config_state := Config [] false 80 80 0.

Definition set_items (s : config_state) (l : list config_item) : config_state :=
  Config l (disable_cache s) (min_cat_width s) (max_cat_width s) (cat_width s).

Definition add_config (key cont : cstr) (flag : config_flag) (s : config_state) : config_state :=
  set_items s (config s ++ [Item key cont flag]).

Fixpoint get_config_in (l : list config_item) (key : cstr) (flag : config_flag) : option cstr :=
  match l with
  | [] => None
  | item :: l =>
    if bool_decide (flag = ci_flag item) && STREQ key (ci_key item) then Some (ci_cont item)
    else get_config_in l key flag
  end.
Definition get_config (s : config_state) (key : cstr) (flag : config_flag) : option cstr :=
  get_config_in (config s) key flag.

Definition get_def_user (s : config_state) (thing : cstr) (def : option cstr) : option cstr :=
  match get_config s thing DEFINE_USER with
  | Some d => Some d
  | None => match get_config s thing DEFINE with Some d => Some d | None => def end
  end.

Definition get_def (running_setuid : bool) (s : config_state) (thing : cstr) (def : option cstr) : option cstr :=
  if negb running_setuid then get_def_user s thing def
  else match get_config s thing DEFINE with Some d => Some d | None => def end.

Definition add_sections (sections : cstr) (user : bool) (s : config_state) : config_state :=
  fold_left (λ s sect, add_config sect [] (if user then SECTION_USER else SECTION) s)
    (strtok (λ c, bool_decide (c = " "%char)) sections) s.

Definition has_flag (flag : config_flag) (item : config_item) : bool := bool_decide (ci_flag item = flag).

Definition get_sections (s : config_state) : list cstr :=
  let length_user := length (filter (λ i, has_flag SECTION_USER i = true) (config s)) in
  let flag := if decide (length_user ≠ 0) then SECTION_USER else SECTION in
  ci_key <$> filter (λ i, has_flag flag i = true) (config s).

Definition MAN_ROOT : cstr := lit "/usr".
Definition CAT_ROOT : cstr := lit "/var/catman".

(** The loop over the elements of a path; [cap] is the size of the buffer that
    [catpath] is built in. *)
Fixpoint fsstnd_loop (cap : nat) (catpath : cstr) (elements : list cstr) : outcome cstr :=
  match elements with
  | [] => Ret catpath
  | element :: elements =>
    let append element :=
      let catpath := catpath ++ lit "/" ++ element in
      if decide (length catpath < cap) then fsstnd_loop cap catpath elements
      else Undef "fsstnd: write past the end of catpath" in
    if STRNEQ element (lit "man") 3 then
      match drop 3 element with
      | [] => fsstnd_loop cap catpath elements
      | rest => append (lit "cat" ++ rest)
      end
    else append element
  end.

Definition fsstnd (path : cstr) : outcome cstr :=
  if negb (STRNEQ path MAN_ROOT (length MAN_ROOT)) then Ret path
  else
    let path := drop (length MAN_ROOT) path in
    (* sizeof CAT_ROOT counts the terminator *)
    let cap := length path + S (length CAT_ROOT) - 3 in
    if decide (length CAT_ROOT < cap)
    then fsstnd_loop cap CAT_ROOT (strtok (λ c, bool_decide (c = "/"%char)) path)
    else Undef "fsstnd: write past the end of catpath".

Definition add_mandb_map (mandir catdir : cstr) (user : bool) (s : config_state) : outcome config_state :=
  tmpcatdir ← (if STREQ catdir (lit "FSSTND") then fsstnd mandir else Ret catdir);
  Ret (add_config mandir tmpcatdir (if user then MANDB_MAP_USER else MANDB_MAP) s).

(** ** The configuration file *)

(** [sscanf]: a literal, in which a blank stands for any white space, even
    none; [%511s]; [%511[^\n]]; [%d].  Each takes the text and returns what is
    left. *)
Definition skip_space (s : cstr) : cstr := drop (strspn isspace s) s.

Fixpoint scan_literal (p s : cstr) : option cstr :=
  match p, s with
  | [], _ => Some s
  | x :: p, y :: s => if bool_decide (x = y) then scan_literal p s else None
  | _, [] => None
  end.

Definition scan_word (s : cstr) : option (cstr * cstr) :=
  let s := skip_space s in
  let n := Nat.min 511 (strcspn isspace s) in
  if decide (n = 0) then None else Some (take n s, drop n s).

Definition scan_line (s : cstr) : option (cstr * cstr) :=
  let n := Nat.min 511 (strcspn (λ c, bool_decide (c = NL)) s) in
  if decide (n = 0) then None else Some (take n s, drop n s).

Definition INT_MAX : Z := (2 ^ 31 - 1)%Z.
Definition INT_MIN : Z := (- 2 ^ 31)%Z.

Definition scan_int (s : cstr) : option (outcome Z) :=
  let s := skip_space s in
  let '(neg, s) :=
    match s with
    | c :: s' => if bool_decide (c = "-"%char) then (true, s')
                 else if bool_decide (c = "+"%char) then (false, s') else (false, s)
    | [] => (false, s)
    end in
  match s with
  | c :: _ =>
    if isdigit c then
      let n := read_digits s 0 in
      let n := if neg then (- n)%Z else n in
      Some (if decide (INT_MIN ≤ n ≤ INT_MAX)%Z then Ret n else Undef "sscanf: %d out of range")
    else None
  | [] => None
  end.

(** [sscanf (bp, "KEY %511s")] and the like: the text after the key. *)
Definition after_key (key : string) (bp : cstr) : option cstr := skip_space <$> scan_literal (lit key) bp.
Definition one_word (key : string) (bp : cstr) : option cstr := s ← after_key key bp; fst <$> scan_word s.
Definition two_words (key : string) (bp : cstr) : option (cstr * option cstr) :=
  s ← after_key key bp;
  '(a, s) ← scan_word s;
  Some (a, fst <$> scan_word s).
Definition word_and_line (key : string) (bp : cstr) : option (cstr * option cstr) :=
  s ← after_key key bp;
  '(a, s) ← scan_word s;
  Some (a, fst <$> scan_line (skip_space s)).
Definition whole_line (key : string) (bp : cstr) : option cstr := s ← after_key key bp; fst <$> scan_line s.

(** [sscanf (bp, "MANBIN %*s")]: the number of values assigned, which a
    suppressed assignment does not raise. *)
Definition scan_manbin (bp : cstr) : Z :=
  match after_key "MANBIN" bp with
  | Some s => match scan_word s with Some _ => 0 | None => -1 end
  | None => 0
  end.

Definition starts (p : string) (bp : cstr) : bool := STRNEQ bp (lit p) (String.length p).

(** One line of the file, its blanks at the beginning skipped. *)
Definition config_line (bp : cstr) (user : bool) (s : config_state) : outcome config_state :=
  if bool_decide (head bp = Some "#"%char) || bool_decide (bp = []) then Ret s
  else if starts "NOCACHE" bp then
    Ret (Config (config s) true (min_cat_width s) (max_cat_width s) (cat_width s))
  else if starts "NO" bp then Ret s
  else if (scan_manbin bp =? 1)%Z then Ret s
  else
    match one_word "MANDATORY_MANPATH" bp with
    | Some key => Ret (add_config key [] MANDATORY s)
    | None =>
    match two_words "MANPATH_MAP" bp with
    | Some (key, Some cont) => Ret (add_config key cont MANPATH_MAP s)
    | _ =>
    match two_words "MANDB_MAP" bp with
    | Some (key, cont) => add_mandb_map key (default key cont) user s
    | None =>
    match word_and_line "DEFINE" bp with
    | Some (key, cont) => Ret (add_config key (default [] cont) (if user then DEFINE_USER else DEFINE) s)
    | None =>
    match whole_line "SECTION" bp with
    | Some cont => Ret (add_sections cont user s)
    | None =>
    match whole_line "SECTIONS" bp with
    | Some cont => Ret (add_sections cont user s)
    | None =>
    match after_key "MINCATWIDTH" bp ≫= scan_int with
    | Some val => v ← val; Ret (Config (config s) (disable_cache s) v (max_cat_width s) (cat_width s))
    | None =>
    match after_key "MAXCATWIDTH" bp ≫= scan_int with
    | Some val => v ← val; Ret (Config (config s) (disable_cache s) (min_cat_width s) v (cat_width s))
    | None =>
    match after_key "CATWIDTH" bp ≫= scan_int with
    | Some val => v ← val; Ret (Config (config s) (disable_cache s) (min_cat_width s) (max_cat_width s) v)
    | None => Fatal "can't make sense of the manpath configuration file"
    end end end end end end end end end.

(** The lines as [getline] returns them, with their newline. *)
Fixpoint add_to_dirlist (lines : list cstr) (user : bool) (s : config_state) : outcome config_state :=
  match lines with
  | [] => Ret s
  | line :: lines =>
    s ← config_line (skip_space line) user s;
    add_to_dirlist lines user s
  end.

(** [fopen] and [getline] on a file, and the environment. *)
Record config_env := ConfigEnv { read_lines : cstr → option (list cstr); getenv : string → option cstr }.

Definition read_config_file (env : config_env) (CONFIG_FILE : cstr) (user_config_file : option cstr)
    (optional : bool) : outcome config_state :=
  let dotmanpath :=
    match user_config_file with
    | Some f => Some f
    | None => (λ home, home ++ lit "/.manpath") <$> getenv env "HOME"
    end in
  s ← match dotmanpath ≫= read_lines env with
      | Some lines => add_to_dirlist lines true no_config
      | None => Ret no_config
      end;
  match getenv env "MAN_TEST_DISABLE_SYSTEM_CONFIG" with
  | Some _ => Ret s
  | None =>
    match read_lines env CONFIG_FILE with
    | Some lines => add_to_dirlist lines false s
    | None => if optional then Ret s else Fatal "can't open the manpath configuration file"
    end
  end.

(** ** Cat page hierarchies *)

Definition SYSTEM_CAT : Z := 1%Z.
Definition USER_CAT : Z := 2%Z.

(** The while loop of [get_catpath]: from the last slash of [name] back to the
    one before it, but not before position [manlen]; in [Z], because the
    pointer can also be before that position from the start. *)
Fixpoint slash_before (fuel : nat) (name : cstr) (manlen suffix : nat) : nat :=
  match fuel with
  | 0 => suffix
  | S fuel =>
    if decide (manlen < suffix) then
      let suffix := suffix - 1 in
      if bool_decide (name !! suffix = Some "/"%char) then suffix else slash_before fuel name manlen suffix
    else suffix
  end.

Definition catpath_of (name key cont : cstr) : cstr :=
  let manlen := length key in
  match strrchr name "/"%char with
  | None => cont ++ drop manlen name
  | Some suffix =>
    let suffix := slash_before (length name) name manlen suffix in
    let suffix := if decide (suffix < manlen) then manlen else suffix in
    let suffix := if bool_decide (name !! suffix = Some "/"%char) then S suffix else suffix in
    let infix := take (suffix - manlen) (drop manlen name) in
    let rest := drop suffix name in
    if STRNEQ rest (lit "man") 3 then cont ++ infix ++ lit "cat" ++ drop 3 rest
    else cont ++ infix ++ rest
  end.

Fixpoint get_catpath_in (l : list config_item) (name : cstr) (cattype : Z) : option cstr :=
  match l with
  | [] => None
  | item :: l =>
    if ((negb (Z.land cattype SYSTEM_CAT =? 0)%Z && has_flag MANDB_MAP item) ||
        (negb (Z.land cattype USER_CAT =? 0)%Z && has_flag MANDB_MAP_USER item))
       && STRNEQ name (ci_key item) (length (ci_key item))
    then Some (catpath_of name (ci_key item) (ci_cont item))
    else get_catpath_in l name cattype
  end.
Definition get_catpath (s : config_state) (name : cstr) (cattype : Z) : option cstr :=
  get_catpath_in (config s) name cattype.

Definition is_global_mandir (s : config_state) (dir : cstr) : bool :=
  existsb (λ item, has_flag MANDB_MAP item && STRNEQ dir (ci_key item) (length (ci_key item))) (config s).

(** ** The parts of a locale name *)

Record locale_bits := LocaleBits { lb_language : cstr; lb_territory : cstr; lb_codeset : cstr; lb_modifier : cstr }.
#[export] Instance locale_bits_eq_dec : EqDecision locale_bits.
Proof. solve_decision. Defined.

Definition unpack_locale_bits (locale : cstr) : locale_bits :=
  let part stop s := let n := strcspn (one_of stop) s in (take n s, drop n s) in
  let '(language, p) := part (lit "_.@") locale in
  if bool_decide (language = []) then LocaleBits locale [] [] []
  else
    let '(territory, p) :=
      match p with
      | c :: p' => if bool_decide (c = "_"%char) then part (lit ".@") p' else ([], p)
      | [] => ([], p)
      end in
    let '(codeset, p) :=
      match p with
      | c :: p' => if bool_decide (c = "."%char) then part (lit "@") p' else ([], p)
      | [] => ([], p)
      end in
    let modifier :=
      match p with
      | c :: p' => if bool_decide (c = "@"%char) then p' else []
      | [] => []
      end in
    LocaleBits language territory codeset modifier.

(** ** Locale names *)

(** The name that has the parts; an empty part is left out. *)
Definition locale_name (b : locale_bits) : cstr :=
  let opt c s := match s with [] => [] | _ => c :: s end in
  lb_language b ++ opt "_"%char (lb_territory b) ++ opt "."%char (lb_codeset b) ++ opt "@"%char (lb_modifier b).

Definition free_of (stop s : cstr) : Prop := Forall (λ c, one_of stop c = false) s.
#[export] Instance free_of_dec stop s : Decision (free_of stop s).
Proof. unfold free_of. apply _. Defined.

Definition locale_ok (b : locale_bits) : Prop :=
  lb_language b ≠ [] ∧ free_of (lit "_.@") (lb_language b) ∧ free_of (lit ".@") (lb_territory b) ∧
  free_of (lit "@") (lb_codeset b).

Lemma strcspn_stop stop s t :
  free_of stop s → match t with [] => True | c :: _ => one_of stop c = true end →
  take (strcspn (one_of stop) (s ++ t)) (s ++ t) = s ∧ drop (strcspn (one_of stop) (s ++ t)) (s ++ t) = t.
Proof.
  intros Hs Ht. assert (strcspn (one_of stop) (s ++ t) = length s) as ->.
  { unfold strcspn. induction Hs as [|c s Hc Hs IH]; simpl.
    - destruct t; [done|]. simpl. by rewrite Ht.
    - by rewrite Hc, IH. }
  by rewrite take_app_length, drop_app_length.
Qed.

(** A part with the separator before it, and what follows. *)
Lemma part_of sep stop s t :
  free_of stop s → match t with [] => True | c :: _ => one_of stop c = true end →
  match t with [] => True | c :: _ => c ≠ sep end →
  match (match s with [] => [] | _ => sep :: s end) ++ t with
  | c :: p' => if bool_decide (c = sep)
               then (take (strcspn (one_of stop) p') p', drop (strcspn (one_of stop) p') p')
               else ([], (match s with [] => [] | _ => sep :: s end) ++ t)
  | [] => ([], (match s with [] => [] | _ => sep :: s end) ++ t)
  end = (s, t).
Proof.
  intros Hs Ht Hsep. destruct s as [|x s].
  - destruct t as [|c t]; simpl; [done|]. by rewrite bool_decide_eq_false_2.
  - simpl. rewrite bool_decide_eq_true_2 by done.
    destruct (strcspn_stop stop (x :: s) t Hs Ht) as [Hx Hy]. simpl in Hx, Hy. by rewrite Hx, Hy.
Qed.

(** A locale name put together from a language without separators, a
    territory without a dot or an at sign, a codeset without an at sign and a
    modifier is taken apart into the same parts. *)
Theorem unpack_locale_roundtrip b : locale_ok b → unpack_locale_bits (locale_name b) = b.
Proof.
  destruct b as [l t c m]. intros (Hne & Hl & Ht & Hc). cbn [lb_language lb_territory lb_codeset lb_modifier] in *.
  unfold locale_name, unpack_locale_bits. cbn [lb_language lb_territory lb_codeset lb_modifier].
  match goal with |- context [take (strcspn _ (l ++ ?t)) _] =>
    destruct (strcspn_stop (lit "_.@") l t Hl) as [-> ->] end.
  { by destruct t, c, m. }
  rewrite bool_decide_eq_false_2 by done.
  rewrite (part_of "_" (lit ".@") t) by (try done; by destruct c, m).
  rewrite (part_of "." (lit "@") c) by (try done; by destruct m).
  by destruct m.
Qed.

Lemma unpack_locale_roundtrip_witness :
  unpack_locale_bits (lit "sr_RS.UTF-8@latin") = LocaleBits (lit "sr") (lit "RS") (lit "UTF-8") (lit "latin").
Proof.
  refine (unpack_locale_roundtrip (LocaleBits (lit "sr") (lit "RS") (lit "UTF-8") (lit "latin")) _).
  compute_done.
Defined.

(** ** Cat page hierarchies *)

Lemma slash_before_spec fuel a b f manlen :
  "/"%char ∉ b → manlen ≤ length a → S (length b) ≤ fuel →
  slash_before fuel (a ++ "/"%char :: b ++ f) manlen (length a + S (length b)) = length a.
Proof.
  intros Hb Ha Hf. revert b f Hb Hf. induction fuel as [|fuel IH]; intros b f Hb Hf; [lia|].
  cbn [slash_before]. rewrite decide_True by lia.
  replace (length a + S (length b) - 1) with (length a + length b) by lia.
  destruct b as [|x b _] using rev_ind.
  - rewrite bool_decide_eq_true_2; [simpl; lia|]. simpl. rewrite Nat.add_0_r. by rewrite list_lookup_middle.
  - rewrite length_app in *. simpl in *. rewrite bool_decide_eq_false_2.
    + replace (length a + (length b + 1)) with (length a + S (length b)) by lia.
      rewrite <-app_assoc. apply IH; [set_solver|lia].
    + rewrite lookup_app_r by lia. replace (length a + (length b + 1) - length a) with (S (length b)) by lia.
      simpl. rewrite <-app_assoc. simpl. rewrite list_lookup_middle by done. set_solver.
Qed.

Lemma slash_not_man : "/"%char ∉ lit "man".
Proof. compute_done. Qed.

Lemma catpath_of_page key cont d s f :
  "/"%char ∉ s → "/"%char ∉ f →
  catpath_of (key ++ d ++ lit "/man" ++ s ++ "/"%char :: f) key cont = cont ++ d ++ lit "/cat" ++ s ++ "/"%char :: f.
Proof.
  intros Hs Hf. unfold catpath_of.
  assert (key ++ d ++ lit "/man" ++ s ++ "/"%char :: f =
    (key ++ d) ++ "/"%char :: (lit "man" ++ s) ++ "/"%char :: f) as -> by by app_norm.
  set (a := key ++ d). set (b := lit "man" ++ s).
  assert ("/"%char ∉ b) as Hb by (unfold b; rewrite elem_of_app; intros [Hm|?]; [by apply slash_not_man in Hm|done]).
  rewrite (app_comm_cons b), app_assoc. rewrite strrchr_app_sep by done. rewrite <-app_assoc.
  rewrite <-app_comm_cons.
  replace (length (a ++ "/"%char :: b)) with (length a + S (length b)) by (by rewrite length_app).
  rewrite slash_before_spec; [|done|unfold a; rewrite length_app; lia|].
  2: { rewrite !length_app. simpl. rewrite length_app. lia. }
  rewrite decide_False by (unfold a; rewrite length_app; lia).
  rewrite list_lookup_middle, bool_decide_eq_true_2 by done.
  assert (drop (S (length a)) (a ++ "/"%char :: b ++ "/"%char :: f) = b ++ "/"%char :: f) as ->.
  { rewrite drop_app_ge by lia. by replace (S (length a) - length a) with 1 by lia. }
  assert (take (S (length a) - length key) (drop (length key) (a ++ "/"%char :: b ++ "/"%char :: f)) =
    d ++ lit "/") as ->.
  { unfold a. rewrite <-app_assoc, drop_app_length, length_app.
    replace (S (length key + length d) - length key) with (S (length d)) by lia.
    rewrite take_app_ge by lia. replace (S (length d) - length d) with 1 by lia. done. }
  assert (STRNEQ (b ++ "/"%char :: f) (lit "man") 3 = true) as -> by by apply STRNEQ_true.
  unfold b. by app_norm.
Qed.

Definition mapped (cattype : Z) (name : cstr) (item : config_item) : bool :=
  ((negb (Z.land cattype SYSTEM_CAT =? 0)%Z && has_flag MANDB_MAP item) ||
   (negb (Z.land cattype USER_CAT =? 0)%Z && has_flag MANDB_MAP_USER item))
  && STRNEQ name (ci_key item) (length (ci_key item)).

Lemma get_catpath_first l1 item l2 name cattype :
  Forall (λ i, mapped cattype name i = false) l1 → mapped cattype name item = true →
  get_catpath_in (l1 ++ item :: l2) name cattype = Some (catpath_of name (ci_key item) (ci_cont item)).
Proof.
  intros Hl Hi. induction Hl as [|i l1 Hi1 Hl IH]; simpl.
  - unfold mapped in Hi. by rewrite Hi.
  - unfold mapped in Hi1. by rewrite Hi1.
Qed.

(** The cat page of a page under a configured hierarchy, or under a
    subdirectory of it such as that of a language, is the same path below the
    first matching cat hierarchy with [man] replaced by [cat] in its section
    directory only; the hierarchy itself maps to the cat hierarchy. *)
Theorem get_catpath_page s l1 item l2 cattype d sec f :
  config s = l1 ++ item :: l2 →
  (negb (Z.land cattype SYSTEM_CAT =? 0)%Z && has_flag MANDB_MAP item ||
   negb (Z.land cattype USER_CAT =? 0)%Z && has_flag MANDB_MAP_USER item) = true →
  "/"%char ∉ sec → "/"%char ∉ f →
  (Forall (λ i, mapped cattype (ci_key item ++ d ++ lit "/man" ++ sec ++ "/"%char :: f) i = false) l1 →
   get_catpath s (ci_key item ++ d ++ lit "/man" ++ sec ++ "/"%char :: f) cattype = Some (ci_cont item ++ d ++ lit "/cat" ++ sec ++ "/"%char :: f)) ∧
  (Forall (λ i, mapped cattype (ci_key item) i = false) l1 →
   get_catpath s (ci_key item) cattype = Some (ci_cont item)).
Proof.
  intros Hc Hflag Hs Hf. unfold get_catpath. rewrite Hc. split.
  - intros Hl. rewrite (get_catpath_first l1 item l2 _ cattype Hl).
    + by rewrite catpath_of_page.
    + unfold mapped. rewrite Hflag. simpl. apply STRNEQ_prefix_r. by eexists.
  - intros Hl. rewrite (get_catpath_first l1 item l2 _ cattype Hl).
    2: { unfold mapped. rewrite Hflag. simpl. by apply STRNEQ_prefix_r. }
    f_equal. unfold catpath_of. destruct (strrchr (ci_key item) "/"%char) as [n|] eqn:E.
    + apply strrchr_Some in E as E'. assert (n < length (ci_key item)) as Hn.
      { destruct E' as [Hl' _]. by apply lookup_lt_Some in Hl'. }
      assert (slash_before (length (ci_key item)) (ci_key item) (length (ci_key item)) n = n) as ->.
      { destruct (length (ci_key item)) as [|k] eqn:El; [done|]. simpl. by rewrite decide_False by lia. }
      rewrite decide_True by done. rewrite lookup_ge_None_2 by done. rewrite bool_decide_eq_false_2 by done.
      rewrite Nat.sub_diag, drop_all. simpl. by rewrite app_nil_r.
    + by rewrite drop_all, app_nil_r.
Qed.

Definition example_config : config_state :=
  Config [Item (lit "/usr/man") (lit "/var/catman") MANDB_MAP; Item (lit "/usr/share/man") (lit "/var/cache/man") MANDB_MAP]
    false 80 80 0.

Lemma get_catpath_page_witness :
  get_catpath example_config (lit "/usr/share/man/de/man1/manual.1") SYSTEM_CAT =
    Some (lit "/var/cache/man/de/cat1/manual.1").
Proof.
  refine (proj1 (get_catpath_page example_config [Item (lit "/usr/man") (lit "/var/catman") MANDB_MAP]
    (Item (lit "/usr/share/man") (lit "/var/cache/man") MANDB_MAP) [] SYSTEM_CAT (lit "/de") (lit "1") (lit "manual.1")
    _ _ _ _) _); [done|done|compute_done|compute_done|compute_done].
Defined.

(** A directory whose path merely begins like that of a hierarchy counts as
    part of it. *)
Example is_global_mandir_prefix : is_global_mandir example_config (lit "/usr/manual") = true.
Proof. by vm_compute. Qed.

(** ** The configuration file *)

Fixpoint diverge (p q : cstr) : bool :=
  match p, q with
  | x :: p, y :: q => if bool_decide (x = y) then diverge p q else true
  | _, _ => false
  end.

Lemma scan_literal_diverge p q s : diverge p q = true → scan_literal p (q ++ s) = None.
Proof.
  revert q. induction p as [|x p IH]; intros [|y q]; simpl; try done. case_bool_decide; [apply IH|done].
Qed.
Lemma scan_literal_same p s : scan_literal p (p ++ s) = Some s.
Proof. induction p as [|x p IH]; simpl; [done|]. by rewrite bool_decide_eq_true_2. Qed.

Lemma starts_diverge p q s : diverge (lit p) (lit q) = true → starts p (lit q ++ s) = false.
Proof.
  intros Hd. unfold starts. destruct (STRNEQ (lit q ++ s) (lit p) (String.length p)) eqn:E; [|done].
  assert (String.length p = length (lit p)) as Hlen by (clear; unfold lit; induction p as [|a p IH]; simpl; [done|by rewrite IH]).
  rewrite Hlen in E. apply STRNEQ_prefix_r in E as [k E].
  pose proof (scan_literal_diverge _ _ s Hd) as Hn. rewrite E, scan_literal_same in Hn. done.
Qed.

Definition word_ok (w : cstr) : Prop := w ≠ [] ∧ Forall (λ c, isspace c = false) w ∧ length w ≤ 511.

Lemma strspn_first p s : match s with [] => True | c :: _ => p c = false end → strspn p s = 0.
Proof. destruct s; simpl; [done|]. by intros ->. Qed.

Lemma skip_space_word w t : word_ok w → skip_space (" "%char :: w ++ t) = w ++ t ∧ skip_space (w ++ t) = w ++ t.
Proof.
  intros (Hne & Hw & _). unfold skip_space. destruct Hw as [|c w Hc Hw]; [done|].
  assert (strspn isspace ((c :: w) ++ t) = 0) as H0 by by apply strspn_first.
  split; [|by rewrite H0]. change (strspn isspace (" "%char :: ?x)) with (S (strspn isspace x)).
  by rewrite H0.
Qed.

Lemma scan_word_spec w t :
  word_ok w → match t with [] => True | c :: _ => isspace c = true end → scan_word (w ++ t) = Some (w, t).
Proof.
  intros Hw Ht. unfold scan_word. rewrite (proj2 (skip_space_word w t Hw)). destruct Hw as (Hne & Hw & Hl).
  assert (strcspn isspace (w ++ t) = length w) as ->.
  { clear Hne Hl. unfold strcspn. induction Hw as [|c w Hc Hw IH]; simpl.
    - apply strspn_first. destruct t; [done|]. by rewrite Ht.
    - by rewrite Hc, IH. }
  rewrite Nat.min_r by done. rewrite decide_False by by destruct w.
  by rewrite take_app_length, drop_app_length.
Qed.

Definition line_ok (l : cstr) : Prop :=
  l ≠ [] ∧ (NL ∉ l) ∧ length l ≤ 511 ∧ match l with c :: _ => isspace c = false | [] => True end.

Lemma scan_line_spec l t : line_ok l → fst <$> scan_line (l ++ NL :: t) = Some l.
Proof.
  intros (Hne & Hnl & Hl & _). unfold scan_line.
  assert (strcspn (λ c, bool_decide (c = NL)) (l ++ NL :: t) = length l) as ->.
  { clear Hne Hl. unfold strcspn. induction l as [|c l IH]; simpl; [done|].
    rewrite bool_decide_eq_false_2 by set_solver. simpl. rewrite IH; [done|set_solver]. }
  rewrite Nat.min_r by done. rewrite decide_False by by destruct l. simpl. by rewrite take_app_length.
Qed.

(** The line that adds an item. *)
Definition item_line (i : config_item) : cstr :=
  match ci_flag i with
  | MANDATORY => lit "MANDATORY_MANPATH" ++ " "%char :: ci_key i ++ [NL]
  | MANPATH_MAP => lit "MANPATH_MAP" ++ " "%char :: ci_key i ++ " "%char :: ci_cont i ++ [NL]
  | MANDB_MAP | MANDB_MAP_USER => lit "MANDB_MAP" ++ " "%char :: ci_key i ++ " "%char :: ci_cont i ++ [NL]
  | DEFINE | DEFINE_USER => lit "DEFINE" ++ " "%char :: ci_key i ++ " "%char :: ci_cont i ++ [NL]
  | SECTION | SECTION_USER => lit "SECTION" ++ " "%char :: ci_key i ++ [NL]
  end.

Definition item_ok (user : bool) (i : config_item) : Prop :=
  word_ok (ci_key i) ∧
  match ci_flag i with
  | MANDATORY => ci_cont i = []
  | MANPATH_MAP => word_ok (ci_cont i)
  | MANDB_MAP => word_ok (ci_cont i) ∧ ci_cont i ≠ lit "FSSTND" ∧ user = false
  | MANDB_MAP_USER => word_ok (ci_cont i) ∧ ci_cont i ≠ lit "FSSTND" ∧ user = true
  | DEFINE => line_ok (ci_cont i) ∧ user = false
  | DEFINE_USER => line_ok (ci_cont i) ∧ user = true
  | SECTION => ci_cont i = [] ∧ user = false
  | SECTION_USER => ci_cont i = [] ∧ user = true
  end.

(** A line with another key, and with the key. *)
Lemma other_key k q s :
  diverge (lit k) (lit q) = true → starts k (lit q ++ s) = false ∧ after_key k (lit q ++ s) = None.
Proof. intros Hd. split; [by apply starts_diverge|]. unfold after_key. by rewrite scan_literal_diverge. Qed.
Lemma same_key k s : after_key k (lit k ++ s) = Some (skip_space s).
Proof. unfold after_key. by rewrite scan_literal_same. Qed.

Lemma next_word w t :
  word_ok w → match t with [] => True | c :: _ => isspace c = true end →
  scan_word (skip_space (" "%char :: w ++ t)) = Some (w, t).
Proof. intros Hw Ht. rewrite (proj1 (skip_space_word w t Hw)). by apply scan_word_spec. Qed.

(** The tests on a line that begins with a key; none before its own holds. *)
Ltac config_tests :=
  unfold config_line, one_word, two_words, word_and_line, whole_line, scan_manbin;
  match goal with |- context [bool_decide (head (?k ++ ?s) = Some "#"%char)] =>
    assert (bool_decide (head (k ++ s) = Some "#"%char) || bool_decide (k ++ s = []) = false) as -> by reflexivity end;
  repeat match goal with
  | |- context [starts ?k (lit ?q ++ ?s)] => rewrite (proj1 (other_key k q s ltac:(by vm_compute)))
  | |- context [after_key ?k (lit ?q ++ ?s)] => rewrite (proj2 (other_key k q s ltac:(by vm_compute)))
  | |- context [after_key ?k (lit ?k ++ ?s)] => rewrite (same_key k s)
  end;
  cbn [Z.eqb mbind option_bind].

Lemma scan_word_sp w t :
  word_ok w → match t with [] => True | c :: _ => isspace c = true end →
  scan_word (" "%char :: w ++ t) = Some (w, t).
Proof.
  intros Hw Ht. pose proof (scan_word_spec w t Hw Ht) as Hs. unfold scan_word in *.
  rewrite (proj1 (skip_space_word w t Hw)). by rewrite (proj2 (skip_space_word w t Hw)) in Hs.
Qed.

Lemma skip_space_line l t : line_ok l → skip_space (" "%char :: l ++ t) = l ++ t.
Proof.
  intros (Hne & _ & _ & Hc). unfold skip_space. change (strspn isspace (" "%char :: ?x)) with (S (strspn isspace x)).
  destruct l as [|c l]; [done|]. by rewrite strspn_first.
Qed.

Lemma word_line w : word_ok w → line_ok w.
Proof.
  intros (Hne & Hw & Hl). split_and!; [done| |done|by destruct Hw].
  intros Hin. rewrite Forall_forall in Hw. by apply Hw in Hin.
Qed.

Lemma add_sections_word w user s : word_ok w → add_sections w user s = add_config w [] (if user then SECTION_USER else SECTION) s.
Proof.
  intros (Hne & Hw & _). unfold add_sections, strtok. fold (split_on " "%char).
  rewrite split_on_free.
  - rewrite filter_cons, decide_True by done. done.
  - intros Hin. rewrite Forall_forall in Hw. by apply Hw in Hin.
Qed.

Lemma config_item_line user i s :
  item_ok user i → config_line (skip_space (item_line i)) user s = Ret (add_config (ci_key i) (ci_cont i) (ci_flag i) s).
Proof.
  destruct i as [key cont flag]. intros [Hk Hflag]. unfold item_line. cbn [ci_key ci_cont ci_flag] in *.
  destruct flag; cbv iota in *; change (skip_space (lit ?x ++ ?y)) with (lit x ++ y).
  - subst. config_tests. by rewrite next_word.
  - config_tests. rewrite next_word by done. cbn [mbind option_bind]. by rewrite scan_word_sp.
  - destruct Hflag as (Hc & Hf & ->). config_tests. rewrite next_word by done. cbn [mbind option_bind].
    rewrite scan_word_sp by done. cbn [fmap option_fmap option_map fst from_option]. unfold add_mandb_map, id.
    by rewrite (proj2 (STREQ_false _ _) Hf).
  - destruct Hflag as (Hc & Hf & ->). config_tests. rewrite next_word by done. cbn [mbind option_bind].
    rewrite scan_word_sp by done. cbn [fmap option_fmap option_map fst from_option]. unfold add_mandb_map, id.
    by rewrite (proj2 (STREQ_false _ _) Hf).
  - destruct Hflag as (Hc & ->). config_tests. rewrite next_word by done. cbn [mbind option_bind].
    rewrite skip_space_line by done. by rewrite scan_line_spec.
  - destruct Hflag as (Hc & ->). config_tests. rewrite next_word by done. cbn [mbind option_bind].
    rewrite skip_space_line by done. by rewrite scan_line_spec.
  - destruct Hflag as (-> & ->). config_tests. rewrite skip_space_line by by apply word_line.
    rewrite scan_line_spec by by apply word_line. by rewrite add_sections_word.
  - destruct Hflag as (-> & ->). config_tests. rewrite skip_space_line by by apply word_line.
    rewrite scan_line_spec by by apply word_line. by rewrite add_sections_word.
Qed.

(** C40: reading a configuration file whose lines state a list of items adds
    exactly those items, in order, with user or system flags. *)
Theorem config_roundtrip user items s :
  Forall (item_ok user) items →
  add_to_dirlist (item_line <$> items) user s = Ret (set_items s (config s ++ items)).
Proof.
  intros Hall. revert s. induction Hall as [|i items Hi Hall IH]; intros s.
  - simpl. rewrite app_nil_r. by destruct s.
  - cbn [add_to_dirlist fmap list_fmap]. rewrite config_item_line by done. rewrite bind_Ret, IH.
    unfold add_config, set_items. simpl. rewrite <-app_assoc. by destruct i.
Qed.

Lemma config_roundtrip_witness :
  add_to_dirlist [lit "MANDB_MAP /usr/man /var/catman" ++ [NL]; lit "SECTION 3" ++ [NL]] false no_config =
    Ret (set_items no_config ([] ++ [Item (lit "/usr/man") (lit "/var/catman") MANDB_MAP; Item (lit "3") [] SECTION])).
Proof.
  refine (config_roundtrip false [Item (lit "/usr/man") (lit "/var/catman") MANDB_MAP; Item (lit "3") [] SECTION]
    no_config _).
  repeat constructor; try done; simpl; try lia. all: intros Heq; by vm_compute in Heq.
Defined.

(** [add_to_dirlist] has lines of its own for [SECTIONS] and [MANBIN] that
    are never reached: the first is taken for [SECTION] with a section [S],
    and the second, whose conversion assigns nothing, ends the program. *)
Theorem config_unreachable_lines :
  (s ← add_to_dirlist [lit "SECTIONS 1 8" ++ [NL]] false no_config; Ret (get_sections s)) =
    Ret [lit "S"; lit "1"; lit "8"] ∧
  add_to_dirlist [lit "MANBIN /usr/bin/man" ++ [NL]] false no_config =
    Fatal "can't make sense of the manpath configuration file".
Proof. by vm_compute. Qed.

(** ** FSSTND cat hierarchies *)

(** The buffer of [fsstnd] is sized as if an element [man] always went
    away.  For a path without one, the catpath is written past its end. *)
Theorem fsstnd_overflow :
  fsstnd (lit "/usr/local") = Undef "fsstnd: write past the end of catpath" ∧
  fsstnd (lit "/usr/share/man") = Ret (lit "/var/catman/share") ∧
  fsstnd (lit "/opt/man") = Ret (lit "/opt/man").
Proof. by vm_compute. Qed.
