(* ===== verification/Straycats.v ===== *)
(** * src/straycats.c: cat pages without a source

    [straycats] walks over the cat directories of a hierarchy, and stores every
    formatted page that has no source and is not in the index yet, with the
    description found in its text.  The text comes through a pipeline of
    processes and is a parameter; so is whether the file can be opened.  Around
    opening and starting the pipeline the code drops and regains privileges in
    pairs, which leaves them as they were. *)

From S2P Require Import Prelude CStr Fs Util Compression Filenames Mydbm DbContent Wordfnmatch DbLookup DbGroup DbStore DbDelete Descriptions UltSrc Manp CheckMandirs.

(** A file of a cat directory: the path of the source without compression
    extension, where its extension begins, the section, and the compression
    extension of the cat page. *)
Record stray := Stray { sy_path : cstr; sy_dot : nat; sy_sec : cstr; sy_comp : option cstr }.

Section straycats.
Context (cfg : comp_config) `{FileSystem} `{Dirname} `{OrderFiles} {db : Type} `{Mydbm db}.
Context (config : config_state) (decompress_opens : cstr → bool) (find_name_decompressed : cstr → cstr → option cstr).

(** The first part of the loop: [mandir] ends in a slash.  [None] is a bogus
    file name; the dots looked for may lie in the directory. *)
Definition stray_of (mandir name : cstr) : outcome (option stray) :=
  let path := mandir ++ name in
  match strrchr path "."%char with
  | None => Ret None
  | Some e =>
    let '(path, comp) :=
      match comp_info cfg (drop e path) false with
      | Some _ => (take e path, Some (drop (S e) path))
      | None => (path, None)
      end in
    let dir := take (length mandir - 1) path in
    slash ← or_undef "check_for_stray: strrchr (mandir, '/')" (strrchr dir "/"%char);
    section ← or_undef "check_for_stray: section"
                (if bool_decide (slash + 4 ≤ length dir) then Some (drop (slash + 4) dir) else None);
    match strrchr path "."%char with
    | None => Ret None
    | Some ext =>
      Ret (if STRNEQ (drop (S ext) path) section (length section) then Some (Stray path ext section comp) else None)
    end
  end.

Definition has_source (s : stray) : bool :=
  bool_decide (is_Some (fs_stat (sy_path s))) || bool_decide (is_Some (comp_file cfg (sy_path s))).

Definition stray_base (s : stray) : cstr := base_name (take (sy_dot s) (sy_path s)).
Definition stray_ext (s : stray) : cstr := drop (S (sy_dot s)) (sy_path s).

Definition stray_entry (s : stray) : mandata :=
  Mandata None (stray_ext s) (sy_sec s) STRAY_CAT None (sy_comp s) (Some (lit "-")) None (Timespec 0 0).

(** One file: the count, which a page with a description raises twice,
    whether every store succeeded, and the database. *)
Definition check_stray (dbf : db) (mandir catdir name : cstr) : outcome (nat * bool * db) :=
  o ← stray_of mandir name;
  match o with
  | None => Ret (0, true, dbf)
  | Some s =>
    if has_source s then Ret (0, true, dbf)
    else
      let catdir := catdir ++ name in
      let mandir_base := stray_base s in
      exists_ ← dblookup_exact dbf mandir_base (Some (stray_ext s)) true;
      if match exists_ with
         | Some i => negb (is_lt (compare_ids STRAY_CAT (md_id i) false))
         | None => false
         end
      then Ret (0, true, dbf)
      else if negb (decompress_opens catdir) then Ret (0, true, dbf)
      else
        _ ← lang_dir (Some (take (sy_dot s) (sy_path s)));
        match fs_canonicalize catdir with
        | None => Ret (0, true, dbf)
        | Some _ =>
          match find_name_decompressed catdir (base_name catdir) with
          | None => Ret (1, true, dbf)
          | Some whatis =>
            '(ok, dbf) ← store_descriptions cfg dbf (parse_descriptions (Some mandir_base) (Some whatis))
                           (stray_entry s) None mandir_base [catdir];
            Ret (2, ok, dbf)
          end
        end
  end.

Fixpoint check_strays (dbf : db) (mandir catdir : cstr) (names : list cstr) : outcome (nat * bool * db) :=
  match names with
  | [] => Ret (0, true, dbf)
  | name :: names =>
    '(n, ok, dbf) ← check_stray dbf mandir catdir name;
    '(n', ok', dbf) ← check_strays dbf mandir catdir names;
    Ret (n + n', ok && ok', dbf)
  end.

Definition check_for_stray (dbf : db) (mandir catdir : cstr) : outcome (nat * bool * db) :=
  match fs_readdir catdir with
  | None => Ret (0, true, dbf)
  | Some entries =>
    let names := filter (λ n, page_file_name n = true) (d_name <$> entries) in
    check_strays dbf (mandir ++ lit "/") (catdir ++ lit "/") (order_files catdir names)
  end.

(** [man] for the directory [cat]: two letters are overwritten. *)
Definition man_of_cat (name : cstr) : cstr := <[2 := "n"%char]> (<[0 := "m"%char]> name).

Fixpoint open_catdirs (dbf : db) (mandir catdir : cstr) (names : list cstr) : outcome (nat * bool * db) :=
  match names with
  | [] => Ret (0, true, dbf)
  | name :: names =>
    if negb (STRNEQ name (lit "cat") 3) then open_catdirs dbf mandir catdir names
    else
      '(n, ok, dbf) ← check_for_stray dbf (mandir ++ man_of_cat name) (catdir ++ name);
      '(n', ok', dbf) ← open_catdirs dbf mandir catdir names;
      Ret (n + n', ok && ok', dbf)
  end.

Definition open_catdir (dbf : db) (mandir catdir : cstr) : outcome (nat * bool * db) :=
  match fs_readdir catdir with
  | None => Ret (0, true, dbf)
  | Some entries => open_catdirs dbf (mandir ++ lit "/") (catdir ++ lit "/") (d_name <$> entries)
  end.

Definition straycats (dbf : db) (manpath : cstr) : outcome (nat * bool * db) :=
  '(n, ok, dbf) ← open_catdir dbf manpath manpath;
  match get_catpath config manpath (Z.lor SYSTEM_CAT USER_CAT) with
  | Some catpath =>
    if negb (STREQ catpath manpath) then
      '(n', ok', dbf) ← open_catdir dbf manpath catpath;
      Ret (n + n', ok && ok', dbf)
    else Ret (n, ok, dbf)
  | None => Ret (n, ok, dbf)
  end.
End straycats.

(** ** Strays on a well-formed index *)

Section theorems.
Context (cfg : comp_config) `{FileSystem} `{Dirname} `{OrderFiles} {db : Type} `{MydbmReliable db}.
Context (config : config_state) (decompress_opens : cstr → bool) (find_name_decompressed : cstr → cstr → option cstr).

(** The lexer delivers descriptions that can be stored. *)
Definition cat_lexer_ok : Prop :=
  ∀ f b w, find_name_decompressed f b = Some w → Forall desc_ok (parse_descriptions None (Some w)).

(** A file of a cat directory that is no page, or a page with storable parts
    whose cat file is taken apart in the same way. *)
Definition stray_file_ok (mandir catdir name : cstr) : Prop :=
  stray_of cfg mandir name = Ret None ∨
  ∃ s ci n, stray_of cfg mandir name = Ret (Some s) ∧ storable (stray_base s) ∧ field_ok (stray_ext s) ∧
    field_ok (sy_sec s) ∧ field_ok (default [] (sy_comp s)) ∧
    is_ret (lang_dir (Some (take (sy_dot s) (sy_path s)))) = true ∧
    filename_info cfg (catdir ++ name) = Ret (Some ci) ∧ md_sec ci = sy_sec s ∧ md_ext ci = stray_ext s ∧
    field_ok (default [] (md_comp ci)) ∧ md_name ci = Some n ∧ field_ok n.

(** A page that is to be stored: without a source, readable, with a
    description, and without a better entry in the index. *)
Definition to_store (dbf : db) (catdir name : cstr) (s : stray) : Prop :=
  has_source cfg s = false ∧ decompress_opens (catdir ++ name) = true ∧ is_Some (fs_canonicalize (catdir ++ name)) ∧
  is_Some (find_name_decompressed (catdir ++ name) (base_name (catdir ++ name))) ∧
  ∀ i, dblookup_exact dbf (stray_base s) (Some (stray_ext s)) true = Ret (Some i) →
    compare_ids STRAY_CAT (md_id i) false = Lt.

Abbreviation check := (check_stray cfg decompress_opens find_name_decompressed).

Lemma check_stray_spec (dbf : db) mandir catdir name :
  times_ok → cat_lexer_ok → wf (db_view dbf) → stray_file_ok mandir catdir name →
  ∃ n ok d, check dbf mandir catdir name = Ret (n, ok, d) ∧
    (ok = true → wf (db_view d) ∧ keeps dbf d ∧
      ∀ s, stray_of cfg mandir name = Ret (Some s) → to_store dbf catdir name s →
        n = 2 ∧ is_Some (page_at (db_view d) (NameExt (stray_base s) (stray_ext s)))).
Proof.
  intros Htimes Hlex Hwf Hfile. unfold check_stray.
  destruct Hfile as [->|(s & ci & n & -> & Hb & He & Hs & Hc & Hl & Hci & Hcs & Hce & Hcc & Hn & Hnok)].
  { rewrite bind_Ret. do 3 eexists. split; [done|]. intros _. split_and!; [done|reflexivity|]. by intros s [=]. }
  rewrite bind_Ret.
  destruct (has_source cfg s) eqn:Esrc.
  { do 3 eexists. split; [done|]. intros _. split_and!; [done|reflexivity|]. intros s' [= <-] (? & _). congruence. }
  destruct (dblookup_exact_answers dbf (stray_base s) (Some (stray_ext s)) true Hwf) as (o & Ho & _); [apply Hb..|].
  rewrite Ho, bind_Ret.
  destruct (match o with Some i => negb (is_lt (compare_ids STRAY_CAT (md_id i) false)) | None => false end) eqn:Eo.
  { do 3 eexists. split; [done|]. intros _. split_and!; [done|reflexivity|]. intros s' [= <-] (_ & _ & _ & _ & Hi).
    destruct o as [i|]; [|done]. rewrite (Hi i Ho) in Eo. done. }
  destruct (decompress_opens (catdir ++ name)) eqn:Eop; cbn [negb].
  2: { do 3 eexists. split; [done|]. intros _. split_and!; [done|reflexivity|]. intros s' [= <-] (_ & ? & _). congruence. }
  destruct (lang_dir (Some (take (sy_dot s) (sy_path s)))) as [l| |]; [|done..]. rewrite bind_Ret.
  destruct (fs_canonicalize (catdir ++ name)) eqn:Ecan.
  2: { do 3 eexists. split; [done|]. intros _. split_and!; [done|reflexivity|]. intros s' [= <-] (_ & _ & [??] & _). congruence. }
  destruct (find_name_decompressed (catdir ++ name) (base_name (catdir ++ name))) as [w|] eqn:Ew.
  2: { do 3 eexists. split; [done|]. intros _. split_and!; [done|reflexivity|]. intros s' [= <-] (_ & _ & _ & [??] & _). congruence. }
  set (infos := {[catdir ++ name := Some ci]} : gmap cstr (option mandata)).
  assert (trace_infos cfg [catdir ++ name] = Ret infos) as Hti by (cbn [trace_infos]; by rewrite Hci).
  assert (entry_ok (set_name None (stray_entry s))) as Hent.
  { split; simpl; try done; [compute_done..|]. apply not_elem_of_nil. }
  assert (trace_ok infos) as Htr.
  { apply map_Forall_singleton. intros ti [= <-]. rewrite Hcs, Hce. split_and!; try done. by exists n. }
  destruct (pointer_info_head infos (stray_entry s) (catdir ++ name) [] ci) as (p & Hp & tp & _ & Htp);
    [by apply lookup_singleton_eq|done|done|].
  destruct (trace_info_ok infos Htr tp p Htp) as (_ & _ & _ & pn & Hpn & Hpnok).
  destruct (store_descriptions_returns cfg infos (stray_entry s) None Htr Htimes Hent dbf
    (parse_descriptions (Some (stray_base s)) (Some w)) (stray_base s) [catdir ++ name] p pn Hwf)
    as (ok & d & -> & Hd); try done.
  { eapply (lex_ok_base (Some w, None)); [split; [compute_done|]|done|done]. intros t [= <-]. by eapply Hlex. }
  simpl. do 3 eexists. split; [done|]. intros Hok. destruct (Hd Hok) as (Hwf' & Hk & Hin). split_and!; [done|done|].
  intros s' [= <-] _. split; [done|].
  pose proof (parse_descriptions_base (stray_base s) w) as (d0 & Hd0 & Hin0)%list_elem_of_fmap.
  rewrite Hd0. apply (Hin d0 Hin0). rewrite <-Hd0. by left.
Qed.

(** A stray cat that can be read and described, and for which the index has
    nothing better, is stored under its name and extension; in every case the
    check returns, and unless a store fails the index stays well-formed and
    keeps the pages it had. *)
Theorem check_stray_correct (dbf : db) mandir catdir name :
  times_ok → cat_lexer_ok → wf (db_view dbf) → stray_file_ok mandir catdir name →
  ∃ n ok d, check dbf mandir catdir name = Ret (n, ok, d) ∧
    (ok = true → wf (db_view d) ∧ keeps dbf d ∧
      ∀ s, stray_of cfg mandir name = Ret (Some s) → to_store dbf catdir name s →
        n = 2 ∧ is_Some (page_at (db_view d) (NameExt (stray_base s) (stray_ext s)))).
Proof. apply check_stray_spec. Qed.

(** A whole directory, up to the first store that fails. *)
Lemma check_strays_keeps names mandir catdir : ∀ (dbf : db),
  times_ok → cat_lexer_ok → wf (db_view dbf) → Forall (stray_file_ok mandir catdir) names →
  ∃ pre post n ok d, names = pre ++ post ∧ (post = [] ∨ ok = false) ∧
    check_strays cfg decompress_opens find_name_decompressed dbf mandir catdir pre = Ret (n, ok, d) ∧
    (ok = true → wf (db_view d) ∧ keeps dbf d).
Proof.
  intros dbf Htimes Hlex Hwf Hall. revert dbf Hwf. induction Hall as [|name names Hf Hall IH]; intros dbf Hwf.
  { exists [], [], 0, true, dbf. split_and!; [done|by left|done|]. intros _. split; [done|reflexivity]. }
  destruct (check_stray_spec dbf mandir catdir name Htimes Hlex Hwf Hf) as (n & ok & d & Hc & Hok). destruct ok.
  - destruct (Hok eq_refl) as (Hwf' & Hk & _).
    destruct (IH d Hwf') as (pre & post & n' & ok & d' & -> & Hend & Hpre & Hok').
    exists (name :: pre), post, (n + n'), ok, d'. split; [done|]. split; [done|]. cbn [check_strays].
    rewrite Hc, bind_Ret, Hpre. split; [done|]. intros Ht. destruct (Hok' Ht). split; [done|]. by etrans.
  - exists [name], names, n, false, d. split; [done|]. split; [by right|]. cbn [check_strays].
    rewrite Hc. simpl. rewrite Nat.add_0_r. done.
Qed.
End theorems.

(** ** Evaluation *)

(** No source exists, and every cat page describes one program. *)
Definition cats_fs : FileSystem := {|
  fs_stat p := None; fs_lstat p := None;
  fs_readdir p :=
    if STREQ p (lit "/m") then Some [Dirent (lit "cat1") 1; Dirent (lit "man1") 2]
    else if STREQ p (lit "/m/cat1") then Some [Dirent (lit ".") 1; Dirent (lit "old.1.gz") 3; Dirent (lit "README") 4]
    else None;
  fs_access_R _ := true; fs_access_F _ := false; fs_canonicalize p := Some p; fs_glob _ := None;
|}.
#[local] Instance same_order : OrderFiles := {| order_files _ l := l |}.

Lemma cats_stray : stray_of all_comp (lit "/m/man1/") (lit "old.1.gz") =
  Ret (Some (Stray (lit "/m/man1/old.1") 11 (lit "1") (Some (lit "gz")))).
Proof. by vm_compute. Qed.

Lemma check_stray_correct_witness :
  ∃ n ok d, @check_stray all_comp cats_fs simple_dirname (gmap cstr cstr) _ (λ _, true) (λ _ _, Some (lit "old - an old page"))
      ∅ (lit "/m/man1/") (lit "/m/cat1/") (lit "old.1.gz") = Ret (n, ok, d) ∧
    (ok = true → wf (db_view d) ∧ keeps (∅ : gmap cstr cstr) d ∧
      ∀ s, stray_of all_comp (lit "/m/man1/") (lit "old.1.gz") = Ret (Some s) →
        @to_store all_comp cats_fs simple_dirname _ _ (λ _, true) (λ _ _, Some (lit "old - an old page"))
          (∅ : gmap cstr cstr) (lit "/m/cat1/") (lit "old.1.gz") s →
        n = 2 ∧ is_Some (page_at (db_view d) (NameExt (stray_base s) (stray_ext s)))).
Proof.
  refine (@check_stray_correct all_comp cats_fs simple_dirname (gmap cstr cstr) _ _ _ (λ _, true)
    (λ _ _, Some (lit "old - an old page")) ∅ (lit "/m/man1/") (lit "/m/cat1/") (lit "old.1.gz") _ _ wf_empty_db _).
  - by intros t st [=].
  - intros f b w [= <-]. apply (bool_decide_unpack _). by vm_compute.
  - right. do 3 eexists. split; [exact cats_stray|].
    split_and!; try compute_done; try (by vm_compute); compute_done.
Defined.

(** One stray cat is counted twice. *)
Example straycats_counts_twice :
  ('(n, ok, d) ← @straycats all_comp cats_fs simple_dirname same_order (gmap cstr cstr) _ no_config (λ _, true)
     (λ _ _, Some (lit "old - an old page")) (∅ : gmap cstr cstr) (lit "/m"); Ret (n, ok, db_keys d)) =
  Ret (2, true, [lit "old"]).
Proof. by vm_compute. Qed.
