(* ===== verification/Manpath.v ===== *)
(** * src/manp.c: the search path

    Joining paths without duplicates ([pathappend]), the path for the user's
    locales and other systems, the path guessed from [$PATH], and the list of
    directories a path stands for ([create_pathlist]). *)

From S2P Require Import Prelude CStr Fs Util Globbing Manp.

(** ** Joining paths *)

(** [while (search > app_dedup && *--search == ':') *search = 0;] from
    position [search] down: the length that is left. *)
Fixpoint chop_colons (app_dedup : cstr) (search : nat) : nat :=
  match search with
  | 0 => 0
  | S j => if bool_decide (app_dedup !! j = Some ":"%char) then chop_colons app_dedup j else search
  end.

(** The loop over the occurrences of [tok]; [from] is where [strstr] starts.
    After an occurrence before a colon the string is copied and the original
    freed, while the search goes on in the original. *)
Fixpoint dedup_tok (fuel : nat) (app_dedup tok : cstr) (from : nat) : outcome cstr :=
  match fuel with
  | 0 => Ret app_dedup
  | S fuel =>
    match strstr (drop from app_dedup) tok with
    | None => Ret app_dedup
    | Some n =>
      let search := from + n in
      let terminator := search + length tok in
      if bool_decide (0 < search) && negb (bool_decide (app_dedup !! (search - 1) = Some ":"%char)) then
        dedup_tok fuel app_dedup tok terminator
      else if bool_decide (terminator = length app_dedup) then Ret (take (chop_colons app_dedup search) app_dedup)
      else if bool_decide (app_dedup !! terminator = Some ":"%char) then
        Undef "pathappend: search in freed memory"
      else dedup_tok fuel app_dedup tok terminator
    end
  end.

Fixpoint dedup (app_dedup : cstr) (toks : list cstr) : outcome cstr :=
  match toks with
  | [] => Ret app_dedup
  | tok :: toks =>
    if bool_decide (tok = []) then dedup app_dedup toks
    else
      app_dedup ← dedup_tok (S (length app_dedup)) app_dedup tok 0;
      dedup app_dedup toks
  end.

Definition pathappend (oldpath : option cstr) (appendage : cstr) : outcome cstr :=
  match oldpath with
  | None => Ret appendage
  | Some oldpath =>
    if bool_decide (oldpath = []) then Fatal "assertion: *oldpath"
    else
      app_dedup ← dedup appendage (split_on ":"%char oldpath);
      Ret (if bool_decide (app_dedup = []) then oldpath else oldpath ++ lit ":" ++ app_dedup)
  end.

(** [pathappend] over a list, starting from null. *)
Fixpoint pathappends (manpath : option cstr) (l : list cstr) : outcome (option cstr) :=
  match l with
  | [] => Ret manpath
  | p :: l => manpath ← pathappend manpath p; pathappends (Some manpath) l
  end.

Section manpath.
Context (s : config_state) (getenv : string → option cstr).
Context `{FileSystem}.

Definition catdir_of (path : cstr) : cstr :=
  match get_config s path MANDB_MAP_USER with
  | Some catdir => catdir
  | None => default path (get_config s path MANDB_MAP)
  end.

Definition cat_manpath (manp : cstr) : outcome (option cstr) :=
  pathappends None (catdir_of <$> split_on ":"%char manp).

Definition get_mandb_manpath : outcome (option cstr) :=
  pathappends None (ci_key <$> filter (λ i, has_flag MANDB_MAP i || has_flag MANDB_MAP_USER i = true) (config s)).

(** ** Locales *)

(** Does the directory [name] suit the locale? *)
Definition suits_locale (lbits : locale_bits) (name : cstr) : bool :=
  let mbits := unpack_locale_bits name in
  STREQ (lb_language lbits) (lb_language mbits) &&
  (bool_decide (lb_territory mbits = []) || STREQ (lb_territory lbits) (lb_territory mbits)) &&
  (bool_decide (lb_modifier mbits = []) || STREQ (lb_modifier lbits) (lb_modifier mbits)).

Definition nls_dirs (lbits : locale_bits) (path : cstr) (entries : list dirent) : list cstr :=
  (λ name, path ++ lit "/" ++ name) <$>
    filter (λ name,
      negb (STREQ name (lit ".") || STREQ name (lit "..")) && negb (STRNEQ name (lit "man") 3) &&
      (is_directory (path ++ lit "/" ++ name) =? 1)%Z && suits_locale lbits name = true)
      (d_name <$> entries).

Fixpoint nls_paths (lbits : locale_bits) (manpath : option cstr) (paths : list cstr) : outcome (option cstr) :=
  match paths with
  | [] => Ret manpath
  | path :: paths =>
    match fs_readdir path with
    | None => nls_paths lbits manpath paths
    | Some entries =>
      manpath ← pathappends manpath
        (nls_dirs lbits path entries ++ if STREQ (lb_language lbits) (lit "en") then [path] else []);
      nls_paths lbits manpath paths
    end
  end.

Definition get_nls_manpath (manpathlist locale : cstr) : outcome (option cstr) :=
  let lbits := unpack_locale_bits locale in
  if STREQ (lb_language lbits) (lit "C") || STREQ (lb_language lbits) (lit "POSIX") then Ret (Some manpathlist)
  else nls_paths lbits None (split_on ":"%char manpathlist).

(** [manpath ? appendstr (manpath, ":", p) : p], when there is a [p]. *)
Definition join_path (manpath p : option cstr) : option cstr :=
  match p, manpath with
  | None, _ => manpath
  | Some p, Some m => Some (m ++ lit ":" ++ p)
  | Some p, None => Some p
  end.

Fixpoint nls_locales (manpathlist : cstr) (manpath : option cstr) (toks : list cstr) : outcome (option cstr) :=
  match toks with
  | [] => Ret manpath
  | tok :: toks =>
    if bool_decide (tok = []) then nls_locales manpathlist manpath toks
    else
      p ← get_nls_manpath manpathlist tok;
      nls_locales manpathlist (join_path manpath p) toks
  end.

Definition add_nls_manpaths (manpathlist : cstr) (locales : option cstr) : outcome (option cstr) :=
  match locales with
  | None | Some [] => Ret (Some manpathlist)
  | Some locales =>
    manpath ← nls_locales manpathlist None (split_on ":"%char locales);
    p ← get_nls_manpath manpathlist (lit "C");
    Ret (join_path manpath p)
  end.

(** ** Other systems *)

Fixpoint system_dirs (manpath : option cstr) (one_system : cstr) (elements : list cstr) : outcome (option cstr) :=
  match elements with
  | [] => Ret manpath
  | element :: elements =>
    let newdir := element ++ lit "/" ++ one_system in
    if (is_directory newdir =? 1)%Z then
      manpath ← pathappend manpath newdir;
      system_dirs (Some manpath) one_system elements
    else system_dirs manpath one_system elements
  end.

Fixpoint add_systems (manpathlist : cstr) (manpath : option cstr) (systems : list cstr) : outcome (option cstr) :=
  match systems with
  | [] => Ret manpath
  | one_system :: systems =>
    manpath ←
      (if negb (STREQ one_system (lit "man")) then
         system_dirs manpath one_system (split_on ":"%char manpathlist)
       else manpath ← pathappend manpath manpathlist; Ret (Some manpath));
    add_systems manpathlist manpath systems
  end.

Definition add_system_manpath (systems : option cstr) (manpathlist : cstr) : outcome cstr :=
  let systems := match systems with Some x => Some x | None => getenv "SYSTEM" end in
  match systems with
  | None | Some [] => Ret manpathlist
  | Some systems =>
    manpath ← add_systems manpathlist None (strtok (one_of (lit ",:")) systems);
    Ret (default manpathlist manpath)
  end.

(** ** The default path and the path from [$PATH] *)

Definition def_path (flag : config_flag) : outcome cstr :=
  manpath ← pathappends None
    (filter (λ d, is_directory d = 1%Z)
       (concat ((λ i, expand_path (ci_key i)) <$> filter (λ i, has_flag flag i = true) (config s))));
  Ret (default (lit "/usr/man") manpath).

Definition add_expanded_dir_to_list (l : list cstr) (dir : cstr) : list cstr :=
  if bool_decide (dir ∈ l) then l
  else if (is_directory dir =? 1)%Z then l ++ [dir] else l.

Definition add_dir_to_list (l : list cstr) (dir : cstr) : list cstr :=
  fold_left add_expanded_dir_to_list (expand_path dir) l.

Definition add_man_subdirs (l : list cstr) (path : cstr) : list cstr :=
  let subdir := strrchr path "/"%char in
  (* a trailing slash goes away *)
  let '(trimmed, subdir) :=
    match subdir with
    | Some n => if bool_decide (S n = length path) then (take n path, strrchr (take n path) "/"%char)
                else (path, subdir)
    | None => (path, None)
    end in
  let add l newpath := if (is_directory newpath =? 1)%Z then add_dir_to_list l newpath else l in
  let add_parent l rest := match subdir with Some n => add l (take n trimmed ++ rest) | None => l end in
  let l := add_parent l (lit "/man") in
  let l := add l (trimmed ++ lit "/man") in
  let l := add_parent l (lit "/share/man") in
  add l (trimmed ++ lit "/share/man").

Definition add_path_dir (l : list cstr) (p : cstr) : list cstr :=
  if bool_decide (p = []) || STREQ p (lit ".") then l
  else
    let maps := filter (λ i, has_flag MANPATH_MAP i && STREQ p (ci_key i) = true) (config s) in
    if bool_decide (maps = []) then add_man_subdirs l p
    else fold_left (λ l i, add_dir_to_list l (ci_cont i)) maps l.

Definition manpath_dirs (path : cstr) (mandatory : bool) : list cstr :=
  let l := fold_left add_path_dir (split_on ":"%char path) [] in
  if mandatory then
    fold_left (λ l i, add_dir_to_list l (ci_key i)) (filter (λ i, has_flag MANDATORY i = true) (config s)) l
  else l.

Definition get_manpath_from_path (path : cstr) (mandatory : bool) : cstr :=
  join ":"%char (manpath_dirs path mandatory).

Definition guess_manpath (systems : option cstr) : outcome cstr :=
  match getenv "PATH", getenv "MAN_TEST_DISABLE_PATH" with
  | None, _ | _, Some _ => m ← def_path MANDATORY; add_system_manpath systems m
  | Some [], _ => m ← def_path MANDATORY; add_system_manpath systems m
  | Some path, _ => add_system_manpath systems (get_manpath_from_path path true)
  end.

Definition get_manpath (systems : option cstr) : outcome cstr :=
  match getenv "MANPATH" with
  | None | Some [] => guess_manpath systems
  | Some m =>
    if bool_decide (head m = Some ":"%char) then
      system1 ← add_system_manpath systems m;
      guessed ← guess_manpath systems;
      Ret (guessed ++ system1)
    else if bool_decide (last m = Some ":"%char) then
      system1 ← add_system_manpath systems m;
      guessed ← guess_manpath systems;
      Ret (system1 ++ guessed)
    else
      match strstr m (lit "::") with
      | Some pos =>
        system1 ← add_system_manpath systems (take pos m);
        guessed ← guess_manpath systems;
        system2 ← add_system_manpath systems (drop (S pos) m);
        Ret (system1 ++ lit ":" ++ guessed ++ system2)
      | None => add_system_manpath systems m
      end
  end.

(** ** The directories of a path *)

Section create_pathlist.
Context (OVERRIDE_DIR : cstr) (cwd : option cstr).

(** Pairs of a path and its canonical path. *)
Definition add_canonical (l : list (cstr * cstr)) (path : cstr) : list (cstr * cstr) :=
  match fs_canonicalize path with
  | None => l
  | Some canon => if bool_decide (canon ∈ l.*2) then l else l ++ [(path, canon)]
  end.

Fixpoint add_dirs_to_path_list (l : list (cstr * cstr)) (dirs : list cstr) : outcome (list (cstr * cstr)) :=
  match dirs with
  | [] => Ret l
  | dir :: dirs =>
    if (is_directory dir <=? 0)%Z then add_dirs_to_path_list l dirs
    else if bool_decide (head dir = Some "/"%char) then add_dirs_to_path_list (add_canonical l dir) dirs
    else
      match cwd with
      | None => Fatal "can't determine current directory"
      | Some cwd => add_dirs_to_path_list (add_canonical l (cwd ++ lit "/" ++ dir)) dirs
      end
  end.

Definition add_dir_to_path_list (l : list (cstr * cstr)) (p : cstr) : outcome (list (cstr * cstr)) :=
  add_dirs_to_path_list l (expand_path p).

Fixpoint path_elements (l : list (cstr * cstr)) (elements : list cstr) : outcome (list (cstr * cstr)) :=
  match elements with
  | [] => Ret l
  | element :: elements =>
    l ← (if bool_decide (OVERRIDE_DIR = []) then Ret l
         else add_dir_to_path_list l (element ++ lit "/" ++ OVERRIDE_DIR));
    l ← add_dir_to_path_list l element;
    path_elements l elements
  end.

Definition create_pathlist (manp : cstr) : outcome (list cstr) :=
  l ← path_elements [] (split_on ":"%char manp); Ret l.*1.
End create_pathlist.
End manpath.

(** ** Joining paths without duplicates *)

Section dedup.
Context (app : cstr) (Happ : ":"%char ∉ app).

Lemma no_colon j : app !! j ≠ Some ":"%char.
Proof using Happ. intros Hj. apply Happ. by eapply list_elem_of_lookup_2. Qed.

Lemma dedup_tok_later fuel tok from : 0 < from → dedup_tok fuel app tok from = Ret app.
Proof using Happ.
  revert from. induction fuel as [|fuel IH]; intros from Hf; cbn [dedup_tok]; [done|].
  destruct (strstr _ _) as [n|]; [|done]. rewrite bool_decide_eq_true_2 by lia.
  rewrite bool_decide_eq_false_2 by apply no_colon. cbn [negb andb]. apply IH. lia.
Qed.

Lemma dedup_tok_one fuel tok :
  tok ≠ [] → dedup_tok (S fuel) app tok 0 = Ret (if decide (tok = app) then [] else app).
Proof using Happ.
  intros Hne. assert (0 < length tok) as Hlen by (destruct tok; [done|simpl; lia]).
  cbn [dedup_tok]. rewrite drop_0. destruct (strstr app tok) as [n|] eqn:E.
  2: { case_decide as Ht; [|done]. subst. by rewrite strstr_here in E. }
  cbn [Nat.add]. destruct (decide (n = 0)) as [->|Hn].
  - rewrite bool_decide_eq_false_2 by lia. cbn [andb]. apply strstr_prefix in E as [k Hk]. rewrite drop_0 in Hk.
    case_bool_decide as Ht.
    + rewrite decide_True; [done|]. rewrite Hk, length_app in Ht. destruct k; [by rewrite app_nil_r in Hk|simpl in Ht; lia].
    + rewrite bool_decide_eq_false_2 by apply no_colon. rewrite dedup_tok_later by lia.
      rewrite decide_False; [done|]. by intros ->.
  - rewrite bool_decide_eq_true_2 by lia. rewrite bool_decide_eq_false_2 by apply no_colon. cbn [negb andb].
    rewrite dedup_tok_later by lia. rewrite decide_False; [done|]. intros ->.
    rewrite strstr_here in E by done. congruence.
Qed.

Lemma dedup_one toks : app ≠ [] → dedup app toks = Ret (if decide (app ∈ toks) then [] else app).
Proof using Happ.
  intros Hne. induction toks as [|tok toks IH]; cbn [dedup]; [by rewrite decide_False by apply not_elem_of_nil|].
  case_bool_decide as Ht.
  - rewrite IH. subst tok. repeat case_decide; try done; exfalso; set_solver.
  - rewrite dedup_tok_one by done. rewrite bind_Ret. destruct (decide (tok = app)) as [->|Hta].
    + rewrite (decide_True (P:=app ∈ app :: toks)) by by left. clear. induction toks as [|t toks IH]; cbn [dedup]; [done|].
      case_bool_decide; [done|]. simpl. destruct t; [done|]. simpl. apply IH.
    + rewrite IH. repeat case_decide; try done; exfalso; set_solver.
Qed.
End dedup.

Lemma pathappend_dir old dir :
  old ≠ [] → dir ≠ [] → ":"%char ∉ dir →
  pathappend (Some old) dir = Ret (if decide (dir ∈ split_on ":"%char old) then old else old ++ ":"%char :: dir).
Proof.
  intros Ho Hd Hc. unfold pathappend. rewrite bool_decide_eq_false_2 by done. rewrite dedup_one by done.
  rewrite bind_Ret. case_decide; [by rewrite bool_decide_eq_true_2|]. by rewrite bool_decide_eq_false_2.
Qed.

(** The directories without the later duplicates. *)
Fixpoint first_of (seen l : list cstr) : list cstr :=
  match l with
  | [] => []
  | d :: l => if decide (d ∈ seen) then first_of seen l else d :: first_of (seen ++ [d]) l
  end.

Definition dir_ok (d : cstr) : Prop := d ≠ [] ∧ ":"%char ∉ d.
#[export] Instance dir_ok_dec d : Decision (dir_ok d).
Proof. unfold dir_ok. apply _. Defined.

Lemma join_snoc (c : ascii) l t : l ≠ [] → join c (l ++ [t]) = join c l ++ c :: t.
Proof.
  induction l as [|u l IH]; [done|]. intros _. destruct l as [|v l]; [done|].
  change (join c ((u :: v :: l) ++ [t])) with (u ++ c :: join c ((v :: l) ++ [t])).
  rewrite IH by done. change (join c (u :: v :: l)) with (u ++ c :: join c (v :: l)). by rewrite <-app_assoc.
Qed.

Lemma pathappends_seen seen l :
  seen ≠ [] → Forall dir_ok seen → Forall dir_ok l →
  pathappends (Some (join ":"%char seen)) l = Ret (Some (join ":"%char (seen ++ first_of seen l))).
Proof.
  intros Hne Hs Hl. revert seen Hne Hs. induction Hl as [|d l [Hd Hc] Hl IH]; intros seen Hne Hs; cbn [pathappends first_of].
  { by rewrite app_nil_r. }
  assert (join ":"%char seen ≠ []) as Hj.
  { destruct Hs as [|u seen [Hu _] Hs]; [done|]. simpl. destruct u; [done|]. by destruct seen. }
  rewrite pathappend_dir by done. rewrite bind_Ret. rewrite split_join; [|done|].
  2: { eapply Forall_impl; [done|]. by intros ? []. }
  case_decide as Hin; [by apply IH|]. rewrite <-join_snoc by done. rewrite IH.
  - by rewrite <-app_assoc.
  - by destruct seen.
  - apply Forall_app. by repeat constructor.
Qed.

Lemma first_of_spec seen l : NoDup (first_of seen l) ∧ ∀ d, d ∈ first_of seen l ↔ d ∈ l ∧ d ∉ seen.
Proof.
  revert seen. induction l as [|d l IH]; intros seen; cbn [first_of].
  - split; [constructor|]. intros d. rewrite elem_of_nil. tauto.
  - case_decide as Hd.
    + destruct (IH seen) as [H1 H2]. split; [done|]. intros x. rewrite H2, elem_of_cons. naive_solver.
    + destruct (IH (seen ++ [d])) as [H1 H2]. split.
      * constructor; [|done]. rewrite H2. set_solver.
      * intros x. rewrite !elem_of_cons, H2, elem_of_app. destruct (decide (x = d)) as [->|]; set_solver.
Qed.

(** Appending directories one after the other to an empty path never
    fails; the result lists each of them once, where it first occurred. *)
Theorem pathappends_dirs d l :
  Forall dir_ok (d :: l) →
  pathappends None (d :: l) = Ret (Some (join ":"%char (d :: first_of [d] l))) ∧
  NoDup (d :: first_of [d] l) ∧ (∀ x, x ∈ d :: first_of [d] l ↔ x ∈ d :: l).
Proof.
  intros [Hd Hl]%Forall_cons. split; [|split].
  - cbn [pathappends pathappend]. rewrite bind_Ret. change d with (join ":"%char [d]) at 1.
    rewrite pathappends_seen; [done|done|by apply Forall_singleton|done].
  - constructor; [|apply first_of_spec]. rewrite (proj2 (first_of_spec _ _)). set_solver.
  - intros x. rewrite !elem_of_cons, (proj2 (first_of_spec _ _)). destruct (decide (x = d)); set_solver.
Qed.

Lemma pathappends_dirs_witness :
  pathappends None [lit "/usr/man"; lit "/usr"; lit "/usr/man"] = Ret (Some (lit "/usr/man:/usr")).
Proof. refine (proj1 (pathappends_dirs (lit "/usr/man") [lit "/usr"; lit "/usr/man"] _)). compute_done. Defined.

(** Appending a path of several directories whose first one is already
    there makes [pathappend] search the string it has just freed.  [SYSTEM=x:man]
    leads [add_system_manpath] to append such a path. *)
Theorem pathappend_use_after_free :
  pathappend (Some (lit "/a")) (lit "/a:/b") = Undef "pathappend: search in freed memory" ∧
  pathappend (Some (lit "/b")) (lit "/a:/b") = Ret (lit "/b:/a").
Proof. by vm_compute. Qed.

(** ** The directories on the path *)

Section lists.
Context (s : config_state) (getenv : string → option cstr) `{FileSystem}.

(** Every directory once. *)
Definition dirs_ok (l : list cstr) : Prop := NoDup l ∧ Forall (λ d, is_directory d = 1%Z) l.

Lemma add_expanded_ok l dir :
  dirs_ok l → dirs_ok (add_expanded_dir_to_list l dir) ∧ l ⊆ add_expanded_dir_to_list l dir ∧
    (is_directory dir = 1%Z → dir ∈ add_expanded_dir_to_list l dir) ∧
    ∀ d, d ∈ add_expanded_dir_to_list l dir → d ∈ l ∨ d = dir.
Proof.
  intros [Hn Hd]. unfold add_expanded_dir_to_list. case_bool_decide as Hin; [split; [done|]; naive_solver|].
  destruct (Z.eqb_spec (is_directory dir) 1) as [E|E]; [|split; [done|]; naive_solver].
  split; [split|split].
  - apply NoDup_app. split; [done|]. split; [|apply NoDup_singleton]. set_solver.
  - apply Forall_app. by repeat constructor.
  - set_solver.
  - set_solver.
Qed.

(** Adding directories keeps what is there. *)
Definition grows (f : list cstr → list cstr) : Prop := ∀ l, dirs_ok l → dirs_ok (f l) ∧ l ⊆ f l.

Lemma grows_fold {A} (f : list cstr → A → list cstr) (xs : list A) :
  (∀ x, grows (λ l, f l x)) → grows (λ l, fold_left f xs l).
Proof.
  intros Hf. induction xs as [|x xs IH]; intros l Hl; simpl; [done|].
  destruct (Hf x l Hl) as [H1 H2]. destruct (IH _ H1) as [H3 H4]. split; [done|]. by etrans.
Qed.

Lemma grows_add_dir dir : grows (λ l, add_dir_to_list l dir).
Proof. apply grows_fold. intros d l Hl. destruct (add_expanded_ok l d Hl) as (? & ? & _). done. Qed.

Lemma grows_compose f g : grows f → grows g → grows (λ l, g (f l)).
Proof.
  intros Hf Hg l Hl. destruct (Hf l Hl) as [H1 H2]. destruct (Hg _ H1) as [H3 H4]. split; [done|]. by etrans.
Qed.

Lemma grows_add_path_dir p : grows (λ l, add_path_dir s l p).
Proof.
  intros l Hl. unfold add_path_dir. destruct (_ || _); [done|]. case_bool_decide.
  - unfold add_man_subdirs.
    match goal with |- context [let '(_, _) := ?x in _] => destruct x as [trimmed subdir] end.
    assert (∀ q, grows (λ l, if (is_directory q =? 1)%Z then add_dir_to_list l q else l)) as Hadd.
    { intros q l0 Hl0. destruct (_ =? _)%Z; [by apply grows_add_dir|done]. }
    assert (∀ f (o : option nat), (∀ n, grows (f n)) → grows (λ l, match o with Some n => f n l | None => l end)) as Hopt.
    { intros f [n|] Hf l0 Hl0; [by apply Hf|done]. }
    destruct subdir as [n|].
    + by apply (grows_compose _ _ (grows_compose _ _ (grows_compose _ _ (Hadd _) (Hadd _)) (Hadd _)) (Hadd _)).
    + by apply (grows_compose _ _ (Hadd _) (Hadd _)).
  - apply grows_fold; [|done]. intros i. apply grows_add_dir.
Qed.

(** The path worked out from [$PATH] lists directories only, each of them
    once, and in particular, when asked for, every mandatory directory that
    exists. *)
Theorem manpath_dirs_ok path mandatory :
  dirs_ok (manpath_dirs s path mandatory) ∧
  (mandatory = true → ∀ i d, i ∈ config s → ci_flag i = MANDATORY → d ∈ expand_path (ci_key i) →
    is_directory d = 1%Z → d ∈ manpath_dirs s path mandatory).
Proof.
  unfold manpath_dirs. set (l0 := fold_left (add_path_dir s) _ []).
  assert (dirs_ok l0) as Hl0.
  { apply (grows_fold (add_path_dir s)); [apply grows_add_path_dir|]. split; constructor. }
  set (f := λ l i, add_dir_to_list l (ci_key i)).
  assert (∀ its, grows (λ l, fold_left f its l)) as Hgrow
    by (intros its; apply grows_fold; intros i; apply grows_add_dir).
  destruct mandatory; [|done]. split; [by apply Hgrow|]. intros _ i d Hi Hflag Hd Hdir.
  assert (i ∈ filter (λ i, has_flag MANDATORY i = true) (config s)) as Hin.
  { apply list_elem_of_filter. split; [by apply bool_decide_eq_true_2|done]. }
  clearbody l0. revert l0 Hl0. induction (filter _ (config s)) as [|j its IH]; [by apply elem_of_nil in Hin|].
  intros l0 Hl0. cbn [fold_left]. destruct (grows_add_dir (ci_key j) l0 Hl0) as [Hl1 _].
  apply elem_of_cons in Hin as [<-|Hin]; [|by apply IH]. apply (proj2 (Hgrow its (f l0 i) Hl1)). unfold f, add_dir_to_list.
  clear IH Hl1. revert l0 Hl0. induction (expand_path (ci_key i)) as [|e es IHe]; [by apply elem_of_nil in Hd|].
  intros l0 Hl0. cbn [fold_left]. destruct (add_expanded_ok l0 e Hl0) as (Hl1 & _ & Hadd & _).
  apply elem_of_cons in Hd as [<-|Hd]; [|by apply IHe].
  apply (grows_fold add_expanded_dir_to_list es); [|done|by apply Hadd].
  intros x l Hl. destruct (add_expanded_ok l x Hl) as (? & ? & _). done.
Qed.
End lists.

Section pathlist.
Context (OVERRIDE_DIR : cstr) (w : cstr) `{FileSystem}.

Definition absolute (dir : cstr) : cstr :=
  if bool_decide (head dir = Some "/"%char) then dir else w ++ lit "/" ++ dir.

(** Pairs of a path and its canonical path, no two with the same. *)
Definition pairs_ok (l : list (cstr * cstr)) : Prop :=
  NoDup l.*2 ∧ Forall (λ pc, fs_canonicalize pc.1 = Some pc.2) l.

Lemma add_canonical_ok l path :
  pairs_ok l → pairs_ok (add_canonical l path) ∧ l.*2 ⊆ (add_canonical l path).*2 ∧
    ∀ c, fs_canonicalize path = Some c → c ∈ (add_canonical l path).*2.
Proof.
  intros [Hn Hc]. unfold add_canonical. destruct (fs_canonicalize path) as [canon|] eqn:E; [|by split_and!].
  case_bool_decide as Hin; [split_and!; try done; by intros c [= <-]|]. rewrite fmap_app. split; [split|split].
  - rewrite fmap_app. apply NoDup_app. split; [done|]. split; [set_solver|apply NoDup_singleton].
  - apply Forall_app. by repeat constructor.
  - set_solver.
  - intros c [= <-]. set_solver.
Qed.

Lemma add_dirs_ok l dirs :
  pairs_ok l → ∃ l', add_dirs_to_path_list (Some w) l dirs = Ret l' ∧ pairs_ok l' ∧ l.*2 ⊆ l'.*2 ∧
    ∀ d c, d ∈ dirs → is_directory d = 1%Z → fs_canonicalize (absolute d) = Some c → c ∈ l'.*2.
Proof.
  revert l. induction dirs as [|d dirs IH]; intros l Hl; cbn [add_dirs_to_path_list].
  { exists l. split; [done|]. split; [done|]. split; [done|]. by intros ?? ?%elem_of_nil. }
  destruct (Z.leb_spec (is_directory d) 0) as [Hd|Hd].
  - destruct (IH l Hl) as (l' & -> & ? & ? & Hin). exists l'. split; [done|]. split; [done|]. split; [done|].
    intros x c [->|Hx]%elem_of_cons Hdir; [lia|]. by apply Hin.
  - destruct (add_canonical_ok l (absolute d) Hl) as (Hl1 & Hsub & Hadd).
    destruct (IH _ Hl1) as (l' & Heq & ? & Hsub' & Hin). exists l'. split.
    { unfold absolute in Heq. by case_bool_decide. }
    split; [done|]. split; [by etrans|]. intros x c [->|Hx]%elem_of_cons Hdir Hc; [by apply Hsub', Hadd|by eapply Hin].
Qed.

Lemma path_elements_ok l elements :
  pairs_ok l → ∃ l', path_elements OVERRIDE_DIR (Some w) l elements = Ret l' ∧ pairs_ok l' ∧ l.*2 ⊆ l'.*2 ∧
    ∀ e d c, e ∈ elements → d ∈ expand_path e → is_directory d = 1%Z → fs_canonicalize (absolute d) = Some c →
      c ∈ l'.*2.
Proof.
  revert l. induction elements as [|e elements IH]; intros l Hl; cbn [path_elements].
  { exists l. split; [done|]. split; [done|]. split; [done|]. by intros ??? ?%elem_of_nil. }
  assert (∃ l1, (if bool_decide (OVERRIDE_DIR = []) then Ret l
      else add_dir_to_path_list (Some w) l (e ++ lit "/" ++ OVERRIDE_DIR)) = Ret l1 ∧ pairs_ok l1 ∧ l.*2 ⊆ l1.*2)
    as (l1 & -> & Hl1 & Hs1).
  { case_bool_decide; [by exists l|].
    destruct (add_dirs_ok l (expand_path (e ++ lit "/" ++ OVERRIDE_DIR)) Hl) as (l1 & ? & ? & ? & _). by exists l1. }
  rewrite bind_Ret. destruct (add_dirs_ok l1 (expand_path e) Hl1) as (l2 & Heq2 & Hl2 & Hs2 & Hin2).
  unfold add_dir_to_path_list. rewrite Heq2, bind_Ret. destruct (IH l2 Hl2) as (l3 & -> & Hl3 & Hs3 & Hin3).
  exists l3. split; [done|]. split; [done|]. split; [intros x Hx; by apply Hs3, Hs2, Hs1|].
  intros x d c [->|Hx]%elem_of_cons Hd Hdir Hc; [apply Hs3; by apply (Hin2 d c)|by apply (Hin3 x d c)].
Qed.

(** The list of directories made of a search path has no two entries with
    the same canonical path, only entries that have one, and covers every
    directory the elements of the path expand to. *)
Theorem create_pathlist_ok manp :
  ∃ l, create_pathlist OVERRIDE_DIR (Some w) manp = Ret l ∧
    NoDup (fs_canonicalize <$> l) ∧ Forall (λ p, is_Some (fs_canonicalize p)) l ∧
    ∀ e d c, e ∈ split_on ":"%char manp → d ∈ expand_path e → is_directory d = 1%Z →
      fs_canonicalize (absolute d) = Some c → Some c ∈ fs_canonicalize <$> l.
Proof.
  destruct (path_elements_ok [] (split_on ":"%char manp)) as (l & Heq & [Hn Hc] & _ & Hin); [split; constructor|].
  unfold create_pathlist. rewrite Heq, bind_Ret. eexists. split; [done|].
  assert (fs_canonicalize <$> l.*1 = Some <$> l.*2) as Heq2.
  { rewrite <-!list_fmap_compose. apply Forall_fmap_ext_1. done. }
  rewrite Heq2. split; [by apply NoDup_fmap_2; [apply _|]|]. split.
  - apply Forall_fmap. eapply Forall_impl; [done|]. intros [p c] ?. by exists c.
  - intros e d c He Hd Hdir Hcan. apply list_elem_of_fmap. exists c. split; [done|]. by eapply Hin.
Qed.
End pathlist.
