(* ===== verification/Accessdb.v ===== *)
(** * src/accessdb.c: printing an index *)

From S2P Require Import Prelude CStr Fs Util Mydbm DbDelete.


Inductive key := Key_d | Key_h | ARGP_KEY_ARG (arg : cstr) | ARGP_KEY_NO_ARGS.

Section accessdb.
Context `{FileSystem} (FHS_CAT_ROOT CAT_ROOT MAN_DB : cstr).

Definition cat_root : option cstr :=
  if bool_decide (is_directory FHS_CAT_ROOT = 1)%Z then Some FHS_CAT_ROOT
  else if bool_decide (is_directory CAT_ROOT = 1)%Z then Some CAT_ROOT else None.

(** [database]; without a directory of cat pages [mkdbname] is given a null
    pointer. *)
Definition parse_opt (k : key) (database : option cstr) : outcome (option cstr) :=
  match k with
  | Key_d => Ret database
  | Key_h => Fatal "argp_state_help"
  | ARGP_KEY_ARG arg => match database with Some _ => Fatal "argp_usage" | None => Ret (Some arg) end
  | ARGP_KEY_NO_ARGS => match cat_root with Some root => Ret (Some (root ++ MAN_DB)) | None => Undef "mkdbname: null" end
  end.

Fixpoint parse_opts (ks : list key) (database : option cstr) : outcome (option cstr) :=
  match ks with
  | [] => Ret database
  | k :: ks => database ← parse_opt k database; parse_opts ks database
  end.

Definition OK : Z := 0.
Definition FATAL : Z := 2.

Definition replace (from to : ascii) (s : cstr) : cstr := (λ c, if bool_decide (c = from) then to else c) <$> s.

Definition entry_line (key content : cstr) : cstr :=
  replace TAB "~"%char key ++ lit " -> " ++ [DQUOTE] ++ replace TAB " "%char content ++ [DQUOTE; NL].

Context {db : Type} `{Mydbm db} (open_rd : cstr → option db).

(** The exit status and the lines printed. *)
Fixpoint dump (dbf : db) (keys : list cstr) (ret : Z) : Z * list cstr :=
  match keys with
  | [] => (ret, [])
  | key :: keys =>
    match MYDBM_FETCH dbf key with
    | None => dump dbf keys FATAL
    | Some content => let '(ret, out) := dump dbf keys ret in (ret, entry_line key content :: out)
    end
  end.

Definition main (ks : list key) : outcome (Z * list cstr) :=
  database ← parse_opts ks None;
  match database with
  | None => Undef "MYDBM_NEW: null"
  | Some database =>
    match open_rd database with
    | Some dbf => if (dbver_rd dbf =? 0)%Z then Ret (dump dbf (db_keys dbf) OK) else Fatal "can't open for reading"
    | None => Fatal "can't open for reading"
    end
  end.
End accessdb.

Lemma dump_found {db} `{MydbmLaws db} (dbf : db) keys ret :
  Forall (λ k, is_Some (db_view dbf !! k)) keys →
  dump dbf keys ret = (ret, (λ k, entry_line k (default [] (db_view dbf !! k))) <$> keys).
Proof.
  induction 1 as [|k keys [c Hc] _ IH]; [done|]. cbn [dump]. rewrite fetch_view, Hc, IH. cbn. by rewrite Hc.
Qed.

(** An index is printed as a whole: one line for each of its entries, in the
    order of their keys. *)
Theorem accessdb_prints {db} `{MydbmLaws db} `{FileSystem} FHS CAT MAN_DB (open_rd : cstr → option db) arg dbf :
  open_rd arg = Some dbf → dbver_rd dbf = 0%Z →
  ∃ keys, main FHS CAT MAN_DB open_rd [ARGP_KEY_ARG arg] = Ret (OK, (λ k, entry_line k (default [] (db_view dbf !! k))) <$> keys) ∧
    StronglySorted (cmp_le strcmp) keys ∧ NoDup keys ∧ ∀ k, k ∈ keys ↔ is_Some (db_view dbf !! k).
Proof.
  intros Ho Hv. exists (db_keys dbf). unfold main. cbn [parse_opts parse_opt]. rewrite !bind_Ret, Ho, Hv. cbn [Z.eqb].
  rewrite dump_found by (apply Forall_forall; intros k; apply elem_of_db_keys).
  split_and!; [done|apply db_keys_sorted|apply db_keys_NoDup|apply elem_of_db_keys].
Qed.
