(* ===== verification/ManpathMain.v ===== *)
(** * src/manpath.c: printing the search path *)

From S2P Require Import Prelude CStr Fs Manp Manpath.

Inductive key := Key_c | Key_g | Key_d | Key_q | Key_C (file : cstr) | Key_m (systems : cstr) | Key_h.
Record options := Options { cat : bool; global : bool; quiet : bool; alt_system : cstr; user_config_file : option cstr }.
Definition defaults : options := Options false false false [] None.

Definition parse_opt (k : key) (o : options) : outcome options :=
  match k with
  | Key_c => Ret (Options true (global o) (quiet o) (alt_system o) (user_config_file o))
  | Key_g => Ret (Options (cat o) true true (alt_system o) (user_config_file o))
  | Key_d => Ret o
  | Key_q => Ret (Options (cat o) (global o) true (alt_system o) (user_config_file o))
  | Key_C file => Ret (Options (cat o) (global o) (quiet o) (alt_system o) (Some file))
  | Key_m systems => Ret (Options (cat o) (global o) (quiet o) systems (user_config_file o))
  | Key_h => Fatal "argp_state_help"
  end.

Fixpoint parse_opts (ks : list key) (o : options) : outcome options :=
  match ks with [] => Ret o | k :: ks => o ← parse_opt k o; parse_opts ks o end.

(** The path is worked out even when -g prints another one.  The configuration
    is that of the file the options name. *)
Definition main `{FileSystem} (config : option cstr → config_state) (getenv : string → option cstr) (ks : list key)
    : outcome cstr :=
  o ← parse_opts ks defaults;
  let conf := config (user_config_file o) in
  path ← get_manpath conf getenv (Some (alt_system o));
  path ← (if global o then
            path ← get_mandb_manpath conf;
            match path with Some p => Ret p | None => Fatal "no global manpaths set in config file" end
          else Ret path);
  path ← (if cat o then cat_manpath conf path else Ret (Some path));
  match path with Some p => Ret (p ++ [NL]) | None => Undef "printf of a null pointer" end.

(** [-g] prints the same whatever the environment says, once the environment
    gives a path at all. *)
Theorem global_path_fixed `{FileSystem} config getenv getenv' p p' :
  main config getenv [Key_g] = Ret p → main config getenv' [Key_g] = Ret p' → p = p'.
Proof.
  unfold main. cbn [parse_opts parse_opt]. rewrite !bind_Ret. cbn [global cat defaults user_config_file alt_system].
  intros (? & _ & Hp)%bind_Ret_inv (? & _ & Hp')%bind_Ret_inv. by rewrite Hp in Hp'; injection Hp' as ->.
Qed.
