(* ===== verification/Zsoelim.v ===== *)
(** * src/zsoelim.l, src/zsoelim_main.c: including files

    A [.so] request in a page is replaced by the file it names, compressed or
    not, with [.lf] requests that tell troff which file and line it reads.  The
    files that are being read form a stack of limited depth. *)

From S2P Require Import Prelude CStr Regex Fs Compression Wordfnmatch Globbing Manconv Pipe Decompress ManconvClient Manp Manpath.

(** ** The state *)

Inductive zcond := INITIAL | so | de | end_request | lfnumber | lfname.
#[export] Instance zcond_eq_dec : EqDecision zcond.
Proof. solve_decision. Defined.

Definition MAX_SO_DEPTH : nat := 10.
Definition INT_MAX : Z := 2147483647.

(** A file on the stack: [NAME], [LINE], what is left of its text, and whether
    flex is at the beginning of a line. *)
Record frame := Frame { fr_name : cstr; fr_line : Z; fr_text : list ascii; fr_bol : bool }.

(** [z_stack]: the files below the current one; [cache]: what finding files
    keeps. *)
Record zstate (cache : Type) := Zstate {
  z_top : frame; z_stack : list frame; z_cond : zcond; no_newline : bool; z_out : list ascii; z_cache : cache;
}.
Arguments Zstate {cache} _ _ _ _ _ _.
Arguments z_top {cache} _.
Arguments z_stack {cache} _.
Arguments z_cond {cache} _.
Arguments no_newline {cache} _.
Arguments z_out {cache} _.
Arguments z_cache {cache} _.

Section scanner.
Context {cache : Type}.
(** [zsoelim_open_file]: the file found for a name, and its text. *)
Context (open_file : cstr → cache → outcome (option (cstr * list ascii) * cache)).
Implicit Types z : zstate cache.

Definition set_top (f : frame) z : zstate cache := Zstate f (z_stack z) (z_cond z) (no_newline z) (z_out z) (z_cache z).
Definition zbegin (c : zcond) z : zstate cache := Zstate (z_top z) (z_stack z) c (no_newline z) (z_out z) (z_cache z).
Definition set_newline (b : bool) z : zstate cache := Zstate (z_top z) (z_stack z) (z_cond z) b (z_out z) (z_cache z).
Definition echo (s : list ascii) z : zstate cache := Zstate (z_top z) (z_stack z) (z_cond z) (no_newline z) (z_out z ++ s) (z_cache z).
Definition set_line (n : Z) z : zstate cache :=
  let f := z_top z in set_top (Frame (fr_name f) n (fr_text f) (fr_bol f)) z.
Definition set_frame_name (n : cstr) z : zstate cache :=
  let f := z_top z in set_top (Frame n (fr_line f) (fr_text f) (fr_bol f)) z.

(** [LINE++] on an [int]. *)
Definition next_line z : outcome (zstate cache) :=
  if (fr_line (z_top z) <? INT_MAX)%Z then Ret (set_line (fr_line (z_top z) + 1) z) else Undef "LINE++".

(** [printf (".lf %d %s\n", line, name)] *)
Definition lf_request (line : Z) (name : cstr) : list ascii := lit ".lf " ++ print_ld line ++ [" "%char] ++ name ++ [NL].

(** ** The rules *)

Definition copy (yytext : list ascii) z : outcome (zstate cache) := Ret (echo yytext (set_newline true z)).
Definition copy_begin (c : zcond) (yytext : list ascii) z : outcome (zstate cache) := Ret (zbegin c (echo yytext (set_newline true z))).
Definition newline (yytext : list ascii) z : outcome (zstate cache) := next_line (echo [NL] (set_newline false z)).
Definition newline_begin (c : zcond) (yytext : list ascii) z : outcome (zstate cache) :=
  z ← next_line (echo [NL] (set_newline false z)); Ret (zbegin c z).

(** The name of a [.so] request. *)
Definition so_request (yytext : list ascii) z : outcome (zstate cache) :=
  if bool_decide (length (z_stack z) = MAX_SO_DEPTH - 1) then Fatal ".so requests nested too deeply or are recursive"
  else
    let z := set_newline false z in
    let name := xstrndup yytext in
    '(file, c) ← open_file name (z_cache z);
    let z := Zstate (z_top z) (z_stack z) (z_cond z) (no_newline z) (z_out z) c in
    match file with
    | None => Ret (zbegin end_request (echo (lit ".so " ++ name ++ [NL]) z))
    | Some (found, text) =>
      let z := echo (lit ".lf 1 " ++ name ++ [NL]) z in
      Ret (Zstate (Frame found 1 text true) (z_top z :: z_stack z) INITIAL (no_newline z) (z_out z) (z_cache z))
    end.

(** [LINE = atoi (yytext)]: a quote is no digit. *)
Definition lf_number (yytext : list ascii) z : outcome (zstate cache) :=
  n ← atol (xstrndup yytext);
  if bool_decide (n <= INT_MAX)%Z then Ret (zbegin lfname (set_line n (echo yytext (set_newline true z))))
  else Undef "atoi: value out of range".
Definition lf_name (yytext : list ascii) z : outcome (zstate cache) :=
  Ret (zbegin end_request (set_frame_name (xstrndup yytext) (echo (yytext ++ [NL]) (set_newline true z)))).

Record zrule := Zrule { zr_conds : list zcond; zr_bol : bool; zr_pat : regex; zr_act : list ascii → zstate cache → outcome (zstate cache) }.

Definition W : regex := Cls (one_of [" "%char; TAB]).
Definition quote : regex := chr DQUOTE.
Definition file_name : regex := (opt quote ++ plus (notin [" "%char; TAB; NL; DQUOTE]) ++ opt quote)%re.

(** The rules in their order; [bol] marks those that match only where a line
    begins. *)
Definition on (cs : list zcond) (pats : list regex) (act : list ascii → zstate cache → outcome (zstate cache)) : list zrule :=
  (λ p, Zrule cs false p act) <$> pats.
Definition bol (cs : list zcond) (pats : list regex) (act : list ascii → zstate cache → outcome (zstate cache)) : list zrule :=
  (λ p, Zrule cs true p act) <$> pats.

Definition zrules : list zrule := (concat [
  bol [INITIAL] [str ".de" ++ Star W ++ plus dot] (copy_begin de);
  bol [INITIAL] [str ".so" ++ Star W] (λ _ z, Ret (zbegin so (set_newline true z)));
  bol [INITIAL] [str ".lf" ++ Star W] (copy_begin lfnumber);
  bol [INITIAL] [
    notin ["."%char; NL] ++ Star dot;
    str "." ++ notin (lit "sl") ++ Star dot;
    str ".l" ++ notin (lit "f") ++ Star dot;
    str ".s" ++ notin (lit "o") ++ Star dot;
    str ".s";
    str ".l" ] copy;
  on [INITIAL] [dot] copy;
  on [INITIAL] [chr NL] newline;
  on [so] [file_name] so_request;
  on [end_request] [Star W ++ chr NL] (λ _ z, Ret (zbegin INITIAL (set_newline false z)));
  on [so] [chr NL] (newline_begin INITIAL);
  bol [de] [str ".." ++ Star dot] (copy_begin INITIAL);
  on [de] [Star dot] copy;
  on [de] [chr NL] newline;
  on [lfnumber] [opt quote ++ plus (Cls isdigit) ++ opt quote] lf_number;
  on [lfname] [file_name] lf_name;
  on [lfname] [plus W] copy;
  on [lfname] [chr NL] (newline_begin INITIAL);
  on [lfnumber; lfname] [dot] (λ yytext z, Ret (zbegin INITIAL (echo (take 1 yytext) (set_newline true z))));
  on [lfnumber] [chr NL] (newline_begin INITIAL) ])%re.

(** ** The scanner *)

Definition zscanner (c : zcond) (at_bol : bool) : list (nat * regex) :=
  (λ ir, (ir.1, zr_pat ir.2)) <$> filter (λ ir, c ∈ zr_conds ir.2 ∧ (zr_bol ir.2 = true → at_bol = true)) (imap pair zrules).

(** Reading a match of [n] characters. *)
Definition consume (n : nat) z : zstate cache :=
  let f := z_top z in
  set_top (Frame (fr_name f) (fr_line f) (drop n (fr_text f)) (match last (take n (fr_text f)) with Some c => Ascii.eqb c NL | None => fr_bol f end)) z.

(** The end of a file: the file below goes on, [None] when there is none. *)
Definition zeof z : outcome (option (zstate cache)) :=
  let z := if no_newline z then echo [NL] z else z in
  match z_stack z with
  | [] => Ret None
  | f :: fs =>
    z ← next_line (Zstate f fs (z_cond z) (no_newline z) (z_out z) (z_cache z));
    Ret (Some (zbegin end_request (set_newline false (echo (lf_request (fr_line (z_top z)) (fr_name (z_top z))) z))))
  end.

(** One match, or the end of a file. *)
Definition zstep z : outcome (option (zstate cache)) :=
  let f := z_top z in
  match fr_text f with
  | [] => zeof z
  | _ =>
    match longest_match (zscanner (z_cond z) (fr_bol f)) (fr_text f) with
    | Some (n, i) =>
      match zrules !! i with
      | Some r => Some <$> zr_act r (take n (fr_text f)) (consume n z)
      | None => Undef "no rule"
      end
    | None => Ret (Some (echo (take 1 (fr_text f)) (consume 1 z)))
    end
  end.

(** What the end of the outermost file leaves: the condition, whether the last
    line was complete, the output and the cache. *)
Definition zend z : zcond * bool * list ascii * cache :=
  (z_cond z, no_newline z, z_out z ++ (if no_newline z then [NL] else []), z_cache z).

(** [yylex]: [None] when the fuel was not enough. *)
Fixpoint zlex (fuel : nat) z : option (outcome (zcond * bool * list ascii * cache)) :=
  match fuel with
  | 0 => None
  | S fuel =>
    match zstep z with
    | Ret (Some z') => zlex fuel z'
    | Ret None => Some (Ret (zend z))
    | Fatal m => Some (Fatal m)
    | Undef w => Some (Undef w)
    end
  end.

(** [zsoelim_parse_file] for an open file; the condition and the flag are those
    the file before it left.  The first line is copied when [manconv] may need
    it. *)
Definition zsoelim_start (name : cstr) (text : list ascii) (c : zcond) (nn : bool) (ca : cache) : zstate cache :=
  let '(skipped, linenum) :=
    match first_line text with
    | Some line => if STRNEQ line PP_COOKIE 4 || STRNEQ line BAD_COOKIE 4 then (line, 2%Z) else ([], 1%Z)
    | None => ([], 1%Z)
    end in
  Zstate (Frame name 1 (drop (length skipped) text) true) [] c nn (skipped ++ lf_request linenum name) ca.
End scanner.

(** ** Finding a file *)

Section find.
Context (cfg : comp_config) `{FileSystem} `{Zlib} `{Matcher} (layout : Z) (extension : option cstr).

Fixpoint try_extensions (name : cstr) (comps : list compression) : option (cstr * decompress) :=
  match comps with
  | [] => None
  | comp :: comps =>
    let f := name ++ lit "." ++ comp_ext comp in
    match decompress_open cfg f DECOMPRESS_ALLOW_INPROCESS with
    | Some d => Some (f, d)
    | None => try_extensions name comps
    end
  end.

(** The plain file, or the first that exists with an extension. *)
Definition try_compressed (name : cstr) : option (cstr * decompress) :=
  match decompress_open cfg name DECOMPRESS_ALLOW_INPROCESS with
  | Some d => Some (name, d)
  | None => try_extensions name (comp_list cfg)
  end.

(** The first of some files that can be opened. *)
Fixpoint open_first (names : list cstr) : option (cstr * decompress) :=
  match names with
  | [] => None
  | f :: names => match decompress_open cfg f DECOMPRESS_ALLOW_INPROCESS with Some d => Some (f, d) | None => open_first names end
  end.

(** The hierarchies other than the parent's. *)
Definition other_paths (parent_path : option cstr) (manpathlist : list cstr) : list cstr :=
  filter (λ mp, Some mp ≠ parent_path) manpathlist.

Fixpoint search_paths (paths : list cstr) (filename : cstr) : option (cstr * decompress) :=
  match paths with
  | [] => None
  | mp :: paths =>
    match try_compressed (mp ++ lit "/" ++ filename) with Some r => Some r | None => search_paths paths filename end
  end.

Fixpoint look_in_paths (paths : list cstr) (sec name : cstr) (c : dirent_map) : option (cstr * decompress) * dirent_map :=
  match paths with
  | [] => (None, c)
  | mp :: paths =>
    let '(names, c) := look_for_file layout extension mp sec name false (Lff true false false) c in
    match open_first names with Some r => (Some r, c) | None => look_in_paths paths sec name c end
  end.

(** [zsoelim_open_file] for a name that is not a dash: the file found. *)
Definition zsoelim_find (manpathlist : list cstr) (parent_path : option cstr) (filename : cstr) (c : dirent_map)
    : option (cstr * decompress) * dirent_map :=
  let paths := (match parent_path with Some p => [p] | None => [] end) ++ other_paths parent_path manpathlist in
  let direct := try_compressed filename in
  match (match parent_path with None => direct | Some _ => None end) with
  | Some r => (Some r, c)
  | None =>
    let last_resort (r : option (cstr * decompress)) :=
      match r, parent_path with Some r, _ => Some r | None, Some _ => direct | None, None => None end in
    if bool_decide ("/"%char ∈ filename) then (last_resort (search_paths paths filename), c)
    else
      match strchr filename "."%char with
      | None => (None, c)
      | Some dot =>
        let name := take dot filename in
        let sec := drop (S dot) filename in
        let sec := match strchr sec "."%char with Some dot => take dot sec | None => sec end in
        let '(r, c) := look_in_paths paths sec name c in (last_resort r, c)
      end
  end.

(** The bytes that a started decompressor delivers; a copy of the standard
    input's descriptor. *)
Context (contents : decompress → list ascii) (stdin_fd : Z) (OVERRIDE_DIR : cstr) (cwd : option cstr).

Definition zsoelim_open_file (manpathlist : list cstr) (parent_path : option cstr) (filename : cstr) (c : dirent_map)
    : outcome (option (cstr * list ascii) * dirent_map) :=
  if STREQ filename (lit "-") then Ret (Some (filename, contents (decompress_fdopen stdin_fd)), c)
  else let '(r, c) := zsoelim_find manpathlist parent_path filename c in Ret ((λ r, (r.1, contents r.2)) <$> r, c).

Definition zsoelim_parse_file (fuel : nat) (manpathlist : list cstr) (parent_path : option cstr) (name : cstr) (text : list ascii)
    (c : zcond) (nn : bool) (ca : dirent_map) : option (outcome (zcond * bool * list ascii * dirent_map)) :=
  zlex (zsoelim_open_file manpathlist parent_path) fuel (zsoelim_start name text c nn ca).

(** The child of a pipeline: it reads the standard input. *)
Definition zsoelim_stdin (fuel : nat) (path : option cstr) (manpathlist : list cstr) : option (outcome (list ascii)) :=
  let stdin := contents (decompress_fdopen stdin_fd) in
  (λ r, '(_, _, out, _) ← r; Ret out) <$> zsoelim_parse_file fuel manpathlist path (lit "-") stdin INITIAL false ∅.

(** *** The program zsoelim *)

(** [-d], [-C], [-h] and the end of the options. *)
Inductive key := Key_d | Key_C | Key_h | ARGP_KEY_NO_ARGS | ARGP_KEY_ARGS (files : list cstr).
Definition parse_opt (k : key) (files : list cstr) : outcome (list cstr) :=
  match k with
  | Key_d | Key_C => Ret files
  | Key_h => Fatal "argp_state_help"
  | ARGP_KEY_NO_ARGS => Ret [lit "-"]
  | ARGP_KEY_ARGS fs => Ret fs
  end.
Fixpoint parse_opts (ks : list key) (files : list cstr) : outcome (list cstr) :=
  match ks with [] => Ret files | k :: ks => fs ← parse_opt k files; parse_opts ks fs end.

(** One file after the other; those that cannot be opened are left out. *)
Fixpoint zsoelim_files (fuel : nat) (manpathlist : list cstr) (files : list cstr) (c : zcond) (nn : bool) (ca : dirent_map)
    : option (outcome (list ascii)) :=
  match files with
  | [] => Some (Ret [])
  | f :: files =>
    match zsoelim_open_file manpathlist None f ca with
    | Ret (None, ca) => zsoelim_files fuel manpathlist files c nn ca
    | Ret (Some (name, text), ca) =>
      match zsoelim_parse_file fuel manpathlist None name text c nn ca with
      | Some (Ret (c, nn, out, ca)) => (λ r, rest ← r; Ret (out ++ rest)) <$> zsoelim_files fuel manpathlist files c nn ca
      | Some (Fatal m) => Some (Fatal m)
      | Some (Undef w) => Some (Undef w)
      | None => None
      end
    | Fatal m => Some (Fatal m)
    | Undef w => Some (Undef w)
    end
  end.

(** [locales]: what [all_locales] is built from, the locale of messages and the
    value of [LANGUAGE]. *)
Definition zsoelim_locales (internal_locale language : option cstr) : option cstr :=
  let multiple := match internal_locale with
                  | Some l => if STREQ l (lit "C") || STREQ l (lit "POSIX") then None else language
                  | None => None
                  end in
  let internal := default (lit "C") internal_locale in
  match multiple with
  | Some ((_ :: _) as m) => Some (match internal with [] => m | _ => m ++ lit ":" ++ internal end)
  | _ => match internal with [] => None | _ => Some internal end
  end.

Definition zsoelim_main (fuel : nat) (conf : config_state) (getenv : string → option cstr) (internal_locale : option cstr) (ks : list key)
    : outcome (option (outcome (list ascii))) :=
  files ← parse_opts ks [];
  path ← get_manpath conf getenv None;
  path ← add_nls_manpaths path (zsoelim_locales internal_locale (getenv "LANGUAGE"));
  manpathlist ← create_pathlist OVERRIDE_DIR cwd (default [] path);
  Ret (zsoelim_files fuel manpathlist files INITIAL false ∅).
End find.

(** ** Every page ends *)

Section ends.
Context {cache : Type} (open_file : cstr → cache → outcome (option (cstr * list ascii) * cache)).
Implicit Types z : zstate cache.

Lemma zscanner_elem c b i p :
  (i, p) ∈ zscanner open_file c b → ∃ r, zrules open_file !! i = Some r ∧ p = zr_pat r.
Proof.
  unfold zscanner. intros ([j r] & [= -> ->] & [_ Hj]%list_elem_of_filter)%list_elem_of_fmap.
  apply list_elem_of_lookup in Hj as [k Hk]. rewrite list_lookup_imap in Hk. apply fmap_Some in Hk as (r' & Hr & [= -> ->]). eauto.
Qed.

(** A step that reads something: the default rule, or a rule. *)
Lemma zstep_cases z c s :
  fr_text (z_top z) = c :: s →
  zstep open_file z = Ret (Some (echo [c] (consume 1 z))) ∨
  ∃ r n, r ∈ zrules open_file ∧ 0 < n ≤ length (c :: s) ∧ zstep open_file z = Some <$> zr_act r (take n (c :: s)) (consume n z).
Proof.
  intros E. unfold zstep. rewrite E. pose proof (longest_match_correct (zscanner open_file (z_cond z) (fr_bol (z_top z))) (c :: s)) as H.
  destruct (longest_match _ _) as [[n i]|]; [|by left]. right. destruct H as [Hpos Hroom (pre & p & post & Hs & _) _].
  assert ((i, p) ∈ zscanner open_file (z_cond z) (fr_bol (z_top z))) as (r & Hr & ->)%zscanner_elem by (rewrite Hs; apply elem_of_app; right; left).
  exists r, n. rewrite Hr. split_and!; [by eapply list_elem_of_lookup_2|done|done|done].
Qed.

(** What the files on the stack have left. *)
Definition texts z : list (list ascii) := fr_text <$> (z_top z :: z_stack z).

(** A rule leaves the stack as it is, or puts one file on it. *)
Definition stacks (act : list ascii → zstate cache → outcome (zstate cache)) : Prop :=
  ∀ t z z', length (z_stack z) < MAX_SO_DEPTH → act t z = Ret z' →
    texts z' = texts z ∨ S (length (z_stack z)) < MAX_SO_DEPTH ∧ ∃ f, texts z' = f :: texts z.

Lemma next_line_texts z z' : next_line z = Ret z' → texts z' = texts z.
Proof. unfold next_line. destruct (_ <? _)%Z; [|done]. by intros [= <-]. Qed.

Lemma so_request_stacks : stacks (so_request open_file).
Proof.
  intros t z z' Hlen H. unfold so_request in H. case_bool_decide as Hd; [done|]. cbn [z_cache set_newline] in H.
  apply bind_Ret_inv in H as ([[[n f]|] c] & _ & H); injection H as <-; [|by left]. right. split; [unfold MAX_SO_DEPTH in *; lia|by exists f].
Qed.

Lemma rules_stack : Forall (λ r, stacks (zr_act r)) (zrules open_file).
Proof.
  assert (∀ cs pats act, stacks act → Forall (λ r, stacks (zr_act r)) (on cs pats act) ∧ Forall (λ r, stacks (zr_act r)) (bol cs pats act)) as Hon.
  { intros cs pats act H. split; apply Forall_fmap, Forall_true; intros p; exact H. }
  unfold zrules. cbn [concat]. repeat (apply Forall_app_2); try done; apply Hon; try apply so_request_stacks; intros t z z' _ H; left;
    try (by injection H as <-); try (by apply next_line_texts in H); try (apply bind_Ret_inv in H as (y & H & [= <-]); by apply next_line_texts in H).
  unfold lf_number in H. apply bind_Ret_inv in H as (n & _ & H). case_bool_decide; [|done]. by injection H as <-.
Qed.

(** A step on a file: it reads on in the file, or puts another on the stack. *)
Lemma zstep_reads z z' c s ts :
  zstep open_file z = Ret (Some z') → texts z = (c :: s) :: ts → length (z_stack z) < MAX_SO_DEPTH →
  ∃ s', length s' ≤ length s ∧ (texts z' = s' :: ts ∨ S (length ts) < MAX_SO_DEPTH ∧ ∃ f, texts z' = f :: s' :: ts).
Proof.
  intros Hstep Ht Hlen. unfold texts in Ht. cbn [fmap list_fmap] in Ht. injection Ht as Ht Hts.
  assert (∀ n, texts (consume n z) = drop n (c :: s) :: ts) as Hc by (intros n; rewrite <-Ht, <-Hts; done).
  destruct (zstep_cases z c s Ht) as [E|(r & n & Hr & Hn & E)]; rewrite E in Hstep.
  - injection Hstep as <-. exists s. split; [done|]. left. by rewrite (Hc 1 : texts (echo [c] (consume 1 z)) = _).
  - destruct (zr_act r _ _) as [z1| |] eqn:Ea; try done. injection Hstep as <-. exists (drop n (c :: s)). split; [rewrite length_drop; cbn [length] in *; lia|].
    pose proof rules_stack as Hall. rewrite Forall_forall in Hall. apply (Hall r Hr) in Ea as [->|(Hl & f & ->)]; [by left; rewrite Hc| |exact Hlen].
    right. rewrite Hc. split; [|by exists f]. assert (length (z_stack z) = length ts) as <- by (by rewrite <-Hts, length_fmap). exact Hl.
Qed.

Definition ends z : Prop := ∃ fuel, is_Some (zlex open_file fuel z).

Lemma ends_step z : (∀ z', zstep open_file z = Ret (Some z') → ends z') → ends z.
Proof.
  intros H. destruct (zstep open_file z) as [[z'|]| |] eqn:E; [|exists 1; cbn; rewrite E; eauto..].
  destruct (H z' eq_refl) as [fuel Hf]. exists (S fuel). cbn. by rewrite E.
Qed.

(** The reading of a file ends if what comes after it ends: by induction on the
    depth that is left, and on what is left of the file. *)
Lemma ends_file d t ts :
  d + length ts = MAX_SO_DEPTH - 1 → (∀ z, texts z = ts → ends z) → ∀ z, texts z = t :: ts → ends z.
Proof.
  revert t ts. induction d as [d IHd] using lt_wf_ind. intros t ts Hd Hts. remember (length t) as n eqn:En. revert t En.
  induction n as [n IHn] using lt_wf_ind. intros t -> z Hz. apply ends_step. intros z' Hstep.
  assert (length (z_stack z) = length ts) as Hlen by (unfold texts in Hz; cbn in Hz; injection Hz as _ <-; by rewrite length_fmap).
  destruct t as [|c s].
  - unfold zstep in Hstep. unfold texts in Hz. cbn in Hz. injection Hz as Ht Hz. rewrite Ht in Hstep. unfold zeof in Hstep.
    assert (z_stack (if no_newline z then echo [NL] z else z) = z_stack z) as Es by by destruct (no_newline z). rewrite Es in Hstep.
    destruct (z_stack z) as [|f fs]; [done|]. apply bind_Ret_inv in Hstep as (z1 & H1 & [= <-]). apply next_line_texts in H1.
    apply Hts. rewrite <-Hz. exact H1.
  - destruct (zstep_reads z z' c s ts Hstep Hz) as (s' & Hs & [Ht|(Hd' & f & Ht)]); [unfold MAX_SO_DEPTH in *; lia| |].
    + apply (IHn (length s')) with s'; [cbn; lia|done|done].
    + apply (IHd (d - 1)) with f (s' :: ts); [lia|cbn [length] in *; lia| |done].
      intros z2 Hz2. apply (IHn (length s')) with s'; [cbn; lia|done|done].
Qed.
End ends.

(** C19: reading a page ends, whatever files it includes: files that include one
    another for ever end the program with an error. *)
Theorem zsoelim_ends {cache : Type} (open_file : cstr → cache → outcome (option (cstr * list ascii) * cache)) name text c nn ca :
  ∃ fuel r, zlex open_file fuel (zsoelim_start name text c nn ca) = Some r.
Proof.
  assert (∃ t, texts (zsoelim_start name text c nn ca) = [t]) as [t Ht].
  { unfold zsoelim_start. destruct (first_line text) as [l|]; [destruct (_ || _)|]; by eexists. }
  destruct (ends_file open_file (MAX_SO_DEPTH - 1) t []) with (z := zsoelim_start name text c nn ca) as [fuel [r Hr]]; [done| |done|eauto].
  intros z Hz. by destruct z.
Qed.

(** ** What inclusion means

    A page as lines of text and requests, and what becomes of it. *)

Inductive item := Text (l : list ascii) | So (f : cstr).

Definition item_line (i : item) : list ascii := match i with Text l => l | So f => lit ".so " ++ f end.
Definition render (items : list item) : list ascii := concat ((λ i, item_line i ++ [NL]) <$> items).

(** Lines without a meaning of their own: no request whose name begins with d,
    l or s, and not a single dot. *)
Definition plain_line (l : list ascii) : Prop :=
  (NL ∉ l) ∧ match l with
             | [] => True
             | c :: t => c = "."%char → match t with [] => False | d :: _ => one_of (lit "dls") d = false end
             end.
Definition item_ok (i : item) : Prop :=
  match i with
  | Text l => plain_line l
  | So f => f ≠ [] ∧ Forall (λ c, one_of [" "%char; TAB; NL; DQUOTE; NUL] c = false) f
  end.

(** The files that requests name, found under a name. *)
Section reference.
Context (files : cstr → option (cstr * list item)).

(** The text of a file from line [line] on, with [d] more levels. *)
Fixpoint expand (d : nat) (name : cstr) (items : list item) (line : Z) {struct d} : outcome (list ascii) :=
  (fix go items line {struct items} :=
    match items with
    | [] => Ret []
    | Text l :: items => out ← go items (line + 1)%Z; Ret ((l ++ [NL]) ++ out)
    | So f :: items =>
      match d with
      | 0 => Fatal ".so requests nested too deeply or are recursive"
      | S d =>
        match files f with
        | None => out ← go items line; Ret ((lit ".so " ++ f ++ [NL]) ++ out)
        | Some (found, included) =>
          inc ← expand d found included 1%Z;
          out ← go items (line + 1)%Z;
          Ret ((lit ".lf 1 " ++ f ++ [NL]) ++ inc ++ lf_request (line + 1) name ++ out)
        end
      end
    end) items line.
End reference.

Section expansion.
Context {cache : Type} (open_file : cstr → cache → outcome (option (cstr * list ascii) * cache)).
Context (files : cstr → option (cstr * list item)).
Hypothesis Hopen : ∀ f c, ∃ c', open_file f c = Ret ((λ r, (r.1, render r.2)) <$> files f, c').
Definition short_page (items : list item) : Prop := (Z.of_nat (length items) < INT_MAX)%Z.
Hypothesis Hfiles : ∀ f n items, files f = Some (n, items) → Forall item_ok items ∧ short_page items.
Implicit Types z : zstate cache.

(** What [z'] goes on to, [z] goes on to. *)
Definition goes z z' : Prop := ∀ fuel r, zlex open_file fuel z' = Some r → ∃ fuel', zlex open_file fuel' z = Some r.

Lemma goes_refl z : goes z z.
Proof. intros fuel r H. eauto. Qed.
Lemma goes_trans z1 z2 z3 : goes z1 z2 → goes z2 z3 → goes z1 z3.
Proof. intros H1 H2 fuel r [f H]%H2. by apply H1 in H. Qed.
Lemma goes_step z z' : zstep open_file z = Ret (Some z') → goes z z'.
Proof. intros E fuel r H. exists (S fuel). cbn. by rewrite E. Qed.

Lemma goes_match i r u s z z' :
  fr_text (z_top z) = u ++ s → u ≠ [] →
  longest_match (zscanner open_file (z_cond z) (fr_bol (z_top z))) (u ++ s) = Some (length u, i) →
  zrules open_file !! i = Some r → zr_act r u (consume (length u) z) = Ret z' → goes z z'.
Proof.
  intros Ht Hu Hl Hr Ha. apply goes_step. unfold zstep. rewrite Ht. destruct u as [|c u]; [done|]. cbn [app] in *. rewrite Hl, Hr.
  change (c :: u ++ s) with ((c :: u) ++ s). rewrite take_app_length, Ha. done.
Qed.

(** In the middle of a file. *)
Definition zst (name : cstr) (line : Z) (text : list ascii) (b : bool) (st : list frame) (c : zcond) (nn : bool) (out : list ascii) (ca : cache) : zstate cache :=
  Zstate (Frame name line text b) st c nn out ca.

Lemma consume_zst u s name line b st c nn out ca :
  consume (length u) (zst name line (u ++ s) b st c nn out ca) =
    zst name line s (match last u with Some c => Ascii.eqb c NL | None => b end) st c nn out ca.
Proof. unfold consume, set_top, zst. cbn. by rewrite take_app_length, drop_app_length. Qed.

(** The end of a line of text. *)
Lemma goes_newline name line s b st nn out ca :
  (line < INT_MAX)%Z → goes (zst name line (NL :: s) b st INITIAL nn out ca) (zst name (line + 1) s true st INITIAL false (out ++ [NL]) ca).
Proof.
  intros Hl. assert (after (zscanner open_file INITIAL b) [NL] = [(10, Eps)]) as Ha by (destruct b; reflexivity).
  eapply (goes_match 10 _ [NL] s); [done|done|by apply longest_match_exact|done|].
  change (NL :: s) with ([NL] ++ s). rewrite consume_zst. cbn. unfold newline, next_line. cbn. apply Z.ltb_lt in Hl. by rewrite Hl.
Qed.

(** After a request: the rest of its line. *)
Lemma goes_request_end name line s b st nn out ca :
  goes (zst name line (NL :: s) b st end_request nn out ca) (zst name line s true st INITIAL false out ca).
Proof.
  assert (after (zscanner open_file end_request b) [NL] = [(12, Eps)]) as Ha by (destruct b; reflexivity).
  eapply (goes_match 12 _ [NL] s); [done|done|by apply longest_match_exact|done|].
  change (NL :: s) with ([NL] ++ s). by rewrite consume_zst.
Qed.

Definition not_nl (c : ascii) : bool := negb (Ascii.eqb c NL).

Lemma line_after c : c ≠ "."%char → c ≠ NL →
  ∃ rs, after (zscanner open_file INITIAL true) [c] = (3, Star dot) :: rs ∧ forallb (λ x, avoids NL x.2) rs = true.
Proof.
  intros H1 H2. destruct c as [[] [] [] [] [] [] [] []]; try (by destruct H1); try (by destruct H2); eexists; (split; [reflexivity|reflexivity]).
Qed.

Lemma request_after c : one_of (lit "dls") c = false → c ≠ NL →
  ∃ rs, after (zscanner open_file INITIAL true) ["."%char; c] = (4, Star dot) :: rs ∧ forallb (λ x, avoids NL x.2) rs = true.
Proof.
  intros H1 H2. destruct c as [[] [] [] [] [] [] [] []]; try discriminate H1; try (by destruct H2); eexists; (split; [reflexivity|reflexivity]).
Qed.

(** A line of text is copied. *)
Lemma goes_text l name line s st out ca :
  plain_line l → (line < INT_MAX)%Z →
  goes (zst name line (l ++ NL :: s) true st INITIAL false out ca) (zst name (line + 1) s true st INITIAL false (out ++ l ++ [NL]) ca).
Proof.
  intros [Hnl Hl] Hline. destruct l as [|c t]; [by apply goes_newline|].
  assert (∃ i, longest_match (zscanner open_file INITIAL true) ((c :: t) ++ NL :: s) = Some (length (c :: t), i) ∧ (i = 3 ∨ i = 4)) as (i & Hm & Hi).
  { assert (∀ u : list ascii, NL ∉ u → ∀ e : ascii, e ∈ u → negb (Ascii.eqb e NL) = true) as Hu by (intros u Hu e He; apply negb_true_iff, Ascii.eqb_neq; by intros ->).
    destruct (decide (c = "."%char)) as [->|Hc].
    - specialize (Hl eq_refl). destruct t as [|d t]; [done|]. destruct (request_after d Hl) as (rs & Hr & Hav); [set_solver|]. exists 4. split; [|by right].
      apply (longest_match_rest _ _ _ _ ["."%char; d] t NL s ltac:(done) Hr); [|done|done]. apply Hu. set_solver.
    - destruct (line_after c Hc) as (rs & Hr & Hav); [set_solver|]. exists 3. split; [|by left].
      apply (longest_match_rest _ _ _ _ [c] t NL s ltac:(done) Hr); [|done|done]. apply Hu. set_solver. }
  assert (∃ r, zrules open_file !! i = Some r ∧ zr_act r = copy) as (r & Hr & Hact) by (destruct Hi as [->| ->]; by eexists).
  assert (last (c :: t) ≠ Some NL) as Hlast by (intros E%last_Some_elem_of; done).
  eapply goes_trans; [eapply (goes_match i r (c :: t) (NL :: s)); [done|done|exact Hm|exact Hr|rewrite Hact, consume_zst; reflexivity]|].
  rewrite app_assoc. by apply goes_newline.
Qed.

(** The name of a file to include. *)
Definition name_char (c : ascii) : bool := negb (one_of [" "%char; TAB; NL; DQUOTE] c).
Definition name_rest : regex := Cat (Star (notin [" "%char; TAB; NL; DQUOTE])) (Alt quote Eps).

Lemma name_first c : name_char c = true → step_all c (zscanner open_file so false) = [(11, name_rest)].
Proof. intros H. destruct c as [[] [] [] [] [] [] [] []]; try discriminate H; reflexivity. Qed.

Lemma name_next c : name_char c = true → step_all c [(11, name_rest)] = [(11, name_rest)].
Proof. intros H. destruct c as [[] [] [] [] [] [] [] []]; try discriminate H; reflexivity. Qed.

Lemma name_after f : f ≠ [] → Forall (λ c, name_char c = true) f → after (zscanner open_file so false) f = [(11, name_rest)].
Proof.
  intros Hne Hf. destruct Hf as [|c f Hc Hf]; [done|]. unfold after. cbn [foldl]. rewrite name_first by done.
  clear Hne. induction Hf as [|d f Hd Hf IH]; [done|]. cbn [foldl]. by rewrite name_next.
Qed.

(** A request for a file, up to its name; then its name. *)
Lemma name_chars f : item_ok (So f) → f ≠ [] ∧ Forall (λ c, name_char c = true) f.
Proof.
  intros [Hne Hf]. split; [done|]. eapply Forall_impl; [exact Hf|]. intros c Hc. apply negb_true_iff. unfold one_of in *.
  apply bool_decide_eq_false in Hc. apply bool_decide_eq_false. set_solver.
Qed.

Lemma goes_so f name line s st out ca :
  item_ok (So f) →
  goes (zst name line (lit ".so " ++ f ++ NL :: s) true st INITIAL false out ca) (zst name line (f ++ NL :: s) false st so true out ca).
Proof.
  intros [Hne Hn]%name_chars. eapply (goes_match 1 _ (lit ".so ")); [done|done| |done|rewrite consume_zst; reflexivity].
  destruct f as [|c f]; [done|]. apply Forall_cons in Hn as [Hc _].
  change (longest_match (zscanner open_file INITIAL true) (lit ".so " ++ c :: f ++ NL :: s) = Some (length (lit ".so "), 1)).
  assert (after (zscanner open_file INITIAL true) (lit ".so ") = [(1, Star W)]) as E by reflexivity.
  apply longest_match_stop; rewrite ?E; [done|done|]. unfold W. rewrite step_all_star.
  assert (one_of [" "%char; TAB] c = false) as ->; [|done]. unfold name_char, one_of in *. apply negb_true_iff, bool_decide_eq_false in Hc. apply bool_decide_eq_false. set_solver.
Qed.

Lemma zstep_so f name line s st out ca :
  item_ok (So f) →
  zstep open_file (zst name line (f ++ NL :: s) false st so true out ca) =
    Some <$> so_request open_file f (zst name line (NL :: s) false st so true out ca).
Proof.
  intros Hok. destruct (name_chars f Hok) as [Hne Hn]. unfold zstep. cbn [z_top fr_text fr_bol z_cond zst].
  assert (longest_match (zscanner open_file so false) (f ++ NL :: s) = Some (length f, 11)) as ->.
  { apply longest_match_stop; [done| |]; rewrite name_after by done; reflexivity. }
  change (zrules open_file !! 11) with (Some (Zrule (cache := cache) [so] false file_name (so_request open_file))). cbn [zr_act].
  rewrite consume_zst, take_app_length. destruct (last f) as [c|] eqn:El; [|destruct f; [done|by apply last_None in El]].
  assert (Ascii.eqb c NL = false) as ->; [|by destruct f]. apply Ascii.eqb_neq. intros ->. rewrite Forall_forall in Hn. by apply last_Some_elem_of, Hn in El.
Qed.

Lemma so_request_reads f name line s st out ca :
  item_ok (So f) → length st ≠ MAX_SO_DEPTH - 1 →
  ∃ ca', so_request open_file f (zst name line (NL :: s) false st so true out ca) = Ret
    match files f with
    | None => zst name line (NL :: s) false st end_request false (out ++ lit ".so " ++ f ++ [NL]) ca'
    | Some (found, included) =>
      zst found 1 (render included) true (Frame name line (NL :: s) false :: st) INITIAL false (out ++ lit ".lf 1 " ++ f ++ [NL]) ca'
    end.
Proof.
  intros [_ Hf] Hst. unfold so_request. rewrite bool_decide_false by exact Hst.
  rewrite xstrndup_id by (intros Hin; rewrite Forall_forall in Hf; by apply Hf in Hin). destruct (Hopen f ca) as [ca' E]. exists ca'.
  cbn [z_cache set_newline zst]. rewrite E. by destruct (files f) as [[found included]|].
Qed.

(** The end of an included file. *)
Lemma goes_eof name line name' line' s b st out ca :
  (line < INT_MAX)%Z →
  goes (zst name' line' [] true (Frame name line s b :: st) INITIAL false out ca)
    (zst name (line + 1) s b st end_request false (out ++ lf_request (line + 1) name) ca).
Proof. intros Hl. apply goes_step. unfold zstep, zeof, next_line. cbn. apply Z.ltb_lt in Hl. by rewrite Hl. Qed.

(** What a file does to the output, up to its end. *)
Definition result (z : zstate cache) (name : cstr) (st : list frame) (out : list ascii) (r : outcome (list ascii)) : Prop :=
  match r with
  | Ret e => ∃ line ca, goes z (zst name line [] true st INITIAL false (out ++ e) ca)
  | Fatal m => ∃ fuel, zlex open_file fuel z = Some (Fatal m)
  | Undef _ => False
  end.

Lemma result_goes z z' name st out r e :
  goes z z' → result z' name st (out ++ e) r → result z name st out (x ← r; Ret (e ++ x)).
Proof.
  intros Hg Hr. destruct r as [x|m|w]; cbn in *; [|destruct Hr as [fuel Hr]; by apply Hg in Hr|done].
  destruct Hr as (line & ca & Hr). exists line, ca. rewrite app_assoc. by eapply goes_trans.
Qed.

Lemma expand_eq d name items line :
  expand files d name items line =
    match items with
    | [] => Ret []
    | Text l :: items => out ← expand files d name items (line + 1); Ret ((l ++ [NL]) ++ out)
    | So f :: items =>
      match d with
      | 0 => Fatal ".so requests nested too deeply or are recursive"
      | S d' =>
        match files f with
        | None => out ← expand files d name items line; Ret ((lit ".so " ++ f ++ [NL]) ++ out)
        | Some (found, included) =>
          inc ← expand files d' found included 1%Z;
          out ← expand files d name items (line + 1);
          Ret ((lit ".lf 1 " ++ f ++ [NL]) ++ inc ++ lf_request (line + 1) name ++ out)
        end
      end
    end.
Proof. destruct d, items as [|[l|f] items]; reflexivity. Qed.

Lemma expand_goes d items name line st out ca :
  length st + d = MAX_SO_DEPTH - 1 → Forall item_ok items → (line + Z.of_nat (length items) <= INT_MAX)%Z →
  result (zst name line (render items) true st INITIAL false out ca) name st out (expand files d name items line).
Proof.
  revert items name line st out ca. induction d as [d IHd] using lt_wf_ind. intros items. induction items as [|i items IH]; intros name line st out ca Hd Hok Hline;
    rewrite expand_eq; cbn [length] in Hline.
  - exists line, ca. rewrite app_nil_r. apply goes_refl.
  - apply Forall_cons in Hok as [Hi Hok]. unfold render. cbn [fmap list_fmap concat]. fold (render items). rewrite <-app_assoc. cbn [app].
    destruct i as [l|f]; cbn [item_line].
    + eapply result_goes; [by apply goes_text; [|lia]|]. apply IH; [done|done|lia].
    + rewrite <-app_assoc. destruct d as [|d'].
      * destruct (goes_so f name line (render items) st out ca Hi 1 (Fatal ".so requests nested too deeply or are recursive")) as [fuel H]; [|by exists fuel].
        cbn [zlex]. rewrite zstep_so by done. unfold so_request. rewrite bool_decide_true by (change (length st = MAX_SO_DEPTH - 1); lia). done.
      * destruct (so_request_reads f name line (render items) st out ca Hi) as [ca' Hreq]; [lia|].
        assert (∀ z, so_request open_file f (zst name line (NL :: render items) false st so true out ca) = Ret z →
          goes (zst name line (lit ".so " ++ f ++ NL :: render items) true st INITIAL false out ca) z) as Hgo.
        { intros z Hz. eapply goes_trans; [by apply goes_so|]. apply goes_step. by rewrite zstep_so, Hz. }
        apply Hgo in Hreq. destruct (files f) as [[found included]|] eqn:Ef.
        -- destruct (Hfiles f found included Ef) as [Hinc Hshort]. set (fr := Frame name line (NL :: render items) false).
           pose proof (IHd d' ltac:(lia) included found 1%Z (fr :: st) (out ++ lit ".lf 1 " ++ f ++ [NL]) ca') as H.
           assert (1 + Z.of_nat (length included) <= INT_MAX)%Z as Hl by (unfold short_page in Hshort; lia).
           specialize (H ltac:(cbn [length]; lia) Hinc Hl). destruct (expand files d' found included 1) as [inc|m|w]; [|destruct H as [fuel H]; by apply Hreq in H|done].
           destruct H as (line' & ca2 & H). cbn [mbind outcome_bind].
           assert (goes (zst name line (lit ".so " ++ f ++ NL :: render items) true st INITIAL false out ca)
             (zst name (line + 1) (render items) true st INITIAL false (out ++ (lit ".lf 1 " ++ f ++ [NL]) ++ inc ++ lf_request (line + 1) name) ca2)) as Hg.
           { eapply goes_trans; [exact Hreq|]. eapply goes_trans; [exact H|]. eapply goes_trans; [apply goes_eof; lia|].
             replace (out ++ (lit ".lf 1 " ++ f ++ [NL]) ++ inc ++ lf_request (line + 1) name)
               with (((out ++ lit ".lf 1 " ++ f ++ [NL]) ++ inc) ++ lf_request (line + 1) name) by (by rewrite <-!app_assoc).
             apply goes_request_end. }
           assert ((out0 ← expand files (S d') name items (line + 1); Ret ((lit ".lf 1 " ++ f ++ [NL]) ++ inc ++ lf_request (line + 1) name ++ out0)) =
             (out0 ← expand files (S d') name items (line + 1); Ret (((lit ".lf 1 " ++ f ++ [NL]) ++ inc ++ lf_request (line + 1) name) ++ out0))) as ->.
           { destruct (expand files (S d') name items (line + 1)); [|done|done]. cbn [mbind outcome_bind]. by rewrite <-!app_assoc. }
           eapply result_goes; [exact Hg|]. apply IH; [done|done|lia].
        -- eapply result_goes; [eapply goes_trans; [exact Hreq|apply goes_request_end]|]. apply IH; [done|done|lia].
Qed.

(** A first line that [manconv] may need. *)
Definition cookie_line (l : list ascii) : bool := STRNEQ (l ++ [NL]) PP_COOKIE 4 || STRNEQ (l ++ [NL]) BAD_COOKIE 4.

(** What is printed for a page: such a line goes before the first request. *)
Definition expansion (name : cstr) (items : list item) : outcome (list ascii) :=
  let '(skipped, linenum, items) :=
    match items with
    | Text l :: items' => if cookie_line l then (l ++ [NL], 2%Z, items') else ([], 1%Z, items)
    | _ => ([], 1%Z, items)
    end in
  out ← expand files (MAX_SO_DEPTH - 1) name items 1; Ret ((skipped ++ lf_request linenum name) ++ out).

Lemma stream_line_app l s : NL ∉ l → stream_line (l ++ NL :: s) = Some (S (length l)).
Proof. intros Hl. unfold stream_line. by rewrite strchr_app_sep. Qed.

Lemma start_render name items ca :
  Forall item_ok items → Forall (λ i, match i with Text l => NUL ∉ l | So _ => True end) items →
  ∃ skipped items' linenum, zsoelim_start name (render items) INITIAL false ca = zst name 1 (render items') true [] INITIAL false (skipped ++ lf_request linenum name) ca ∧
    Forall item_ok items' ∧ length items' ≤ length items ∧
    expansion name items = (out ← expand files (MAX_SO_DEPTH - 1) name items' 1; Ret ((skipped ++ lf_request linenum name) ++ out)).
Proof.
  intros Hok Hnul. unfold zsoelim_start, expansion, first_line. destruct Hok as [|i items Hi Hok].
  - exists [], [], 1%Z. done.
  - apply Forall_cons in Hnul as [Hnul _]. assert ((NL ∉ item_line i) ∧ (NUL ∉ item_line i)) as [Hl Hn].
    { destruct i as [l|f]; cbn [item_line]; [by destruct Hi|]. destruct Hi as [_ Hf]. rewrite Forall_forall in Hf.
      rewrite !not_elem_of_app. split; (split; [not_in|intros Hin; by apply Hf in Hin]). }
    unfold render. cbn [fmap list_fmap concat]. fold (render items). rewrite <-app_assoc. cbn [app]. rewrite stream_line_app by done.
    assert (take (S (length (item_line i))) (item_line i ++ NL :: render items) = item_line i ++ [NL]) as ->.
    { rewrite take_app_ge by lia. replace (S (length (item_line i)) - length (item_line i)) with 1 by lia. done. }
    rewrite xstrndup_id by (rewrite not_elem_of_app; split; [done|by intros E%list_elem_of_singleton]).
    destruct i as [l|f].
    + cbn [item_line] in *. fold (cookie_line l). destruct (cookie_line l).
      * exists (l ++ [NL]), items, 2%Z. split_and!; [|done|cbn; lia|done]. unfold zst. do 2 f_equal.
        change (NL :: render items) with ([NL] ++ render items). rewrite app_assoc, drop_app_length. done.
      * exists [], (Text l :: items), 1%Z. split_and!; [|by constructor|done|done]. unfold render. cbn [fmap list_fmap concat]. fold (render items). by rewrite <-app_assoc.
    + assert (STRNEQ (item_line (So f) ++ [NL]) PP_COOKIE 4 || STRNEQ (item_line (So f) ++ [NL]) BAD_COOKIE 4 = false) as -> by reflexivity.
      exists [], (So f :: items), 1%Z. split_and!; [|by constructor|done|done]. unfold render. cbn [fmap list_fmap concat]. fold (render items). by rewrite <-app_assoc.
Qed.

(** C17: a page is expanded into what its lines and requests mean: lines of text
    are copied, a request for a file is replaced by that file, expanded in the
    same way, between requests that tell troff where it is, a request for a
    file that is not found stays, and more than nine levels of files end the
    program. *)
Theorem zsoelim_expands name items ca :
  Forall item_ok items → Forall (λ i, match i with Text l => NUL ∉ l | So _ => True end) items → short_page items →
  ∃ fuel, match expansion name items with
          | Ret out => ∃ c, zlex open_file fuel (zsoelim_start name (render items) INITIAL false ca) = Some (Ret (INITIAL, false, out, c))
          | Fatal m => zlex open_file fuel (zsoelim_start name (render items) INITIAL false ca) = Some (Fatal m)
          | Undef _ => False
          end.
Proof using Hopen Hfiles.
  intros Hok Hnul Hshort. destruct (start_render name items ca Hok Hnul) as (skipped & items' & linenum & -> & Hok' & Hlen & ->).
  pose proof (expand_goes (MAX_SO_DEPTH - 1) items' name 1 [] (skipped ++ lf_request linenum name) ca eq_refl Hok') as H.
  unfold short_page in Hshort. specialize (H ltac:(lia)). destruct (expand files _ name items' 1) as [out|m|w]; cbn in *; [|done|done].
  destruct H as (line & c & H). destruct (H 1 (Ret (INITIAL, false, (skipped ++ lf_request linenum name) ++ out, c))) as [fuel Hf].
  { cbn. unfold zend. cbn. by rewrite app_nil_r. }
  eauto.
Qed.
End expansion.

(** ** Finding files *)

Section find_theorems.
Context (cfg : comp_config) `{FileSystem} `{Zlib} `{Matcher} (layout : Z) (extension : option cstr).

Definition opened (r : option (cstr * decompress)) : Prop :=
  match r with Some (f, d) => decompress_open cfg f DECOMPRESS_ALLOW_INPROCESS = Some d | None => True end.

Lemma try_compressed_opened name : opened (try_compressed cfg name).
Proof.
  unfold try_compressed. destruct (decompress_open cfg name _) eqn:E; [done|]. induction (comp_list cfg) as [|comp l IH]; [done|]. cbn [try_extensions].
  destruct (decompress_open cfg (name ++ lit "." ++ comp_ext comp) _) eqn:E'; [exact E'|done].
Qed.

Lemma open_first_opened names : opened (open_first cfg names).
Proof. induction names as [|f names IH]; [done|]. cbn. by destruct (decompress_open cfg f _) eqn:E. Qed.

Lemma search_paths_opened paths f : opened (search_paths cfg paths f).
Proof.
  induction paths as [|mp paths IH]; [done|]. cbn [search_paths]. pose proof (try_compressed_opened (mp ++ lit "/" ++ f)) as Hc.
  by destruct (try_compressed cfg _).
Qed.

Lemma look_in_paths_opened paths sec name c : opened (look_in_paths cfg layout extension paths sec name c).1.
Proof.
  revert c. induction paths as [|mp paths IH]; intros c; [done|]. cbn [look_in_paths]. destruct (look_for_file _ _ _ _ _ _ _ _) as [names c'].
  pose proof (open_first_opened names) as Hf. by destruct (open_first cfg names).
Qed.

(** What is found can be opened under the name it is found by. *)
Theorem zsoelim_find_opened mps parent f c : opened (zsoelim_find cfg layout extension mps parent f c).1.
Proof.
  unfold zsoelim_find. pose proof (try_compressed_opened f) as Hd.
  assert (∀ r, opened r → opened (match r, parent with Some r, _ => Some r | None, Some _ => try_compressed cfg f | None, None => None end)) as Hlast
    by (intros [r|] Hr; [exact Hr|]; by destruct parent).
  destruct parent as [p|]; [|destruct (try_compressed cfg f); [exact Hd|]]; (destruct (bool_decide _); [apply Hlast, search_paths_opened|]);
    (destruct (strchr f "."%char) as [dot|]; [|done]);
    match goal with |- context [look_in_paths ?a ?b ?c ?d ?e ?f ?g] => pose proof (look_in_paths_opened d e f g) as Hl; destruct (look_in_paths a b c d e f g) end;
    by apply Hlast.
Qed.
End find_theorems.

(** ** Evaluation *)

(** Two files: [b] includes [a]; [r] includes itself. *)
Definition two_files (f : cstr) : option (cstr * list item) :=
  if bool_decide (f = lit "a") then Some (lit "/m/a.1", [Text (lit "A1"); Text (lit "A2")])
  else if bool_decide (f = lit "b") then Some (lit "/m/b.1", [So (lit "a"); Text (lit "B2")])
  else if bool_decide (f = lit "r") then Some (lit "/m/r.1", [So (lit "r")])
  else None.
Definition open_two (f : cstr) (c : unit) : outcome (option (cstr * list ascii) * unit) := Ret ((λ r, (r.1, render r.2)) <$> two_files f, c).

Definition page (ls : list string) : list ascii := concat ((λ s, lit s ++ [NL]) <$> ls).

Ltac items_ok := repeat (apply Forall_cons; split); [..|apply Forall_nil; exact I]; (split; [first [not_in|done]|first [done|repeat constructor]]).

Lemma zsoelim_expands_witness :
  let items := [Text (lit "one"); So (lit "b"); Text (lit "three")] in
  expansion two_files (lit "x") items =
    Ret (page [".lf 1 x"; "one"; ".lf 1 b"; ".lf 1 a"; "A1"; "A2"; ".lf 2 /m/b.1"; "B2"; ".lf 3 x"; "three"]) ∧
  ∃ fuel, match expansion two_files (lit "x") items with
          | Ret out => ∃ c, zlex open_two fuel (zsoelim_start (lit "x") (render items) INITIAL false ()) = Some (Ret (INITIAL, false, out, c))
          | Fatal m => zlex open_two fuel (zsoelim_start (lit "x") (render items) INITIAL false ()) = Some (Fatal m)
          | Undef _ => False
          end.
Proof.
  split; [vm_compute; reflexivity|]. apply (zsoelim_expands open_two two_files).
  - intros f c. by exists c.
  - intros f n items E. assert (Forall item_ok items ∧ length items < 3) as [Hok Hl]; [|split; [done|unfold short_page, INT_MAX; lia]].
    unfold two_files in E. destruct (bool_decide (f = lit "a")); [injection E as <- <-; split; [items_ok|cbn; lia]|].
    destruct (bool_decide (f = lit "b")); [injection E as <- <-; split; [items_ok|cbn; lia]|].
    destruct (bool_decide (f = lit "r")); [injection E as <- <-; split; [items_ok|cbn; lia]|done].
  - items_ok.
  - repeat constructor; not_in.
  - reflexivity.
Defined.

Definition run (ls : list string) : option (outcome (list ascii)) :=
  (λ r, '(_, _, out, _) ← r; Ret out) <$> zlex open_two 300 (zsoelim_start (lit "x") (page ls) INITIAL false ()).

(** A file that includes itself ends the program. *)
Example recursive_request : run [".so r"] = Some (Fatal ".so requests nested too deeply or are recursive").
Proof. vm_compute. reflexivity. Qed.

(** A request in a macro definition stays. *)
Example request_in_macro : run [".de XX"; ".so a"; ".."; "z"] = Some (Ret (page [".lf 1 x"; ".de XX"; ".so a"; ".."; "z"])).
Proof. vm_compute. reflexivity. Qed.

(** A line of a single dot hides the request on the next line: the pattern for
    a dot and another character takes the newline for that character. *)
Example lone_dot : run ["."; ".so a"; "z"] = Some (Ret (page [".lf 1 x"; "."; ".so a"; "z"])).
Proof. vm_compute. reflexivity. Qed.

(** After a request for a file that is not found the lines are counted one too
    few: the last request here should say line 3. *)
Example lines_after_failure :
  run [".so b2"; ".so a"; "z"] = Some (Ret (page [".lf 1 x"; ".so b2"; ".lf 1 a"; "A1"; "A2"; ".lf 2 x"; "z"])).
Proof. vm_compute. reflexivity. Qed.

(** So they are after a first line for the preprocessors. *)
Example lines_after_cookie :
  (λ r, '(_, _, out, _) ← r; Ret out) <$> zlex open_two 300 (zsoelim_start (lit "x") (PP_COOKIE ++ lit "t" ++ [NL] ++ page [".so a"; "z"]) INITIAL false ()) =
  Some (Ret (PP_COOKIE ++ lit "t" ++ [NL] ++ page [".lf 2 x"; ".lf 1 a"; "A1"; "A2"; ".lf 2 x"; "z"])).
Proof. vm_compute. reflexivity. Qed.
