(* ===== verification/LexgrogMain.v ===== *)
(** * src/lexgrog_test.c: the program lexgrog

    For every file it prints what its NAME section says.  The lexer is a
    parameter. *)

From S2P Require Import Prelude CStr Fs Lexgrog Accessdb UltSrc Descriptions.

Inductive key := Key_d | Key_m | Key_c | Key_w | Key_f | Key_E (encoding : cstr) | Key_h | ARGP_KEY_ARGS (files : list cstr)
  | ARGP_KEY_NO_ARGS | ARGP_KEY_SUCCESS.
Record options := Options {
  parse_man : bool; parse_cat : bool; show_whatis : bool; show_filters : bool; encoding : option cstr; files : list cstr;
}.
Definition defaults : options := Options false false false false None [].

Definition parse_opt (k : key) (o : options) : outcome options :=
  match k with
  | Key_d => Ret o
  | Key_m => Ret (Options true (parse_cat o) (show_whatis o) (show_filters o) (encoding o) (files o))
  | Key_c => Ret (Options (parse_man o) true (show_whatis o) (show_filters o) (encoding o) (files o))
  | Key_w => Ret (Options (parse_man o) (parse_cat o) true (show_filters o) (encoding o) (files o))
  | Key_f => Ret (Options (parse_man o) (parse_cat o) (show_whatis o) true (encoding o) (files o))
  | Key_E e => Ret (Options (parse_man o) (parse_cat o) (show_whatis o) (show_filters o) (Some e) (files o))
  | Key_h => Fatal "argp_state_help"
  | ARGP_KEY_ARGS fs => Ret (Options (parse_man o) (parse_cat o) (show_whatis o) (show_filters o) (encoding o) fs)
  | ARGP_KEY_NO_ARGS => Fatal "argp_usage"
  | ARGP_KEY_SUCCESS =>
    if parse_man o && parse_cat o then Fatal "-m -c: incompatible options"
    else
      let man := if negb (parse_man o) && negb (parse_cat o) then true else parse_man o in
      let w := if negb (show_whatis o) && negb (show_filters o) then true else show_whatis o in
      Ret (Options man (parse_cat o) w (show_filters o) (encoding o) (files o))
  end.

Fixpoint parse_opts (ks : list key) (o : options) : outcome options :=
  match ks with [] => Ret o | k :: ks => o ← parse_opt k o; parse_opts ks o end.

(** The lexer ([FindName.find_name]), for a file, its type and the encoding
    asked for: the NAME section and the filters, or nothing. *)
Section lexgrog.
Context (cfg : Compression.comp_config) `{FileSystem} `{Dirname} `{PageText} (find_name : page_type → option cstr → cstr → option (cstr * cstr)) (convert_to_locale : cstr → cstr).

(** The hierarchy of a page: what is before its section's directory. *)
Definition hierarchy (file : cstr) : option cstr :=
  s ← strrchr file "/"%char;
  let path := take s file in
  s ← strrchr path "/"%char;
  if STRNEQ (drop (S s) path) (lit "man") 3 then Some (take s path) else None.

Definition desc_line (o : options) (file : cstr) (filters : cstr) (d : page_description) (whatis : cstr) : cstr :=
  file ++ (if show_filters o then lit " (" ++ filters ++ lit ")" else []) ++
  (if show_whatis o then lit ": " ++ [DQUOTE] ++ convert_to_locale (desc_name d) ++ lit " - " ++ convert_to_locale whatis ++ [DQUOTE] else []) ++ [NL].

(** A description without a name is not printed; the model's descriptions
    always have one. *)
Fixpoint print_descs (o : options) (file filters : cstr) (descs : list page_description) : list cstr :=
  match descs with
  | [] => []
  | d :: descs =>
    match desc_whatis d with
    | None => print_descs o file filters descs
    | Some w => desc_line o file filters d w :: print_descs o file filters descs
    end
  end.

Definition page_target (file : cstr) (cache : ult_cache) : outcome (option cstr * ult_cache) :=
  if STREQ file (lit "-") then Ret (Some file, cache)
  else
    '(ult, cache) ← ult_src cfg cache file (default (lit ".") (hierarchy file)) None SO_LINK;
    Ret (match ult with Some u => Some (uv_path u) | None => None end, cache).

(** The lines for a file, whether there were any, and the cache of [ult_src]. *)
Definition lexgrog_file (o : options) (file : cstr) (cache : ult_cache) : outcome (list cstr * bool * ult_cache) :=
  '(target, cache) ← page_target file cache;
  let type := if parse_man o then MANPAGE else CATPAGE in
  let out :=
    match (match target with Some t => find_name type (encoding o) t | None => None end) with
    | Some (whatis, filters) => print_descs o file filters (parse_descriptions None (Some whatis))
    | None => []
    end in
  Ret (if bool_decide (out = []) then ([file ++ lit ": parse failed" ++ [NL]], false, cache) else (out, true, cache)).

Fixpoint lexgrog_files (o : options) (fs : list cstr) (cache : ult_cache) : outcome (list cstr * bool) :=
  match fs with
  | [] => Ret ([], false)
  | f :: fs =>
    '(out, found, cache) ← lexgrog_file o f cache;
    '(rest, failed) ← lexgrog_files o fs cache;
    Ret (out ++ rest, negb found || failed)
  end.

Definition main (ks : list key) : outcome (Z * list cstr) :=
  o ← parse_opts ks defaults;
  '(out, some_failed) ← lexgrog_files o (files o) ∅;
  Ret (if some_failed : bool then FATAL else 0%Z, out).

(** lexgrog prints its lines for every file in turn, that the parse failed
    where it found nothing, and fails exactly when that happened. *)
Theorem lexgrog_status o fs cache out failed :
  lexgrog_files o fs cache = Ret (out, failed) →
  ∃ results : list (list cstr * bool), out = concat results.*1 ∧ failed = existsb negb results.*2 ∧
    Forall2 (λ f (r : list cstr * bool), if r.2 then r.1 ≠ [] else r.1 = [f ++ lit ": parse failed" ++ [NL]]) fs results.
Proof.
  revert cache out failed. induction fs as [|f fs IH]; intros cache out failed Hr; cbn [lexgrog_files] in Hr.
  { injection Hr as <- <-. exists []. by split_and!. }
  apply bind_Ret_inv in Hr as ([[l found] cache'] & Hf & Hr). apply bind_Ret_inv in Hr as ([rest failed'] & Hrest & [= <- <-]).
  apply IH in Hrest as (rs & -> & -> & Hall). exists ((l, found) :: rs). split_and!; [done..|]. constructor; [|done].
  unfold lexgrog_file in Hf. apply bind_Ret_inv in Hf as ([t c] & _ & [= Hf]). case_bool_decide; by simplify_eq.
Qed.
End lexgrog.
