(* ===== verification/Candidates.v ===== *)
(** * src/man.c: the candidate pages for a request

    Every page that may answer a request becomes a candidate; duplicates are
    weeded out while the list is built ([add_candidate]) and the list is
    sorted before the pages are shown ([compare_candidates]). *)

From S2P Require Import Prelude CStr Fs Compression Filenames Util Mydbm DbContent Wordfnmatch DbLookup DbGroup DbStore Globbing UltSrc Encodings Manp.

(** ** Definitions *)

Record candidate := Candidate {
  cd_req_name : cstr;
  cd_from_db : bool;
  cd_cat : bool;
  cd_path : cstr;
  cd_ult : option cstr;
  cd_source : mandata;
  cd_add_index : nat;
}.

(** [source->name] is never null in a candidate. *)
Definition cd_name (c : candidate) : cstr := default [] (md_name (cd_source c)).
Definition cd_ext (c : candidate) : cstr := md_ext (cd_source c).
Definition cd_sec (c : candidate) : cstr := md_sec (cd_source c).

Definition duplicate_candidates (left right : candidate) : bool :=
  if match cd_ult left, cd_ult right with Some a, Some b => STREQ a b | _, _ => false end then true
  else if negb (STREQ (cd_name left) (cd_name right)) || negb (STREQ (cd_sec left) (cd_sec right))
          || negb (STREQ (cd_ext left) (cd_ext right)) then false
  else if STREQ (cd_path left) (cd_path right) then true
  else
    match strrchr (cd_path left) "/"%char, strrchr (cd_path right) "/"%char with
    | Some slash1, Some slash2 =>
      if negb (STRNEQ (cd_path left) (cd_path right) (Nat.max slash1 slash2)) then false
      else
        let bits1 := unpack_locale_bits (drop (S slash1) (cd_path left)) in
        let bits2 := unpack_locale_bits (drop (S slash2) (cd_path right)) in
        STREQ (lb_language bits1) (lb_language bits2) && STREQ (lb_territory bits1) (lb_territory bits2)
        && STREQ (lb_modifier bits1) (lb_modifier bits2)
    | _, _ => false
    end.

(** Left first, right first, or no difference. *)
Definition prefer (l r : bool) : comparison :=
  if l then (if r then Eq else Lt) else (if r then Gt else Eq).

Section compare.
Context (OVERRIDE_DIR : cstr) (section : option cstr) (section_list : list cstr) (internal_locale : cstr).

Definition compare_override_dir (left right : candidate) : comparison :=
  if bool_decide (OVERRIDE_DIR = []) then Eq
  else
    let left_len := length (cd_path left) in
    let right_len := length (cd_path right) in
    if bool_decide (left_len = right_len) ||
       negb (STRNEQ (cd_path left) (cd_path right) (Nat.min left_len right_len)) then Eq
    else if decide (right_len < left_len) then
      if bool_decide (cd_path left !! right_len = Some "/"%char) &&
         STREQ (drop (S right_len) (cd_path left)) OVERRIDE_DIR then Lt else Eq
    else
      if bool_decide (cd_path right !! left_len = Some "/"%char) &&
         STREQ (drop (S left_len) (cd_path right)) OVERRIDE_DIR then Gt else Eq.

(** [gl_list_indexof]; [None] is [(size_t) -1]. *)
Fixpoint gl_list_indexof (l : list cstr) (x : cstr) : option nat :=
  match l with
  | [] => None
  | y :: l => if STREQ y x then Some 0 else S <$> gl_list_indexof l x
  end.

(** [size_t] is 64 bits wide. *)
Definition SIZE_MAX : Z := (2 ^ 64 - 1)%Z.

(** The place of an extension in the section list. *)
Definition section_index (ext : cstr) : Z :=
  match gl_list_indexof section_list ext with
  | Some n => Z.of_nat n
  | None =>
    if bool_decide (1 < length ext) then
      match gl_list_indexof section_list (take 1 ext) with
      | Some n => Z.of_nat n
      | None => Z.of_nat (length section_list)
      end
    else SIZE_MAX
  end.

Definition compare_sections (left right : candidate) : comparison :=
  match strcmp (cd_ext left) (cd_ext right) with
  | Eq => Eq
  | _ =>
    lex_cmp
      (match section with
       | Some section => prefer (STREQ (cd_ext left) section) (STREQ (cd_ext right) section)
       | None => Eq
       end)
      (lex_cmp (Z.compare (section_index (cd_ext left)) (section_index (cd_ext right)))
               (strcmp (cd_sec left) (cd_sec right)))
  end.

(** [COMPARE_LOCALE_ELEMENTS]. *)
Definition compare_elements (l elt1 elt2 : cstr) : comparison :=
  lex_cmp (if bool_decide (l = []) then Eq else prefer (STREQ l elt1) (STREQ l elt2)) (strcmp elt1 elt2).

Definition is_utf8 (codeset : cstr) : bool := STREQ (get_canonical_charset_name codeset) (lit "UTF-8").

Definition compare_locales (left right : candidate) : comparison :=
  match strrchr (cd_path left) "/"%char, strrchr (cd_path right) "/"%char with
  | Some slash1, Some slash2 =>
    let bits1 := unpack_locale_bits (drop (S slash1) (cd_path left)) in
    let bits2 := unpack_locale_bits (drop (S slash2) (cd_path right)) in
    let locale := match strchr internal_locale ":"%char with Some n => take n internal_locale | None => internal_locale end in
    let lbits := unpack_locale_bits locale in
    lex_cmp (compare_elements (lb_language lbits) (lb_language bits1) (lb_language bits2))
      (lex_cmp (compare_elements (lb_territory lbits) (lb_territory bits1) (lb_territory bits2))
        (lex_cmp (compare_elements (lb_modifier lbits) (lb_modifier bits1) (lb_modifier bits2))
          (prefer (is_utf8 (lb_codeset bits1)) (is_utf8 (lb_codeset bits2)))))
  | _, _ => Eq
  end.

Definition compare_candidates (left right : candidate) : comparison :=
  lex_cmp (prefer (STREQ (cd_name left) (cd_req_name left)) (STREQ (cd_name right) (cd_req_name right)))
    (lex_cmp (compare_ids (md_id (cd_source left)) (md_id (cd_source right)) true)
      (lex_cmp (compare_sections left right)
        (lex_cmp (strcmp (cd_ext left) (cd_ext right))
          (lex_cmp (compare_override_dir left right)
            (lex_cmp (compare_locales left right)
               (Nat.compare (cd_add_index left) (cd_add_index right))))))).

(** The search for duplicates in [add_candidate]: worse ones are removed on the
    way, until one at least as good is found, which the boolean tells. *)
Fixpoint drop_duplicates (candp : candidate) (l : list candidate) : bool * list candidate :=
  match l with
  | [] => (false, [])
  | search :: l =>
    if duplicate_candidates candp search then
      match compare_candidates candp search with
      | Lt => drop_duplicates candp l
      | _ => (true, search :: l)
      end
    else
      let '(found, l) := drop_duplicates candp l in
      (found, search :: l)
  end.

(** The boolean is the result: was the candidate added? *)
Definition insert_candidate (candp : candidate) (l : list candidate) : bool * list candidate :=
  let '(found, l) := drop_duplicates candp l in
  if found then (false, l) else (true, l ++ [candp]).

Section add.
Context (cfg : comp_config) `{FileSystem} `{Dirname} `{PageText}.
Context (ult_flags : Z).

Definition get_ult_flags (from_db : bool) (id : ascii) : Z :=
  if negb from_db then ult_flags
  else if bool_decide (id = ULT_MAN) then Z.land ult_flags (Z.lnot SO_LINK) else ult_flags.

(** The candidates, the static [add_index], and the cache of [ult_src]. *)
Record cand_state := CandState { cs_list : list candidate; cs_index : nat; cs_ult : ult_cache }.

Definition name_of_page (source : mandata) (req_name : cstr) : outcome cstr :=
  pointer ← or_undef "add_candidate: pointer" (md_pointer source);
  Ret (if negb (bool_decide (head pointer = Some "-"%char)) then pointer
       else default req_name (md_name source)).

Definition add_candidate (s : cand_state) (from_db cat : bool) (req_name path : cstr) (ult : option cstr)
    (source : mandata) : outcome (bool * cand_state) :=
  let add ult cache :=
    let source := match md_name source with Some _ => source | None => set_name (Some req_name) source end in
    let candp := Candidate req_name from_db cat path ult source (cs_index s) in
    let '(added, l) := insert_candidate candp (cs_list s) in
    Ret (added, CandState l (S (cs_index s)) cache) in
  match ult with
  | Some _ => add ult (cs_ult s)
  | None =>
    name ← name_of_page source req_name;
    filename ← make_filename path (Some name) source (if cat then lit "cat" else lit "man");
    match filename with
    | None => Ret (false, s)
    | Some filename =>
      '(v, cache) ← ult_src cfg (cs_ult s) filename path None (get_ult_flags from_db (md_id source));
      add (uv_path <$> v) cache
    end
  end.

(** [qsort]: the candidates never compare equal, so there is one sorted
    order if [compare_candidates] is an order at all. *)
Definition sort_candidates (l : list candidate) : list candidate := gl_sorted_of compare_candidates l.
End add.
End compare.

(** ** Duplicates *)

Lemma STREQ_sym a b : STREQ a b = STREQ b a.
Proof. rewrite !STREQ_spec. by apply bool_decide_ext. Qed.

Lemma STRNEQ_sym a b n : STRNEQ a b n = STRNEQ b a n.
Proof.
  destruct (STRNEQ b a n) eqn:E.
  - by apply STRNEQ_true, eq_sym, STRNEQ_true.
  - destruct (STRNEQ a b n) eqn:E'; [|done]. by apply STRNEQ_true, eq_sym, STRNEQ_true in E'; congruence.
Qed.

Lemma duplicate_sym a b : duplicate_candidates a b = duplicate_candidates b a.
Proof.
  unfold duplicate_candidates.
  rewrite (STREQ_sym (cd_name a)), (STREQ_sym (cd_sec a)), (STREQ_sym (cd_ext a)), (STREQ_sym (cd_path a)).
  assert (match cd_ult a, cd_ult b with Some x, Some y => STREQ x y | _, _ => false end =
    match cd_ult b, cd_ult a with Some x, Some y => STREQ x y | _, _ => false end) as ->.
  { destruct (cd_ult a), (cd_ult b); [apply STREQ_sym|done..]. }
  destruct (strrchr (cd_path a) "/"%char) as [n|], (strrchr (cd_path b) "/"%char) as [m|]; try done.
  rewrite (STRNEQ_sym (cd_path a)), Nat.max_comm.
  rewrite (STREQ_sym (lb_language _)), (STREQ_sym (lb_territory _)), (STREQ_sym (lb_modifier _)). done.
Qed.

Definition apart (a b : candidate) : Prop := duplicate_candidates a b = false.
Definition no_duplicates (l : list candidate) : Prop := ForallOrdPairs apart l.

Section duplicates.
Context (OVERRIDE_DIR : cstr) (section : option cstr) (section_list : list cstr) (internal_locale : cstr).
Abbreviation compare := (compare_candidates OVERRIDE_DIR section section_list internal_locale).
Abbreviation drop_dups := (drop_duplicates OVERRIDE_DIR section section_list internal_locale).

Lemma drop_duplicates_spec c l :
  let '(found, l') := drop_dups c l in
  sublist l' l ∧
  (if found then ∃ b, b ∈ l' ∧ duplicate_candidates c b = true ∧ compare c b ≠ Lt
   else ∀ b, b ∈ l' → apart c b) ∧
  ∀ b, b ∈ l → b ∈ l' ∨ duplicate_candidates c b = true ∧ compare c b = Lt.
Proof.
  induction l as [|s l IH]; cbn [drop_duplicates].
  { split; [done|]. split; intros b ?%elem_of_nil; done. }
  destruct (duplicate_candidates c s) eqn:Ed.
  - destruct (compare c s) eqn:Ec.
    2: { destruct (drop_dups c l) as [found l']. destruct IH as (H1 & H2 & H3). split; [by constructor|].
         split; [done|]. intros b [->|Hb]%elem_of_cons; [by right|by apply H3]. }
    all: split; [done|]; split; [exists s; rewrite Ec; split; [by left|done]|intros; by left].
  - destruct (drop_dups c l) as [found l']. destruct IH as (H1 & H2 & H3). split; [by constructor|]. split.
    + destruct found; [destruct H2 as (b & ? & ?); exists b; split; [by right|done]|].
      intros b [->|Hb]%elem_of_cons; [done|by apply H2].
    + intros b [->|Hb]%elem_of_cons; [left; by left|]. destruct (H3 b Hb); [left; by right|by right].
Qed.

Lemma sublist_elem {A} (l l' : list A) x : sublist l' l → x ∈ l' → x ∈ l.
Proof.
  induction 1 as [|y l' l Hs IH|y l' l Hs IH]; [done|..]; rewrite ?elem_of_cons; [|by right; apply IH].
  intros [->|Hx]; [by left|right; by apply IH].
Qed.

Lemma ForallOrdPairs_sublist {A} (R : A → A → Prop) l l' : sublist l' l → ForallOrdPairs R l → ForallOrdPairs R l'.
Proof.
  induction 1 as [|x l' l Hs IH|x l' l Hs IH]; [done|..]; intros Hp; inversion_clear Hp as [|? ? Hx Hl]; [|by apply IH].
  constructor; [|by apply IH]. rewrite Forall_forall in *. intros y Hy. apply Hx. by eapply sublist_elem.
Qed.

Lemma ForallOrdPairs_snoc {A} (R : A → A → Prop) l x :
  ForallOrdPairs R l → (∀ y, y ∈ l → R y x) → ForallOrdPairs R (l ++ [x]).
Proof.
  induction 1 as [|y l Hy Hl IH]; intros Hx; simpl; [repeat constructor|]. constructor.
  - apply Forall_app. split; [done|]. repeat constructor. apply Hx. by left.
  - apply IH. intros z Hz. apply Hx. by right.
Qed.

Lemma insert_candidate_spec c l :
  no_duplicates l →
  let '(added, l') := insert_candidate OVERRIDE_DIR section section_list internal_locale c l in
  no_duplicates l' ∧
  (added = true → c ∈ l') ∧
  (added = false → ∃ b, b ∈ l' ∧ duplicate_candidates c b = true ∧ compare c b ≠ Lt) ∧
  (∀ b, b ∈ l → b ∈ l' ∨ duplicate_candidates c b = true ∧ compare c b = Lt) ∧
  (∀ b, b ∈ l' → b = c ∨ b ∈ l).
Proof.
  intros Hl. unfold insert_candidate. pose proof (drop_duplicates_spec c l) as Hs.
  destruct (drop_dups c l) as [found l']. destruct Hs as (Hsub & Hf & Hkeep).
  assert (no_duplicates l') as Hl' by by eapply ForallOrdPairs_sublist.
  destruct found.
  - split; [done|]. split; [done|]. split; [done|]. split; [done|]. intros b Hb. right. by eapply sublist_elem.
  - split.
    { apply ForallOrdPairs_snoc; [done|]. intros b Hb. unfold apart. rewrite duplicate_sym. by apply Hf. }
    split; [intros _; set_solver|]. split; [done|]. split.
    + intros b Hb. destruct (Hkeep b Hb) as [?|?]; [left; set_solver|by right].
    + intros b [Hb| ->%list_elem_of_singleton]%elem_of_app; [right; by eapply sublist_elem|by left].
Qed.

(** Adding a candidate keeps the list free of duplicates, and loses only
    candidates that are worse than the new one, of which they are duplicates;
    the new one itself is left out only when it duplicates one that is at least
    as good and stays. *)
Theorem insert_candidate_ok c l :
  no_duplicates l →
  let '(added, l') := insert_candidate OVERRIDE_DIR section section_list internal_locale c l in
  no_duplicates l' ∧
  (added = true → c ∈ l') ∧
  (added = false → ∃ b, b ∈ l' ∧ duplicate_candidates c b = true ∧ compare c b ≠ Lt) ∧
  (∀ b, b ∈ l → b ∈ l' ∨ duplicate_candidates c b = true ∧ compare c b = Lt) ∧
  (∀ b, b ∈ l' → b = c ∨ b ∈ l).
Proof. apply insert_candidate_spec. Qed.
End duplicates.

(** ** The order *)

#[export] Instance prefer_weak : CmpWeak prefer.
Proof. split; [by intros [] []|by intros [] [] []]. Qed.

#[export] Instance natcompare_total : CmpTotal Nat.compare.
Proof.
  split; [split|].
  - intros. apply Nat.compare_antisym.
  - intros a b c. rewrite !Nat.compare_ngt_iff. lia.
  - apply Nat.compare_eq.
Qed.

#[export] Instance zcompare_weak : CmpWeak Z.compare.
Proof. apply _. Qed.

(** A preference by a property, then by a text. *)
Lemma prefer_then {A} (p : A → bool) (f : A → cstr) :
  CmpWeak (λ a b, lex_cmp (prefer (p a) (p b)) (strcmp (f a) (f b))).
Proof. exact (lex_cmp_weak _ _ (cmp_contramap prefer p) (cmp_contramap strcmp f)). Qed.

Section order.
Context (section : option cstr) (section_list : list cstr) (internal_locale : cstr).
Abbreviation compare := (compare_candidates [] section section_list internal_locale).

(** [compare_candidates] as a comparison of keys. *)
Definition kind_key (c : candidate) : Z :=
  schar (if decide (md_id (cd_source c) = SO_MAN) then ULT_MAN else md_id (cd_source c)).
Definition bits_of (c : candidate) : locale_bits :=
  unpack_locale_bits (drop (S (default 0 (strrchr (cd_path c) "/"%char))) (cd_path c)).
Definition locale_of_user : locale_bits :=
  unpack_locale_bits (match strchr internal_locale ":"%char with Some n => take n internal_locale | None => internal_locale end).

Definition exact_cmp (l r : candidate) := prefer (STREQ (cd_name l) (cd_req_name l)) (STREQ (cd_name r) (cd_req_name r)).
Definition kind_cmp (l r : candidate) := Z.compare (kind_key l) (kind_key r).
Definition asked_cmp (l r : candidate) :=
  match section with Some s => prefer (STREQ (cd_ext l) s) (STREQ (cd_ext r) s) | None => Eq end.
Definition index_cmp (l r : candidate) :=
  Z.compare (section_index section_list (cd_ext l)) (section_index section_list (cd_ext r)).
Definition elements_cmp (elt : locale_bits → cstr) (l r : candidate) :=
  compare_elements (elt locale_of_user) (elt (bits_of l)) (elt (bits_of r)).
Definition utf8_cmp (l r : candidate) := prefer (is_utf8 (lb_codeset (bits_of l))) (is_utf8 (lb_codeset (bits_of r))).

Fixpoint lex_all (cs : list (candidate → candidate → comparison)) (l r : candidate) : comparison :=
  match cs with
  | [] => Eq
  | c :: cs => lex_cmp (c l r) (lex_all cs l r)
  end.

Definition key_cmps : list (candidate → candidate → comparison) :=
  [exact_cmp; kind_cmp; asked_cmp; index_cmp; (λ l r, strcmp (cd_sec l) (cd_sec r));
   (λ l r, strcmp (cd_ext l) (cd_ext r)); elements_cmp lb_language; elements_cmp lb_territory;
   elements_cmp lb_modifier; utf8_cmp; (λ l r, Nat.compare (cd_add_index l) (cd_add_index r))].

Lemma lex_all_weak cs : Forall CmpWeak cs → CmpWeak (lex_all cs).
Proof.
  induction 1 as [|c cs Hc Hcs IH]; [by split|]. exact (lex_cmp_weak _ _ Hc IH).
Qed.

Lemma elements_cmp_weak elt : CmpWeak (elements_cmp elt).
Proof.
  unfold elements_cmp, compare_elements. case_bool_decide.
  - exact (cmp_contramap strcmp (λ c, elt (bits_of c))).
  - exact (prefer_then (λ c, STREQ (elt locale_of_user) (elt (bits_of c))) (λ c, elt (bits_of c))).
Qed.

#[local] Instance key_cmps_weak : CmpWeak (lex_all key_cmps).
Proof.
  apply lex_all_weak. unfold key_cmps. repeat apply Forall_cons_2; try apply elements_cmp_weak.
  - exact (cmp_contramap prefer (λ c, STREQ (cd_name c) (cd_req_name c))).
  - exact (cmp_contramap Z.compare kind_key).
  - unfold asked_cmp. destruct section as [s|]; [exact (cmp_contramap prefer (λ c, STREQ (cd_ext c) s))|by split].
  - exact (cmp_contramap Z.compare (λ c, section_index section_list (cd_ext c))).
  - exact (cmp_contramap strcmp cd_sec).
  - exact (cmp_contramap strcmp cd_ext).
  - exact (cmp_contramap prefer (λ c, is_utf8 (lb_codeset (bits_of c)))).
  - exact (cmp_contramap Nat.compare cd_add_index).
  - by apply Forall_nil.
Qed.

(** Candidates that are compared consistently: every path has a slash, pages
    with the same extension are in the same section, and every candidate was
    added at a moment of its own. *)
Record comparable (l : list candidate) : Prop := Comparable {
  cp_path : ∀ c, c ∈ l → "/"%char ∈ cd_path c;
  cp_sec : ∀ c d, c ∈ l → d ∈ l → cd_ext c = cd_ext d → cd_sec c = cd_sec d;
  cp_index : NoDup (cd_add_index <$> l);
}.

Lemma schar_link c : c = ULT_MAN ∨ c = SO_MAN ∨ (schar c < 65)%Z ∨ (66 < schar c)%Z.
Proof. all_bytes c; tauto. Qed.

Lemma compare_ids_key l r : compare_ids (md_id (cd_source l)) (md_id (cd_source r)) true = kind_cmp l r.
Proof.
  unfold kind_cmp, kind_key, compare_ids, char_cmp. cbn [andb].
  generalize (md_id (cd_source l)) (md_id (cd_source r)). intros a b.
  assert (schar ULT_MAN = 65%Z ∧ schar SO_MAN = 66%Z) as [EA EB] by done.
  destruct (schar_link a) as [->|[->|Ha]], (schar_link b) as [->|[->|Hb]]; try done.
  all: repeat case_bool_decide; repeat case_decide; subst; cbn [andb orb]; rewrite ?EA, ?EB in *; try done;
    try (exfalso; lia).
  all: try (destruct (Z.compare_spec 66 (schar b)), (Z.compare_spec 65 (schar b)); try done; exfalso; lia).
  all: destruct (Z.compare_spec (schar a) 66), (Z.compare_spec (schar a) 65); try done; exfalso; lia.
Qed.

Lemma lex_cmp_assoc a b c : lex_cmp (lex_cmp a b) c = lex_cmp a (lex_cmp b c).
Proof. by destruct a. Qed.

Lemma lex_cmp_Eq a : lex_cmp a Eq = a.
Proof. by destruct a. Qed.

Lemma strcmp_eq a b : strcmp a b = Eq → a = b.
Proof. apply (cmp_eq (cmp:=strcmp)). Qed.

Lemma compare_locales_keys l r :
  "/"%char ∈ cd_path l → "/"%char ∈ cd_path r →
  compare_locales internal_locale l r =
    lex_all [elements_cmp lb_language; elements_cmp lb_territory; elements_cmp lb_modifier; utf8_cmp] l r.
Proof.
  intros Hl Hr. unfold compare_locales, lex_all, elements_cmp, utf8_cmp, bits_of, locale_of_user.
  assert (∀ p, "/"%char ∈ p → ∃ n, strrchr p "/"%char = Some n) as Hs.
  { intros p Hp. destruct (strrchr p "/"%char) as [n|] eqn:E; [by exists n|]. by apply strrchr_None in E. }
  destruct (Hs _ Hl) as [n ->], (Hs _ Hr) as [m ->]. cbn [default from_option id].
  by destruct (prefer _ _).
Qed.

Lemma compare_keys l c d :
  comparable l → c ∈ l → d ∈ l → compare c d = lex_all (key_cmps) c d.
Proof.
  intros [Hp Hs _] Hc Hd. unfold compare_candidates, key_cmps. cbn [lex_all].
  rewrite compare_ids_key. fold (exact_cmp c d). rewrite compare_locales_keys by auto.
  unfold compare_override_dir. rewrite bool_decide_eq_true_2 by done. cbn [lex_cmp lex_all].
  rewrite !lex_cmp_assoc, !lex_cmp_Eq. cbn [lex_cmp]. f_equal. f_equal. unfold compare_sections. fold (asked_cmp c d) (index_cmp c d).
  destruct (strcmp (cd_ext c) (cd_ext d)) eqn:E; cbn [lex_cmp]; rewrite ?lex_cmp_assoc; try done.
  apply strcmp_eq in E. assert (asked_cmp c d = Eq ∧ index_cmp c d = Eq) as [-> ->].
  { unfold asked_cmp, index_cmp. rewrite E. split; [|apply Z.compare_refl].
    destruct section; [|done]. by destruct (STREQ _ _). }
  rewrite (Hs c d Hc Hd E), strcmp_refl. done.
Qed.

(** No two of the candidates compare equal. *)
Lemma compare_distinct l c d :
  comparable l → c ∈ l → d ∈ l → compare c d = Eq → cd_add_index c = cd_add_index d.
Proof.
  intros Hl Hc Hd Heq. unfold compare_candidates in Heq.
  repeat match type of Heq with lex_cmp ?a ?b = Eq => destruct a; cbn [lex_cmp] in Heq; try done end.
  by apply Nat.compare_eq.
Qed.

Lemma add_index_inj l c d : comparable l → c ∈ l → d ∈ l → cd_add_index c = cd_add_index d → c = d.
Proof.
  intros [_ _ Hn] Hc Hd Heq. apply list_elem_of_lookup in Hc as [i Hi], Hd as [j Hj].
  assert (i = j) as ->; [|congruence].
  eapply NoDup_lookup; [done|by rewrite list_lookup_fmap, Hi|by rewrite list_lookup_fmap, Hj, Heq].
Qed.

Lemma gl_sorted_of_ext (c1 c2 : candidate → candidate → comparison) l :
  (∀ x y, x ∈ l → y ∈ l → c1 x y = c2 x y) → gl_sorted_of c1 l = gl_sorted_of c2 l.
Proof.
  intros Hext. unfold gl_sorted_of.
  assert (∀ acc xs, acc ⊆ l → xs ⊆ l →
    fold_left (λ acc x, gl_sortedlist_add c1 x acc) xs acc = fold_left (λ acc x, gl_sortedlist_add c2 x acc) xs acc) as Hf.
  { intros acc xs. revert acc. induction xs as [|x xs IH]; intros acc Ha Hx; [done|]. simpl.
    assert (gl_sortedlist_add c1 x acc = gl_sortedlist_add c2 x acc) as ->.
    { assert (x ∈ l) as Hxl by (apply Hx; by left). clear -Hext Ha Hxl. induction acc as [|y acc IH]; [done|]. simpl.
      assert (y ∈ l) by (apply Ha; by left).
      rewrite Hext by done. rewrite IH; [done|]. intros z Hz. apply Ha. by right. }
    apply IH; [|set_solver]. intros z. rewrite elem_of_gl_sortedlist_add. set_solver. }
  apply Hf; set_solver.
Qed.

(** C39: without an override directory, on candidates with slashes in their
    paths whose extensions determine their sections, [compare_candidates] is a
    strict total order, and the list the pages are shown in is the one
    permutation of the candidates in which each comes before all that follow. *)
Theorem sort_candidates_ok l :
  comparable l →
  let sorted := sort_candidates [] section section_list internal_locale l in
  sorted ≡ₚ l ∧ StronglySorted (λ a b, compare a b = Lt) sorted ∧
  (∀ l', l' ≡ₚ l → StronglySorted (λ a b, compare a b = Lt) l' → l' = sorted) ∧
  (∀ a b c, a ∈ l → b ∈ l → c ∈ l → compare a b = Lt → compare b c = Lt → compare a c = Lt) ∧
  (∀ a b, a ∈ l → b ∈ l → compare b a = CompOpp (compare a b)).
Proof.
  intros Hl. cbv zeta. unfold sort_candidates.
  rewrite (gl_sorted_of_ext compare (lex_all key_cmps)) by (intros; by apply (compare_keys l)).
  pose proof (gl_sorted_of_perm (lex_all key_cmps) l) as Hperm. set (sorted := gl_sorted_of _ l) in *.
  assert (∀ a b c, a ∈ l → b ∈ l → c ∈ l → compare a b = Lt → compare b c = Lt → compare a c = Lt) as Htrans.
  { intros a b c Ha Hb Hc. rewrite !(compare_keys l) by done. apply (cmp_lt_trans (lex_all key_cmps)). }
  assert (∀ a b, a ∈ l → b ∈ l → compare b a = CompOpp (compare a b)) as Hanti.
  { intros a b Ha Hb. rewrite !(compare_keys l) by done. apply (cmp_antisym (cmp:=lex_all key_cmps)). }
  assert (∀ l', l' ≡ₚ l → StronglySorted (cmp_le (lex_all key_cmps)) l' → StronglySorted (λ a b, compare a b = Lt) l') as Hstrict.
  { intros l' Hp Hs. assert (NoDup (cd_add_index <$> l')) as Hn by (rewrite Hp; apply Hl).
    assert (∀ x, x ∈ l' → x ∈ l) as Hsub by (intros x; by rewrite Hp). clear Hp.
    induction Hs as [|a l' Hs IH Ha]; [constructor|]. cbn in Hn. apply NoDup_cons in Hn as [Hna Hn].
    constructor; [apply IH; [done|]; intros; apply Hsub; by right|]. rewrite Forall_forall in *. intros b Hb.
    assert (a ∈ l ∧ b ∈ l) as [? ?] by (split; apply Hsub; [by left|by right]).
    specialize (Ha b Hb). unfold cmp_le in Ha. rewrite <-(compare_keys l) in Ha by done.
    destruct (compare a b) eqn:E; [|done|done]. apply (compare_distinct l) in E; [|done..].
    exfalso. apply Hna. rewrite E. by apply list_elem_of_fmap_2. }
  split; [done|]. split; [apply Hstrict; [done|apply gl_sorted_of_sorted, _]|]. split; [|done].
  intros l' Hp Hs. eapply (StronglySorted_unique_strong (cmp_le (lex_all key_cmps))); [| | |by rewrite Hp, Hperm].
  - intros a b Ha Hb Hab Hba. apply (add_index_inj l); [done|by rewrite <-Hp|by rewrite <-Hperm|].
    assert (a ∈ l ∧ b ∈ l) as [? ?] by (split; [by rewrite <-Hp|by rewrite <-Hperm]).
    apply (compare_distinct l); [done..|]. unfold cmp_le in *. rewrite <-!(compare_keys l) in * by done.
    rewrite Hanti in Hba by done. by destruct (compare a b).
  - assert (∀ x, x ∈ l' → x ∈ l) as Hsub by (intros x; by rewrite Hp). clear Hp.
    induction Hs as [|a l' Hs IH Ha]; constructor; [apply IH; intros; apply Hsub; by right|].
    rewrite Forall_forall in *. intros b Hb. unfold cmp_le. rewrite <-(compare_keys l), (Ha b Hb); [done|done|..];
      apply Hsub; [by left|by right].
  - apply gl_sorted_of_sorted, _.
Qed.
End order.

(** ** Evaluation *)

Definition cand (name sec ext path : string) (ult : option string) (index : nat) : candidate :=
  Candidate (lit "foo") false false (lit path) (lit <$> ult)
    (Mandata (Some (lit name)) (lit ext) (lit sec) ULT_MAN None None None None (Timespec 0 0)) index.

Lemma sort_candidates_ok_witness :
  let l := [cand "foo" "3" "3" "/usr/man" None 0; cand "foo" "1" "1" "/usr/man" None 1; cand "Foo" "1" "1" "/usr/man" None 2] in
  sort_candidates [] None [lit "1"; lit "3"] (lit "C") l =
    [cand "foo" "1" "1" "/usr/man" None 1; cand "foo" "3" "3" "/usr/man" None 0; cand "Foo" "1" "1" "/usr/man" None 2].
Proof.
  set (l := [cand "foo" "3" "3" "/usr/man" None 0; cand "foo" "1" "1" "/usr/man" None 1; cand "Foo" "1" "1" "/usr/man" None 2]).
  assert (comparable l) as Hl.
  { split.
    - intros c Hc. apply (bool_decide_unpack _). repeat (apply elem_of_cons in Hc as [->|Hc]; [by vm_compute|]).
      by apply elem_of_nil in Hc.
    - intros c d Hc Hd Heq.
      repeat (apply elem_of_cons in Hc as [->|Hc]; [repeat (apply elem_of_cons in Hd as [->|Hd]; [by vm_compute in Heq|]); by apply elem_of_nil in Hd|]).
      by apply elem_of_nil in Hc.
    - compute_done. }
  pose proof (sort_candidates_ok None [lit "1"; lit "3"] (lit "C") l Hl) as (_ & _ & Huniq & _).
  symmetry. apply Huniq.
  - unfold l. rewrite Permutation_swap. done.
  - repeat constructor.
Defined.

Lemma insert_candidate_ok_witness :
  let '(added, l') := insert_candidate [] None [lit "1"] (lit "C") (cand "foo" "1" "1" "/usr/man" None 1)
    [cand "Foo" "1" "1" "/usr/man" None 0] in
  no_duplicates l' ∧ (added = true → cand "foo" "1" "1" "/usr/man" None 1 ∈ l') ∧
  (added = false → ∃ b, b ∈ l' ∧ duplicate_candidates (cand "foo" "1" "1" "/usr/man" None 1) b = true ∧
     compare_candidates [] None [lit "1"] (lit "C") (cand "foo" "1" "1" "/usr/man" None 1) b ≠ Lt) ∧
  (∀ b, b ∈ [cand "Foo" "1" "1" "/usr/man" None 0] → b ∈ l' ∨
     duplicate_candidates (cand "foo" "1" "1" "/usr/man" None 1) b = true ∧
     compare_candidates [] None [lit "1"] (lit "C") (cand "foo" "1" "1" "/usr/man" None 1) b = Lt) ∧
  (∀ b, b ∈ l' → b = cand "foo" "1" "1" "/usr/man" None 1 ∨ b ∈ [cand "Foo" "1" "1" "/usr/man" None 0]).
Proof.
  refine (insert_candidate_ok [] None [lit "1"] (lit "C") (cand "foo" "1" "1" "/usr/man" None 1)
    [cand "Foo" "1" "1" "/usr/man" None 0] _).
  repeat constructor.
Defined.

(** ** Two behaviours the code does not mean to have *)

(** When pages with the same extension come from different section
    directories, [compare_candidates] is not transitive: these three go round
    in a circle, and the order [qsort] leaves them in is not defined. *)
Theorem compare_candidates_cycle :
  let compare := compare_candidates [] None [lit "1"] (lit "C") in
  let a := cand "foo" "1b" "1x" "/usr/man" None 0 in
  let b := cand "foo" "1a" "1x" "/opt/man" None 1 in
  let c := cand "foo" "1a" "1y" "/srv/man" None 2 in
  compare a b = Lt ∧ compare b c = Lt ∧ compare c a = Lt.
Proof. by vm_compute. Qed.

(** A new candidate can push out a worse duplicate and then be left out itself
    for the sake of a better duplicate that the first one did not duplicate:
    here the only candidate for the source [/m/man1/x.1] is lost. *)
Example insert_candidate_loses :
  let old := cand "bar" "1" "1" "/usr/man" (Some "/m/man1/x.1") 0 in
  let better := cand "foo" "1" "1" "/usr/man" (Some "/m/man1/y.1") 1 in
  let new := cand "foo" "1" "1" "/usr/man" (Some "/m/man1/x.1") 2 in
  insert_candidate [] None [lit "1"] (lit "C") new [old; better] = (false, [better]).
Proof. by vm_compute. Qed.
