(* ===== verification/Whatis.v ===== *)
(** * src/whatis.c: whatis and apropos

    [whatis] looks every keyword up in the index and prints the one-line
    description of each page found; [apropos] walks over all pages and prints
    those whose name or description matches.  The state is what [display] has
    printed and the set of pages it has seen.  Messages are those of the C
    locale. *)

From S2P Require Import Prelude CStr Fs Util Compression Filenames Mydbm DbContent Wordfnmatch DbLookup DbGroup DbKeys DbDelete Manp Globbing Manpath.

(** ** Options *)

Definition split_sections (sections_str : cstr) : option (list cstr) :=
  match strtok (one_of (lit ":,")) sections_str with [] => None | out => Some out end.

(** The flags of the search. *)
Record search_mode := SearchMode {
  am_apropos : bool;
  regex_opt : bool;
  exact_opt : bool;
  wildcard : bool;
  require_all : bool;
  long_output : bool;
}.

Record whatis_options := WhatisOptions {
  mode : search_mode;
  quiet : bool;
  debug_level : bool;
  sections : option (list cstr);
  alt_systems : cstr;
  manp_opt : option cstr;
  locale_opt : option cstr;
  user_config_file : option cstr;
  keywords : list cstr;
}.

Definition set_mode (f : search_mode → search_mode) (o : whatis_options) : whatis_options :=
  WhatisOptions (f (mode o)) (quiet o) (debug_level o) (sections o) (alt_systems o) (manp_opt o)
    (locale_opt o) (user_config_file o) (keywords o).

Definition initial_options (apropos : bool) : whatis_options :=
  WhatisOptions (SearchMode apropos false false false false false) true false None [] None None None [].

(** What argp hands to [parse_opt]. *)
Inductive argp_key :=
| Opt (c : ascii) (arg : cstr)
| KeyArgs (args : list cstr)
| KeyNoArgs
| KeySuccess
| KeyOther.

(** [None] is [ARGP_ERR_UNKNOWN]; a usage error or a missing keyword ends the program. *)
Definition parse_opt (key : argp_key) (o : whatis_options) : outcome (option whatis_options) :=
  let '(WhatisOptions m q d ss sys mp l cf ks) := o in
  let '(SearchMode ap rx ex wc al lo) := m in
  match key with
  | Opt "d" _ => Ret (Some (WhatisOptions m q true ss sys mp l cf ks))
  | Opt "v" _ => Ret (Some (WhatisOptions m false d ss sys mp l cf ks))
  | Opt "r" _ => Ret (Some (set_mode (λ _, SearchMode ap true ex wc al lo) o))
  | Opt "e" _ => Ret (Some (set_mode (λ _, SearchMode ap false true wc al lo) o))
  | Opt "w" _ => Ret (Some (set_mode (λ _, SearchMode ap false ex true al lo) o))
  | Opt "a" _ => if ap then Ret (Some (set_mode (λ _, SearchMode ap rx ex wc true lo) o)) else Fatal "usage"
  | Opt "l" _ => Ret (Some (set_mode (λ _, SearchMode ap rx ex wc al true) o))
  | Opt "s" arg => Ret (Some (WhatisOptions m q d (split_sections arg) sys mp l cf ks))
  | Opt "m" arg => Ret (Some (WhatisOptions m q d ss arg mp l cf ks))
  | Opt "M" arg => Ret (Some (WhatisOptions m q d ss sys (Some arg) l cf ks))
  | Opt "L" arg => Ret (Some (WhatisOptions m q d ss sys mp (Some arg) cf ks))
  | Opt "C" arg => Ret (Some (WhatisOptions m q d ss sys mp l (Some arg) ks))
  | Opt "f" _ => Ret (Some (set_mode (λ _, SearchMode false rx ex wc al lo) o))
  | Opt "k" _ => Ret (Some (set_mode (λ _, SearchMode true rx ex wc al lo) o))
  | Opt "h" _ => Ret None
  | KeyArgs args => Ret (Some (WhatisOptions m q d ss sys mp l cf args))
  | KeyNoArgs => Fatal "what?"
  | KeySuccess =>
    Ret (Some (if ap && negb ex && negb wc then set_mode (λ _, SearchMode ap true ex wc al lo) o else o))
  | Opt _ _ | KeyOther => Ret None
  end%char.

(** ** Words of a description *)

(** The loop of [match]: [pos] is [whatis - begin].  One more round after a
    match of the empty word at the end reads past the terminating NUL. *)
Fixpoint match_loop (fuel : nat) (page whatis : cstr) (pos : nat) : outcome bool :=
  match fuel with
  | 0 => Ret false
  | S fuel =>
    if bool_decide (length whatis < pos) then Undef "match: whatis after its end"
    else
      match strcasestr (drop pos whatis) page with
      | None => Ret false
      | Some n =>
        let p := pos + n in
        let left_ok := bool_decide (p = 0) || negb (from_option word_char false (whatis !! (p - 1))) in
        let right_ok := negb (from_option word_char false (whatis !! (p + length page))) in
        if left_ok && right_ok then Ret true else match_loop fuel page whatis (S p)
      end
  end.

Definition match_word (page whatis : cstr) : outcome bool :=
  match_loop (S (S (length whatis))) page whatis 0.

(** ** Pointers and descriptions *)

Definition unknown_subject : cstr := lit "(unknown subject)".
Definition loop_warning (page : cstr) : cstr := lit "warning: " ++ page ++ lit " contains a pointer loop".

(** What [display] leaves: the keys seen, the lines on standard output, and
    the messages on standard error. *)
Record display_state := DisplayState {
  display_seen : gset cstr;
  stdout : list cstr;
  stderr : list cstr;
}.

Definition no_display : display_state := DisplayState ∅ [] [].

Definition put_out (l : list cstr) (st : display_state) : display_state :=
  DisplayState (display_seen st) (stdout st ++ l) (stderr st).
Definition put_err (l : list cstr) (st : display_state) : display_state :=
  DisplayState (display_seen st) (stdout st) (stderr st ++ l).

Section whatis.
Context {db : Type} `{Mydbm db} `{Matcher} `{FileSystem} `{Dirname}.
Context (convert_to_locale : cstr → cstr).

(** *** Printing a page *)

Section display.
Context (dbf : db) (quiet long_output : bool) (line_length : outcome Z).

(** A page that needs no further lookup: its pointer is [-] or itself. *)
Definition resolved (info : mandata) (page : cstr) : outcome bool :=
  pointer ← or_undef "resolve_pointers: no pointer" (md_pointer info);
  Ret (bool_decide (head pointer = Some "-"%char) ||
       ((match md_name info with None => true | Some n => STREQ n page end) && STREQ pointer page)).

Fixpoint resolve_loop (rounds : nat) (page newpage : cstr) (info : option mandata)
    : outcome (option mandata * list cstr) :=
  match rounds with
  | 0 => Ret (None, if quiet then [] else [loop_warning page])
  | S rounds =>
    match info with
    | None => Ret (None, [])
    | Some info =>
      done ← resolved info newpage;
      if (done : bool) then Ret (Some info, [])
      else
        newinfo ← dblookup_exact dbf (default [] (md_pointer info)) (Some (md_ext info)) true;
        resolve_loop rounds page newpage newinfo
    end
  end.

Definition resolve_pointers (info : mandata) (page : cstr) : outcome (option mandata * list cstr) :=
  done ← resolved info page;
  if (done : bool) then Ret (Some info, [])
  else
    let newpage := default [] (md_pointer info) in
    info ← dblookup_exact dbf newpage (Some (md_ext info)) true;
    resolve_loop 10 page newpage info.

Definition get_whatis (info : option mandata) (page : cstr) : outcome (cstr * list cstr) :=
  match info with
  | None => Ret (unknown_subject, [])
  | Some info =>
    match md_whatis info with
    | Some (c :: w) => Ret (c :: w, [])
    | _ =>
      if quiet then Ret (unknown_subject, [])
      else
        pointer ← or_undef "get_whatis: no pointer" (md_pointer info);
        Ret (unknown_subject,
             if bool_decide (head pointer = Some "-"%char) then [] else [loop_warning page])
    end
  end.

(** The beginning of the line: the page and its section, padded to 20 columns. *)
Definition heading (line_len : Z) (info : mandata) (page page_name pointer : cstr) : cstr :=
  let string :=
    if negb long_output && bool_decide ((line_len ÷ 2) `mod` 2 ^ 64 < Z.of_nat (length page_name))%Z then
      (* a negative precision counts as none *)
      (if bool_decide (line_len ÷ 2 - 3 < 0)%Z then page_name
       else take (Z.to_nat (line_len ÷ 2 - 3)) page_name) ++ lit "..."
    else page_name in
  let string := appendstr (Some string) [lit " ("; md_ext info; lit ")"] in
  let string :=
    if negb (STREQ pointer (lit "-")) && negb (STREQ pointer page) then
      appendstr (Some string) [lit " ["; pointer; lit "]"]
    else string in
  appendstr (Some (string ++ replicate (20 - length string) " "%char)) [lit " - "].

(** The conversion of a [size_t] to [int]. *)
Definition to_int (z : Z) : Z := ((z + 2 ^ 31) `mod` 2 ^ 32 - 2 ^ 31)%Z.

(** The whole line.  [rest] is converted to [size_t] in the comparison. *)
Definition display_line (line_len : Z) (string whatis : cstr) : outcome cstr :=
  let rest := to_int (line_len - Z.of_nat (length string)) in
  if negb long_output && bool_decide (rest `mod` 2 ^ 64 < Z.of_nat (length whatis))%Z then
    if bool_decide (rest - 3 < 0)%Z then Undef "display: whatis[rest - 3]"
    else Ret (appendstr (Some string) [take (Z.to_nat (rest - 3)) whatis; lit "..." ++ [NL]])
  else Ret (appendstr (Some string) [whatis; [NL]]).

Definition seen_key (info : mandata) (page_name : cstr) : cstr :=
  page_name ++ lit " (" ++ md_ext info ++ lit ")".

Definition display (info : mandata) (page : cstr) (st : display_state) : outcome display_state :=
  '(newinfo, errs) ← resolve_pointers info page;
  '(whatis, errs') ← get_whatis newinfo page;
  let st := put_err (errs ++ errs') st in
  let newinfo := default info newinfo in
  let page_name := default page (md_name newinfo) in
  let key := seen_key newinfo page_name in
  if bool_decide (key ∈ display_seen st) then Ret st
  else
    let st := DisplayState ({[ key ]} ∪ display_seen st) (stdout st) (stderr st) in
    line_len ← line_length;
    pointer ← or_undef "display: no pointer" (md_pointer newinfo);
    line ← display_line line_len (heading line_len newinfo page page_name pointer) whatis;
    Ret (put_out [convert_to_locale line] st).

Fixpoint display_all (infos : list (mandata * cstr)) (st : display_state) : outcome display_state :=
  match infos with
  | [] => Ret st
  | (info, page) :: infos => st ← display info page st; display_all infos st
  end.

(** *** whatis *)

Definition do_whatis_section (page : cstr) (section : option cstr) (st : display_state)
    : outcome (nat * display_state) :=
  infos ← dblookup_all dbf page section false;
  st ← display_all ((λ info, (info, page)) <$> infos) st;
  Ret (length infos, st).

Section do_whatis.
Context (config : config_state) (PATH : option cstr) (OVERRIDE_DIR : cstr) (cwd : option cstr).
Context (multiple_locale internal_locale : option cstr) (secs : option (list cstr)).

Definition set_locale (l : option cstr) : option cstr :=
  match l with Some (c :: l) => Some (c :: l) | _ => None end.

Definition locale_manpath (manpath : cstr) : outcome (option cstr) :=
  let all_locales :=
    match set_locale multiple_locale, set_locale internal_locale with
    | Some m, Some i => Some (m ++ lit ":" ++ i)
    | Some m, None => Some m
    | None, Some i => Some i
    | None, None => None
    end in
  add_nls_manpaths manpath all_locales.

Definition suitable_manpath (manpath page_dir : cstr) : outcome bool :=
  let page_manp := get_manpath_from_path config page_dir false in
  if bool_decide (page_manp = []) then Ret false
  else
    pm ← locale_manpath page_manp;
    page_manp ← or_undef "create_pathlist: no path" pm;
    page_manpathlist ← create_pathlist OVERRIDE_DIR cwd page_manp;
    Ret (bool_decide (manpath ∈ page_manpathlist)).

(** The name to look up for a keyword in [manpath], if it is to be looked up
    there: an executable on the path is searched for near its directory only. *)
Definition whatis_page (page manpath : cstr) : outcome (option cstr) :=
  let may_execute :=
    match strchr page "/"%char, fs_stat page with
    | Some _, Some st => negb (S_ISDIR (st_mode st)) && negb (bool_decide (Z.land (st_mode st) 73 = 0))%Z
    | _, _ => false
    end in
  if may_execute then
    let page_dir := dir_name page in
    on_path ← directory_on_path PATH cwd page_dir;
    if (on_path : bool) then
      suitable ← suitable_manpath manpath page_dir;
      Ret (if (suitable : bool) then Some (base_name page) else None)
    else Ret (Some page)
  else Ret (Some page).

(** The loop over the sections: was anything found? *)
Fixpoint whatis_sections (page : cstr) (ss : list (option cstr)) (st : display_state)
    : outcome (bool * display_state) :=
  match ss with
  | [] => Ret (false, st)
  | s :: ss =>
    '(n, st) ← do_whatis_section page s st;
    '(b, st) ← whatis_sections page ss st;
    Ret (negb (bool_decide (n = 0)) || b, st)
  end.

Fixpoint whatis_pages (i : nat) (pages : list cstr) (manpath : cstr) (found : list bool) (st : display_state)
    : outcome (list bool * display_state) :=
  match pages with
  | [] => Ret (found, st)
  | page :: pages =>
    p ← whatis_page page manpath;
    match p with
    | None => whatis_pages (S i) pages manpath found st
    | Some page =>
      '(b, st) ← whatis_sections page (match secs with Some ss => Some <$> ss | None => [None] end) st;
      whatis_pages (S i) pages manpath (if (b : bool) then <[i:=true]> found else found) st
    end
  end.

Definition do_whatis (pages : list cstr) (manpath : cstr) (found : list bool) (st : display_state) :=
  whatis_pages 0 pages manpath found st.
End do_whatis.

(** *** apropos *)

Section apropos.
Context (m : search_mode) (secs : option (list cstr)).

Definition any_set (found_here : list bool) : bool := existsb id found_here.
Definition all_set (found_here : list bool) : bool := forallb id found_here.
Definition combine_found : list bool → bool := if require_all m then all_set else any_set.

(** Set the flags of the pages that are hit. *)
Definition mark (hits : list bool) (found : list bool) : list bool := zip_with orb hits found.

Definition name_hit (dbname page : cstr) : bool :=
  if regex_opt m then regexec true page dbname
  else if am_apropos m && negb (wildcard m) then match strcasecmp dbname page with Eq => true | _ => false end
  else fnmatch true page dbname.

Definition parse_name (pages : list cstr) (dbname : cstr) (found found_here : list bool) : list bool * list bool :=
  let hits := name_hit dbname <$> pages in (mark hits found, mark hits found_here).

Definition whatis_hit (whatis page : cstr) : outcome bool :=
  if regex_opt m then Ret (regexec true page whatis)
  else if wildcard m then
    Ret (if exact_opt m then fnmatch false page whatis else word_fnmatch page whatis)
  else match_word page whatis.

Fixpoint whatis_hits (pages : list cstr) (whatis : cstr) : outcome (list bool) :=
  match pages with
  | [] => Ret []
  | page :: pages => b ← whatis_hit whatis page; bs ← whatis_hits pages whatis; Ret (b :: bs)
  end.

Definition parse_whatis (pages : list cstr) (whatis : cstr) (found found_here : list bool)
    : outcome (list bool * list bool) :=
  hits ← whatis_hits pages whatis; Ret (mark hits found, mark hits found_here).

Definition section_listed (info : mandata) : bool :=
  match secs with
  | Some ss => existsb (λ s, STREQ s (md_sec info) || STREQ s (md_ext info)) ss
  | None => true
  end.

(** What a page contributes to [found], and whether it is displayed. *)
Definition search_page (pages : list cstr) (key : cstr) (info : mandata) (found : list bool)
    : outcome (list bool * bool) :=
  let found_here := replicate (length pages) false in
  let '(found, found_here) := parse_name pages key found found_here in
  '(found, found_here) ←
    (if am_apropos m then
       match md_whatis info with
       | Some whatis =>
         if combine_found found_here then Ret (found, found_here)
         else parse_whatis pages whatis found found_here
       | None => Ret (found, found_here)
       end
     else Ret (found, found_here));
  Ret (found, combine_found found_here).

(** One turn of the loop of [do_apropos]. *)
Definition apropos_key (pages : list cstr) (key : cstr) (found : list bool) (st : display_state)
    : outcome (list bool * display_state) :=
  match MYDBM_FETCH dbf key with
  | None => Fatal "database corrupted; rebuild with mandb --create"
  | Some cont =>
    if bool_decide (head key = Some "$"%char) || bool_decide (head cont = Some TAB) then Ret (found, st)
    else
      info ← split_content (Some cont);
      if negb (section_listed info) then Ret (found, st)
      else
        let key := match strrchr key TAB with Some t => take t key | None => key end in
        '(found, shown) ← search_page pages key info found;
        if (shown : bool) then st ← display info key st; Ret (found, st)
        else Ret (found, st)
  end.

Fixpoint apropos_keys (pages keys : list cstr) (found : list bool) (st : display_state)
    : outcome (list bool * display_state) :=
  match keys with
  | [] => Ret (found, st)
  | key :: keys => '(found, st) ← apropos_key pages key found st; apropos_keys pages keys found st
  end.

Definition do_apropos (pages : list cstr) (found : list bool) (st : display_state) :=
  apropos_keys pages (db_keys dbf) found st.
End apropos.
End display.

(** *** The search along the path *)

Section search.
Context (MAN_DB : cstr) (open_rd : cstr → option db).
(** [grep command flags pattern file]: was a line found, and the lines. *)
Context (grep : cstr → cstr → cstr → cstr → bool * list cstr).
Context (config : config_state) (PATH : option cstr) (OVERRIDE_DIR : cstr) (cwd : option cstr).
Context (multiple_locale internal_locale : option cstr).
Context (opts : whatis_options) (line_length : outcome Z).

Definition grep_flags : cstr :=
  default []
    (if am_apropos (mode opts) then
       if regex_opt (mode opts) then get_def_user config (lit "apropos_regex_grep_flags") (Some (lit "-iE"))
       else get_def_user config (lit "apropos_grep_flags") (Some (lit "-iEw"))
     else get_def_user config (lit "whatis_grep_flags") (Some (lit "-i"))).

Fixpoint grep_pages (i : nat) (pages : list cstr) (whatis_file : cstr) (found : list bool) (st : display_state)
    : list bool * display_state :=
  match pages with
  | [] => (found, st)
  | page :: pages =>
    let anchored_page := if am_apropos (mode opts) then page else lit "^" ++ page in
    let '(ok, lines) :=
      grep (default [] (get_def_user config (lit "grep") (Some (lit "grep")))) grep_flags anchored_page whatis_file in
    grep_pages (S i) pages whatis_file (if (ok : bool) then <[i:=true]> found else found) (put_out lines st)
  end.

Definition use_grep (pages : list cstr) (manpath : cstr) (found : list bool) (st : display_state)
    : list bool * display_state :=
  let whatis_file := manpath ++ lit "/whatis" in
  if fs_access_R whatis_file then grep_pages 0 pages whatis_file found st else (found, st).

Definition mkdbname (path : cstr) : cstr := path ++ MAN_DB.

(** One directory of the path. *)
Definition search_manpath (pages : list cstr) (mp : cstr) (found : list bool) (st : display_state)
    : outcome (list bool * display_state) :=
  let catpath := get_catpath config mp (Z.lor SYSTEM_CAT USER_CAT) in
  let database := mkdbname (default mp catpath) in
  match open_rd database with
  | Some dbf =>
    if negb (dbver_rd dbf =? 0)%Z then Ret (use_grep pages mp found st)
    else if am_apropos (mode opts) || regex_opt (mode opts) || wildcard (mode opts) then
      do_apropos dbf (quiet opts) (long_output (mode opts)) line_length (mode opts) (sections opts) pages found st
    else
      do_whatis dbf (quiet opts) (long_output (mode opts)) line_length config PATH OVERRIDE_DIR cwd
        multiple_locale internal_locale (sections opts) pages mp found st
  | None => Ret (use_grep pages mp found st)
  end.

Fixpoint search_manpaths (pages manpathlist : list cstr) (found : list bool) (st : display_state)
    : outcome (list bool * display_state) :=
  match manpathlist with
  | [] => Ret (found, st)
  | mp :: manpathlist =>
    '(found, st) ← search_manpath pages mp found st;
    search_manpaths pages manpathlist found st
  end.

Definition nothing_appropriate (page : cstr) : cstr := page ++ lit ": nothing appropriate.".

Definition search (pages manpathlist : list cstr) (st : display_state) : outcome (bool * display_state) :=
  '(found, st) ← search_manpaths pages manpathlist (replicate (length pages) false) st;
  Ret (existsb id found,
       put_err (nothing_appropriate <$> (filter (λ p, p.2 = false) (zip pages found)).*1) st).
End search.

(** *** main *)

Section main.
Context (MAN_DB : cstr) (open_rd : cstr → option db).
Context (grep : cstr → cstr → cstr → cstr → bool * list cstr).
Context (config : config_state) (getenv : string → option cstr) (OVERRIDE_DIR : cstr) (cwd : option cstr).
(** What [setlocale] answers: the current locale of messages, and the result of setting one. *)
Context (lc_messages : option cstr) (setlocale_all : cstr → option cstr).
Context (regcomp_ok : cstr → bool) (line_length : outcome Z).

(** [multiple_locale] and [internal_locale]. *)
Definition locales (opts : whatis_options) : option cstr * cstr :=
  match locale_opt opts with
  | Some locale => (None, default locale (setlocale_all locale))
  | None =>
    (match lc_messages with
     | Some l => if negb (STREQ l (lit "C")) && negb (STREQ l (lit "POSIX")) then getenv "LANGUAGE" else None
     | None => None
     end, default (lit "C") lc_messages)
  end.

(** From the options to the exit status: 0, or 16 when nothing was found. *)
Definition whatis_main (opts : whatis_options) : outcome (Z * display_state) :=
  let '(multiple_locale, internal_locale) := locales opts in
  manp ←
    match manp_opt opts with
    | Some m => _ ← get_manpath config getenv None; Ret m
    | None =>
      m ← get_manpath config getenv (Some (alt_systems opts));
      pm ← locale_manpath multiple_locale (Some internal_locale) m;
      or_undef "create_pathlist: no path" pm
    end;
  manpathlist ← create_pathlist OVERRIDE_DIR cwd manp;
  if regex_opt (mode opts) && negb (forallb regcomp_ok (keywords opts)) then Fatal "fatal: regex"
  else
    '(any_found, st) ←
      search MAN_DB open_rd grep config (getenv "PATH") OVERRIDE_DIR cwd
        multiple_locale (Some internal_locale) opts line_length (keywords opts) manpathlist no_display;
    Ret (if (any_found : bool) then 0 else 16, st)%Z.
End main.
End whatis.

(** ** Words of a description *)

(** [page] is a word of [whatis] at position [p], in any case. *)
Definition word_at (page whatis : cstr) (p : nat) : Prop :=
  (tolower <$> page) `prefix_of` (tolower <$> drop p whatis) ∧
  (p = 0 ∨ from_option word_char false (whatis !! (p - 1)) = false) ∧
  from_option word_char false (whatis !! (p + length page)) = false.

Section match_word.
Context (page whatis : cstr) (Hpage : page ≠ []).

Lemma strcasestr_Some s n :
  strcasestr s page = Some n → (tolower <$> page) `prefix_of` (tolower <$> drop n s) ∧ n < length s.
Proof using Hpage.
  unfold strcasestr. intros Hn%strstr_prefix. rewrite fmap_drop. split; [done|].
  apply prefix_length in Hn. rewrite length_drop, !length_fmap in Hn.
  destruct page; [done|simpl in *; lia].
Qed.

Lemma strcasestr_first s n k :
  strcasestr s page = Some n → (tolower <$> page) `prefix_of` (tolower <$> drop k s) → n ≤ k.
Proof.
  unfold strcasestr. rewrite fmap_drop. generalize (tolower <$> page), (tolower <$> s). clear.
  intros p s. revert n k. induction s as [|c s IH]; intros n k Hn Hk.
  - simpl in Hn. case_match; simplify_eq; lia.
  - destruct k as [|k].
    + rewrite drop_0 in Hk. rewrite strstr_here in Hn by done. simplify_eq. lia.
    + simpl in Hn. case_match; simplify_eq; [lia|]. destruct (strstr s p) as [n'|] eqn:E; simplify_eq/=.
      specialize (IH n' k eq_refl Hk). lia.
Qed.

Lemma strcasestr_None s k :
  strcasestr s page = None → ¬ (tolower <$> page) `prefix_of` (tolower <$> drop k s).
Proof. unfold strcasestr. rewrite fmap_drop. apply strstr_None. Qed.

Lemma match_loop_spec fuel pos :
  pos ≤ length whatis → length whatis - pos < fuel →
  ∃ b, match_loop fuel page whatis pos = Ret b ∧ (b = true ↔ ∃ p, pos ≤ p ∧ word_at page whatis p).
Proof using Hpage.
  revert pos. induction fuel as [|fuel IH]; intros pos Hpos Hfuel; [lia|]. cbn [match_loop].
  rewrite bool_decide_eq_false_2 by lia.
  destruct (strcasestr (drop pos whatis) page) as [n|] eqn:E.
  - pose proof (strcasestr_Some _ _ E) as [Hpre Hn]. rewrite length_drop in Hn. rewrite drop_drop in Hpre.
    case_match eqn:Hw.
    + exists true. split; [done|]. split; [|done]. intros _. exists (pos + n). split; [lia|].
      apply andb_true_iff in Hw as [Hl Hr]. apply negb_true_iff in Hr.
      apply orb_true_iff in Hl. rewrite bool_decide_eq_true, negb_true_iff in Hl. done.
    + destruct (IH (S (pos + n))) as (b & -> & Hb); [lia..|]. exists b. split; [done|]. rewrite Hb.
      split; intros (p & Hp & Hat); exists p; split; try done; try lia.
      destruct (decide (p = pos + n)) as [->|Hne].
      * destruct Hat as (_ & Hl & Hr). rewrite Hr, andb_true_r in Hw.
        apply orb_false_iff in Hw as [Hw1 Hw2]. rewrite bool_decide_eq_false in Hw1.
        rewrite negb_false_iff in Hw2. naive_solver congruence.
      * pose proof (strcasestr_first _ _ (p - pos) E) as Hfirst. rewrite drop_drop in Hfirst.
        replace (pos + (p - pos)) with p in Hfirst by lia. specialize (Hfirst (proj1 Hat)). lia.
  - exists false. split; [done|]. split; [done|]. intros (p & Hp & Hat & _).
    apply (strcasestr_None _ (p - pos)) in E. rewrite drop_drop in E.
    by replace (pos + (p - pos)) with p in E by lia.
Qed.
End match_word.

Lemma match_word_spec page whatis :
  page ≠ [] → ∃ b, match_word page whatis = Ret b ∧ (b = true ↔ ∃ p, word_at page whatis p).
Proof.
  intros Hpage. unfold match_word.
  destruct (match_loop_spec page whatis Hpage (S (S (length whatis))) 0) as (b & -> & Hb); [lia..|].
  exists b. split; [done|]. rewrite Hb. split; intros (p & Hp); exists p; naive_solver lia.
Qed.

(** For a keyword that is not empty the search for a word of the
    description ends, stays inside the description, and succeeds exactly when
    the keyword occurs in it, in any case, with no letter or underscore on
    either side. *)
Theorem match_word_correct page whatis :
  page ≠ [] → ∃ b, match_word page whatis = Ret b ∧ (b = true ↔ ∃ p, word_at page whatis p).
Proof. apply match_word_spec. Qed.

Lemma match_word_correct_witness :
  ∃ b, match_word (lit "dir") (lit "list Dir contents") = Ret b ∧
    (b = true ↔ ∃ p, word_at (lit "dir") (lit "list Dir contents") p).
Proof. by apply (match_word_correct (lit "dir") (lit "list Dir contents")). Defined.

Example match_word_values :
  (match_word (lit "dir") (lit "list Dir contents"), match_word (lit "dir") (lit "directory of dirs"),
   match_word [] (lit "ls")) =
  (Ret true, Ret false, Undef "match: whatis after its end").
Proof. by vm_compute. Qed.

(** ** The width of the lines *)

Lemma to_int_small z : (- 2 ^ 31 <= z < 2 ^ 31)%Z → to_int z = z.
Proof. intros Hz. unfold to_int. rewrite Z.mod_small by lia. lia. Qed.

Lemma size_t_small z : (0 <= z < 2 ^ 64)%Z → (z `mod` 2 ^ 64)%Z = z.
Proof. intros Hz. by apply Z.mod_small. Qed.
Lemma size_t_negative z n : (- 2 ^ 31 <= z < 0)%Z → (n < 2 ^ 31)%Z → (n <= z `mod` 2 ^ 64)%Z.
Proof. intros Hz Hn. rewrite <-(Z_mod_plus_full z 1), Z.mod_small by lia. lia. Qed.

Section display_line.
Context (line_len : Z) (string whatis : cstr).
Context (Hlen : (0 < line_len < 2 ^ 31)%Z) (Hs : (Z.of_nat (length string) < 2 ^ 31)%Z)
  (Hw : (Z.of_nat (length whatis) < 2 ^ 31)%Z).
Let rest := (line_len - Z.of_nat (length string))%Z.

Lemma display_line_cut :
  bool_decide (to_int rest `mod` 2 ^ 64 < Z.of_nat (length whatis))%Z =
    bool_decide (0 <= rest < Z.of_nat (length whatis))%Z.
Proof using All.
  assert (rest = line_len - Z.of_nat (length string))%Z as Hr by done.
  rewrite to_int_small by lia. apply bool_decide_ext. destruct (decide (0 <= rest)%Z).
  - rewrite size_t_small by lia. lia.
  - assert (- 2 ^ 31 <= rest < 0)%Z as Hneg by lia. pose proof (size_t_negative rest _ Hneg Hw). lia.
Qed.

(** C31: a line that is trimmed to the width of the terminal fits it, unless
    its heading alone is wider; and the trimming writes in front of the
    description exactly when the heading leaves less than three columns and
    the description is longer than that. *)
Theorem display_line_bounds :
  (is_ret (display_line false line_len string whatis) = false ↔
     (0 <= rest < 3 ∧ rest < Z.of_nat (length whatis))%Z) ∧
  ∀ line, display_line false line_len string whatis = Ret line →
    (0 <= rest → Z.of_nat (length line) <= line_len + 1)%Z ∧
    (rest < 0 → line = string ++ whatis ++ [NL])%Z.
Proof using Hlen Hs Hw.
  assert (rest = line_len - Z.of_nat (length string))%Z as Hr by done.
  unfold display_line. fold rest. rewrite display_line_cut, to_int_small by lia. cbn [negb andb].
  unfold appendstr. cbn [fold_left default].
  destruct (bool_decide_reflect (0 <= rest < Z.of_nat (length whatis))%Z) as [Hcut|Hcut];
    [destruct (bool_decide_reflect (rest - 3 < 0)%Z)|]; simpl.
  - split; [split; [lia|done]|done].
  - split; [split; [done|lia]|]. intros line [= <-]. split; [|lia]. intros _.
    rewrite !length_app, length_take. change (length (lit "...")) with 3. simpl. lia.
  - split; [split; [done|lia]|]. intros line [= <-]. rewrite !length_app. simpl.
    split; [lia|]. intros _. by rewrite <-app_assoc.
Qed.
End display_line.

Lemma display_line_bounds_witness :
  (is_ret (display_line false 24 (lit "ls (1)               - ") (lit "list directory contents")) = false ↔
     (0 <= 24 - Z.of_nat (length (lit "ls (1)               - ")) < 3 ∧
      24 - Z.of_nat (length (lit "ls (1)               - ")) < Z.of_nat (length (lit "list directory contents")))%Z) ∧
  ∀ line, display_line false 24 (lit "ls (1)               - ") (lit "list directory contents") = Ret line →
    (0 <= 24 - Z.of_nat (length (lit "ls (1)               - ")) → Z.of_nat (length line) <= 24 + 1)%Z ∧
    (24 - Z.of_nat (length (lit "ls (1)               - ")) < 0 →
     line = lit "ls (1)               - " ++ lit "list directory contents" ++ [NL])%Z.
Proof.
  apply (display_line_bounds 24 (lit "ls (1)               - ") (lit "list directory contents")); by vm_compute.
Defined.

(** A terminal of 24 columns is too narrow for any page with a description. *)
Example narrow_terminal :
  heading false 24 (Mandata None (lit "1") (lit "1") "A" (Some (lit "-")) None None None (Timespec 0 0))
    (lit "ls") (lit "ls") (lit "-") = lit "ls (1)               - " ∧
  display_line false 24 (lit "ls (1)               - ") (lit "list directory contents") =
    Undef "display: whatis[rest - 3]".
Proof. by vm_compute. Qed.
