(* ===== verification/WhatisIndex.v ===== *)
(** * whatis and apropos on a well-formed index

    What [resolve_pointers], [display], [do_whatis] and [do_apropos] (file
    [Whatis]) do when the index satisfies the invariant [wf]. *)

From S2P Require Import Prelude CStr Fs Util Compression Filenames Mydbm DbContent Wordfnmatch DbLookup DbGroup DbKeys DbDelete Manp Globbing Manpath Whatis.

(** No page's pointer is the name of the version key, which a lookup would
    take for a page. *)
Definition pointers_ok (m : gmap cstr cstr) : Prop :=
  ∀ r i, page_at m r = Some i → name_to_key (default [] (md_pointer i)) ≠ VER_KEY.

(** A page of the index under some name. *)
Definition index_page (m : gmap cstr cstr) (i : mandata) : Prop :=
  ∃ r i0, page_at m r = Some i0 ∧ (TAB ∉ ne_name r) ∧ name_to_key (ne_name r) ≠ VER_KEY ∧
    set_name None i = i0.

Lemma split_content_fields c i :
  split_content c = Ret i → is_Some (md_pointer i) ∧ is_Some (md_whatis i).
Proof.
  unfold split_content. intros Hs. bind_inv. split_match; bind_inv; subst; simpl; eauto.
Qed.

Section index.
Context {db : Type} `{MydbmLaws db} (dbf : db).
Let m := db_view dbf.
Context (Hwf : wf m) (Hptr : pointers_ok m).

Lemma index_page_pointer i :
  index_page m i → ∃ p, md_pointer i = Some p ∧ (TAB ∉ p) ∧ name_to_key p ≠ VER_KEY.
Proof using Hwf Hptr.
  intros (r & i0 & Hp & Ht & Hv & <-).
  destruct (page_at_content m r _ Hwf Hp Ht Hv) as (c & j & [_ Hs Hok] & Hj).
  destruct (split_content_fields _ _ Hs) as [[p Hjp] _].
  assert (md_pointer i = md_pointer j) as Hij by (change (md_pointer (set_name None i) = md_pointer j); by rewrite Hj).
  exists p. rewrite Hij. split; [done|]. destruct Hok as [_ _ _ _ [Ht' _] _ _ _ _].
  rewrite Hjp in Ht'. split; [done|]. specialize (Hptr r _ Hp). simpl in Hptr. by rewrite Hij, Hjp in Hptr.
Qed.

Lemma answers_index_page sec exact match_case page i :
  TAB ∉ page → name_to_key page ≠ VER_KEY → answers dbf sec exact match_case page i → index_page m i.
Proof.
  intros Ht Hv (r & i0 & Hp & Hk & _ & _ & ->). exists r, i0. split; [done|].
  rewrite <-name_to_key_tab, Hk, name_to_key_tab. split; [done|]. split; [done|].
  assert (TAB ∉ ne_name r) as Hr by by rewrite <-name_to_key_tab, Hk, name_to_key_tab.
  destruct (page_at_content m r i0 Hwf Hp Hr) as (c & j & _ & ->); [by rewrite Hk|]. by destruct j.
Qed.

(** ** Pointers *)

(** [resolved] as a proposition. *)
Definition at_rest (i : mandata) (page : cstr) : Prop :=
  head (default [] (md_pointer i)) = Some "-"%char ∨
  (default page (md_name i) = page ∧ default [] (md_pointer i) = page).

Definition points_to (i j : mandata) : Prop :=
  answers dbf (Some (md_ext i)) true true (default [] (md_pointer i)) j.

(** From [i] the page at rest [j] is reached in [n] lookups. *)
Inductive leads (newpage : cstr) : nat → mandata → mandata → Prop :=
| leads_here i : at_rest i newpage → leads newpage 0 i i
| leads_next n i i' j :
    ¬ at_rest i newpage → points_to i i' → leads newpage n i' j → leads newpage (S n) i j.

Lemma resolved_spec i page :
  is_Some (md_pointer i) → ∃ b, resolved i page = Ret b ∧ (b = true ↔ at_rest i page).
Proof.
  intros [p Hp]. unfold resolved, at_rest. rewrite Hp. simpl. eexists. split; [done|].
  rewrite orb_true_iff, andb_true_iff, bool_decide_eq_true, STREQ_true.
  destruct (md_name i); simpl; rewrite ?STREQ_true; naive_solver.
Qed.

Lemma points_to_lookup i p :
  md_pointer i = Some p → TAB ∉ p → name_to_key p ≠ VER_KEY →
  ∃ o, dblookup_exact dbf p (Some (md_ext i)) true = Ret o ∧
    (∀ i', points_to i i' ↔ o = Some i') ∧ match o with Some i' => index_page m i' | None => True end.
Proof using Hwf.
  intros Hp Ht Hv.
  destruct (dblookup_exact_answers dbf p (Some (md_ext i)) true Hwf Ht Hv) as (o & Ho & Ha).
  exists o. split; [done|]. unfold points_to. rewrite Hp. simpl. destruct o as [i1|].
  - split; [|by eapply answers_index_page]. intros i'. split; [|by intros [= ->]].
    intros Hi'. f_equal. by eapply answers_unique.
  - split; [|done]. intros i'. split; [|done]. intros Hi'. by apply Ha in Hi'.
Qed.

Section resolve.
Context (quiet : bool).

Lemma resolve_loop_spec rounds page newpage o :
  match o with Some i => index_page m i | None => True end →
  ∃ o' errs, resolve_loop dbf quiet rounds page newpage o = Ret (o', errs) ∧
    ∀ j, o' = Some j ↔ ∃ i n, o = Some i ∧ n < rounds ∧ leads newpage n i j.
Proof using Hwf Hptr.
  revert o. induction rounds as [|rounds IH]; intros o Ho; cbn [resolve_loop].
  { eexists None, _. split; [done|]. intros j. split; [done|]. intros (? & ? & _ & ? & _). lia. }
  destruct o as [i|].
  2: { exists None, []. split; [done|]. naive_solver. }
  destruct (index_page_pointer i Ho) as (p & Hp & Ht & Hv).
  destruct (resolved_spec i newpage) as (b & -> & Hb); [by rewrite Hp|]. simpl.
  destruct b.
  - exists (Some i), []. split; [done|]. intros j. assert (at_rest i newpage) by by apply Hb. split.
    + intros [= ->]. exists j, 0. split; [done|]. split; [lia|]. by constructor.
    + intros (i' & n & [= <-] & _ & Hl). inversion Hl; subst; [done|contradiction].
  - rewrite Hp. simpl.
    destruct (points_to_lookup i p Hp Ht Hv) as (o & -> & Hpt & Ho'). rewrite bind_Ret.
    destruct (IH o Ho') as (o' & errs & -> & Ho'').
    exists o', errs. split; [done|]. intros j. rewrite Ho''.
    assert (¬ at_rest i newpage) as Hnr by (rewrite <-Hb; done).
    split.
    + intros (i' & n & Hi' & Hn & Hl). exists i, (S n). split; [done|]. split; [lia|].
      econstructor; [done|by apply Hpt|done].
    + intros (i' & n & [= <-] & Hn & Hl). inversion Hl as [|n' ? i' ? _ Hi' Hl']; subst; [contradiction|].
      exists i', n'. split; [by apply Hpt|]. split; [lia|done].
Qed.

Lemma resolve_pointers_spec i page :
  index_page m i →
  ∃ o errs, resolve_pointers dbf quiet i page = Ret (o, errs) ∧
    ∀ j, o = Some j ↔
      (at_rest i page ∧ j = i) ∨
      (¬ at_rest i page ∧ ∃ i' n, points_to i i' ∧ n < 10 ∧ leads (default [] (md_pointer i)) n i' j).
Proof using Hwf Hptr.
  intros Hi. destruct (index_page_pointer i Hi) as (p & Hp & Ht & Hv). unfold resolve_pointers.
  destruct (resolved_spec i page) as (b & -> & Hb); [by rewrite Hp|]. rewrite bind_Ret.
  destruct b.
  - exists (Some i), []. split; [done|]. assert (at_rest i page) by by apply Hb. naive_solver.
  - rewrite Hp. cbn [default from_option id].
    destruct (points_to_lookup i p Hp Ht Hv) as (o & -> & Hpt & Ho). rewrite bind_Ret.
    destruct (resolve_loop_spec 10 page p o Ho) as (o' & errs & -> & Ho').
    exists o', errs. split; [done|]. intros j. rewrite Ho'.
    assert (¬ at_rest i page) as Hnr by (rewrite <-Hb; done).
    setoid_rewrite Hpt. naive_solver.
Qed.
End resolve.
End index.

(** Following a page's pointers always ends, never ends the program, and
    finds the page at rest that is reached within ten further lookups, if
    there is one. *)
Theorem resolve_pointers_correct {db} `{MydbmLaws db} (dbf : db) quiet i page :
  wf (db_view dbf) → pointers_ok (db_view dbf) → index_page (db_view dbf) i →
  ∃ o errs, resolve_pointers dbf quiet i page = Ret (o, errs) ∧
    ∀ j, o = Some j ↔
      (at_rest i page ∧ j = i) ∨
      (¬ at_rest i page ∧ ∃ i' n, points_to dbf i i' ∧ n < 10 ∧ leads dbf (default [] (md_pointer i)) n i' j).
Proof. intros Hwf Hptr Hi. by apply resolve_pointers_spec. Qed.

(** ** Printing *)

Section printing.
Context {db : Type} `{MydbmLaws db} (dbf : db) (convert_to_locale : cstr → cstr).
Let m := db_view dbf.
Context (quiet : bool) (line_length : outcome Z).

Lemma put_err_seen errs st : display_seen (put_err errs st) = display_seen st.
Proof. done. Qed.

(** A page that was displayed is never printed again: displaying it later
    leaves standard output and the set of pages seen as they are. *)
Theorem display_once long_output info page st st1 st2 :
  display convert_to_locale dbf quiet long_output line_length info page st = Ret st1 →
  display_seen st1 ⊆ display_seen st2 →
  ∃ errs, display convert_to_locale dbf quiet long_output line_length info page st2 = Ret (put_err errs st2).
Proof.
  unfold display. intros Hd Hseen.
  destruct (resolve_pointers dbf quiet info page) as [[newinfo errs]| |]; [|done..]. simpl in *.
  destruct (get_whatis quiet newinfo page) as [[whatis errs']| |]; [|done..]. simpl in *.
  exists (errs ++ errs'). rewrite bool_decide_eq_true_2; [done|]. apply Hseen.
  case_bool_decide as Hk; [injection Hd as <-; done|].
  bind_inv. subst st1. simpl. set_solver.
Qed.

Context (Hwf : wf m) (Hptr : pointers_ok m).

Lemma leads_index_page newpage n i j : index_page m i → leads dbf newpage n i j → index_page m j.
Proof using Hwf Hptr.
  intros Hi Hl. induction Hl as [|n i i' j _ Hp Hl IH]; [done|]. apply IH.
  destruct (index_page_pointer dbf Hwf Hptr i Hi) as (p & Hip & Ht & Hv).
  unfold points_to in Hp. rewrite Hip in Hp. by eapply answers_index_page.
Qed.

Lemma get_whatis_Ret info page :
  match info with Some i => index_page m i | None => True end →
  ∃ w errs, get_whatis quiet info page = Ret (w, errs).
Proof using Hwf Hptr.
  intros Hi. unfold get_whatis. destruct info as [i|]; [|eauto].
  destruct (index_page_pointer dbf Hwf Hptr i Hi) as (p & Hp & _). rewrite Hp.
  destruct (md_whatis i) as [[|]|], quiet; simpl; eauto.
Qed.

(** With untrimmed lines every page can be displayed. *)
Lemma display_Ret w info page st :
  line_length = Ret w → index_page m info →
  ∃ st', display convert_to_locale dbf quiet true line_length info page st = Ret st'.
Proof using Hwf Hptr.
  intros Hw Hi. unfold display.
  destruct (resolve_pointers_spec dbf Hwf Hptr quiet info page Hi) as (o & errs & -> & Ho). rewrite bind_Ret.
  assert (match o with Some i => index_page m i | None => True end) as Hoi.
  { destruct o as [j|]; [|done]. destruct (proj1 (Ho j) eq_refl) as [[_ ->]|(_ & i' & n & Hp & _ & Hl)]; [done|].
    destruct (index_page_pointer dbf Hwf Hptr info Hi) as (p & Hip & Ht & Hv).
    unfold points_to in Hp. rewrite Hip in Hp, Hl. eapply leads_index_page; [|done]. by eapply answers_index_page. }
  destruct (get_whatis_Ret o page Hoi) as (wh & errs' & ->). rewrite bind_Ret.
  case_bool_decide; [eauto|]. rewrite Hw. simpl.
  assert (∃ p, md_pointer (default info o) = Some p) as [p ->].
  { destruct (index_page_pointer dbf Hwf Hptr (default info o)) as (p & Hp & _); [by destruct o|eauto]. }
  simpl. eauto.
Qed.

Lemma display_all_Ret w infos st :
  line_length = Ret w → Forall (λ e, index_page m e.1) infos →
  ∃ st', display_all convert_to_locale dbf quiet true line_length infos st = Ret st'.
Proof using Hwf Hptr.
  intros Hw Hall. revert st. induction Hall as [|[i page] infos Hi Hall IH]; intros st; simpl; [eauto|].
  destruct (display_Ret w i page st Hw Hi) as [st' ->]. apply IH.
Qed.

Lemma display_all_app long l1 l2 st :
  display_all convert_to_locale dbf quiet long line_length (l1 ++ l2) st =
    (st ← display_all convert_to_locale dbf quiet long line_length l1 st;
     display_all convert_to_locale dbf quiet long line_length l2 st).
Proof.
  revert st. induction l1 as [|[i page] l1 IH]; intros st; simpl; [done|].
  destruct (display _ _ _ _ _ i page st); simpl; [apply IH|done..].
Qed.

(** ** whatis *)

Lemma do_whatis_section_spec w page section st :
  line_length = Ret w → TAB ∉ page → name_to_key page ≠ VER_KEY →
  ∃ n st', do_whatis_section convert_to_locale dbf quiet true line_length page section st = Ret (n, st') ∧
    (n ≠ 0 ↔ ∃ i, answers dbf section false false page i).
Proof using Hwf Hptr.
  intros Hw Ht Hv. unfold do_whatis_section, dblookup_all.
  destruct (dblookup_returns dbf section false false page Hwf Ht Hv) as (infos & -> & Hin & _). rewrite bind_Ret.
  destruct (display_all_Ret w ((λ i, (i, page)) <$> infos) st Hw) as [st' ->].
  { apply Forall_fmap, Forall_forall. intros i Hi. simpl. by eapply answers_index_page, Hin. }
  simpl. eexists _, _. split; [done|]. setoid_rewrite <-Hin. destruct infos as [|i infos]; simpl.
  - split; [done|]. by intros [i ?%elem_of_nil].
  - split; [|done]. intros _. exists i. by left.
Qed.

Lemma whatis_sections_spec w page ss st :
  line_length = Ret w → TAB ∉ page → name_to_key page ≠ VER_KEY →
  ∃ b st', whatis_sections convert_to_locale dbf quiet true line_length page ss st = Ret (b, st') ∧
    (b = true ↔ ∃ s i, s ∈ ss ∧ answers dbf s false false page i).
Proof using Hwf Hptr.
  intros Hw Ht Hv. revert st. induction ss as [|s ss IH]; intros st; cbn [whatis_sections].
  { eexists _, _. split; [done|]. split; [done|]. intros (s & i & ?%elem_of_nil & _). done. }
  destruct (do_whatis_section_spec w page s st Hw Ht Hv) as (n & st' & -> & Hn). rewrite bind_Ret.
  destruct (IH st') as (b & st2 & -> & Hb). simpl. eexists _, _. split; [done|].
  rewrite orb_true_iff, negb_true_iff, bool_decide_eq_false, Hn, Hb. set_solver.
Qed.
End printing.

(** [whatis], asked for names without a slash, never ends early on a
    well-formed index (printing untrimmed lines), and counts a name as found
    exactly when a page is stored under it, in any case, whose extension
    begins with one of the sections. *)
Theorem do_whatis_found {db} `{MydbmLaws db} `{FileSystem} `{Dirname} (dbf : db) conv quiet w config PATH
    OVERRIDE_DIR cwd ml il secs pages manpath found st :
  wf (db_view dbf) → pointers_ok (db_view dbf) → length found = length pages →
  Forall (λ page, ("/"%char ∉ page) ∧ (TAB ∉ page) ∧ name_to_key page ≠ VER_KEY) pages →
  ∃ found' st', do_whatis conv dbf quiet true (Ret w) config PATH OVERRIDE_DIR cwd ml il secs pages manpath found st =
      Ret (found', st') ∧ length found' = length found ∧
    ∀ j, found' !! j = Some true ↔ found !! j = Some true ∨
      ∃ page s i, pages !! j = Some page ∧ s ∈ match secs with Some ss => Some <$> ss | None => [None] end ∧
        answers dbf s false false page i.
Proof.
  intros Hwf Hptr Hlen Hall. unfold do_whatis.
  set (ss := match secs with Some ss => Some <$> ss | None => [None] end).
  enough (∀ k, k + length pages ≤ length found →
    ∃ found' st', whatis_pages conv dbf quiet true (Ret w) config PATH OVERRIDE_DIR cwd ml il secs k pages manpath
        found st = Ret (found', st') ∧ length found' = length found ∧
      ∀ j, found' !! j = Some true ↔ found !! j = Some true ∨
        ∃ n page s i, j = k + n ∧ pages !! n = Some page ∧ s ∈ ss ∧ answers dbf s false false page i) as Hgen.
  { destruct (Hgen 0) as (found' & st' & Heq & Hl & Hj); [lia|]. exists found', st'. split; [done|]. split; [done|].
    intros j. rewrite Hj. naive_solver. }
  clear Hlen. revert found st. induction Hall as [|page pages (Hs & Ht & Hv) Hall IH]; intros found st k Hk.
  { exists found, st. split; [done|]. split; [done|]. naive_solver. }
  cbn [whatis_pages]. unfold whatis_page. rewrite (proj2 (strchr_None page "/"%char ltac:(done)) Hs).
  rewrite bind_Ret. fold ss.
  destruct (whatis_sections_spec dbf conv quiet (Ret w) Hwf Hptr w page ss st eq_refl Ht Hv) as (b & st1 & -> & Hb).
  rewrite bind_Ret. simpl in Hk.
  destruct (IH (if b then <[k:=true]> found else found) st1 (S k)) as (found' & st' & Heq & Hl & Hj).
  { destruct b; rewrite ?length_insert; lia. }
  exists found', st'. split; [done|]. split; [rewrite Hl; destruct b; by rewrite ?length_insert|].
  intros j. rewrite Hj. clear Hj Heq.
  assert ((if b then <[k:=true]> found else found) !! j = Some true ↔
          found !! j = Some true ∨ (j = k ∧ ∃ s i, s ∈ ss ∧ answers dbf s false false page i)) as ->.
  { destruct b; [|naive_solver]. destruct (decide (j = k)) as [->|Hne].
    - rewrite list_lookup_insert_eq by lia. naive_solver.
    - rewrite list_lookup_insert_ne by done. naive_solver. }
  split.
  - intros [[?|(-> & s & i & ?)]|(n & p & s & i & -> & ?)]; [by left|right..].
    + exists 0, page, s, i. split; [lia|]. naive_solver.
    + exists (S n), p, s, i. split; [lia|]. done.
  - intros [?|([|n] & p & s & i & -> & Hp & ?)]; [by do 2 left|left; right|right].
    + simplify_eq/=. split; [lia|]. naive_solver.
    + exists n, p, s, i. split; [lia|]. done.
Qed.

(** ** apropos *)

Section apropos.
Context {db : Type} `{MydbmLaws db} `{Matcher} (dbf : db) (conv : cstr → cstr).
Let m := db_view dbf.
Context (quiet long_output : bool) (line_length : outcome Z) (ms : search_mode) (secs : option (list cstr)).
Context (keywords : list cstr).

(** Whether a page matches a keyword: by its name, or, when the names do not
    decide about the page, by its description. *)
Definition whatis_matches (whatis keyword : cstr) : bool :=
  match whatis_hit ms whatis keyword with Ret b => b | _ => false end.
Definition names_decide (key : cstr) : bool := combine_found ms (name_hit ms key <$> keywords).
Definition keyword_hit (key : cstr) (info : mandata) (keyword : cstr) : bool :=
  name_hit ms key keyword ||
  (am_apropos ms && negb (names_decide key) &&
   match md_whatis info with Some whatis => whatis_matches whatis keyword | None => false end).
Definition keyword_hits (key : cstr) (info : mandata) : list bool := keyword_hit key info <$> keywords.

Lemma mark_nothing hits : mark hits (replicate (length hits) false) = hits.
Proof. unfold mark. induction hits as [|b hits IH]; simpl; [done|]. by rewrite orb_false_r, IH. Qed.

Lemma mark_fmap (f g : cstr → bool) l : mark (f <$> l) (g <$> l) = (λ k, g k || f k) <$> l.
Proof. unfold mark. induction l as [|k l IH]; [done|]. cbn. f_equal; [apply orb_comm|exact IH]. Qed.

Lemma mark_mark hits hits' found : mark hits (mark hits' found) = mark (mark hits hits') found.
Proof.
  unfold mark. revert hits' found. induction hits as [|b hits IH]; intros [|b' hits'] [|f found]; simpl; try done.
  by rewrite IH, orb_assoc.
Qed.

Lemma whatis_hits_Ret whatis :
  Forall (λ k, k ≠ []) keywords →
  whatis_hits ms keywords whatis = Ret (whatis_matches whatis <$> keywords).
Proof.
  induction 1 as [|k ks Hk Hks IH]; [done|]. cbn [whatis_hits fmap list_fmap]. rewrite IH.
  unfold whatis_matches at 2, whatis_hit.
  destruct (regex_opt ms); [done|]. destruct (wildcard ms); [done|].
  by destruct (match_word_spec k whatis Hk) as (b & -> & _).
Qed.

Lemma search_page_Ret key info found :
  Forall (λ k, k ≠ []) keywords →
  search_page ms keywords key info found =
    Ret (mark (keyword_hits key info) found, combine_found ms (keyword_hits key info)).
Proof.
  intros Hk. unfold search_page, parse_name, keyword_hits, keyword_hit. fold (names_decide key).
  assert (mark (name_hit ms key <$> keywords) (replicate (length keywords) false) = name_hit ms key <$> keywords) as Hm.
  { rewrite <-(length_fmap (name_hit ms key) keywords). apply mark_nothing. }
  rewrite Hm. assert ((λ k, name_hit ms key k || false) <$> keywords = name_hit ms key <$> keywords) as Hor.
  { apply list_fmap_ext. intros i k _. apply orb_false_r. }
  destruct (am_apropos ms); cbn [andb]; [|by rewrite Hor].
  destruct (md_whatis info) as [w|]; [|by setoid_rewrite andb_false_r; rewrite Hor].
  fold (names_decide key). destruct (names_decide key) eqn:E; cbn [negb andb]; [by rewrite Hor; cbn; fold (names_decide key); rewrite E|].
  unfold parse_whatis. rewrite whatis_hits_Ret by done. cbn. by rewrite mark_mark, mark_fmap.
Qed.

(** A page on the walk over the keys: its section is asked for, and it matches. *)
Abbreviation met := (cstr * (name_ext * mandata))%type.
Definition listed (e : met) : bool := section_listed secs e.2.2.
Definition shown (e : met) : bool := combine_found ms (keyword_hits (nicekey e.1) e.2.2).

(** The search over the pages in place of the keys. *)
Definition search_pages (es : list met) (found : list bool) (st : display_state) : outcome (list bool * display_state) :=
  st ← display_all conv dbf quiet long_output line_length
         ((λ e : met, (e.2.2, nicekey e.1)) <$> filter (λ e, listed e && shown e = true) es) st;
  Ret (fold_left (λ f e, mark (keyword_hits (nicekey e.1) e.2.2) f) (filter (λ e, listed e = true) es) found, st).

Lemma search_pages_cons e es found st :
  search_pages (e :: es) found st =
    if listed e then
      st ← (if shown e then display conv dbf quiet long_output line_length e.2.2 (nicekey e.1) st else Ret st);
      search_pages es (mark (keyword_hits (nicekey e.1) e.2.2) found) st
    else search_pages es found st.
Proof.
  unfold search_pages. rewrite !filter_cons. destruct (listed e) eqn:E; simpl; [|done].
  destruct (shown e) eqn:E'; simpl; [|done].
  by destruct (display _ _ _ _ _ e.2.2 (nicekey e.1) st).
Qed.

(** The walk, in terms of the pages it meets. *)
Lemma apropos_keys_pages ks es :
  Forall (λ k, k ≠ []) keywords → walk m ks es →
  ∀ found st, apropos_keys conv dbf quiet long_output line_length ms secs keywords ks found st = search_pages es found st.
Proof.
  intros Hkw Hw. induction Hw as [|k c ks es Hk Hother Hw IH|k c r i ks es Hk Hd Hh Hpe Hw IH]; intros found st; [done|..].
  - cbn [apropos_keys]. unfold apropos_key. rewrite fetch_view. fold m. rewrite Hk.
    assert (bool_decide (head k = Some "$"%char) || bool_decide (head c = Some TAB) = true) as ->
      by (apply orb_true_iff; rewrite !bool_decide_eq_true; done).
    rewrite bind_Ret. apply IH.
  - cbn [apropos_keys]. rewrite search_pages_cons. unfold apropos_key. rewrite fetch_view. fold m. rewrite Hk.
    rewrite !bool_decide_eq_false_2 by done. cbn [orb]. rewrite (page_split _ _ (pe_content _ _ _ _ _ Hpe)).
    pose proof (page_entry_strrchr _ _ _ _ _ Hpe) as Hnice. unfold listed, shown. simpl.
    destruct (section_listed secs i); simpl; [|apply IH].
    rewrite Hnice, search_page_Ret by done. simpl.
    destruct (combine_found ms (keyword_hits (nicekey k) i)); simpl; [|apply IH].
    destruct (display _ _ _ _ _ _ _ st); simpl; [apply IH|done..].
Qed.

Lemma mark_true hits found j :
  length hits = length found → mark hits found !! j = Some true ↔ found !! j = Some true ∨ hits !! j = Some true.
Proof.
  intros Hlen. assert (is_Some (hits !! j) ↔ is_Some (found !! j)) as Hj by (rewrite !lookup_lt_is_Some; lia).
  unfold mark. rewrite lookup_zip_with. destruct (hits !! j) as [b|], (found !! j) as [b'|].
  - change (Some (b || b') = Some true ↔ Some b' = Some true ∨ Some b = Some true). destruct b, b'; naive_solver.
  - destruct (proj1 Hj) as [? [=]]; eauto.
  - destruct (proj2 Hj) as [? [=]]; eauto.
  - change ((None : option bool) = Some true ↔ (None : option bool) = Some true ∨ (None : option bool) = Some true). tauto.
Qed.

(** The keywords marked by the pages of a list. *)
Lemma marked_keywords (es : list met) : ∀ found j,
  length found = length keywords →
  fold_left (λ f e, mark (keyword_hits (nicekey e.1) e.2.2) f) es found !! j = Some true ↔
    found !! j = Some true ∨ ∃ e k, e ∈ es ∧ keywords !! j = Some k ∧ keyword_hit (nicekey e.1) e.2.2 k = true.
Proof.
  induction es as [|e es IH]; intros found j Hlen; cbn [fold_left].
  { split; [by left|]. intros [?|(e & k & ?%elem_of_nil & _)]; done. }
  assert (length (keyword_hits (nicekey e.1) e.2.2) = length found) as Hk by (unfold keyword_hits; by rewrite length_fmap).
  rewrite IH by (unfold mark; rewrite length_zip_with; lia). rewrite mark_true by done.
  unfold keyword_hits. rewrite list_lookup_fmap, fmap_Some. setoid_rewrite elem_of_cons. split.
  - intros [[?|(k & ? & ?)]|(e' & k & ? & ? & ?)]; [by left|right; exists e, k..|right; exists e', k]; eauto.
  - intros [?|(e' & k & [-> |?] & ? & ?)]; [by left; left|left; right; exists k|right; exists e', k]; eauto.
Qed.
End apropos.

(** C30: on a well-formed index [apropos] searches the stored pages, each once,
    in the order of their keys, except those whose name begins with a dollar.
    What it displays are, in that order, the pages of the sections asked for
    that match: one of the keywords, or all of them with --and, in the name or
    else the description.  A keyword counts as found when any page of these
    sections matches it, also with --and, where that page need not be shown. *)
Theorem do_apropos_pages {db} `{MydbmLaws db} `{Matcher} (dbf : db) conv quiet long_output line_length ms secs keywords :
  wf (db_view dbf) → Forall (λ k, k ≠ []) keywords →
  ∃ pages : list (cstr * (name_ext * mandata)),
    StronglySorted (cmp_le strcmp) pages.*1 ∧ NoDup pages.*1 ∧ NoDup pages.*2.*1 ∧
    (∀ r, r ∈ pages.*2.*1 ↔ reachable_page (db_view dbf) r) ∧
    Forall (λ e : cstr * (name_ext * mandata), e.1 = page_key (db_view dbf) e.2.1 ∧
      page_at (db_view dbf) e.2.1 = Some (set_name None e.2.2)) pages ∧
    ∀ found st, length found = length keywords →
      ∃ found',
        do_apropos conv dbf quiet long_output line_length ms secs keywords found st =
          (st ← display_all conv dbf quiet long_output line_length
                  ((λ e, (e.2.2, nicekey e.1)) <$> filter (λ e, listed secs e && shown ms keywords e = true) pages) st;
           Ret (found', st)) ∧
        ∀ j, found' !! j = Some true ↔
          found !! j = Some true ∨
          ∃ e k, e ∈ pages ∧ listed secs e = true ∧ keywords !! j = Some k ∧ keyword_hit ms keywords (nicekey e.1) e.2.2 k = true.
Proof.
  intros Hwf Hkw. destruct (walk_all dbf Hwf) as (es & Hes & Hnd & Hin). exists es.
  split; [by eapply walk_sorted, db_keys_sorted|]. split; [by eapply walk_NoDup, db_keys_NoDup|]. split_and!; [done..| |].
  { eapply Forall_impl; [by eapply walk_entries|]. intros e [c Hpe]. split; [symmetry|]; apply Hpe. }
  intros found st Hlen. eexists. split.
  { unfold do_apropos. rewrite (apropos_keys_pages dbf conv quiet long_output line_length ms secs keywords _ es Hkw Hes). done. }
  intros j. rewrite marked_keywords by done. setoid_rewrite list_elem_of_filter. naive_solver.
Qed.

(** ** Evaluation *)

(** The index with the page [ls.1] and the link [dir.1] to it. *)
Definition ls_page : mandata :=
  Mandata None (lit "1") (lit "1") ULT_MAN None None None (Some (lit "list directory contents")) (Timespec 5 0).
Definition dir_page : mandata :=
  Mandata None (lit "1") (lit "1") WHATIS_MAN (Some (lit "ls")) None None None (Timespec 5 0).
Definition two_pages : gmap cstr cstr :=
  <[lit "ls" := (make_content ls_page).2]> {[ lit "dir" := (make_content dir_page).2 ]}.

Lemma two_pages_wf : wf two_pages.
Proof.
  assert (∀ k i, entry_ok i → md_name i = None → TAB ∉ k → k ≠ VER_KEY → name_to_key k = k →
    entry_wf two_pages k (make_content i).2) as He.
  { intros k i Hi Hn Ht Hv Hk. unfold entry_wf. rewrite !decide_False by done. left. exists (fill_unset i).
    split; [split; [by apply make_content_head|by apply split_make_content|by apply fill_unset_ok]|].
    simpl. by rewrite Hn. }
  assert (entry_ok ls_page) by (split; vm_compute; try done; repeat split; try by not_in).
  assert (entry_ok dir_page) by (split; vm_compute; try done; repeat split; try by not_in).
  unfold wf. apply map_Forall_insert_2; [|apply map_Forall_singleton]; apply He; try done; compute_done.
Qed.

Lemma two_pages_at r i : page_at two_pages r = Some i → md_pointer i = Some (lit "-") ∨ md_pointer i = Some (lit "ls").
Proof.
  unfold page_at, two_pages.
  destruct (decide (name_to_key (ne_name r) = lit "ls")) as [->|Hls].
  - rewrite lookup_insert_eq. vm_compute split_content. simpl. repeat case_decide; naive_solver.
  - rewrite lookup_insert_ne by done. destruct (decide (name_to_key (ne_name r) = lit "dir")) as [->|Hdir].
    + rewrite lookup_singleton_eq. vm_compute split_content. simpl. repeat case_decide; naive_solver.
    + by rewrite lookup_singleton_ne.
Qed.

Lemma two_pages_pointers : pointers_ok two_pages.
Proof. intros r i Hi. by destruct (two_pages_at r i Hi) as [-> | ->]. Qed.

Example two_pages_resolve :
  resolve_pointers two_pages true (set_name (Some (lit "dir")) (fill_unset dir_page)) (lit "dir") =
    Ret (Some (set_name (Some (lit "ls")) (fill_unset ls_page)), []).
Proof. by vm_compute. Qed.

Lemma resolve_pointers_correct_witness :
  let i := set_name (Some (lit "dir")) (fill_unset dir_page) in
  ∃ o errs, resolve_pointers two_pages true i (lit "dir") = Ret (o, errs) ∧
    ∀ j, o = Some j ↔
      (at_rest i (lit "dir") ∧ j = i) ∨
      (¬ at_rest i (lit "dir") ∧ ∃ i' n, points_to two_pages i i' ∧ n < 10 ∧
         leads two_pages (default [] (md_pointer i)) n i' j).
Proof.
  intros i.
  refine (resolve_pointers_correct (db:=gmap cstr cstr) two_pages true i (lit "dir") two_pages_wf two_pages_pointers _).
  exists (NameExt (lit "dir") (lit "1")), (fill_unset dir_page). split; [by vm_compute|].
  split; [compute_done|]. by split.
Defined.

Definition apropos_mode (words all : bool) : search_mode := SearchMode true false words false all true.

Lemma display_once_witness :
  let i := fill_unset ls_page in
  let st1 := DisplayState {[ lit "ls (1)" ]} [lit "ls (1)               - list directory contents" ++ [NL]] [] in
  ∃ errs, display id two_pages true true (Ret 80%Z) i (lit "ls") st1 = Ret (put_err errs st1).
Proof.
  intros i st1. apply (display_once two_pages id true (Ret 80%Z) true i (lit "ls") no_display st1 st1); [|done].
  by vm_compute.
Defined.

Lemma do_whatis_found_witness :
  ∃ found' st', @do_whatis _ _ full_fs _ id two_pages true true (Ret 80%Z) no_config None [] None None None
      (Some [lit "1"]) [lit "LS"; lit "cat"] (lit "/usr/share/man") [false; false] no_display = Ret (found', st') ∧
    length found' = 2 ∧
    ∀ j, found' !! j = Some true ↔ [false; false] !! j = Some true ∨
      ∃ page s i, [lit "LS"; lit "cat"] !! j = Some page ∧ s ∈ [Some (lit "1")] ∧
        answers two_pages s false false page i.
Proof.
  refine (@do_whatis_found (gmap cstr cstr) _ _ full_fs _ two_pages id true 80%Z no_config None [] None None None (Some [lit "1"])
    [lit "LS"; lit "cat"] (lit "/usr/share/man") [false; false] no_display two_pages_wf two_pages_pointers _ _); [done|].
  repeat constructor; try done; compute_done.
Defined.

Lemma do_apropos_pages_witness :
  ∃ pages : list (cstr * (name_ext * mandata)),
    StronglySorted (cmp_le strcmp) pages.*1 ∧ NoDup pages.*1 ∧ NoDup pages.*2.*1 ∧
    (∀ r, r ∈ pages.*2.*1 ↔ reachable_page two_pages r) ∧
    Forall (λ e : cstr * (name_ext * mandata), e.1 = page_key two_pages e.2.1 ∧
      page_at two_pages e.2.1 = Some (set_name None e.2.2)) pages ∧
    ∀ found st, length found = 1 →
      ∃ found',
        @do_apropos _ _ literal_matcher id two_pages true true (Ret 80%Z) (apropos_mode true false) None [lit "directory"] found st =
          (st ← display_all id two_pages true true (Ret 80%Z)
                  ((λ e, (e.2.2, nicekey e.1)) <$>
                   filter (λ e, listed None e && @shown literal_matcher (apropos_mode true false) [lit "directory"] e = true) pages) st;
           Ret (found', st)) ∧
        ∀ j, found' !! j = Some true ↔
          found !! j = Some true ∨
          ∃ e k, e ∈ pages ∧ listed None e = true ∧ [lit "directory"] !! j = Some k ∧
            @keyword_hit literal_matcher (apropos_mode true false) [lit "directory"] (nicekey e.1) e.2.2 k = true.
Proof.
  refine (@do_apropos_pages (gmap cstr cstr) _ _ literal_matcher two_pages id true true (Ret 80%Z) (apropos_mode true false) None
    [lit "directory"] two_pages_wf _).
  by repeat constructor.
Defined.

(** With all keywords required, one that matches some page counts as found
    although no page is displayed. *)
Example apropos_and_found :
  ('(found, st) ← @do_apropos _ _ literal_matcher id two_pages true true (Ret 80%Z) (apropos_mode true true) None
    [lit "dir"; lit "list"] [false; false] no_display;
   Ret (found, stdout st)) = Ret ([true; true], []) .
Proof. by vm_compute. Qed.
