(* ===== verification/ManArgs.v ===== *)
(** * src/man.c: arguments, sections, words and names of cat files

    The small functions of [man] that take strings apart: the words of
    [$MANOPT] and of the pager command, the prompt of [less], section names,
    page names with a section, the list of sections, and the cat file that
    belongs to a page. *)

From S2P Require Import Prelude CStr Fs Util Compression Filenames Manp.

(** ** Words *)

Definition word_blank (c : ascii) : bool := one_of [TAB; " "%char; NL; "#"%char] c.

(** Where the scan of [sh_lang_first_word] is. *)
Inductive quoting := Unquoted | SingleQuoted | DoubleQuoted.

(** The scan: [cmd] is what [cmd + i] points to, [ret] what was written.  A
    quote that is not closed leaves the index at the terminator, over which
    the outer loop then steps. *)
Fixpoint first_word_loop (q : quoting) (cmd ret : cstr) : outcome cstr :=
  match q, cmd with
  | Unquoted, [] => Ret ret
  | Unquoted, c :: cmd =>
    if bool_decide (c = "\"%char) then
      match cmd with
      | [] => Ret ret
      | d :: cmd => first_word_loop Unquoted cmd (if bool_decide (d = NL) then ret else ret ++ [d])
      end
    else if bool_decide (c = "'"%char) then first_word_loop SingleQuoted cmd ret
    else if bool_decide (c = "034"%char) then first_word_loop DoubleQuoted cmd ret
    else if word_blank c then Ret ret
    else first_word_loop Unquoted cmd (ret ++ [c])
  | SingleQuoted, [] | DoubleQuoted, [] => Undef "sh_lang_first_word: cmd after its end"
  | SingleQuoted, c :: cmd =>
    if bool_decide (c = "'"%char) then first_word_loop Unquoted cmd ret
    else first_word_loop SingleQuoted cmd (ret ++ [c])
  | DoubleQuoted, c :: cmd =>
    if bool_decide (c = "034"%char) then first_word_loop Unquoted cmd ret
    else if bool_decide (c = "\"%char) then
      match cmd with
      | d :: cmd' =>
        if one_of ["$"; "`"; "034"; "\"]%char d then first_word_loop DoubleQuoted cmd' (ret ++ [d])
        else if bool_decide (d = NL) then first_word_loop DoubleQuoted cmd' ret
        else first_word_loop DoubleQuoted cmd (ret ++ [c])
      | [] => first_word_loop DoubleQuoted cmd (ret ++ [c])
      end
    else first_word_loop DoubleQuoted cmd (ret ++ [c])
  end.

Definition sh_lang_first_word (cmd : cstr) : outcome cstr := first_word_loop Unquoted cmd [].

Definition option_blank (c : ascii) : bool := bool_decide (c = " "%char) || bool_decide (c = TAB).

(** The loop over [$MANOPT]: [cur] is the text from [opt_start]; after a blank
    all white space is skipped. *)
Fixpoint manopt_loop (skipping : bool) (manopt cur : cstr) : list cstr :=
  match manopt with
  | [] => if bool_decide (cur = []) then [] else [cur]
  | c :: manopt =>
    if skipping && isspace c then manopt_loop true manopt cur
    else if option_blank c then
      (if bool_decide (cur = []) then [] else [cur]) ++ manopt_loop true manopt []
    else
      match bool_decide (c = "\"%char), manopt with
      | true, d :: manopt' =>
        if bool_decide (d = " "%char) then manopt_loop false manopt' (cur ++ [c; d])
        else manopt_loop false manopt (cur ++ [c])
      | _, _ => manopt_loop false manopt (cur ++ [c])
      end
  end.

Definition manopt_to_env (program : cstr) (MANOPT : option cstr) : option (list cstr) :=
  match MANOPT with
  | None | Some [] => None
  | Some manopt => Some (program :: manopt_loop false manopt [])
  end.

Definition less_special (c : ascii) : bool := one_of ["?"; ":"; "."; "%"; "\"]%char c.

Fixpoint escape_less (string : cstr) : cstr :=
  match string with
  | [] => []
  | c :: string =>
    let c := if bool_decide (c = "$"%char) then "?"%char else c in
    (if less_special c then ["\"%char; c] else [c]) ++ escape_less string
  end.

(** ** Sections *)

Definition std_sections : list cstr :=
  [lit "1"; lit "n"; lit "l"; lit "8"; lit "3"; lit "0"; lit "2"; lit "3type"; lit "5"; lit "4"; lit "9";
   lit "6"; lit "7"].

Definition get_section_list (s : config_state) (colon_sep_section_list MANSECT : option cstr) : list cstr :=
  let config_sections := get_sections s in
  let config_sections := if bool_decide (config_sections = []) then std_sections else config_sections in
  match (match colon_sep_section_list with Some l => Some l | None => MANSECT end) with
  | None | Some [] => config_sections
  | Some l =>
    let sections := strtok (one_of (lit ":,")) l in
    if bool_decide (sections = []) then config_sections else sections
  end.

Section sections.
Context (section_list : list cstr).

(** One entry of the list against [name]. *)
Definition names_section (name vs : cstr) : bool :=
  STREQ vs name ||
  match vs, name with
  | [v], _ :: c :: _ => isdigit v && negb (isdigit c) && STRNEQ vs name 1
  | _, _ => false
  end.

Definition is_section (name : cstr) : option cstr :=
  if existsb (names_section name) section_list then Some name else None.

Definition split_page_name (page_name : cstr) : cstr * option cstr :=
  let dotted :=
    match strrchr page_name "."%char with
    | Some dot => (λ s, (take dot page_name, Some s)) <$> is_section (drop (S dot) page_name)
    | None => None
    end in
  match dotted with
  | Some r => r
  | None =>
    match strrchr page_name "("%char, strrchr page_name ")"%char with
    | Some lparen, Some rparen =>
      if bool_decide (lparen < rparen) then
        let paren_section := take (rparen - lparen - 1) (drop (S lparen) page_name) in
        match is_section paren_section with
        | Some s => (take lparen page_name, Some s)
        | None => (page_name, None)
        end
      else (page_name, None)
    | _, _ => (page_name, None)
    end
  end.
End sections.

(** ** Cat files *)

Section cat_files.
Context (cfg : comp_config) (COMP_CAT : option cstr) `{FileSystem} (config : config_state).

Definition namestem (name : cstr) : cstr :=
  match comp_info cfg name true with
  | Some comp => default [] (comp_stem comp)
  | None => name
  end.

(** [convert_name]; [COMP_CAT] is the extension of compressed cat pages, when
    they are compressed.  The two writes turn [man] into [cat]. *)
Definition convert_name (name : cstr) (fsstnd : bool) : outcome (option cstr) :=
  let to_name :=
    match COMP_CAT with Some ext => namestem name ++ lit "." ++ ext | None => namestem name end in
  if fsstnd then
    t1 ← match strrchr to_name "/"%char with Some t1 => Ret t1 | None => Fatal "fsstnd: cannot convert name" end;
    t2 ← match strrchr (take t1 to_name) "/"%char with Some t2 => Ret (S t2) | None => Fatal "fsstnd: cannot convert name" end;
    if STRNEQ (drop t2 to_name) (lit "man") 3 then
      Ret (Some (<[t2 + 2 := "t"%char]> (<[t2 := "c"%char]> to_name)))
    else Ret None
  else Ret (Some to_name).

(** The last part of [find_cat_file], for the path of the source itself. *)
Definition cat_file_of (original : cstr) : outcome (option cstr * bool) :=
  let global_manpath := is_global_mandir config original in
  cat_file ←
    match get_catpath config original (if global_manpath then SYSTEM_CAT else USER_CAT) with
    | Some cat_path => convert_name cat_path false
    | None => convert_name original true
    end;
  Ret (cat_file, global_manpath).

(** [find_cat_file]: the cat file, and the value it leaves in [global_manpath]. *)
Definition find_cat_file (path original man_file : cstr) (global_manpath : bool) : outcome (option cstr * bool) :=
  fsstnd_file ← convert_name original true;
  match (match fsstnd_file with
         | Some cat_file =>
           let status := is_changed original cat_file in
           if negb (bool_decide (status = -2)%Z) && bool_decide (Z.land status 1 = 0)%Z then Some cat_file else None
         | None => None
         end) with
  | Some cat_file => Ret (Some cat_file, global_manpath)
  | None =>
    if negb (STREQ man_file original) then
      let global_manpath := is_global_mandir config man_file in
      cat_file ←
        match get_catpath config man_file (if global_manpath then SYSTEM_CAT else USER_CAT) with
        | Some cat_path => convert_name cat_path false
        | None =>
          if STRNEQ man_file path (length path) && bool_decide (man_file !! length path = Some "/"%char)
          then convert_name man_file true
          else Ret None
        end;
      match cat_file with
      | Some file =>
        let cat_dir := match strrchr file "/"%char with Some tmp => take tmp file | None => file end in
        if negb (bool_decide (is_directory cat_dir = 0)%Z) then Ret (Some file, global_manpath)
        else cat_file_of original
      | None => cat_file_of original
      end
    else cat_file_of original
  end.
End cat_files.

(** ** Words of the shell *)

(** What may stand between double quotes: a character for itself, a special
    character after a backslash, a joined line, and a backslash before another
    character, which both count. *)
Inductive dquote_item := DChar (c : ascii) | DSpecial (c : ascii) | DJoin | DBackslash (c : ascii).

Definition dquote_special (c : ascii) : bool := one_of ["$"; "`"; "034"; "\"]%char c.

Definition dquote_ok (i : dquote_item) : Prop :=
  match i with
  | DChar c => c ≠ "034"%char ∧ c ≠ "\"%char
  | DSpecial c => dquote_special c = true
  | DJoin => True
  | DBackslash c => dquote_special c = false ∧ c ≠ NL
  end.
Definition dquote_text (i : dquote_item) : cstr :=
  match i with DChar c => [c] | DSpecial c => ["\"%char; c] | DJoin => ["\"%char; NL] | DBackslash c => ["\"%char; c] end.
Definition dquote_value (i : dquote_item) : cstr :=
  match i with DChar c => [c] | DSpecial c => [c] | DJoin => [] | DBackslash c => ["\"%char; c] end.

(** The parts a word of the shell is made of. *)
Inductive word_part :=
| Bare (c : ascii)
| Escaped (c : ascii)
| LineJoin
| SQuote (s : cstr)
| DQuote (l : list dquote_item).

Definition part_ok (p : word_part) : Prop :=
  match p with
  | Bare c => word_blank c = false ∧ c ≠ "\"%char ∧ c ≠ "'"%char ∧ c ≠ "034"%char
  | Escaped c => c ≠ NL
  | LineJoin => True
  | SQuote s => "'"%char ∉ s
  | DQuote l => Forall dquote_ok l
  end.
Definition part_text (p : word_part) : cstr :=
  match p with
  | Bare c => [c]
  | Escaped c => ["\"%char; c]
  | LineJoin => ["\"%char; NL]
  | SQuote s => "'"%char :: s ++ ["'"%char]
  | DQuote l => "034"%char :: concat (dquote_text <$> l) ++ ["034"%char]
  end.
Definition part_value (p : word_part) : cstr :=
  match p with
  | Bare c => [c]
  | Escaped c => [c]
  | LineJoin => []
  | SQuote s => s
  | DQuote l => concat (dquote_value <$> l)
  end.

(** The end of a word. *)
Definition word_end (tail : cstr) : Prop := from_option (λ c, word_blank c = true) True (head tail).

Lemma first_word_squote s rest ret :
  "'"%char ∉ s → first_word_loop SingleQuoted (s ++ "'"%char :: rest) ret = first_word_loop Unquoted rest (ret ++ s).
Proof.
  revert ret. induction s as [|c s IH]; intros ret Hs; cbn [app first_word_loop].
  - by rewrite app_nil_r.
  - rewrite bool_decide_eq_false_2 by set_solver. rewrite IH by set_solver. by rewrite <-app_assoc.
Qed.

Lemma first_word_dquote l rest ret :
  Forall dquote_ok l →
  first_word_loop DoubleQuoted (concat (dquote_text <$> l) ++ "034"%char :: rest) ret =
    first_word_loop Unquoted rest (ret ++ concat (dquote_value <$> l)).
Proof.
  intros Hl. revert ret. induction Hl as [|i l Hi Hl IH]; intros ret; [by rewrite app_nil_r|].
  cbn [fmap list_fmap concat]. rewrite <-app_assoc.
  destruct i as [c|c| |c]; cbn [dquote_text dquote_value app first_word_loop]; cbn [dquote_ok] in Hi.
  - rewrite !bool_decide_eq_false_2 by naive_solver. by rewrite IH, <-app_assoc.
  - fold (dquote_special c). rewrite Hi. simpl. by rewrite IH, <-app_assoc.
  - simpl. by rewrite IH.
  - fold (dquote_special c). destruct Hi as [Hi Hnl]. rewrite Hi. cbn [bool_decide].
    rewrite (bool_decide_eq_false_2 (c = NL)) by done. simpl.
    assert (c ≠ "034"%char ∧ c ≠ "\"%char) as [] by (split; intros ->; by vm_compute in Hi).
    rewrite !bool_decide_eq_false_2 by done. rewrite IH. by rewrite <-!app_assoc.
Qed.

Lemma first_word_parts parts tail ret :
  Forall part_ok parts → word_end tail →
  first_word_loop Unquoted (concat (part_text <$> parts) ++ tail) ret = Ret (ret ++ concat (part_value <$> parts)).
Proof.
  intros Hp Ht. revert ret. induction Hp as [|p parts Hp Hps IH]; intros ret.
  - rewrite app_nil_r. destruct tail as [|c tail]; [done|]. unfold word_end in Ht. cbn in Ht. cbn [fmap list_fmap concat app first_word_loop].
    assert (c ≠ "\"%char ∧ c ≠ "'"%char ∧ c ≠ "034"%char) as (? & ? & ?)
      by (repeat split; intros ->; by vm_compute in Ht).
    rewrite !bool_decide_eq_false_2 by done. by rewrite Ht.
  - cbn [fmap list_fmap concat]. rewrite <-app_assoc.
    destruct p as [c|c| |s|l]; cbn [part_ok] in Hp; cbn [part_text part_value app first_word_loop].
    + destruct Hp as (Hb & ? & ? & ?). rewrite !bool_decide_eq_false_2 by done. rewrite Hb, IH. by rewrite <-app_assoc.
    + simpl. rewrite bool_decide_eq_false_2 by done. rewrite IH. by rewrite <-app_assoc.
    + simpl. by rewrite IH.
    + simpl. rewrite <-app_assoc. simpl. rewrite first_word_squote, IH by done. by rewrite <-app_assoc.
    + simpl. rewrite <-app_assoc. simpl. rewrite first_word_dquote, IH by done. by rewrite <-app_assoc.
Qed.

(** The buffer of the length of the command is enough. *)
Lemma first_word_bound q cmd ret w : first_word_loop q cmd ret = Ret w → length w ≤ length ret + length cmd.
Proof.
  revert q ret. induction cmd as [cmd IH] using (induction_ltof1 _ (@length ascii)); unfold ltof in IH.
  intros q ret Hw. destruct q, cmd as [|c cmd]; cbn [first_word_loop] in Hw; try done; [by injection Hw as <-; simpl; lia|..].
  all: repeat case_match; subst; try (injection Hw as <-; simpl; lia); try done;
    apply IH in Hw; simpl in *; rewrite ?length_app in *; simpl in *; lia.
Qed.

(** C33: a word of the shell, made of bare and escaped characters, joined
    lines and quoted parts, is read back as what it stands for, and whatever
    the command is the word fits a buffer of its length. *)
Theorem sh_lang_first_word_parts parts tail :
  Forall part_ok parts → word_end tail →
  sh_lang_first_word (concat (part_text <$> parts) ++ tail) = Ret (concat (part_value <$> parts)) ∧
  ∀ cmd w, sh_lang_first_word cmd = Ret w → length w ≤ length cmd.
Proof.
  intros Hp Ht. split; [by apply first_word_parts|]. intros cmd w Hw. by apply first_word_bound in Hw.
Qed.

Lemma sh_lang_first_word_parts_witness :
  let parts := [Bare "e"; SQuote (lit "c "); DQuote [DChar "h"; DSpecial "$"; DBackslash "o"]; LineJoin; Escaped " "]%char in
  sh_lang_first_word (concat (part_text <$> parts) ++ lit " 3") = Ret (concat (part_value <$> parts)) ∧
  ∀ cmd w, sh_lang_first_word cmd = Ret w → length w ≤ length cmd.
Proof.
  intros parts. apply (sh_lang_first_word_parts parts (lit " 3")); [|by vm_compute].
  repeat constructor; try done; by not_in.
Defined.

(** A string that [escape_shell] escaped is read back by
    [sh_lang_first_word] without its newlines, whatever follows the blank
    after it. *)
Theorem escape_shell_first_word s tail :
  word_end tail →
  ∃ e, escape_shell (Some s) = Some e ∧ sh_lang_first_word (e ++ tail) = Ret (filter (λ c, c ≠ NL) s).
Proof.
  intros Ht. eexists. split; [done|].
  pose (part := λ c, if shell_safe c then Bare c else if decide (c = NL) then LineJoin else Escaped c).
  assert (Forall part_ok (part <$> s)) as Hok.
  { apply Forall_fmap, Forall_forall. intros c _. unfold part; simpl. destruct (shell_safe c) eqn:E.
    - revert E. by all_bytes c.
    - case_decide; simpl; done. }
  unfold sh_lang_first_word. pose proof (first_word_parts (part <$> s) tail [] Hok Ht) as Hw.
  replace (concat (part_text <$> (part <$> s))) with
    (concat ((λ c, if shell_safe c then [c] else ["\"%char; c]) <$> s)) in Hw.
  2: { f_equal. rewrite <-list_fmap_compose. apply list_fmap_ext. intros _ c _. unfold part, compose.
       destruct (shell_safe c); [done|]. by case_decide; subst. }
  rewrite Hw. f_equal. simpl. clear. induction s as [|c s IH]; [done|].
  cbn [fmap list_fmap concat]. rewrite filter_cons, IH. unfold part at 1. destruct (shell_safe c) eqn:E.
  - rewrite decide_True; [done|]. intros ->. by vm_compute in E.
  - repeat case_decide; done.
Qed.

Lemma escape_shell_first_word_witness :
  ∃ e, escape_shell (Some (lit "it's #1 $(x)")) = Some e ∧
    sh_lang_first_word (e ++ lit " -R") = Ret (filter (λ c, c ≠ NL) (lit "it's #1 $(x)")).
Proof. by apply (escape_shell_first_word (lit "it's #1 $(x)") (lit " -R")). Defined.

Example first_word_unclosed :
  sh_lang_first_word (lit "less 'a") = Ret (lit "less") ∧
  sh_lang_first_word (lit "'less") = Undef "sh_lang_first_word: cmd after its end".
Proof. by vm_compute. Qed.

(** ** Options in the environment *)

(** A word of [$MANOPT] that needs no escaping. *)
Definition plain_option (w : cstr) : Prop :=
  w ≠ [] ∧ Forall (λ c, option_blank c = false ∧ c ≠ "\"%char) w ∧ from_option (λ c, isspace c = false) True (head w).

Lemma manopt_loop_word w rest cur :
  Forall (λ c, option_blank c = false ∧ c ≠ "\"%char) w →
  manopt_loop false (w ++ rest) cur = manopt_loop false rest (cur ++ w).
Proof.
  intros Hw. revert cur. induction Hw as [|c w [Hc Hb] Hw IH]; intros cur; simpl; [by rewrite app_nil_r|].
  rewrite Hc, bool_decide_eq_false_2 by done. rewrite IH. by rewrite <-app_assoc.
Qed.

Lemma manopt_loop_first skipping w rest :
  plain_option w → manopt_loop skipping (w ++ rest) [] = manopt_loop false rest w.
Proof.
  intros (Hne & Hall & Hh). destruct w as [|c w]; [done|]. inversion Hall as [|? ? [Hc Hb] Hall']; subst.
  simpl in Hh. cbn [app manopt_loop]. rewrite Hh, andb_false_r, Hc, bool_decide_eq_false_2 by done.
  by rewrite (manopt_loop_word w rest [c]).
Qed.

Lemma manopt_loop_words skipping w ws :
  plain_option w → Forall plain_option ws → manopt_loop skipping (join " "%char (w :: ws)) [] = w :: ws.
Proof.
  intros Hw Hws. revert skipping w Hw. induction Hws as [|w' ws Hw' Hws IH]; intros skipping w Hw.
  - cbn [join]. rewrite <-(app_nil_r w) at 1. rewrite manopt_loop_first by done. simpl.
    by rewrite bool_decide_eq_false_2 by apply Hw.
  - change (join " "%char (w :: w' :: ws)) with (w ++ " "%char :: join " "%char (w' :: ws)).
    rewrite manopt_loop_first by done. cbn [manopt_loop andb option_blank]. simpl (option_blank _).
    rewrite (IH true w' Hw'). by rewrite bool_decide_eq_false_2 by apply Hw.
Qed.

(** Options joined by blanks in [$MANOPT] come back as the arguments after
    the name of the program. *)
Theorem manopt_roundtrip program w ws :
  plain_option w → Forall plain_option ws →
  manopt_to_env program (Some (join " "%char (w :: ws))) = Some (program :: w :: ws).
Proof.
  intros Hw Hws. pose proof (manopt_loop_words false w ws Hw Hws) as Hl.
  unfold manopt_to_env. rewrite Hl. destruct (join " "%char (w :: ws)) eqn:E; [|done].
  destruct Hw as [Hne _], w; [done|]. by destruct ws.
Qed.

Lemma manopt_roundtrip_witness :
  manopt_to_env (lit "man") (Some (join " "%char [lit "-a"; lit "--pager=less"])) =
    Some [lit "man"; lit "-a"; lit "--pager=less"].
Proof.
  apply (manopt_roundtrip (lit "man") (lit "-a") [lit "--pager=less"]); repeat constructor; done.
Defined.

(** A blank after a backslash does not end an option, but the backslash stays. *)
Example manopt_escaped_blank :
  manopt_to_env (lit "man") (Some (lit "-P\ more -a")) = Some [lit "man"; lit "-P\ more"; lit "-a"].
Proof. by vm_compute. Qed.

(** ** The prompt of less *)

(** What [less] makes of an escaped string. *)
Fixpoint unescape_less (s : cstr) : cstr :=
  match s with
  | [] => []
  | c :: s' =>
    if bool_decide (c = "\"%char) then match s' with d :: s'' => d :: unescape_less s'' | [] => [] end
    else c :: unescape_less s'
  end.

Lemma escape_less_roundtrip s :
  unescape_less (escape_less s) = (λ c, if bool_decide (c = "$"%char) then "?"%char else c) <$> s ∧
  length (escape_less s) ≤ 2 * length s.
Proof.
  induction s as [|c s [IH IHl]]; [done|]. cbn [escape_less fmap list_fmap].
  set (d := if bool_decide (c = "$"%char) then "?"%char else c).
  destruct (less_special d) eqn:E; cbn [app unescape_less]; simpl in *.
  - rewrite IH. split; [done|lia].
  - rewrite bool_decide_eq_false_2; [rewrite IH; split; [done|lia]|]. intros ->. by vm_compute in E.
Qed.

(** ** Sections *)

Lemma is_section_spec section_list name :
  is_section section_list name = Some name ↔
    name ∈ section_list ∨ ∃ d c rest, [d] ∈ section_list ∧ isdigit d = true ∧ name = d :: c :: rest ∧ isdigit c = false.
Proof.
  unfold is_section.
  assert (existsb (names_section name) section_list = true ↔
    name ∈ section_list ∨ ∃ d c rest, [d] ∈ section_list ∧ isdigit d = true ∧ name = d :: c :: rest ∧ isdigit c = false) as Hex.
  { rewrite existsb_exists. split.
    - intros (vs & Hin%list_elem_of_In & Hn). unfold names_section in Hn. apply orb_true_iff in Hn as [Hn|Hn].
      + apply STREQ_true in Hn as ->. by left.
      + right. destruct vs as [|v [|]]; try done. destruct name as [|n [|c rest]]; try done.
        apply andb_true_iff in Hn as [[Hv Hc]%andb_true_iff Hs]. exists v, c, rest.
        apply negb_true_iff in Hc.  split; [done|]. split; [done|]. split; [|done].
        apply STRNEQ_true in Hs. by injection Hs as ->.
    - intros [Hin|(d & c & rest & Hin & Hd & -> & Hc)].
      + exists name. split; [by apply list_elem_of_In|]. unfold names_section. by rewrite STREQ_refl.
      + exists [d]. split; [by apply list_elem_of_In|]. unfold names_section. rewrite Hd, Hc. simpl. rewrite (proj2 (STRNEQ_true _ _ 1)) by done. apply orb_true_r. }
  destruct (existsb _ _); [tauto|]. split; [done|]. intros Hs. by apply Hex in Hs.
Qed.

Lemma is_section_Some section_list name s : is_section section_list name = Some s → s = name.
Proof. unfold is_section. by case_match; intros [= ->]. Qed.

(** [name.section] and, unless what follows a dot is taken for a section,
    [name(section)] are split into the name and the section. *)
Theorem split_page_name_parts section_list name sec :
  is_section section_list sec = Some sec → "."%char ∉ sec →
  split_page_name section_list (name ++ "."%char :: sec) = (name, Some sec) ∧
  ("."%char ∉ name → "("%char ∉ sec → ")"%char ∉ sec →
   split_page_name section_list (name ++ "("%char :: sec ++ [")"%char]) = (name, Some sec)).
Proof.
  intros Hsec Hdot. unfold split_page_name. split.
  - rewrite strrchr_app_sep by done. rewrite drop_app_ge by lia.
    replace (S (length name) - length name) with 1 by lia. simpl. rewrite drop_0, Hsec. simpl.
    by rewrite take_app_length.
  - intros Hn Hl Hr.
    rewrite (proj2 (strrchr_None _ "."%char)) by not_in.
    rewrite (strrchr_app_sep name (sec ++ [")"%char])) by not_in.
    replace (name ++ "("%char :: sec ++ [")"%char]) with ((name ++ "("%char :: sec) ++ ")"%char :: []) by by rewrite <-app_assoc.
    rewrite strrchr_app_sep by by intros ?%elem_of_nil.
    rewrite length_app. simpl. rewrite bool_decide_eq_true_2 by lia.
    rewrite <-app_assoc, drop_app_ge by lia. replace (S (length name) - length name) with 1 by lia. simpl. rewrite drop_0.
    replace (length name + S (length sec) - length name - 1) with (length sec) by lia.
    rewrite take_app_length, Hsec. by rewrite take_app_length.
Qed.

Lemma split_page_name_parts_witness :
  split_page_name std_sections (lit "foo.3perl") = (lit "foo", Some (lit "3perl")) ∧
  ("."%char ∉ lit "foo" → "("%char ∉ lit "3perl" → ")"%char ∉ lit "3perl" →
   split_page_name std_sections (lit "foo(3perl)") = (lit "foo", Some (lit "3perl"))).
Proof. apply (split_page_name_parts std_sections (lit "foo") (lit "3perl")); [by vm_compute|compute_done]. Defined.

(** A digit after the dot makes a section of everything up to the end. *)
Example split_page_name_paren :
  split_page_name std_sections (lit "foo.3(1)") = (lit "foo", Some (lit "3(1)")).
Proof. by vm_compute. Qed.

(** The list of sections is never empty. *)
Lemma get_section_list_nonempty s l m : get_section_list s l m ≠ [].
Proof.
  unfold get_section_list. set (cs := if bool_decide (get_sections s = []) then std_sections else get_sections s).
  assert (cs ≠ []) by by (unfold cs; case_bool_decide).
  destruct (match l with Some l => Some l | None => m end) as [[|c l']|]; try done. by case_bool_decide.
Qed.

(** ** Cat files *)

Section convert_name.
Context (cfg : comp_config).

(** The cat file in the same hierarchy as a page is the page's path with
    its section directory [man...] turned into [cat...], without the page's
    compression extension and with that of compressed cat pages; nothing else
    changes. *)
Theorem convert_name_page COMP_CAT path sec file name :
  namestem cfg (path ++ lit "/man" ++ sec ++ lit "/" ++ file) = path ++ lit "/man" ++ sec ++ lit "/" ++ name →
  "/"%char ∉ sec → "/"%char ∉ name → from_option (λ e, "/"%char ∉ e) True COMP_CAT →
  convert_name cfg COMP_CAT (path ++ lit "/man" ++ sec ++ lit "/" ++ file) true =
    Ret (Some (path ++ lit "/cat" ++ sec ++ lit "/" ++ name ++ from_option (λ e, lit "." ++ e) [] COMP_CAT)).
Proof.
  intros Hstem Hsec Hname Hext. unfold convert_name. rewrite Hstem.
  set (file' := name ++ from_option (λ e, lit "." ++ e) [] COMP_CAT).
  assert ("/"%char ∉ file') as Hf by (unfold file'; destruct COMP_CAT; simpl in *; not_in).
  replace (match COMP_CAT with Some ext => _ | None => _ end)
    with ((path ++ "/"%char :: lit "man" ++ sec) ++ "/"%char :: file').
  2: { unfold file'. destruct COMP_CAT; simpl; unfold lit; simpl; rewrite <-?app_assoc; simpl; by rewrite <-?app_assoc, ?app_nil_r. }
  rewrite strrchr_app_sep by done. cbn [mbind outcome_bind]. rewrite take_app_length.
  rewrite strrchr_app_sep by (unfold lit; simpl; not_in). cbn [mbind outcome_bind].
  assert (drop (S (length path)) ((path ++ "/"%char :: lit "man" ++ sec) ++ "/"%char :: file') =
    lit "man" ++ sec ++ "/"%char :: file') as ->.
  { rewrite <-app_assoc, drop_app_ge by lia. replace (S (length path) - length path) with 1 by lia.
    done. }
  rewrite (proj2 (STRNEQ_prefix_r (lit "man") _)) by by eexists.
  f_equal. f_equal. rewrite <-!app_assoc. simpl.
  rewrite !insert_app_r_alt by lia. replace (S (length path) - length path) with 1 by lia.
  replace (S (length path + 2) - length path) with 3 by lia. unfold lit. simpl. done.
Qed.
End convert_name.

Lemma convert_name_page_witness :
  convert_name all_comp (Some (lit "gz")) (lit "/usr/share" ++ lit "/man" ++ lit "1" ++ lit "/" ++ lit "ls.1.xz") true =
    Ret (Some (lit "/usr/share" ++ lit "/cat" ++ lit "1" ++ lit "/" ++ lit "ls.1" ++ lit ".gz")).
Proof.
  apply (convert_name_page all_comp (Some (lit "gz")) (lit "/usr/share") (lit "1") (lit "ls.1.xz") (lit "ls.1"));
    [by vm_compute|compute_done..].
Defined.

(** When the cat directory does not exist, [is_directory] answers -1, which
    [find_cat_file] takes for a directory. *)
Example find_cat_file_missing_directory `{!FileSystem} config path original man_file g :
  config = no_config → (∀ f, fs_stat f = None) →
  original = lit "/m/man1/a.1" → man_file = lit "/m/man1/b.1" → path = lit "/m" →
  find_cat_file all_comp None config path original man_file g = Ret (Some (lit "/m/cat1/b.1"), false).
Proof.
  intros -> Hst -> -> ->. unfold find_cat_file. vm_compute convert_name. simpl.
  unfold is_changed. rewrite !Hst. simpl. unfold is_directory. rewrite Hst. by vm_compute.
Qed.
