(* ===== verification/Catman.v ===== *)
(** * src/catman.c: formatting all pages of a section

    [catman] walks over the index of each hierarchy and has [man] format every
    page of a section, as many pages per command as fit. *)

From S2P Require Import Prelude CStr Fs Filenames Util Mydbm DbContent DbLookup DbGroup DbKeys DbDelete Manp Manpath ManArgs.

(** A command is the list of its arguments, the name of the program first. *)
Definition pipecmd := list cstr.

Definition MAX_ARGS : nat := 1024.

(** The pointers in [sections]: strings, or into a string that was freed. *)
Inductive section_ptr := Section (s : cstr) | Freed.

(** [ARGP_KEY_ARGS] and [ARGP_KEY_NO_ARGS]: [$MANSECT] is split in a copy that
    is freed before the sections are used.  [None] is a null [sections]. *)
Definition parse_sections (args : list cstr) (MANSECT : option cstr) : option (list section_ptr) :=
  if decide (args ≠ []) then Some (Section <$> args)
  else
    match MANSECT with
    | None | Some [] => Some (Section <$> std_sections)
    | Some mansect =>
      match strtok (λ c, bool_decide (c = ":"%char)) mansect with
      | [] => None
      | secs => Some ((λ _, Freed) <$> secs)
      end
    end.

(** The argument a key becomes. *)
Definition add_arg (key : cstr) : cstr :=
  match strrchr key TAB with
  | None | Some 0 => key
  | Some tab => take tab key
  end.

Section catman.
Context {db : Type} `{Mydbm db}.
(** The name of [man]; the limits of the system, the second one the smaller;
    the exit status of a command. *)
Context (MAN : cstr) (ARG_MAX NAME_MAX : nat) (pipeline_run : pipecmd → Z).
Context (debug_level : bool) (locale : option cstr).

(** [catman] adds a command to those that were run. *)
Definition catman (cmd : pipecmd) (run : list pipecmd) : outcome (list pipecmd) :=
  if debug_level then Ret run
  else if (pipeline_run cmd =? 0)%Z then Ret (run ++ [cmd])
  else Fatal "man command failed with exit status".

Definition basecmd (manpath section : cstr) : pipecmd :=
  [MAN] ++ match locale with Some l => [lit "-L"; l] | None => [] end ++
  [lit "-caM"; manpath] ++ [lit "-S"; section].

Definition initial_bit (manpath section : cstr) : nat :=
  match locale with Some l => 3 + length l + 1 | None => 0 end +
  (length MAN + 1 + 5 + length manpath + length section + 2).

(** [cmd], [arg_size] and the commands run so far. *)
Record catman_state := CatmanState {
  ct_cmd : pipecmd;
  ct_size : nat;
  ct_run : list pipecmd;
}.

(** An accepted page. *)
Definition add_page (manpath section : cstr) (key : cstr) (s : catman_state) : outcome catman_state :=
  let cmd := ct_cmd s ++ [add_arg key] in
  let arg_size := ct_size s + length (add_arg key) + 1 in
  if decide (ARG_MAX - NAME_MAX ≤ arg_size ∨ length cmd = MAX_ARGS) then
    run ← catman cmd (ct_run s);
    Ret (CatmanState (basecmd manpath section) (initial_bit manpath section) run)
  else Ret (CatmanState cmd arg_size (ct_run s)).

(** One key of the index. *)
Definition parse_key (dbf : db) (manpath section : cstr) (key : cstr) (s : catman_state) : outcome catman_state :=
  if bool_decide (head key = Some "$"%char) then Ret s
  else
    match MYDBM_FETCH dbf key with
    | None => Fatal "NULL content for key"
    | Some content =>
      if bool_decide (head content = Some TAB) then Ret s
      else
        entry ← split_content (Some content);
        if bool_decide (md_id entry = ULT_MAN) && STREQ (md_sec entry) section then add_page manpath section key s
        else Ret s
    end.

Fixpoint parse_keys (dbf : db) (manpath section : cstr) (keys : list cstr) (s : catman_state) : outcome catman_state :=
  match keys with
  | [] => Ret s
  | key :: keys => s ← parse_key dbf manpath section key s; parse_keys dbf manpath section keys s
  end.

(** The commands run, after those that were run before. *)
Definition parse_for_sec (dbf : db) (manpath section : cstr) (run : list pipecmd) : outcome (list pipecmd) :=
  let base := basecmd manpath section in
  s ← parse_keys dbf manpath section (db_keys dbf) (CatmanState base (initial_bit manpath section) run);
  if decide (length base < length (ct_cmd s)) then catman (ct_cmd s) (ct_run s) else Ret (ct_run s).
End catman.

(** *** main *)

Section main.
Context {db : Type} `{Mydbm db} `{FileSystem}.
Context (MAN : cstr) (ARG_MAX NAME_MAX : nat) (pipeline_run : pipecmd → Z).
Context (debug_level : bool) (locale : option cstr).
Context (MAN_DB : cstr) (open_rd : cstr → option db) (access_W : cstr → bool).

(** The sections of one hierarchy; [catdir] is the directory its cat files are under. *)
Fixpoint catman_sections (dbf : db) (mp catdir : cstr) (sections : list section_ptr) (run : list pipecmd)
    : outcome (list pipecmd) :=
  match sections with
  | [] => Ret run
  | Freed :: _ => Undef "main: a section in freed memory"
  | Section sec :: sections =>
    let catpath := catdir ++ lit "/cat" ++ sec in
    if negb (is_directory catpath =? 1)%Z then catman_sections dbf mp catdir sections run
    else if negb (access_W catpath) then catman_sections dbf mp catdir sections run
    else
      run ← parse_for_sec MAN ARG_MAX NAME_MAX pipeline_run debug_level locale dbf mp sec run;
      catman_sections dbf mp catdir sections run
  end.

Definition catman_manpath (config : config_state) (sections : option (list section_ptr)) (mp : cstr) (run : list pipecmd)
    : outcome (list pipecmd) :=
  let dir := default mp (get_catpath config mp (Z.lor SYSTEM_CAT USER_CAT)) in
  if negb (is_directory dir =? 1)%Z then Ret run
  else
    match open_rd (dir ++ MAN_DB) with
    | Some dbf =>
      if negb (dbver_rd dbf =? 0)%Z then Ret run
      else catman_sections dbf mp dir (default [] sections) run
    | None => Ret run
    end.

Fixpoint catman_manpaths (config : config_state) (sections : option (list section_ptr)) (manpathlist : list cstr)
    (run : list pipecmd) : outcome (list pipecmd) :=
  match manpathlist with
  | [] => Ret run
  | mp :: manpathlist => run ← catman_manpath config sections mp run; catman_manpaths config sections manpathlist run
  end.
End main.

(** The commands a run of the program starts. *)
Definition catman_main {db} `{Mydbm db} `{FileSystem} (MAN : cstr) (ARG_MAX NAME_MAX : nat) (pipeline_run : pipecmd → Z)
    (MAN_DB : cstr) (open_rd : cstr → option db) (access_W : cstr → bool)
    (config : config_state) (getenv : string → option cstr) (OVERRIDE_DIR : cstr) (cwd : option cstr)
    (debug_level : bool) (lc_messages manp : option cstr) (args : list cstr) : outcome (list pipecmd) :=
  let locale := default (lit "C") lc_messages in
  let sections := parse_sections args (getenv "MANSECT") in
  sys_manp ← get_manpath config getenv None;
  manp ← match manp with
         | Some manp => Ret manp
         | None => manp ← get_mandb_manpath config; Ret (default sys_manp manp)
         end;
  manpathlist ← create_pathlist OVERRIDE_DIR cwd manp;
  catman_manpaths MAN ARG_MAX NAME_MAX pipeline_run debug_level (Some locale) MAN_DB open_rd access_W config sections manpathlist [].

(** ** The commands name the pages of the section *)

Section theorems.
Context {db : Type} `{MydbmLaws db} (dbf : db).
Context (MAN : cstr) (ARG_MAX NAME_MAX : nat) (pipeline_run : pipecmd → Z) (locale : option cstr) (manpath section : cstr).
Context (Hman : ∀ cmd, pipeline_run cmd = 0%Z).
Let m := db_view dbf.
Let base := basecmd MAN locale manpath section.

(** The bytes of the arguments with their NULs. *)
Definition args_size (args : list cstr) : nat := sum_list_with (λ a, S (length a)) args.
Lemma args_size_app l1 l2 : args_size (l1 ++ l2) = args_size l1 + args_size l2.
Proof. apply sum_list_with_app. Qed.
Lemma args_size_one a : args_size [a] = S (length a).
Proof. unfold args_size. simpl. lia. Qed.

(** A command for some pages. *)
Record good_batch (names : list cstr) : Prop := GoodBatch {
  gb_some : names ≠ [];
  gb_args : length (base ++ names) ≤ MAX_ARGS;
  gb_size : initial_bit MAN locale manpath section < ARG_MAX - NAME_MAX → Forall (λ n, length n ≤ NAME_MAX) names →
    args_size (base ++ names) ≤ ARG_MAX + 3;
}.

(** The command that is being put together. *)
Definition open_batch (names : list cstr) : Prop :=
  length (base ++ names) < MAX_ARGS ∧
  (names ≠ [] → initial_bit MAN locale manpath section + args_size names < ARG_MAX - NAME_MAX).
Definition state_of (names : list cstr) (run : list pipecmd) : catman_state :=
  CatmanState (base ++ names) (initial_bit MAN locale manpath section + args_size names) run.

(** The page of an entry is an ultimate page of the section. *)
Definition wanted (e : cstr * (name_ext * mandata)) : Prop := md_id e.2.2 = ULT_MAN ∧ md_sec e.2.2 = section.
#[local] Instance wanted_dec e : Decision (wanted e).
Proof. unfold wanted. solve_decision. Defined.

Lemma base_size : args_size base = initial_bit MAN locale manpath section + 3.
Proof. unfold base, basecmd, initial_bit, args_size. destruct locale; simpl; lia. Qed.

Lemma open_good names a : open_batch names → good_batch (names ++ [a]).
Proof.
  intros [Hl Hs]. split.
  - by destruct names.
  - rewrite app_assoc, last_length. lia.
  - intros Hi [Hn [Ha _]%Forall_cons]%Forall_app. cbn beta in Ha. rewrite !args_size_app, args_size_one, base_size.
    destruct names as [|n names]; [change (args_size []) with 0; lia|]. specialize (Hs ltac:(done)). lia.
Qed.

Lemma open_some names : open_batch names → names ≠ [] → good_batch names.
Proof.
  intros [Hl Hs] Hne. specialize (Hs Hne). split; [done|lia|]. intros _ _. rewrite args_size_app, base_size. lia.
Qed.

Lemma add_page_batch names run key :
  open_batch names →
  let names' := names ++ [add_arg key] in
  open_batch names' ∧ add_page MAN ARG_MAX NAME_MAX pipeline_run false locale manpath section key (state_of names run) =
    Ret (state_of names' run) ∨
  good_batch names' ∧ add_page MAN ARG_MAX NAME_MAX pipeline_run false locale manpath section key (state_of names run) =
    Ret (state_of [] (run ++ [base ++ names'])).
Proof.
  intros Ho. cbv zeta. unfold add_page, state_of. cbn [ct_cmd ct_size ct_run].
  rewrite <-!app_assoc.
  destruct (decide _) as [Hd|Hd].
  - right. split; [by apply open_good|]. unfold catman. rewrite Hman. cbn [Z.eqb]. rewrite bind_Ret. change (args_size []) with 0.
        by rewrite app_nil_r, Nat.add_0_r.
  - left. destruct Ho as [Hl _]. split.
    + split; [rewrite app_assoc, last_length in Hd |- *; lia|]. intros _. rewrite args_size_app, args_size_one. lia.
    + rewrite args_size_app, args_size_one. do 2 f_equal. lia.
Qed.

Lemma open_nil : open_batch [].
Proof. split; [|done]. rewrite app_nil_r. unfold base, basecmd. destruct locale; simpl; unfold MAX_ARGS; lia. Qed.

Lemma parse_keys_batches ks es names run :
  walk m ks es → open_batch names →
  ∃ batches names', parse_keys MAN ARG_MAX NAME_MAX pipeline_run false locale dbf manpath section ks (state_of names run) =
      Ret (state_of names' (run ++ ((base ++.) <$> batches))) ∧
    open_batch names' ∧ Forall good_batch batches ∧
    names ++ (add_arg ∘ fst <$> filter wanted es) = concat batches ++ names'.
Proof.
  intros Hw. revert names run.
  induction Hw as [|k c ks es Hk Hother Hw IH|k c r i ks es Hk Hd Hh Hpe Hw IH]; intros names run Ho; cbn [parse_keys].
  - exists [], names. rewrite !app_nil_r. by split_and!.
  - assert (∀ s, parse_key MAN ARG_MAX NAME_MAX pipeline_run false locale dbf manpath section k s = Ret s) as Heq.
    { intros s. unfold parse_key. rewrite fetch_view. fold m. rewrite Hk. destruct Hother as [Ho'|Ho'].
      - by rewrite bool_decide_eq_true_2.
      - rewrite (bool_decide_eq_true_2 _ Ho'). by destruct (bool_decide _). }
    rewrite Heq, bind_Ret. by apply IH.
  - assert (∀ s, parse_key MAN ARG_MAX NAME_MAX pipeline_run false locale dbf manpath section k s =
      if decide (wanted (k, (r, i))) then add_page MAN ARG_MAX NAME_MAX pipeline_run false locale manpath section k s else Ret s) as Heq.
    { intros s. unfold parse_key. rewrite fetch_view. fold m. rewrite Hk, !bool_decide_eq_false_2 by done.
      rewrite (page_split _ _ (pe_content _ _ _ _ _ Hpe)), bind_Ret. destruct (decide (wanted _)) as [[Hi Hs]|Hnw].
      - simpl in Hi, Hs. by rewrite bool_decide_eq_true_2, (proj2 (STREQ_true _ _) Hs).
      - destruct (bool_decide _) eqn:E1, (STREQ _ _) eqn:E2; try done. exfalso. apply Hnw. split; simpl;
          [by apply bool_decide_eq_true in E1|by apply STREQ_true]. }
    rewrite Heq, filter_cons. destruct (decide (wanted _)) as [Hwd|Hwd]; [|rewrite bind_Ret; by apply IH].
    cbn [fmap list_fmap compose fst]. rewrite cons_middle, app_assoc.
    destruct (add_page_batch names run k Ho) as [[Ho' ->]|[Hg ->]]; rewrite bind_Ret.
    + apply (IH (names ++ [add_arg k])). done.
    + destruct (IH [] (run ++ [base ++ names ++ [add_arg k]]) open_nil) as (batches & names' & -> & Hn & Hb & Hc).
      exists ((names ++ [add_arg k]) :: batches), names'. simpl in Hc |- *. rewrite <-app_assoc.
      split_and!; [done|done|by constructor|]. by rewrite Hc, !app_assoc.
Qed.

(** C35: on a well-formed index, with a [man] that succeeds, catman runs
    commands that name exactly the ultimate pages stored in the section, each
    page once and none of them empty; a command has at most [MAX_ARGS]
    arguments, and exceeds [ARG_MAX] by at most the three bytes of [-S]. *)
Theorem parse_for_sec_complete run :
  wf m →
  ∃ (pages : list (cstr * (name_ext * mandata))) batches,
    parse_for_sec MAN ARG_MAX NAME_MAX pipeline_run false locale dbf manpath section run =
      Ret (run ++ ((base ++.) <$> batches)) ∧
    concat batches = add_arg ∘ fst <$> pages ∧ Forall good_batch batches ∧
    NoDup pages.*2.*1 ∧
    (∀ r, r ∈ pages.*2.*1 ↔ reachable_page m r ∧ ∃ i, page_at m r = Some i ∧ md_id i = ULT_MAN ∧ md_sec i = section) ∧
    Forall (λ p, p.1 = page_key m p.2.1 ∧ (ne_name p.2.1 ≠ [] → name_to_key (add_arg p.1) = name_to_key (ne_name p.2.1))) pages.
Proof.
  intros Hwf. destruct (walk_all dbf Hwf) as (es & Hes & Hnd & Hin).
  destruct (parse_keys_batches _ es [] run Hes open_nil) as (batches & names & Hp & Hn & Hb & Hc).
  pose proof (walk_entries _ _ _ Hes) as Hent. rewrite Forall_forall in Hent. fold m in Hin, Hent.
  assert (∃ batches, parse_for_sec MAN ARG_MAX NAME_MAX pipeline_run false locale dbf manpath section run =
      Ret (run ++ ((base ++.) <$> batches)) ∧ Forall good_batch batches ∧ add_arg ∘ fst <$> filter wanted es = concat batches)
    as (all & Hall & Hgood & Hcat).
  { unfold parse_for_sec. fold base. unfold state_of in Hp. rewrite app_nil_r, Nat.add_0_r in Hp. rewrite Hp, bind_Ret. cbn [ct_cmd ct_run].
    destruct (decide _) as [Hd|Hd]; rewrite length_app in Hd.
    - exists (batches ++ [names]). unfold catman. rewrite Hman. cbn [Z.eqb]. split_and!.
      + by rewrite fmap_app, app_assoc.
      + apply Forall_app. split; [done|]. apply Forall_singleton. by apply open_some; [|destruct names; simpl in Hd; [lia|]].
      + rewrite concat_app. simpl in Hc |- *. by rewrite app_nil_r.
    - exists batches. split_and!; [done..|]. destruct names; simpl in Hd; [by rewrite app_nil_r in Hc|lia]. }
  exists (filter wanted es), all. split_and!; [done..| | |].
  - rewrite <-list_fmap_compose in Hnd |- *. by apply NoDup_fmap_filter.
  - intros r. rewrite <-Hin, <-!list_fmap_compose. split.
    + intros (e & -> & [[Hi Hs] He]%list_elem_of_filter)%list_elem_of_fmap. split; [by apply (list_elem_of_fmap_2 (fst ∘ snd))|].
      destruct (Hent _ He) as [c Hpe]. eexists. by split; [apply Hpe|].
    + intros [(e & -> & He)%list_elem_of_fmap (i & Hi & Hid & Hs)]. apply (list_elem_of_fmap_2 (fst ∘ snd)), list_elem_of_filter.
      split; [|done]. destruct (Hent _ He) as [c Hpe]. cbn [compose] in Hi. rewrite (pe_page _ _ _ _ _ Hpe) in Hi.
      injection Hi as <-. by split.
  - apply Forall_forall. intros e [_ He]%list_elem_of_filter. destruct (Hent _ He) as [c Hpe]. split; [by rewrite (pe_key _ _ _ _ _ Hpe)|].
    intros Hne. rewrite <-(pe_nice _ _ _ _ _ Hpe). f_equal. rewrite <-(page_entry_strrchr _ _ _ _ _ Hpe). unfold add_arg.
    destruct (strrchr e.1 TAB) as [[|t]|] eqn:E; [|done..]. exfalso. apply Hne.
    pose proof (page_entry_strrchr _ _ _ _ _ Hpe) as Hs. rewrite E in Hs. pose proof (pe_nice _ _ _ _ _ Hpe) as Hnice.
    rewrite <-Hs in Hnice. by destruct (ne_name e.2.1).
Qed.
End theorems.

(** ** Evaluation *)

Definition page_content_of (n : cstr) : cstr :=
  (make_content (Mandata None (lit "1") (lit "1") ULT_MAN None None None (Some n) (Timespec 1 0))).2.
Definition abc_pages : gmap cstr cstr :=
  {[ lit "abcd" := page_content_of (lit "abcd"); lit "abcde" := page_content_of (lit "abcde"); lit "abcdef" := page_content_of (lit "abcdef") ]}.

Lemma parse_for_sec_complete_witness :
  ∃ (pages : list (cstr * (name_ext * mandata))) batches,
    parse_for_sec (lit "man") 4096 255 (λ _, 0%Z) false (Some (lit "C")) one_page (lit "/m") (lit "1") [] =
      Ret ([] ++ ((basecmd (lit "man") (Some (lit "C")) (lit "/m") (lit "1") ++.) <$> batches)) ∧
    concat batches = add_arg ∘ fst <$> pages ∧
    Forall (good_batch (lit "man") 4096 255 (Some (lit "C")) (lit "/m") (lit "1")) batches ∧
    NoDup pages.*2.*1 ∧
    (∀ r, r ∈ pages.*2.*1 ↔ reachable_page one_page r ∧
       ∃ i, page_at one_page r = Some i ∧ md_id i = ULT_MAN ∧ md_sec i = lit "1") ∧
    Forall (λ p, p.1 = page_key one_page p.2.1 ∧
       (ne_name p.2.1 ≠ [] → name_to_key (add_arg p.1) = name_to_key (ne_name p.2.1))) pages.
Proof.
  exact (parse_for_sec_complete one_page (lit "man") 4096 255 (λ _, 0%Z) (Some (lit "C")) (lit "/m") (lit "1") (λ _, eq_refl) [] one_page_wf).
Defined.

(** The size of [-S] is not counted: with [ARG_MAX] 30 the first command takes 33 bytes. *)
Example catman_commands :
  (run ← parse_for_sec (lit "man") 30 5 (λ _, 0%Z) false (Some (lit "C")) abc_pages (lit "/m") (lit "1") [];
   Ret (map (λ cmd, (drop 6 cmd, args_size cmd)) run)) =
  Ret [([lit "1"; lit "abcd"; lit "abcde"], 33); ([lit "1"; lit "abcdef"], 29)].
Proof. by vm_compute. Qed.

(** The sections of [$MANSECT] are read after they were freed. *)
Example mansect_freed :
  @catman_sections _ _ (Fs.Build_FileSystem (λ _, None) (λ _, None) (λ _, None) (λ _, false) (λ _, false) (λ _, None) (λ _, None))
    (lit "man") 4096 255 (λ _, 0%Z) false None (λ _, true) abc_pages (lit "/m") (lit "/m")
    (default [] (parse_sections [] (Some (lit "1:8")))) [] =
  Undef "main: a section in freed memory".
Proof. by vm_compute. Qed.
