(* ===== verification/ManSearch.v ===== *)
(** * src/man.c: the search for a page

    [man] looks for a page in every hierarchy and section, first among the
    files ([try_section]), then in the index ([try_db]); the candidates are
    sorted and displayed.  What the functions read and leave is a record
    [man_state]; they are written in the state monad of StateM.v.  Showing a page
    and running mandb are parameters: both are processes. *)

From S2P Require Import Prelude CStr StateM Fs Util Compression Filenames Mydbm DbContent Wordfnmatch DbLookup DbGroup DbKeys DbDelete Globbing UltSrc Encodings Manp Manpath CheckMandirs Candidates Security Whatis ManArgs.

(** ** State *)

(** What [display] is called with, and the globals it goes by. *)
Record request := Request {
  rq_dir : option cstr;
  rq_man_file : option cstr;
  rq_cat_file : option cstr;
  rq_title : cstr;
  rq_filters : option cstr;
  rq_lang : option cstr;
  rq_global : bool;
  rq_local : bool;
}.

Record man_state (db : Type) := ManState {
  ms_sec : sec_state;
  ms_dirs : dirent_map;
  ms_cs : cand_state;
  ms_db_map : option (gmap cstr (option (list mandata)));
  ms_dbs : cstr → option db;
  ms_global : bool;
  ms_section : option cstr;
  ms_manpathlist : list cstr;
  ms_local : bool;
  ms_skip : bool;
  ms_lang : option cstr;
  ms_shown : list request;
}.
Arguments ManState {db}.
Arguments ms_sec {db}. Arguments ms_dirs {db}. Arguments ms_cs {db}. Arguments ms_db_map {db}. Arguments ms_dbs {db}.
Arguments ms_global {db}. Arguments ms_section {db}. Arguments ms_manpathlist {db}. Arguments ms_local {db}.
Arguments ms_skip {db}. Arguments ms_lang {db}. Arguments ms_shown {db}.

Abbreviation man_io db := (stateM (man_state db)).

Section state.
Context {db : Type}.
Implicit Types s : man_state db.

Definition set_sec x s : man_state db := ManState x (ms_dirs s) (ms_cs s) (ms_db_map s) (ms_dbs s) (ms_global s) (ms_section s)
  (ms_manpathlist s) (ms_local s) (ms_skip s) (ms_lang s) (ms_shown s).
Definition set_dirs x s : man_state db := ManState (ms_sec s) x (ms_cs s) (ms_db_map s) (ms_dbs s) (ms_global s) (ms_section s)
  (ms_manpathlist s) (ms_local s) (ms_skip s) (ms_lang s) (ms_shown s).
Definition set_cs x s : man_state db := ManState (ms_sec s) (ms_dirs s) x (ms_db_map s) (ms_dbs s) (ms_global s) (ms_section s)
  (ms_manpathlist s) (ms_local s) (ms_skip s) (ms_lang s) (ms_shown s).
Definition set_db_map x s : man_state db := ManState (ms_sec s) (ms_dirs s) (ms_cs s) x (ms_dbs s) (ms_global s) (ms_section s)
  (ms_manpathlist s) (ms_local s) (ms_skip s) (ms_lang s) (ms_shown s).
Definition set_dbs x s : man_state db := ManState (ms_sec s) (ms_dirs s) (ms_cs s) (ms_db_map s) x (ms_global s) (ms_section s)
  (ms_manpathlist s) (ms_local s) (ms_skip s) (ms_lang s) (ms_shown s).
Definition set_global x s : man_state db := ManState (ms_sec s) (ms_dirs s) (ms_cs s) (ms_db_map s) (ms_dbs s) x (ms_section s)
  (ms_manpathlist s) (ms_local s) (ms_skip s) (ms_lang s) (ms_shown s).
Definition set_section x s : man_state db := ManState (ms_sec s) (ms_dirs s) (ms_cs s) (ms_db_map s) (ms_dbs s) (ms_global s) x
  (ms_manpathlist s) (ms_local s) (ms_skip s) (ms_lang s) (ms_shown s).
Definition set_manpathlist x s : man_state db := ManState (ms_sec s) (ms_dirs s) (ms_cs s) (ms_db_map s) (ms_dbs s) (ms_global s)
  (ms_section s) x (ms_local s) (ms_skip s) (ms_lang s) (ms_shown s).
Definition set_local x s : man_state db := ManState (ms_sec s) (ms_dirs s) (ms_cs s) (ms_db_map s) (ms_dbs s) (ms_global s)
  (ms_section s) (ms_manpathlist s) x (ms_skip s) (ms_lang s) (ms_shown s).
Definition set_skip x s : man_state db := ManState (ms_sec s) (ms_dirs s) (ms_cs s) (ms_db_map s) (ms_dbs s) (ms_global s)
  (ms_section s) (ms_manpathlist s) (ms_local s) x (ms_lang s) (ms_shown s).
Definition set_lang x s : man_state db := ManState (ms_sec s) (ms_dirs s) (ms_cs s) (ms_db_map s) (ms_dbs s) (ms_global s)
  (ms_section s) (ms_manpathlist s) (ms_local s) (ms_skip s) x (ms_shown s).
Definition set_shown x s : man_state db := ManState (ms_sec s) (ms_dirs s) (ms_cs s) (ms_db_map s) (ms_dbs s) (ms_global s)
  (ms_section s) (ms_manpathlist s) (ms_local s) (ms_skip s) (ms_lang s) x.
End state.

(** The options that steer the search. *)
Record man_options := ManOptions {
  mo_match_case : bool;
  mo_regex : bool;
  mo_wildcard : bool;
  mo_names_only : bool;
  mo_findall : bool;
  mo_global_apropos : bool;
  mo_catman : bool;
  mo_troff : bool;
  mo_want_encoding : bool;
  mo_recode : bool;
  mo_update : bool;
  mo_extension : option cstr;
  mo_ult_flags : Z;
}.

Definition OK : Z := 0.
Definition NOT_FOUND : Z := 16.
Definition TRY_DATABASE_OPEN_FAILED : Z := -1.
Definition TRY_DATABASE_CREATED : Z := -2.
Definition TRY_DATABASE_UPDATED : Z := -3.

Definition S_ISCHR (m : Z) : bool := (Z.land m S_IFMT =? 8192)%Z.
Definition S_ISBLK (m : Z) : bool := (Z.land m S_IFMT =? S_IFBLK)%Z.

Definition set_id (id : ascii) (i : mandata) : mandata :=
  Mandata (md_name i) (md_ext i) (md_sec i) id (md_pointer i) (md_comp i) (md_filter i) (md_whatis i) (md_mtime i).

(** ** The search *)

(** What is fixed while man runs: how it was configured, the environment, the
    options, and the processes it starts. *)
Class ManEnv (db : Type) := {
  comp_cfg : comp_config;
  COMP_CAT : option cstr;              (* the extension of compressed cat files *)
  MAN_DB : cstr;
  MAN_DB_CREATES : bool;
  MAN_DB_UPDATES : bool;
  conf : config_state;
  dir_layout : Z;
  OVERRIDE_DIR : cstr;
  env_PATH : option cstr;
  env_cwd : option cstr;
  multiple_locale : option cstr;
  internal_locale : option cstr;
  man_opts : man_options;
  section_list : list cstr;            (* what [get_section_list] returned *)
  (* [display] on a request, after the requests before it: its result, and
     whether the user skipped the page *)
  display_page : list request → request → Z * bool;
  (* [run_mandb (create, manpath, filename)] changes the databases *)
  run_mandb : bool → option cstr → option cstr → (cstr → option db) → Z * (cstr → option db);
  (* whether a database can be opened for writing *)
  can_write : cstr → bool;
  (* whether an expression compiles *)
  regcomp_ok : cstr → bool;
}.

Section man.
Context {db : Type} `{Mydbm db} `{IdPriv} `{FileSystem} `{Dirname} `{PageText} `{Matcher} `{OrderFiles} `{!ManEnv db}.

Abbreviation io := (man_io db).

Definition display (dir man_file cat_file : option cstr) (title : cstr) (dbfilters : option cstr) : io Z :=
  s ← get;
  let rq := Request dir man_file cat_file title dbfilters (ms_lang s) (ms_global s) (ms_local s) in
  let '(found, skip) := display_page (ms_shown s) rq in
  _ ← modify (set_skip skip);
  _ ← modify (set_shown (ms_shown s ++ [rq]));
  mret found.

Definition drop_privs_if (b : bool) : io unit :=
  if b then s ← get; sec ← lift (drop_effective_privs (ms_sec s)); modify (set_sec sec) else mret tt.
Definition regain_privs_if (b : bool) : io unit :=
  if b then s ← get; sec ← lift (regain_effective_privs (ms_sec s)); modify (set_sec sec) else mret tt.

Definition look_for (path sec name : cstr) (cat : bool) (lff_opts : lff) : io (list cstr) :=
  s ← get;
  let '(names, dirs) := look_for_file dir_layout (mo_extension man_opts) path sec name cat lff_opts (ms_dirs s) in
  _ ← modify (set_dirs dirs);
  mret names.

Definition ult_src_of (name path : cstr) (flags : Z) : io (option ult_value) :=
  s ← get;
  '(ult, cache) ← lift (ult_src comp_cfg (cs_ult (ms_cs s)) name path None flags);
  _ ← modify (set_cs (CandState (cs_list (ms_cs s)) (cs_index (ms_cs s)) cache));
  mret ult.

Definition add (from_db cat : bool) (req_name path : cstr) (ult : option cstr) (source : mandata) : io bool :=
  s ← get;
  '(added, cs) ← lift (add_candidate OVERRIDE_DIR (ms_section s) section_list (default [] internal_locale) comp_cfg
                         (mo_ult_flags man_opts) (ms_cs s) from_db cat req_name path ult source);
  _ ← modify (set_cs cs);
  mret added.

Definition b2z (b : bool) : Z := if b then 1 else 0.

Definition shows_source_only : bool := mo_troff man_opts || mo_want_encoding man_opts || mo_recode man_opts.

(** *** Files *)

(** The loop over the files found. *)
Fixpoint add_files (path name : cstr) (cat : bool) (names : list cstr) : io Z :=
  match names with
  | [] => mret 0%Z
  | found_name :: names =>
    info ← lift (filename_info comp_cfg found_name);
    match info with
    | None => add_files path name cat names
    | Some info =>
      ult ← ult_src_of found_name path (mo_ult_flags man_opts);
      match ult with
      | None => add_files path name cat names
      | Some ult =>
        let info := set_id (if STREQ (uv_path ult) found_name then ULT_MAN else SO_MAN) info in
        f ← add false cat name path (Some (uv_path ult)) info;
        n ← add_files path name cat names;
        mret (b2z f + n)%Z
      end
    end
  end.

Definition try_section (path sec name : cstr) : io Z :=
  let lff_opts := Lff (mo_match_case man_opts) (mo_regex man_opts) (mo_wildcard man_opts) in
  names ← look_for path sec name false lff_opts;
  if bool_decide (names = []) then
    if mo_catman man_opts then mret 1%Z
    else if negb shows_source_only then
      names ← look_for path sec name true lff_opts;
      add_files path name true (order_files path names)
    else add_files path name false (order_files path names)
  else add_files path name false (order_files path names).

(** *** The index *)

Definition cattype (global : bool) : Z := if global then SYSTEM_CAT else USER_CAT.

Definition database_of (manpath : cstr) (global : bool) : cstr :=
  mkdbname MAN_DB (default manpath (get_catpath conf manpath (cattype global))).

(** The name of the file behind an entry. *)
Definition entry_name (info : mandata) (name : cstr) : outcome cstr :=
  pointer ← or_undef "pointer" (md_pointer info);
  Ret (if negb (bool_decide (head pointer = Some "-"%char)) then pointer else default name (md_name info)).

Definition maybe_update_file (manpath name : cstr) (info : mandata) : io bool :=
  if negb (mo_update man_opts) then mret false
  else
    real_name ← lift (entry_name info name);
    file ← lift (make_filename manpath (Some real_name) info (lit "man"));
    match file with
    | None => mret false
    | Some file =>
      match fs_lstat file with
      | None => mret false
      | Some buf =>
        match timespec_cmp (st_mtim buf) (md_mtime info) with
        | Eq => mret false
        | _ =>
          s ← get;
          let '(status, dbs) := run_mandb false (Some manpath) (Some file) (ms_dbs s) in
          _ ← modify (set_dbs dbs);
          mret true
        end
      end
    end.

(** Does an entry suit the section and the extension asked for?  The
    extension is also compared with what follows the section in the entry's. *)
Definition suits (sec : cstr) (loc : mandata) : outcome bool :=
  if negb (STREQ sec (md_sec loc)) then Ret false
  else
    match mo_extension man_opts with
    | None => Ret true
    | Some e =>
      if STREQ e (md_ext loc) then Ret true
      else if bool_decide (length (md_ext loc) < length sec) then Undef "try_db: loc->ext + strlen (sec)"
      else Ret (STREQ e (drop (length sec) (md_ext loc)))
    end.

Fixpoint update_stale (manpath sec name : cstr) (matches : list mandata) : io bool :=
  match matches with
  | [] => mret false
  | loc :: matches =>
    ok ← lift (suits sec loc);
    stale ← (if (ok : bool) then maybe_update_file manpath name loc else mret false);
    rest ← update_stale manpath sec name matches;
    mret ((stale : bool) || rest)
  end.

Fixpoint add_matches (manpath sec name : cstr) (matches : list mandata) : io Z :=
  match matches with
  | [] => mret 0%Z
  | loc :: matches =>
    ok ← lift (suits sec loc);
    f ← (if (ok : bool) then add true false name manpath None loc else mret false);
    n ← add_matches manpath sec name matches;
    mret (b2z f + n)%Z
  end.

(** Looking the page up, once for a hierarchy: what is found is kept in
    [db_map], where an entry without matches stands for a database that cannot
    be opened.  The left result ends [try_db]. *)
Definition find_matches (manpath name : cstr) : io (Z + option (list mandata)) :=
  s ← get;
  let map := default ∅ (ms_db_map s) in
  _ ← modify (set_db_map (Some map));
  match map !! manpath with
  | Some matches => mret (inr matches)
  | None =>
    match (match ms_dbs s (database_of manpath (ms_global s)) with
           | Some dbf => if (dbver_rd dbf =? 0)%Z then Some dbf else None
           | None => None
           end) with
    | Some dbf =>
      matches ← lift (if mo_regex man_opts || mo_wildcard man_opts
                      then dblookup_pattern dbf name (ms_section s) (mo_match_case man_opts) (mo_regex man_opts)
                             (negb (mo_names_only man_opts))
                      else dblookup_all dbf name (ms_section s) (mo_match_case man_opts));
      _ ← modify (set_db_map (Some (<[manpath := Some matches]> map)));
      mret (inr (Some matches))
    | None =>
      if MAN_DB_CREATES && negb (ms_global s) then
        let '(status, dbs) := run_mandb true (Some manpath) None (ms_dbs s) in
        _ ← modify (set_dbs dbs);
        if negb (bool_decide (status = 0)%Z) then
          _ ← modify (set_db_map (Some (<[manpath := None]> map)));
          mret (inl TRY_DATABASE_OPEN_FAILED)
        else mret (inl TRY_DATABASE_CREATED)
      else
        _ ← modify (set_db_map (Some (<[manpath := None]> map)));
        mret (inl TRY_DATABASE_OPEN_FAILED)
    end
  end.

Definition try_db (manpath sec name : cstr) : io Z :=
  r ← find_matches manpath name;
  match r with
  | inl found => mret found
  | inr None => mret TRY_DATABASE_OPEN_FAILED
  | inr (Some matches) =>
    found_stale ← (if MAN_DB_UPDATES then update_stale manpath sec name matches else mret false);
    if (found_stale : bool) then
      s ← get;
      _ ← modify (set_db_map (delete manpath <$> ms_db_map s));
      mret TRY_DATABASE_UPDATED
    else add_matches manpath sec name matches
  end.

(** *** One hierarchy and section *)

Definition locate_page (manpath sec name : cstr) : io Z :=
  let global := is_global_mandir conf manpath in
  _ ← modify (set_global global);
  _ ← drop_privs_if (negb global);
  found ← try_section manpath sec name;
  found ←
    (if (bool_decide (found = 0)%Z || mo_findall man_opts) && negb (mo_global_apropos man_opts) then
       db_ok ← try_db manpath sec name;
       db_ok ← (if MAN_DB_CREATES && bool_decide (db_ok = TRY_DATABASE_CREATED)
                then try_db manpath sec name else mret db_ok);
       db_ok ← (if MAN_DB_UPDATES && bool_decide (db_ok = TRY_DATABASE_UPDATED)
                then try_db manpath sec name else mret db_ok);
       mret (if bool_decide (0 < db_ok)%Z then found + db_ok else found)%Z
     else mret found);
  s ← get;
  _ ← regain_privs_if (negb (ms_global s));
  mret found.
(** *** Showing candidates *)

Definition find_cat (path original man_file : cstr) : io (option cstr) :=
  s ← get;
  '(cat_file, global) ← lift (find_cat_file comp_cfg COMP_CAT conf path original man_file (ms_global s));
  _ ← modify (set_global global);
  mret cat_file.

(** Show a source: its language, its cat file, [display]. *)
Definition display_source (path file man_path title : cstr) (filters : option cstr) : io Z :=
  l ← lift (lang_dir (Some man_path));
  _ ← modify (set_lang (Some l));
  cat_file ← find_cat path file man_path;
  found ← display (Some path) (Some man_path) cat_file title filters;
  _ ← modify (set_lang None);
  mret found.

Definition page_title (name ext : cstr) : cstr := name ++ lit "(" ++ ext ++ lit ")".

Definition display_filesystem (candp : candidate) : io Z :=
  filename ← lift (make_filename (cd_path candp) None (cd_source candp) (if cd_cat candp then lit "cat" else lit "man"));
  match filename with
  | None => mret 0%Z
  | Some filename =>
    let title := page_title (cd_name candp) (cd_ext candp) in
    if cd_cat candp then
      if shows_source_only then mret 0%Z
      else display (Some (cd_path candp)) None (Some filename) title None
    else
      man_ult ← ult_src_of filename (cd_path candp) (mo_ult_flags man_opts);
      match man_ult with
      | None => mret 0%Z
      | Some man_ult => display_source (cd_path candp) filename (uv_path man_ult) title None
      end
  end.

Definition dbdelete_wrapper (page : cstr) (info : mandata) (manpath : cstr) : io unit :=
  if mo_catman man_opts then mret tt
  else
    s ← get;
    let database := database_of manpath (ms_global s) in
    if can_write database then
      match ms_dbs s database with
      | Some dbf =>
        '(_, dbf) ← lift (dbdelete dbf page info);
        modify (set_dbs (λ d, if STREQ d database then Some dbf else ms_dbs s d))
      | None => mret tt
      end
    else mret tt.

(** The cat file of a stray cat, in the hierarchy or its cat hierarchy. *)
Definition stray_file (path name : cstr) (info : mandata) : io (option cstr) :=
  file ← lift (make_filename path (Some name) info (lit "cat"));
  match file with
  | Some file => mret (Some file)
  | None =>
    s ← get;
    match get_catpath conf path (cattype (ms_global s)) with
    | Some catpath =>
      if negb (STREQ catpath path) then lift (make_filename catpath (Some name) info (lit "cat"))
      else mret None
    | None => mret None
    end
  end.

Definition display_database (candp : candidate) : io Z :=
  let info := cd_source candp in
  name ← lift (entry_name info (cd_req_name candp));
  let title := page_title (default (cd_req_name candp) (md_name info)) (md_ext info) in
  if (schar (md_id info) <? schar STRAY_CAT)%Z then
    file ← lift (make_filename (cd_path candp) (Some name) info (lit "man"));
    match file with
    | None => mret 0%Z
    | Some file =>
      man_ult ← ult_src_of file (cd_path candp) (get_ult_flags (mo_ult_flags man_opts) true (md_id info));
      match man_ult with
      | None => mret 0%Z
      | Some man_ult => display_source (cd_path candp) file (uv_path man_ult) title (md_filter info)
      end
    end
  else if (schar (md_id info) <=? schar WHATIS_CAT)%Z then
    if mo_catman man_opts then mret 1%Z
    else if shows_source_only then mret 0%Z
    else
      file ← stray_file (cd_path candp) name info;
      match file with
      | None => mret 0%Z
      | Some file => display (Some (cd_path candp)) None (Some file) title (md_filter info)
      end
  else mret 0%Z.

Definition display_database_check (candp : candidate) : io Z :=
  exists_ ← display_database candp;
  s ← get;
  _ ← (if MAN_DB_UPDATES && bool_decide (exists_ = 0)%Z && negb (ms_skip s)
       then dbdelete_wrapper (cd_req_name candp) (cd_source candp) (cd_path candp) else mret tt);
  mret exists_.

(** The loop of [display_pages]; [found] is what was shown so far. *)
Fixpoint display_pages (candidates : list candidate) (found : Z) : io Z :=
  match candidates with
  | [] => mret found
  | candp :: candidates =>
    let global := is_global_mandir conf (cd_path candp) in
    _ ← modify (set_global global);
    _ ← drop_privs_if (negb global);
    n ← (if cd_from_db candp then display_database_check candp else display_filesystem candp);
    s ← get;
    _ ← regain_privs_if (negb (ms_global s));
    let found := (found + n)%Z in
    if negb (bool_decide (found = 0)%Z) && negb (mo_findall man_opts) then mret found
    else display_pages candidates found
  end.

(** *** All hierarchies *)

Fixpoint locate_in_manpaths (sec name : cstr) (manpaths : list cstr) (found : Z) : io Z :=
  match manpaths with
  | [] => mret found
  | mp :: manpaths =>
    n ← locate_page mp sec name;
    locate_in_manpaths sec name manpaths (found + n)
  end.

Definition locate_page_in_manpath (sec name : cstr) (found : Z) : io Z :=
  s ← get;
  locate_in_manpaths sec name (ms_manpathlist s) found.

Fixpoint locate_in_sections (name : cstr) (secs : list cstr) (found : Z) : io Z :=
  match secs with
  | [] => mret found
  | sec :: secs =>
    found ← locate_page_in_manpath sec name found;
    locate_in_sections name secs found
  end.

(** The search of [man]: the candidates it leaves, and how many were counted. *)
Definition locate_candidates (name : cstr) : io Z :=
  s ← get;
  found ←
    match ms_section s with
    | Some sec => locate_page_in_manpath sec name 0
    | None => locate_in_sections name section_list 0
    end;
  let '(page_name, page_section) := split_page_name section_list name in
  match page_section with
  | Some sec => if bool_decide (found = 0)%Z then locate_page_in_manpath sec page_name found else mret found
  | None => mret found
  end.

Definition set_candidates (l : list candidate) (s : man_state db) : man_state db :=
  set_cs (CandState l (cs_index (ms_cs s)) (cs_ult (ms_cs s))) s.

(** [man (name, &found)]: the status and [found].  The list of candidates is
    a variable of the call. *)
Definition man (name : cstr) : io (Z * Z) :=
  s0 ← get;
  _ ← modify (set_candidates []);
  found ← locate_candidates name;
  s ← get;
  let candidates := sort_candidates OVERRIDE_DIR (ms_section s) section_list (default [] internal_locale) (cs_list (ms_cs s)) in
  found ← (if negb (bool_decide (found = 0)%Z) then display_pages candidates 0 else mret found);
  _ ← modify (set_candidates (cs_list (ms_cs s0)));
  mret (if negb (bool_decide (found = 0)%Z) then OK else NOT_FOUND, found).

(** *** Local files *)

(** An executable on the path: its page is looked for near its directory. *)
Definition man_of_executable (argv : cstr) : io Z :=
  let argv_dir := dir_name argv in
  on_path ← lift (directory_on_path env_PATH env_cwd argv_dir);
  if (on_path : bool) then
    let new_manp := get_manpath_from_path conf argv_dir false in
    if bool_decide (new_manp = []) then mret 0%Z
    else
      nm ← lift (locale_manpath multiple_locale internal_locale new_manp);
      new_manp ← lift (or_undef "create_pathlist: no path" nm);
      manpathlist ← lift (create_pathlist OVERRIDE_DIR env_cwd new_manp);
      s ← get;
      _ ← modify (set_manpathlist manpathlist);
      '(_, found) ← man (base_name argv);
      _ ← modify (set_manpathlist (ms_manpathlist s));
      mret found
  else mret 0%Z.

Definition display_local (argv : cstr) : io Z :=
  let argv_abs :=
    if bool_decide (head argv = Some "/"%char) then argv
    else match env_cwd with Some d => appendstr (Some d) [lit "/"; argv] | None => argv end in
  l ← lift (lang_dir (Some argv_abs));
  _ ← modify (set_lang (Some l));
  shown ← display None (Some argv) None (base_name argv) None;
  _ ← modify (set_lang None);
  mret (if bool_decide (shown = 0)%Z then NOT_FOUND else OK).

(** The end of [local_man_loop], which the early returns do not reach. *)
Definition end_local (local_mf : bool) (exit_status : Z) : io Z :=
  _ ← modify (set_local local_mf);
  _ ← regain_privs_if true;
  mret exit_status.

Definition local_man_loop (argv : cstr) : io Z :=
  s ← get;
  let local_mf := ms_local s in
  _ ← drop_privs_if true;
  _ ← modify (set_local true);
  if STREQ argv (lit "-") then
    _ ← display None (Some []) None (lit "(stdin)") None;
    end_local local_mf OK
  else
    match fs_stat argv with
    | None => mret NOT_FOUND
    | Some st =>
      if S_ISDIR (st_mode st) || S_ISCHR (st_mode st) || S_ISBLK (st_mode st) then mret NOT_FOUND
      else
        found ← (if negb (bool_decide (Z.land (st_mode st) 73 = 0)%Z) then man_of_executable argv else mret 0%Z);
        if negb (bool_decide (found = 0)%Z) then mret OK
        else
          exit_status ← display_local argv;
          end_local local_mf exit_status
    end.

Definition man_maybe_local (name : cstr) : io (Z * Z) :=
  match strchr name "/"%char with
  | Some _ =>
    status ← local_man_loop name;
    mret (status, if bool_decide (status = OK) then 1 else 0)%Z
  | None => man name
  end.

(** *** Searching the text of all pages *)

Definition grep (file string : cstr) : bool :=
  match fs_stat file with
  | None => false
  | Some _ =>
    match page_lines file with
    | None => false
    | Some lines =>
      existsb (λ line,
        if mo_regex man_opts then regexec (negb (mo_match_case man_opts)) string line
        else bool_decide (is_Some (if mo_match_case man_opts then strstr line string else strcasestr line string))) lines
    end
  end.

Fixpoint apropos_files (path name : cstr) (names : list cstr) (seen : gset cstr) (found : Z) : io (gset cstr * Z) :=
  match names with
  | [] => mret (seen, found)
  | found_name :: names =>
    if negb (grep found_name name) then apropos_files path name names seen found
    else
      info ← lift (filename_info comp_cfg found_name);
      match info with
      | None => apropos_files path name names seen found
      | Some info =>
        man_ult ← ult_src_of found_name path (mo_ult_flags man_opts);
        match man_ult with
        | None => apropos_files path name names seen found
        | Some man_ult =>
          if bool_decide (uv_path man_ult ∈ seen) then apropos_files path name names seen found
          else
            shown ← display_source path found_name (uv_path man_ult)
                      (page_title (default [] (md_name info)) (md_ext info)) None;
            apropos_files path name names ({[ uv_path man_ult ]} ∪ seen)
              (if bool_decide (shown = 0)%Z then found else 1%Z)
        end
      end
  end.

Definition do_global_apropos_section (path sec name : cstr) (seen : gset cstr) : io (gset cstr * Z) :=
  let global := is_global_mandir conf path in
  _ ← modify (set_global global);
  _ ← drop_privs_if (negb global);
  names ← look_for path sec (lit "*") false (Lff false false true);
  _ ← lift (if mo_regex man_opts && negb (regcomp_ok name) then Fatal "fatal: regex" else Ret tt);
  r ← apropos_files path name (order_files path names) seen 0;
  s ← get;
  _ ← regain_privs_if (negb (ms_global s));
  mret r.

Fixpoint apropos_manpaths (sec name : cstr) (manpaths : list cstr) (seen : gset cstr) (found : Z) : io (gset cstr * Z) :=
  match manpaths with
  | [] => mret (seen, found)
  | mp :: manpaths =>
    '(seen, n) ← do_global_apropos_section mp sec name seen;
    apropos_manpaths sec name manpaths seen (found + n)
  end.

Fixpoint apropos_sections (name : cstr) (secs : list cstr) (seen : gset cstr) (found : Z) : io (gset cstr * Z) :=
  match secs with
  | [] => mret (seen, found)
  | sec :: secs =>
    s ← get;
    '(seen, found) ← apropos_manpaths sec name (ms_manpathlist s) seen found;
    apropos_sections name secs seen found
  end.

Definition do_global_apropos (name : cstr) : io (Z * Z) :=
  s ← get;
  '(_, found) ← apropos_sections name (match ms_section s with Some sec => [sec] | None => section_list end) ∅ 0;
  mret (if negb (bool_decide (found = 0)%Z) then OK else NOT_FOUND, found).
End man.
