(* ===== verification/ManLoop.v ===== *)
(** * src/man.c: the loop over the arguments

    An argument may be the name of a section, which then holds for the
    arguments that follow; when the next name is not found there, the section
    is tried as a name after all.  The loop uses the search through the class
    [ManActions], so that what is proved of it holds of any search; the
    functions of file [ManSearch] are an instance. *)

From S2P Require Import Prelude CStr StateM Fs Util Compression Filenames Manp ManArgs.

(** What the loop does with a page: each action gets the section to search
    (none: all) and returns the status and the number of pages found. *)
Class ManActions (St : Type) := {
  act_man : option cstr → cstr → St → outcome (Z * Z * St);
  act_man_maybe_local : option cstr → cstr → St → outcome (Z * Z * St);
  act_global_apropos : option cstr → cstr → St → outcome (Z * Z * St);
  act_clear_db_map : St → St;
  act_clear_skip : St → St;
  act_skip : St → bool;
}.

Section loop.
Context {St : Type} `{ManActions St}.
Context (section_list : list cstr) (catman global_apropos subpages : bool) (argv : list cstr).

(** [first_arg], [section], [exit_status], the search, and what is printed. *)
Record loop_state := LoopState {
  ls_first : nat;
  ls_section : option cstr;
  ls_exit : Z;
  ls_st : St;
  ls_out : list cstr;
  ls_err : list cstr;
}.

Definition arg (i : nat) : outcome cstr := or_undef "argv[first_arg]" (argv !! i).
Definition more (i : nat) : bool := bool_decide (i < length argv).

Definition gripe_no_man (name : cstr) (sec : option cstr) : cstr :=
  match sec with
  | Some sec => lit "No manual entry for " ++ name ++ lit " in section " ++ sec ++ [NL]
  | None => lit "No manual entry for " ++ name ++ [NL]
  end.

(** The page [nextarg-next] or [nextarg_next]: the status, the new [first_arg]
    and whether it was found. *)
Definition try_subpage (sep : ascii) (section : option cstr) (nextarg : cstr) (first : nat) (st : St)
    : outcome (Z * bool * nat * St) :=
  next ← arg first;
  '(status, _, st) ← act_man section (nextarg ++ sep :: next) st;
  Ret (if bool_decide (status = 0)%Z then (status, true, S first, st) else (status, false, first, st)).

(** The search for one argument. *)
Definition look_up (section : option cstr) (nextarg : cstr) (first : nat) (st : St) : outcome (Z * nat * St) :=
  if global_apropos then
    '(status, _, st) ← act_global_apropos section nextarg st; Ret (status, first, st)
  else
    '(status, found, first, st) ←
      (if subpages && more first then try_subpage "-" section nextarg first st else Ret (0%Z, false, first, st));
    '(status, found, first, st) ←
      (if negb found && subpages && more first then try_subpage "_" section nextarg first st
       else Ret (status, found, first, st));
    if (found : bool) then Ret (status, first, st)
    else '(status, _, st) ← act_man_maybe_local section nextarg st; Ret (status, first, st).

(** The section [tmp] as a name: the status and the new [first_arg]. *)
Definition retry_as_name (tmp nextarg : cstr) (first : nat) (st : St) : outcome (Z * nat * St) :=
  '(status, found, first, st) ←
    (if subpages then
       '(status, _, st) ← act_man None (tmp ++ "-"%char :: nextarg) st;
       Ret (if bool_decide (status = 0)%Z then (status, true, S first, st) else (status, false, first, st))
     else Ret (0%Z, false, first, st));
  '(status, st) ←
    (if (found : bool) then Ret (status, st)
     else '(status, _, st) ← act_man_maybe_local None tmp st; Ret (status, st));
  Ret (status, first, act_clear_db_map st).

(** What is said about the argument. *)
Definition report (status : Z) (nextarg : cstr) (maybe_section : bool) (ls : loop_state) : outcome loop_state :=
  if negb (bool_decide (status = 0)%Z) && negb catman then
    if act_skip (ls_st ls) then Ret ls
    else
      let ls := LoopState (ls_first ls) (ls_section ls) status (ls_st ls) (ls_out ls) (ls_err ls) in
      if bool_decide (status = 16)%Z then
        if negb (bool_decide (is_Some (ls_section ls))) && maybe_section &&
           from_option isdigit false (head nextarg)
        then Fatal "What manual page do you want?"
        else Ret (LoopState (ls_first ls) (ls_section ls) status (ls_st ls) (ls_out ls)
                    (ls_err ls ++ [gripe_no_man nextarg (ls_section ls)]))
      else Ret ls
  else
    Ret (if catman then
           LoopState (ls_first ls) (ls_section ls) (ls_exit ls) (ls_st ls)
             (ls_out ls ++ [nextarg ++ from_option (λ s, lit "(" ++ s ++ lit ")") [] (ls_section ls) ++
                            if bool_decide (ls_first ls = length argv) then lit "." ++ [NL] else lit ", "])
             (ls_err ls)
         else ls).

(** One turn of the loop, while [first_arg < argc]. *)
Definition arg_step (ls : loop_state) : outcome loop_state :=
  nextarg ← arg (ls_first ls);
  let first := S (ls_first ls) in
  let tmp := if catman then None else is_section section_list nextarg in
  let maybe_section := bool_decide (is_Some tmp) in
  let section := match tmp with Some s => Some s | None => ls_section ls end in
  '(nextarg, section, first) ←
    (if maybe_section then
       if more first then next ← arg first; Ret (next, section, S first) else Ret (nextarg, None, first)
     else Ret (nextarg, section, first));
  '(status, first, st) ← look_up section nextarg first (act_clear_skip (ls_st ls));
  let st := act_clear_db_map st in
  '(status, nextarg, section, first, st) ←
    match section with
    | Some tmp =>
      if maybe_section && negb (bool_decide (status = 0)%Z) && negb catman then
        '(status, first, st) ← retry_as_name tmp nextarg first st;
        Ret (if bool_decide (status = 0)%Z then (status, tmp, None, pred first, st)
             else (status, nextarg, Some tmp, first, st))
      else Ret (status, nextarg, section, first, st)
    | None => Ret (status, nextarg, section, first, st)
    end;
  report status nextarg maybe_section (LoopState first section (ls_exit ls) st (ls_out ls) (ls_err ls)).

Fixpoint args_loop (fuel : nat) (ls : loop_state) : outcome loop_state :=
  if more (ls_first ls) then
    match fuel with
    | 0 => Undef "args_loop: fuel"
    | S fuel => ls ← arg_step ls; args_loop fuel ls
    end
  else Ret ls.
End loop.
Arguments LoopState {St}. Arguments ls_first {St}. Arguments ls_section {St}. Arguments ls_exit {St}.
Arguments ls_st {St}. Arguments ls_out {St}. Arguments ls_err {St}.

(** ** Progress *)

Section progress.
Context {St : Type} `{ManActions St}.
Context (section_list : list cstr) (catman global_apropos subpages : bool) (argv : list cstr).
Abbreviation step := (arg_step section_list catman global_apropos subpages argv).

Lemma arg_Ret i a : arg argv i = Ret a → i < length argv.
Proof. unfold arg. destruct (argv !! i) eqn:E; [|done]. intros _. by eapply lookup_lt_Some. Qed.

Lemma try_subpage_first sep section nextarg first st status found first' st' :
  try_subpage argv sep section nextarg first st = Ret (status, found, first', st') →
  first < length argv ∧ (status = 0%Z ↔ found = true) ∧ first' = if found then S first else first.
Proof.
  unfold try_subpage. intros Ht. apply bind_Ret_inv in Ht as (next & Hn & Ht). apply arg_Ret in Hn.
  apply bind_Ret_inv in Ht as ([[s f] st1] & _ & Ht). case_bool_decide; by simplify_eq.
Qed.

(** A search moves on only when it finds something. *)
Lemma look_up_first section nextarg first st status first' st' :
  look_up global_apropos subpages argv section nextarg first st = Ret (status, first', st') →
  first ≤ length argv → first ≤ first' ≤ length argv ∧ (status ≠ 0%Z → first' = first).
Proof.
  unfold look_up. intros Hl Hf. destruct global_apropos.
  { apply bind_Ret_inv in Hl as ([[? ?] ?] & _ & Hl). simplify_eq. split; [lia|done]. }
  apply bind_Ret_inv in Hl as ([[[s1 f1] n1] st1] & H1 & Hl).
  apply bind_Ret_inv in Hl as ([[[s2 f2] n2] st2] & H2 & Hl).
  assert (first ≤ n1 ≤ length argv ∧ (n1 = first ∨ f1 = true ∧ s1 = 0%Z) ∧ (f1 = false → n1 = first)) as (Hn1 & He1 & Hf1).
  { clear H2 Hl. destruct (subpages && more argv first); [|simplify_eq; split; [lia|split; [by left|done]]].
    apply try_subpage_first in H1 as (Hlt & Hs & ->). destruct f1; simpl; [|split; [lia|split; [by left|done]]].
    split; [lia|]. split; [right; split; [done|by apply Hs]|done]. }
  assert (first ≤ n2 ≤ length argv ∧ (n2 = first ∨ f2 = true ∧ s2 = 0%Z) ∧ (f2 = false → n2 = first)) as (Hn2 & He2 & Hf2).
  { clear Hl. destruct (negb f1 && subpages && more argv n1) eqn:E; [|simplify_eq; done].
    destruct f1; [done|]. rewrite (Hf1 eq_refl) in *.
    apply try_subpage_first in H2 as (Hlt & Hs & ->). destruct f2; simpl; [|split; [lia|split; [by left|done]]].
    split; [lia|]. split; [right; split; [done|by apply Hs]|done]. }
  destruct f2.
  - simplify_eq. split; [lia|]. intros Hne. destruct He2 as [|[_ ?]]; [done|congruence].
  - apply bind_Ret_inv in Hl as ([[? ?] ?] & _ & Hl). simplify_eq. rewrite (Hf2 eq_refl) in *. split; [lia|done].
Qed.

Lemma retry_first tmp nextarg first st status first' st' :
  retry_as_name subpages tmp nextarg first st = Ret (status, first', st') →
  first' = first ∨ (first' = S first ∧ status = 0%Z).
Proof.
  unfold retry_as_name. intros Hr. apply bind_Ret_inv in Hr as ([[[s1 f1] n1] st1] & H1 & Hr).
  apply bind_Ret_inv in Hr as ([s2 st2] & H2 & Hr). simplify_eq.
  destruct subpages; [|simplify_eq; by left].
  apply bind_Ret_inv in H1 as ([[s ?] ?] & _ & H1). case_bool_decide; simplify_eq; [|by left].
  right. by simplify_eq.
Qed.

Lemma report_first status nextarg maybe ls ls' :
  report catman argv status nextarg maybe ls = Ret ls' → ls_first ls' = ls_first ls.
Proof. unfold report. intros Hr. repeat case_match; by simplify_eq/=. Qed.

Lemma arg_step_progress ls ls' :
  ls_first ls < length argv → step ls = Ret ls' → ls_first ls < ls_first ls' ≤ length argv.
Proof.
  intros Hlt Hs. unfold arg_step in Hs. apply bind_Ret_inv in Hs as (nextarg & _ & Hs).
  set (tmp := if catman then None else is_section section_list nextarg) in *.
  apply bind_Ret_inv in Hs as ([[nextarg' section] first] & H1 & Hs).
  assert (S (ls_first ls) ≤ first ≤ length argv ∧
          (bool_decide (is_Some tmp) = true → is_Some section → S (S (ls_first ls)) = first)) as (Hf & Hsec).
  { case_bool_decide as Htmp; [|simplify_eq; split; [lia|done]].
    clear Hs. destruct (more argv (S (ls_first ls))) eqn:E; [|simplify_eq; split; [lia|by intros _ [? ?]]].
    apply bind_Ret_inv in H1 as (next & Hn & H1). apply arg_Ret in Hn. simplify_eq. split; [lia|done]. }
  apply bind_Ret_inv in Hs as ([[status first'] st'] & H2 & Hs).
  apply look_up_first in H2 as (Hf' & Hst); [|lia].
  apply bind_Ret_inv in Hs as ([[[[status' n'] section'] first2] st2] & H3 & Hs).
  apply report_first in Hs. simpl in Hs. rewrite Hs. clear Hs.
  destruct section as [sec|]; [|simplify_eq; lia].
  destruct (bool_decide (is_Some tmp) && negb (bool_decide (status = 0%Z)) && negb catman) eqn:E; [|simplify_eq; lia].
  apply andb_true_iff in E as [[Hm Hne]%andb_true_iff _]. apply negb_true_iff, bool_decide_eq_false in Hne.
  specialize (Hsec Hm ltac:(eauto)). specialize (Hst Hne).
  apply bind_Ret_inv in H3 as ([[s3 f3] st3] & Hr & H3). apply retry_first in Hr.
  case_bool_decide; simplify_eq; destruct Hr as [->|[-> ?]]; simpl; lia || done.
Qed.

(** The turns of the loop. *)
Definition turn (ls ls' : loop_state) : Prop := more argv (ls_first ls) = true ∧ step ls = Ret ls'.

Lemma args_loop_run n ls :
  length argv - ls_first ls ≤ n → ls_first ls ≤ length argv →
  ∃ ls', rtc turn ls ls' ∧
    ((ls_first ls' = length argv ∧ args_loop section_list catman global_apropos subpages argv n ls = Ret ls') ∨
     (ls_first ls' < length argv ∧ is_ret (step ls') = false ∧
      args_loop section_list catman global_apropos subpages argv n ls = step ls')).
Proof.
  revert ls. induction n as [|n IH]; intros ls Hn Hle.
  - assert (ls_first ls = length argv) as Heq by lia. exists ls. split; [apply rtc_refl|]. left. split; [done|].
    cbn [args_loop]. unfold more. by rewrite bool_decide_eq_false_2 by lia.
  - cbn [args_loop]. destruct (more argv (ls_first ls)) eqn:Hm.
    2: { exists ls. split; [apply rtc_refl|]. left. unfold more in Hm. rewrite bool_decide_eq_false in Hm. split; [lia|done]. }
    pose proof Hm as Hlt. unfold more in Hlt. rewrite bool_decide_eq_true in Hlt.
    destruct (step ls) as [ls1|msg|why] eqn:E.
    2, 3: exists ls; split; [apply rtc_refl|right; rewrite E; done].
    pose proof (arg_step_progress ls ls1 Hlt E). destruct (IH ls1) as (ls' & Hr & Hend); [lia..|].
    exists ls'. split; [|done]. eapply rtc_l; [|done]. by split.
Qed.
End progress.

(** C32: the loop over the arguments of [man] always ends: every turn moves on
    to a later argument, although a turn may step back to search a section as
    a name, so that after at most as many turns as there are arguments either
    all are used up or an action ended the program. *)
Theorem args_loop_ends {St} `{ManActions St} section_list catman global_apropos subpages argv (ls : loop_state (St:=St)) :
  ls_first ls ≤ length argv →
  let run n := args_loop section_list catman global_apropos subpages argv n ls in
  ∃ ls', rtc (turn section_list catman global_apropos subpages argv) ls ls' ∧
    ((ls_first ls' = length argv ∧ run (length argv) = Ret ls') ∨
     (ls_first ls' < length argv ∧ is_ret (arg_step section_list catman global_apropos subpages argv ls') = false ∧
      run (length argv) = arg_step section_list catman global_apropos subpages argv ls')).
Proof. intros Hle run. apply args_loop_run; [lia|done]. Qed.

(** ** Evaluation *)

(** A search that finds the pages of a list, and records what it was asked. *)
Definition listed_pages (pages : list (option cstr * cstr)) : ManActions (list (option cstr * cstr)) := {|
  act_man sec name st := Ret (if bool_decide ((sec, name) ∈ pages) then 0 else 16, 0, st ++ [(sec, name)])%Z;
  act_man_maybe_local sec name st := Ret (if bool_decide ((sec, name) ∈ pages) then 0 else 16, 0, st ++ [(sec, name)])%Z;
  act_global_apropos sec name st := Ret (16, 0, st)%Z;
  act_clear_db_map st := st;
  act_clear_skip st := st;
  act_skip _ := false;
|}.

Definition ask (subpages : bool) (pages : list (option cstr * cstr)) (argv : list cstr) :=
  ls ← @args_loop _ (listed_pages pages) std_sections false false subpages argv (length argv)
         (LoopState 0 None 0%Z [] [] []);
  Ret (ls_exit ls, ls_st ls).

(** [man 9wm fvwm]: a section that is none. *)
Example man_9wm_fvwm :
  ask true [(None, lit "9wm"); (None, lit "fvwm")] [lit "9wm"; lit "fvwm"] =
    Ret (0%Z, [(Some (lit "9wm"), lit "fvwm"); (None, lit "9wm-fvwm"); (None, lit "9wm"); (None, lit "fvwm")]).
Proof. by vm_compute. Qed.

(** [man 3 printf scanf]: the section holds for both. *)
Example man_3_printf_scanf :
  ask false [(Some (lit "3"), lit "printf")] [lit "3"; lit "printf"; lit "scanf"] =
    Ret (16%Z, [(Some (lit "3"), lit "printf"); (Some (lit "3"), lit "scanf")]).
Proof. by vm_compute. Qed.

Lemma args_loop_ends_witness :
  let ls := LoopState 0 None 0%Z [] [] [] in
  let argv := [lit "9wm"; lit "fvwm"] in
  let pages := listed_pages [(None, lit "9wm")] in
  ∃ ls', rtc (@turn _ pages std_sections false false true argv) ls ls' ∧
    ((ls_first ls' = length argv ∧ @args_loop _ pages std_sections false false true argv (length argv) ls = Ret ls') ∨
     (ls_first ls' < length argv ∧ is_ret (@arg_step _ pages std_sections false false true argv ls') = false ∧
      @args_loop _ pages std_sections false false true argv (length argv) ls =
        @arg_step _ pages std_sections false false true argv ls')).
Proof.
  intros ls argv pages. apply (@args_loop_ends _ pages std_sections false false true argv ls). simpl. lia.
Defined.
