(* ===== verification/ManMain.v ===== *)
(** * src/man.c: main, and what the search keeps

    [man_main] joins the loop over the arguments (file [ManLoop]) and the
    search (file [ManSearch]).  The theorems are about the state the search
    leaves: its privileges, its list of candidates and its cache of lookups. *)

From S2P Require Import Prelude CStr StateM Fs Util Compression Filenames Mydbm DbContent Wordfnmatch DbLookup DbGroup DbKeys DbDelete Globbing UltSrc Encodings Manp Manpath CheckMandirs Candidates Security Whatis WhatisIndex ManArgs ManSearch ManLoop.

(** ** main *)

Section main.
Context {db : Type} `{Mydbm db} `{IdPriv} `{FileSystem} `{Dirname} `{PageText} `{Matcher} `{OrderFiles} `{!ManEnv db}.

#[export] Instance man_actions : ManActions (man_state db) := {|
  act_man sec name st := '(r, st) ← man name (set_section sec st); Ret (r.1, r.2, st);
  act_man_maybe_local sec name st := '(r, st) ← man_maybe_local name (set_section sec st); Ret (r.1, r.2, st);
  act_global_apropos sec name st := '(r, st) ← do_global_apropos name (set_section sec st); Ret (r.1, r.2, st);
  act_clear_db_map := set_db_map None;
  act_clear_skip := set_skip false;
  act_skip := ms_skip;
|}.

Section settings.
Context (getenv : string → option cstr) (PROG_PAGER PROG_CAT : cstr).

(** The pager: the option, the environment, the configuration, the default if
    it can be run; an empty one stands for [cat]. *)
Definition choose_pager (pager : option cstr) : outcome cstr :=
  let or_else (a b : option cstr) := match a with Some x => Some x | None => b end in
  pager ←
    match or_else pager (or_else (getenv "MANPAGER") (or_else (getenv "PAGER") (get_def_user conf (lit "pager") None))) with
    | Some pager => Ret pager
    | None =>
      pager_program ← sh_lang_first_word PROG_PAGER;
      ok ← pathsearch_executable env_PATH env_cwd pager_program;
      Ret (if (ok : bool) then PROG_PAGER else [])
    end;
  Ret (if bool_decide (pager = []) then default [] (get_def_user conf (lit "cat") (Some PROG_CAT)) else pager).

(** The search path. *)
Definition man_manpath (manp : option cstr) (alt_system_name : option cstr) : outcome (list cstr) :=
  manp ←
    match manp with
    | Some manp => _ ← get_manpath conf getenv None; Ret manp
    | None =>
      mp ← get_manpath conf getenv alt_system_name;
      pm ← locale_manpath multiple_locale internal_locale mp;
      or_undef "create_pathlist: no path" pm
    end;
  create_pathlist OVERRIDE_DIR env_cwd manp.

(** [man -l]: the status of the last file counts. *)
Fixpoint local_files (argv : list cstr) (exit_status : Z) : man_io db Z :=
  match argv with
  | [] => mret exit_status
  | file :: argv => exit_status ← local_man_loop file; local_files argv exit_status
  end.

(** From the arguments that are left after the options to the exit status and
    what was printed. *)
Definition man_main (subpages print_where : bool) (manp alt_system_name section : option cstr) (argv : list cstr)
    : man_io db (Z * list cstr * list cstr) :=
  if bool_decide (argv = []) then
    if print_where then manp ← lift (get_manpath conf getenv (Some [])); mret (OK, [manp ++ [NL]], [])
    else lift (Fatal "What manual page do you want?")
  else
    manpathlist ← lift (man_manpath manp alt_system_name);
    _ ← modify (set_manpathlist manpathlist);
    s ← get;
    if ms_local s then
      exit_status ← local_files argv OK;
      mret (exit_status, [], [])
    else
      _ ← regain_privs_if true;
      s ← get;
      _ ← (if MAN_DB_UPDATES && mo_update man_opts then
             let '(status, dbs) := run_mandb false None None (ms_dbs s) in modify (set_dbs dbs)
           else mret tt);
      s ← get;
      ls ← lift (args_loop section_list (mo_catman man_opts) (mo_global_apropos man_opts) subpages argv (length argv)
                   (LoopState 0 section OK s [] []));
      _ ← modify (λ _, set_db_map None (ls_st ls));
      _ ← drop_privs_if true;
      mret (ls_exit ls, ls_out ls, ls_err ls).
End settings.
End main.

(** ** Privileges *)

Section privileges.
Context {db : Type} `{Mydbm db} `{IdPriv} `{FileSystem} `{Dirname} `{PageText} `{Matcher} `{OrderFiles} `{!ManEnv db}.
Context (p0 : process).

(** Neither the ids nor the kind of hierarchy change. *)
Definition same_privs (s s' : man_state db) : Prop := ms_sec s' = ms_sec s ∧ ms_global s' = ms_global s.
#[local] Instance same_privs_preorder : PreOrder same_privs.
Proof. split; [by intros s|]. intros s1 s2 s3 [??] [??]. split; congruence. Qed.

(** As many drops are outstanding as before. *)
Definition balanced (s s' : man_state db) : Prop :=
  ∀ n, Security.reachable p0 n (ms_sec s) → Security.reachable p0 n (ms_sec s').
#[local] Instance balanced_preorder : PreOrder balanced.
Proof. split; [by intros s n|]. intros s1 s2 s3 ?? n ?. auto. Qed.

Lemma keeps_look_for path sec name cat o : keeps same_privs (look_for path sec name cat o).
Proof. unfold look_for. keeps_state; done. Qed.
Lemma keeps_ult_src_of name path flags : keeps same_privs (ult_src_of name path flags).
Proof. unfold ult_src_of. keeps_state; done. Qed.
Lemma keeps_add from_db cat req path ult source : keeps same_privs (add from_db cat req path ult source).
Proof. unfold add. keeps_state; done. Qed.
#[local] Hint Resolve keeps_look_for keeps_ult_src_of keeps_add : state_keeps.

Lemma keeps_add_files path name cat names : keeps same_privs (add_files path name cat names).
Proof. induction names as [|n names IH]; cbn [add_files]; keeps_state. Qed.
#[local] Hint Resolve keeps_add_files : state_keeps.

Lemma keeps_try_section path sec name : keeps same_privs (try_section path sec name).
Proof. unfold try_section. keeps_state. Qed.

Lemma keeps_maybe_update manpath name info : keeps same_privs (maybe_update_file manpath name info).
Proof. unfold maybe_update_file. keeps_state; done. Qed.
#[local] Hint Resolve keeps_maybe_update : state_keeps.

Lemma keeps_update_stale manpath sec name matches : keeps same_privs (update_stale manpath sec name matches).
Proof. induction matches as [|loc matches IH]; cbn [update_stale]; keeps_state. Qed.
Lemma keeps_add_matches manpath sec name matches : keeps same_privs (add_matches manpath sec name matches).
Proof. induction matches as [|loc matches IH]; cbn [add_matches]; keeps_state. Qed.
Lemma keeps_find_matches manpath name : keeps same_privs (find_matches manpath name).
Proof. unfold find_matches. keeps_state; done. Qed.
#[local] Hint Resolve keeps_update_stale keeps_add_matches keeps_find_matches : state_keeps.

Lemma keeps_try_db manpath sec name : keeps same_privs (try_db manpath sec name).
Proof. unfold try_db. keeps_state; done. Qed.
#[local] Hint Resolve keeps_try_section keeps_try_db : state_keeps.

Lemma drop_if_reachable b (s s' : man_state db) n :
  drop_privs_if b s = Ret (tt, s') → Security.reachable p0 n (ms_sec s) →
  Security.reachable p0 (if b then S n else n) (ms_sec s') ∧ ms_global s' = ms_global s.
Proof.
  destruct b; [|by intros [= <-]]. unfold drop_privs_if. intros Hd Hr.
  run_inv Hd s1 s2 Hg. injection Hg as <- <-. run_inv Hd sec s3 Hl.
  unfold lift in Hl. apply bind_Ret_inv in Hl as (x & Hx & Hl). simplify_eq. injection Hd as <-.
  split; [by eapply reach_drop|done].
Qed.

Lemma regain_if_reachable b (s s' : man_state db) n :
  regain_privs_if b s = Ret (tt, s') → Security.reachable p0 (if b then S n else n) (ms_sec s) →
  Security.reachable p0 n (ms_sec s').
Proof.
  destruct b; [|by intros [= <-]]. unfold regain_privs_if. intros Hd Hr.
  run_inv Hd s1 s2 Hg. injection Hg as <- <-. run_inv Hd sec s3 Hl.
  unfold lift in Hl. apply bind_Ret_inv in Hl as (x & Hx & Hl). simplify_eq. injection Hd as <-.
  eapply reach_regain in Hr; [|done]. simpl in Hr. by rewrite Nat.sub_0_r in Hr.
Qed.

Lemma locate_page_balanced manpath sec name : keeps balanced (locate_page manpath sec name).
Proof.
  intros s a s' Hl n Hr. unfold locate_page in Hl. set (g := is_global_mandir conf manpath) in *.
  run_inv Hl u s1 E1. injection E1 as <- <-. run_inv Hl u s2 E2. destruct u.
  apply (drop_if_reachable _ _ _ n) in E2 as [Hr2 Hg2]; [|done].
  run_inv Hl found s3 E3. apply keeps_try_section in E3 as [Hs3 Hg3].
  run_inv Hl found' s4 E4.
  assert (same_privs s3 s4) as [Hs4 Hg4].
  { refine ((_ : keeps same_privs _) _ _ _ E4). keeps_state. }
  run_inv Hl st s5 E5. injection E5 as <- <-. run_inv Hl u s6 E6. destruct u. injection Hl as <- <-.
  eapply regain_if_reachable; [done|]. rewrite Hg4, Hg3, Hg2, Hs4, Hs3. done.
Qed.

Lemma locate_in_manpaths_balanced sec name manpaths found : keeps balanced (locate_in_manpaths sec name manpaths found).
Proof.
  revert found. induction manpaths as [|mp mps IH]; intros found; cbn [locate_in_manpaths]; keeps_state.
  apply locate_page_balanced.
Qed.

Lemma locate_in_sections_balanced name secs found : keeps balanced (locate_in_sections name secs found).
Proof.
  revert found. induction secs as [|sec secs IH]; intros found; cbn [locate_in_sections]; [keeps_state|].
  unfold locate_page_in_manpath. keeps_state. apply locate_in_manpaths_balanced.
Qed.

Lemma locate_candidates_balanced name : keeps balanced (locate_candidates name).
Proof.
  unfold locate_candidates, locate_page_in_manpath.
  keeps_state; apply locate_in_manpaths_balanced || apply locate_in_sections_balanced.
Qed.
End privileges.

(** The search for a page ends with as many drops of privileges
    outstanding as it began with, and so with the same ids: what was dropped
    for the user's own hierarchies is regained. *)
Theorem search_privileges {db} `{Mydbm db} `{IdPriv} `{!IdPrivLaws} `{FileSystem} `{Dirname} `{PageText} `{Matcher}
    `{OrderFiles} `{!ManEnv db} p0 n name (s s' : man_state db) found :
  setuid_process p0 → Security.reachable p0 n (ms_sec s) → locate_candidates name s = Ret (found, s') →
  Security.reachable p0 n (ms_sec s') ∧ proc (ms_sec s') = proc (ms_sec s).
Proof.
  intros Hp Hr Hl. assert (Security.reachable p0 n (ms_sec s')) as Hr' by by eapply locate_candidates_balanced.
  split; [done|]. by eapply reachable_proc.
Qed.

(** A local file that does not exist is reported as not found, but the
    privileges dropped for it are not regained and the mark of a local file
    stays, although other arguments may follow. *)
Theorem local_man_missing {db} `{Mydbm db} `{IdPriv} `{FileSystem} `{Dirname} `{PageText} `{Matcher}
    `{OrderFiles} `{!ManEnv db} p0 n argv (s s' : man_state db) status :
  fs_stat argv = None → argv ≠ lit "-" → Security.reachable p0 n (ms_sec s) →
  local_man_loop argv s = Ret (status, s') →
  status = NOT_FOUND ∧ ms_local s' = true ∧ Security.reachable p0 (S n) (ms_sec s').
Proof.
  intros Hst Hne Hr Hl. unfold local_man_loop in Hl.
  run_inv Hl s0 s1 E1. injection E1 as <- <-. run_inv Hl u s2 E2. destruct u.
  apply (drop_if_reachable p0 _ _ _ n) in E2 as [Hr2 _]; [|done].
  run_inv Hl u s3 E3. injection E3 as <- <-.
  destruct (STREQ argv (lit "-")) eqn:E; [by apply STREQ_true in E|].
  rewrite Hst in Hl. injection Hl as <- <-. done.
Qed.

(** ** What is remembered of lookups *)

Lemma find_matches_remembered {db} `{Mydbm db} `{Matcher} `{!ManEnv db} manpath name (s s' : man_state db) matches :
  find_matches manpath name s = Ret (inr matches, s') →
  ∀ name', find_matches manpath name' s' = Ret (inr matches, s').
Proof.
  intros Hf name'. unfold find_matches in *. run_inv Hf s0 s1 E1. injection E1 as <- <-.
  run_inv Hf u s2 E2. injection E2 as <- <-. set (map := default ∅ (ms_db_map s)) in *.
  destruct (map !! manpath) as [ms|] eqn:E.
  - injection Hf as <- <-. unfold mbind, stateM_bind, get. simpl. by rewrite E.
  - set (o := match ms_dbs s (database_of manpath (ms_global s)) with Some _ => _ | None => _ end) in *.
    destruct o as [dbf|].
    + run_inv Hf ms s3 E3. run_inv Hf u s4 E4. injection E4 as <- <-. injection Hf as <- <-.
      unfold lift in E3. apply bind_Ret_inv in E3 as (x & _ & E3). injection E3 as -> <-.
      unfold mbind, stateM_bind, get. simpl. by rewrite lookup_insert_eq.
    + destruct (MAN_DB_CREATES && negb (ms_global s)).
      * destruct (run_mandb true (Some manpath) None (ms_dbs s)) as [status dbs].
        run_inv Hf u s3 E3. destruct (negb _); [run_inv Hf u' s4 E4|]; by injection Hf.
      * run_inv Hf u s3 E3. by injection Hf.
Qed.

(** Once a hierarchy's index has been looked at, [try_db] answers every
    later request from what it found then, although the name is another one
    (the name without its section, or one with a hyphen for a blank): the
    index is not read again until the cache is cleared for the next
    argument. *)
Theorem try_db_stale {db} `{Mydbm db} `{FileSystem} `{Dirname} `{PageText} `{Matcher} `{!ManEnv db}
    manpath sec name (s s' : man_state db) :
  find_matches manpath name s = Ret (inr (Some []), s') →
  ∀ name', try_db manpath sec name' s' = Ret (0%Z, s').
Proof.
  intros Hf name'. unfold try_db. unfold mbind at 1, stateM_bind at 1.
  rewrite (find_matches_remembered _ _ _ _ _ Hf name'). simpl. by destruct MAN_DB_UPDATES.
Qed.

(** ** Candidates *)

Section candidates.
Context {db : Type} `{Mydbm db} `{IdPriv} `{FileSystem} `{Dirname} `{PageText} `{Matcher} `{OrderFiles} `{!ManEnv db}.
Context (names : list cstr).

Definition cands_ok (l : list candidate) : Prop := no_duplicates l ∧ Forall (λ c, cd_req_name c ∈ names) l.
Definition keeps_cands (s s' : man_state db) : Prop := cands_ok (cs_list (ms_cs s)) → cands_ok (cs_list (ms_cs s')).
#[local] Instance keeps_cands_preorder : PreOrder keeps_cands.
Proof. unfold keeps_cands. split; [by intros s|]. intros s1 s2 s3; auto. Qed.

Lemma insert_cands sec (c : candidate) cs idx cache b cs' :
  cd_req_name c ∈ names → cands_ok (cs_list cs) →
  (let '(added, l) := insert_candidate OVERRIDE_DIR sec section_list (default [] internal_locale) c (cs_list cs) in
   Ret (added, CandState l idx cache)) = Ret (b, cs') →
  cands_ok (cs_list cs').
Proof.
  intros Hc [Hl Hn] Hi.
  pose proof (insert_candidate_spec OVERRIDE_DIR sec section_list (default [] internal_locale) c _ Hl) as Hs.
  destruct (insert_candidate _ _ _ _ c (cs_list cs)) as [added l']. destruct Hs as (? & _ & _ & _ & Hel).
  injection Hi as <- <-. split; [done|]. apply Forall_forall. intros x Hx.
  destruct (Hel x Hx) as [->|Hin]; [done|]. rewrite Forall_forall in Hn. auto.
Qed.

Lemma keeps_cands_add from_db cat req path ult source :
  req ∈ names → keeps keeps_cands (add from_db cat req path ult source).
Proof.
  intros Hreq s b s' Ha Hok. unfold add in Ha. run_inv Ha s0 s1 E1. injection E1 as <- <-.
  run_inv Ha r s2 E2. destruct r as [added cs]. run_inv Ha u s3 E3. injection E3 as <- <-. injection Ha as <- <-.
  unfold lift in E2. apply bind_Ret_inv in E2 as (x & Hx & E2). injection E2 as -> <-. simpl.
  unfold add_candidate in Hx. destruct ult as [u'|].
  - eapply insert_cands; [|exact Hok|exact Hx]. done.
  - apply bind_Ret_inv in Hx as (n & _ & Hx). apply bind_Ret_inv in Hx as (file & _ & Hx).
    destruct file as [file|]; [|by injection Hx as <- <-].
    apply bind_Ret_inv in Hx as ([v cache] & _ & Hx). eapply insert_cands; [|exact Hok|exact Hx]. done.
Qed.

Lemma keeps_cands_look_for path sec name cat o : keeps keeps_cands (look_for path sec name cat o).
Proof. unfold look_for. keeps_state; by intros ?. Qed.
Lemma keeps_cands_ult_src_of name path flags : keeps keeps_cands (ult_src_of name path flags).
Proof.
  intros s b s' Hu Hok. unfold ult_src_of in Hu. run_inv Hu s0 s1 E1. injection E1 as <- <-.
  run_inv Hu r s2 E2. destruct r as [v cache]. run_inv Hu u s3 E3. injection E3 as <- <-. injection Hu as <- <-.
  unfold lift in E2. apply bind_Ret_inv in E2 as (x & _ & E2). by injection E2 as -> <-.
Qed.
#[local] Hint Resolve keeps_cands_look_for keeps_cands_ult_src_of keeps_cands_add : state_keeps.

Lemma keeps_cands_add_files path name cat fs : name ∈ names → keeps keeps_cands (add_files path name cat fs).
Proof. intros Hn. induction fs as [|n fs IH]; cbn [add_files]; keeps_state. Qed.
#[local] Hint Resolve keeps_cands_add_files : state_keeps.
Lemma keeps_cands_try_section path sec name : name ∈ names → keeps keeps_cands (try_section path sec name).
Proof. intros Hn. unfold try_section. keeps_state. Qed.

Lemma keeps_cands_maybe_update manpath name info : keeps keeps_cands (maybe_update_file manpath name info).
Proof. unfold maybe_update_file. keeps_state; by intros ?. Qed.
#[local] Hint Resolve keeps_cands_maybe_update : state_keeps.
Lemma keeps_cands_update_stale manpath sec name matches : keeps keeps_cands (update_stale manpath sec name matches).
Proof. induction matches as [|loc matches IH]; cbn [update_stale]; keeps_state. Qed.
Lemma keeps_cands_add_matches manpath sec name matches :
  name ∈ names → keeps keeps_cands (add_matches manpath sec name matches).
Proof. intros Hn. induction matches as [|loc matches IH]; cbn [add_matches]; keeps_state. Qed.
Lemma keeps_cands_find_matches manpath name : keeps keeps_cands (find_matches manpath name).
Proof. unfold find_matches. keeps_state; by intros ?. Qed.
#[local] Hint Resolve keeps_cands_try_section keeps_cands_update_stale keeps_cands_add_matches keeps_cands_find_matches : state_keeps.
Lemma keeps_cands_try_db manpath sec name : name ∈ names → keeps keeps_cands (try_db manpath sec name).
Proof. intros Hn. unfold try_db. keeps_state; by intros ?. Qed.

Lemma keeps_cands_privs b : keeps keeps_cands (drop_privs_if b) ∧ keeps keeps_cands (regain_privs_if b).
Proof. unfold drop_privs_if, regain_privs_if. split; keeps_state; by intros ?. Qed.
#[local] Hint Resolve keeps_cands_try_db : state_keeps.
#[local] Hint Extern 1 (keeps _ (drop_privs_if _)) => apply keeps_cands_privs : state_keeps.
#[local] Hint Extern 1 (keeps _ (regain_privs_if _)) => apply keeps_cands_privs : state_keeps.

Lemma keeps_cands_locate_page manpath sec name : name ∈ names → keeps keeps_cands (locate_page manpath sec name).
Proof. intros Hn. unfold locate_page. keeps_state; by intros ?. Qed.
#[local] Hint Resolve keeps_cands_locate_page : state_keeps.

Lemma keeps_cands_manpaths sec name mps found :
  name ∈ names → keeps keeps_cands (locate_in_manpaths sec name mps found).
Proof.
  intros Hn. revert found. induction mps as [|mp mps IH]; intros found; cbn [locate_in_manpaths]; keeps_state.
Qed.
#[local] Hint Resolve keeps_cands_manpaths : state_keeps.
Lemma keeps_cands_sections name secs found : name ∈ names → keeps keeps_cands (locate_in_sections name secs found).
Proof.
  intros Hn. revert found. induction secs as [|sec secs IH]; intros found; cbn [locate_in_sections]; [keeps_state|].
  unfold locate_page_in_manpath. keeps_state.
Qed.
#[local] Hint Resolve keeps_cands_sections : state_keeps.

Lemma keeps_cands_locate_candidates name :
  name ∈ names → (split_page_name section_list name).1 ∈ names → keeps keeps_cands (locate_candidates name).
Proof.
  intros Hn Hs. unfold locate_candidates, locate_page_in_manpath.
  destruct (split_page_name section_list name) as [page_name page_section]. simpl in Hs. keeps_state.
Qed.
End candidates.

(** Whatever files and entries the search for a page comes across, in any
    number of hierarchies and sections, the candidates it leaves are free of
    duplicates, and each was asked for under the name given or that name
    without its section. *)
Theorem search_candidates {db} `{Mydbm db} `{IdPriv} `{FileSystem} `{Dirname} `{PageText} `{Matcher} `{OrderFiles}
    `{!ManEnv db} name (s s' : man_state db) found :
  cs_list (ms_cs s) = [] → locate_candidates name s = Ret (found, s') →
  no_duplicates (cs_list (ms_cs s')) ∧
  Forall (λ c, cd_req_name c = name ∨ cd_req_name c = (split_page_name section_list name).1) (cs_list (ms_cs s')).
Proof.
  intros Hs Hl.
  assert (cands_ok [name; (split_page_name section_list name).1] (cs_list (ms_cs s'))) as [Hd Hn].
  { eapply keeps_cands_locate_candidates; [by left|by right; left|exact Hl|]. rewrite Hs. repeat constructor. }
  split; [done|]. eapply Forall_impl; [done|]. intros c Hc. set_solver.
Qed.

(** ** Evaluation *)

(** One hierarchy of the user's, without directories to read, whose index has
    the pages [ls.1] and [dir.1] of file [WhatisIndex]. *)
Definition demo_options : man_options :=
  ManOptions false false false false false false false false false false false None 7.
#[local] Instance demo_env : ManEnv (gmap cstr cstr) := {|
  comp_cfg := all_comp; COMP_CAT := None; MAN_DB := lit "/index.db"; MAN_DB_CREATES := false; MAN_DB_UPDATES := true;
  conf := no_config; dir_layout := LAYOUT_GNU; OVERRIDE_DIR := []; env_PATH := None; env_cwd := None;
  multiple_locale := None; internal_locale := Some (lit "C"); man_opts := demo_options; section_list := std_sections;
  display_page _ _ := (1%Z, false); run_mandb _ _ _ dbs := (0%Z, dbs); can_write _ := true; regcomp_ok _ := true;
|}.
#[local] Instance demo_fs : FileSystem := pages_fs [].
#[local] Instance demo_text : PageText := plain_text.
#[local] Instance demo_order : OrderFiles := {| order_files _ l := l |}.
#[local] Instance demo_matcher : Matcher := literal_matcher.

Definition demo : man_state (gmap cstr cstr) :=
  ManState started ∅ (CandState [] 0 no_cache) None
    (λ f, if STREQ f (lit "/m/index.db") then Some (<[VER_KEY := VER_ID]> two_pages) else None)
    false None [lit "/m"] false false None [].

(** A page of the index is found under its name, but not with its section
    behind a dot: the lookup of [ls.1] is taken for that of [ls]. *)
Example demo_found :
  (fst <$> locate_candidates (lit "ls") demo, fst <$> locate_candidates (lit "ls.1") demo) = (Ret 1%Z, Ret 0%Z).
Proof. by vm_compute. Qed.

Lemma search_privileges_witness :
  match locate_candidates (lit "ls") demo with
  | Ret (n, s') => n = 1%Z ∧ Security.reachable setuid_man 1 (ms_sec s') ∧ proc (ms_sec s') = proc (ms_sec demo)
  | _ => False
  end.
Proof.
  assert (setuid_process setuid_man) as Hp by done.
  assert (Security.reachable setuid_man 1 (ms_sec demo)) as Hr by by apply reach_init.
  assert ((fst <$> locate_candidates (lit "ls") demo) = Ret 1%Z) as Hn by by vm_compute.
  destruct (locate_candidates (lit "ls") demo) as [[n s']| |] eqn:E; [|done..].
  split; [by injection Hn as ->|].
  exact (search_privileges setuid_man 1 (lit "ls") demo s' n Hp Hr E).
Defined.

Lemma local_man_missing_witness :
  let fs : FileSystem := small_fs in
  match @local_man_loop _ _ _ fs _ _ _ _ _ (lit "./foo.1") demo with
  | Ret (status, s') => status = NOT_FOUND ∧ ms_local s' = true ∧ Security.reachable setuid_man 2 (ms_sec s')
  | _ => False
  end.
Proof.
  intros fs. assert (Security.reachable setuid_man 1 (ms_sec demo)) as Hr by by apply reach_init.
  assert ((fst <$> @local_man_loop _ _ _ fs _ _ _ _ _ (lit "./foo.1") demo) = Ret NOT_FOUND) as Hn by by vm_compute.
  destruct (@local_man_loop _ _ _ fs _ _ _ _ _ (lit "./foo.1") demo) as [[status s']| |] eqn:E; [|done..].
  exact (@local_man_missing _ _ _ fs _ _ _ _ _ setuid_man 1 (lit "./foo.1") demo s' status eq_refl ltac:(discriminate) Hr E).
Defined.

Lemma try_db_stale_witness :
  match find_matches (lit "/m") (lit "ls.1") demo with
  | Ret (inr (Some []), s') => try_db (lit "/m") (lit "1") (lit "ls") s' = Ret (0%Z, s')
  | _ => False
  end.
Proof.
  assert ((fst <$> find_matches (lit "/m") (lit "ls.1") demo) = Ret (inr (Some []))) as Hn by by vm_compute.
  destruct (find_matches (lit "/m") (lit "ls.1") demo) as [[r s']| |] eqn:E; [|done..]. injection Hn as ->.
  exact (try_db_stale (lit "/m") (lit "1") (lit "ls.1") demo s' E (lit "ls")).
Defined.

Lemma search_candidates_witness :
  match locate_candidates (lit "ls") demo with
  | Ret (n, s') => n = 1%Z ∧ no_duplicates (cs_list (ms_cs s')) ∧
      Forall (λ c, cd_req_name c = lit "ls" ∨ cd_req_name c = (split_page_name section_list (lit "ls")).1) (cs_list (ms_cs s'))
  | _ => False
  end.
Proof.
  assert ((fst <$> locate_candidates (lit "ls") demo) = Ret 1%Z) as Hn by by vm_compute.
  destruct (locate_candidates (lit "ls") demo) as [[n s']| |] eqn:E; [|done..].
  split; [by injection Hn as ->|]. exact (search_candidates (lit "ls") demo s' n eq_refl E).
Defined.

(** A page in the user's hierarchy that is a link into a hierarchy of the
    system, whose cat pages are under [/var/cat]. *)
Definition linked_fs : FileSystem := {|
  fs_stat p := if STREQ p (lit "/h/man/man1/a.1") then Some (Stat S_IFREG 10 1 1 (Timespec 5 0)) else None;
  fs_lstat p := Some (Stat S_IFLNK 10 1 1 (Timespec 5 0));
  fs_readdir _ := None; fs_access_R _ := true; fs_access_F _ := true; fs_glob _ := None;
  fs_canonicalize p := if STREQ p (lit "/h/man/man1/a.1") then Some (lit "/usr/man/man1/a.1") else Some p;
|}.
Definition system_env : ManEnv (gmap cstr cstr) := {|
  comp_cfg := all_comp; COMP_CAT := None; MAN_DB := lit "/index.db"; MAN_DB_CREATES := false; MAN_DB_UPDATES := true;
  conf := Config [Item (lit "/usr/man") (lit "/var/cat") MANDB_MAP] false 80 80 0;
  dir_layout := LAYOUT_GNU; OVERRIDE_DIR := []; env_PATH := None; env_cwd := None;
  multiple_locale := None; internal_locale := Some (lit "C"); man_opts := demo_options; section_list := std_sections;
  display_page _ _ := (1%Z, false); run_mandb _ _ _ dbs := (0%Z, dbs); can_write _ := true; regcomp_ok _ := true;
|}.
Definition linked_page : candidate :=
  Candidate (lit "a") false false (lit "/h/man") (Some (lit "/usr/man/man1/a.1"))
    (Mandata (Some (lit "a")) (lit "1") (lit "1") SO_MAN None None None None (Timespec 5 0)) 0.

(** Displaying a page of a user's hierarchy that comes down to a file of a
    system hierarchy leaves one drop of privileges too many: the search for
    the cat file overwrites the variable by which [display_pages] decides
    whether to regain them. *)
Theorem display_pages_unbalanced :
  match @display_pages _ _ _ linked_fs _ _ system_env [linked_page] 0 demo with
  | Ret (found, s') => found = 1%Z ∧ priv_drop_count (ms_sec demo) = 1%Z ∧ priv_drop_count (ms_sec s') = 2%Z ∧
      map rq_cat_file (ms_shown s') = [Some (lit "/var/cat/cat1/a.1")]
  | _ => False
  end.
Proof. by vm_compute. Qed.
