(* ===== verification/ManOpts.v ===== *)
(** * src/man.c: the options

    The static variables of man.c that options set, as a store indexed by the
    name of the variable; [parse_opt]; and the commands man starts in place of
    itself or to keep the index up to date. *)

From S2P Require Import Prelude CStr Encodings UltSrc Pipe.

Inductive flag_var :=
| debug_level | local_man_file | findall | update | catman | troff | global_apropos | print_where | print_where_cat
| ascii_out | match_case | regex_opt | wildcard | names_only | no_hyphenation | no_justification | ditroff | htmlout
| subpages | apropos | whatis.
Inductive string_var :=
| user_config_file | roff_device | want_encoding | extension | pager | locale | alt_system_name | external | preprocessors
| colon_sep_section_list | manp | gxditview | html_pager | recode | prompt_string.
#[export] Instance flag_var_eq_dec : EqDecision flag_var.
Proof. solve_decision. Defined.
#[export] Instance string_var_eq_dec : EqDecision string_var.
Proof. solve_decision. Defined.

Record options := Options {
  opt_flag : flag_var → bool;
  opt_str : string_var → option cstr;
  opt_warnings : list cstr;   (* [roff_warnings] *)
  opt_ult_flags : Z;          (* [ult_flags] *)
}.

Definition set_flag (v : flag_var) (b : bool) (o : options) : options :=
  Options (λ w, if decide (w = v) then b else opt_flag o w) (opt_str o) (opt_warnings o) (opt_ult_flags o).
Definition set_str (v : string_var) (s : option cstr) (o : options) : options :=
  Options (opt_flag o) (λ w, if decide (w = v) then s else opt_str o w) (opt_warnings o) (opt_ult_flags o).
Definition add_warnings (l : list cstr) (o : options) : options := Options (opt_flag o) (opt_str o) (opt_warnings o ++ l) (opt_ult_flags o).
Definition clear_flags (mask : Z) (o : options) : options :=
  Options (opt_flag o) (opt_str o) (opt_warnings o) (Z.land (opt_ult_flags o) (Z.lnot mask)).

(** What 'D' sets: in both lists every variable becomes false, or null. *)
Definition D_flags : list flag_var :=
  [local_man_file; findall; update; catman; debug_level; troff; global_apropos; print_where; print_where_cat; ascii_out; match_case;
   regex_opt; wildcard; names_only; no_hyphenation; no_justification; ditroff; htmlout].
Definition D_strs : list string_var :=
  [gxditview; roff_device; want_encoding; extension; pager; locale; alt_system_name; external; preprocessors;
   colon_sep_section_list; manp].

Inductive opt_key :=
| Short (c : ascii) | OPT_WARNINGS | OPT_REGEX | OPT_WILDCARD | OPT_NAMES | OPT_NO_HYPHENATION | OPT_NO_JUSTIFICATION
| OPT_NO_SUBPAGES | ARGP_KEY_SUCCESS | Other_key.
#[export] Instance opt_key_eq_dec : EqDecision opt_key.
Proof. solve_decision. Defined.

Definition default_roff_warnings : cstr := lit "mac".
Definition WHATIS : cstr := lit "whatis".
Definition APROPOS : cstr := lit "apropos".

Section options.
Context (HEIRLOOM_NROFF : bool) (BROWSER : option cstr) (PROG_BROWSER : cstr).

Definition init_html_pager (o : options) : options :=
  set_str html_pager (Some (match BROWSER with Some b => b | None => PROG_BROWSER end)) o.

(** The values the variables start with, and what [main] sets first. *)
Definition initial_options : options :=
  init_html_pager (Options (λ v, bool_decide (v = subpages)) (λ _, None) [] (Z.lor SO_LINK (Z.lor SOFT_LINK HARD_LINK))).

Definition count_true (l : list bool) : nat := length (filter (λ b, b = true) l).

(** The check of the options when all were read. *)
Definition options_compatible (o : options) : bool :=
  bool_decide (count_true [opt_flag o troff; opt_flag o whatis; opt_flag o apropos; opt_flag o catman; opt_flag o print_where || opt_flag o print_where_cat] ≤ 1)
  && bool_decide (count_true [opt_flag o regex_opt; opt_flag o wildcard] ≤ 1).

(** [None] for an option that is not known. *)
Definition parse_opt (key : opt_key) (arg : option cstr) (o : options) : outcome (option options) :=
  let ret o := Ret (Some o) in
  let on v := ret (set_flag v true o) in
  let to v := ret (set_str v arg o) in
  match key with
  | Short "C" => to user_config_file
  | Short "d" => on debug_level
  | Short "D" =>
    let o := foldr (λ v, set_flag v false) o D_flags in
    let o := init_html_pager (foldr (λ v, set_str v None) o D_strs) in
    ret o
  | OPT_WARNINGS => ret (add_warnings (strtok (λ c, bool_decide (c = ","%char)) (default default_roff_warnings arg)) o)
  | Short "f" => ret (set_flag whatis true (set_str external (Some WHATIS) o))
  | Short "k" => ret (set_flag apropos true (set_str external (Some APROPOS) o))
  | Short "K" => on global_apropos
  | Short "w" => on print_where
  | Short "W" => on print_where_cat
  | Short "l" => on local_man_file
  | Short "c" => on catman
  | Short "R" => ret (clear_flags SO_LINK (set_str recode arg o))
  | Short "L" => to locale
  | Short "m" => to alt_system_name
  | Short "M" => to manp
  | Short "S" | Short "s" =>
    a ← or_undef "parse_opt: null argument" arg;
    ret (if bool_decide (a = []) then o else set_str colon_sep_section_list (Some a) o)
  | Short "e" => to extension
  | Short "i" => ret (set_flag match_case false o)
  | Short "I" => on match_case
  | OPT_REGEX => ret (set_flag findall true (set_flag regex_opt true o))
  | OPT_WILDCARD => ret (set_flag findall true (set_flag wildcard true o))
  | OPT_NAMES => on names_only
  | Short "a" => on findall
  | Short "u" => on update
  | OPT_NO_SUBPAGES => ret (set_flag subpages false o)
  | Short "P" => to pager
  | Short "r" => to prompt_string
  | Short "7" => on ascii_out
  | Short "E" =>
    a ← or_undef "is_roff_device: null argument" arg;
    let o := set_str want_encoding (Some a) o in
    ret (if is_roff_device HEIRLOOM_NROFF a then set_str roff_device (Some a) o else o)
  | OPT_NO_HYPHENATION => on no_hyphenation
  | OPT_NO_JUSTIFICATION => on no_justification
  | Short "p" => to preprocessors
  | Short "t" => on troff
  | Short "T" => ret (set_flag troff true (set_str roff_device (Some (default (lit "ps") arg)) o))
  | Short "H" =>
    let o := match arg with Some a => set_str html_pager (Some a) o | None => o end in
    ret (set_str roff_device (Some (lit "html")) (set_flag troff true (set_flag htmlout true o)))
  | Short "X" => ret (set_str gxditview (Some (default (lit "75") arg)) (set_flag troff true o))
  | Short "Z" => ret (set_flag troff true (set_flag ditroff true o))
  | Short "h" => Fatal "help"
  | ARGP_KEY_SUCCESS => if options_compatible o then ret o else Fatal "incompatible options"
  | _ => Ret None
  end%char.

(** What argp does with the options of a command line; those of [MANOPT] are
    parsed before. *)
Fixpoint parse_opts (keys : list (opt_key * option cstr)) (o : options) : outcome options :=
  match keys with
  | [] => Ret o
  | (k, a) :: keys =>
    r ← parse_opt k a o;
    match r with Some o => parse_opts keys o | None => Fatal "unrecognized option" end
  end.

(** *** Commands *)

(** [do_extern]: the command that is run in place of man. *)
Definition do_extern (o : options) (args : list cstr) : outcome pipecmd :=
  ext ← or_undef "do_extern: no program" (opt_str o external);
  let opt name v cmd := match opt_str o v with Some a => pipecmd_args [name; a] cmd | None => cmd end in
  let flg name v cmd := if opt_flag o v then pipecmd_arg name cmd else cmd in
  let cmd := pipecmd_new ext in
  let cmd := flg (lit "-d") debug_level cmd in
  let cmd := flg (lit "-r") regex_opt cmd in
  let cmd := flg (lit "-w") wildcard cmd in
  let cmd := flg (lit "-l") local_man_file cmd in
  let cmd := opt (lit "-s") colon_sep_section_list cmd in
  let cmd := opt (lit "-m") alt_system_name cmd in
  let cmd := opt (lit "-M") manp cmd in
  let cmd := opt (lit "-L") locale cmd in
  let cmd := opt (lit "-C") user_config_file cmd in
  Ret (pipecmd_args args cmd).

(** The command [run_mandb] runs. *)
Definition run_mandb_command (o : options) (create : bool) (manpath filename : option cstr) : pipeline :=
  let cmd := pipecmd_new (lit "mandb") in
  let cmd := pipecmd_arg (if opt_flag o debug_level then lit "-d" else lit "-q") cmd in
  let cmd := match opt_str o user_config_file with Some f => pipecmd_args [lit "-C"; f] cmd | None => cmd end in
  let cmd :=
    match filename with
    | Some f => pipecmd_args [lit "-f"; f] cmd
    | None => if create then pipecmd_setenv (lit "MAN_MUST_CREATE") (lit "1") (pipecmd_arg (lit "-c") cmd) else pipecmd_arg (lit "-p") cmd
    end in
  let cmd := match manpath with Some m => pipecmd_arg m cmd | None => cmd end in
  pipeline_command cmd pipeline_new.
End options.

(** ** What holds of the variables *)

Lemma opt_flag_set v b o w : opt_flag (set_flag v b o) w = if decide (w = v) then b else opt_flag o w.
Proof. done. Qed.
Lemma opt_str_set v s o w : opt_str (set_str v s o) w = if decide (w = v) then s else opt_str o w.
Proof. done. Qed.

Lemma clear_all_flags l o :
  (∀ v, opt_flag (foldr (λ v, set_flag v false) o l) v = if decide (v ∈ l) then false else opt_flag o v) ∧
  opt_str (foldr (λ v, set_flag v false) o l) = opt_str o ∧ opt_warnings (foldr (λ v, set_flag v false) o l) = opt_warnings o ∧
  opt_ult_flags (foldr (λ v, set_flag v false) o l) = opt_ult_flags o.
Proof.
  induction l as [|x l (IH & IHs & IHw & IHu)]; cbn [foldr]; [split_and!; try done; intros v; by rewrite decide_False by set_solver|].
  split_and!; [|done..]. intros v. rewrite opt_flag_set, IH. destruct (decide (v = x)) as [->|Hne].
  - by rewrite decide_True by (by left).
  - destruct (decide (v ∈ l)); [by rewrite decide_True by (by right)|by rewrite decide_False by set_solver].
Qed.
Lemma clear_all_strs l o :
  (∀ v, opt_str (foldr (λ v, set_str v None) o l) v = if decide (v ∈ l) then None else opt_str o v) ∧
  opt_flag (foldr (λ v, set_str v None) o l) = opt_flag o ∧ opt_warnings (foldr (λ v, set_str v None) o l) = opt_warnings o ∧
  opt_ult_flags (foldr (λ v, set_str v None) o l) = opt_ult_flags o.
Proof.
  induction l as [|x l (IH & IHs & IHw & IHu)]; cbn [foldr]; [split_and!; try done; intros v; by rewrite decide_False by set_solver|].
  split_and!; [|done..]. intros v. rewrite opt_str_set, IH. destruct (decide (v = x)) as [->|Hne].
  - by rewrite decide_True by (by left).
  - destruct (decide (v ∈ l)); [by rewrite decide_True by (by right)|by rewrite decide_False by set_solver].
Qed.

Section theorems.
Context (HEIRLOOM_NROFF : bool) (BROWSER : option cstr) (PROG_BROWSER : cstr).
Abbreviation initial := (initial_options BROWSER PROG_BROWSER).
Abbreviation parse := (parse_opt HEIRLOOM_NROFF BROWSER PROG_BROWSER).

(** What [-D] does not reset. *)
Definition kept_flags : list flag_var := [subpages; apropos; whatis].
Definition kept_strs : list string_var := [user_config_file; recode; prompt_string].

Lemma parse_D arg o : ∃ o', parse (Short "D") arg o = Ret (Some o') ∧
  (∀ v, opt_flag o' v = if decide (v ∈ kept_flags) then opt_flag o v else opt_flag initial v) ∧
  (∀ v, opt_str o' v = if decide (v ∈ kept_strs) then opt_str o v else opt_str initial v) ∧
  opt_warnings o' = opt_warnings o ∧ opt_ult_flags o' = opt_ult_flags o.
Proof.
  eexists. split; [reflexivity|]. unfold init_html_pager.
  destruct (clear_all_flags D_flags o) as (Hf & Hfs & Hfw & Hfu).
  set (o1 := foldr _ o D_flags) in *. clearbody o1.
  destruct (clear_all_strs D_strs o1) as (Hs & Hsf & Hsw & Hsu). set (o2 := foldr _ o1 D_strs) in *. clearbody o2.
  split_and!; [| |by rewrite <-Hfw, <-Hsw|by rewrite <-Hfu, <-Hsu].
  - intros v. change (opt_flag (set_str html_pager _ o2) v) with (opt_flag o2 v). rewrite Hsf, Hf. by destruct v.
  - intros v. rewrite opt_str_set, Hs, Hfs. by destruct v.
Qed.

(** [-D] gives every variable the value it started with, whatever options
    came before, except --no-subpages, --recode (with its effect on following
    .so requests), --prompt, --config-file, --warnings and the memory that -f
    or -k was seen. *)
Theorem default_option_resets keys arg o :
  parse_opts HEIRLOOM_NROFF BROWSER PROG_BROWSER keys initial = Ret o →
  ∃ o', parse_opts HEIRLOOM_NROFF BROWSER PROG_BROWSER (keys ++ [(Short "D", arg)]) initial = Ret o' ∧
    (∀ v, opt_flag o' v = if decide (v ∈ kept_flags) then opt_flag o v else opt_flag initial v) ∧
    (∀ v, opt_str o' v = if decide (v ∈ kept_strs) then opt_str o v else opt_str initial v) ∧
    opt_warnings o' = opt_warnings o ∧ opt_ult_flags o' = opt_ult_flags o.
Proof.
  generalize initial at 1 2 as s. induction keys as [|[k a] keys IH]; intros s Hp.
  - injection Hp as ->. destruct (parse_D arg o) as (o' & HD & Ho). exists o'. split; [|done].
    cbn [app parse_opts]. by rewrite HD.
  - cbn [app parse_opts] in *. apply bind_Ret_inv in Hp as (r & Hr & Hp). rewrite Hr, bind_Ret. destruct r as [s'|]; [|done]. by apply IH.
Qed.

(** What the rest of man relies on. *)
Record options_ok (o : options) : Prop := OptionsOk {
  ok_troff : opt_flag o htmlout || opt_flag o ditroff || bool_decide (is_Some (opt_str o gxditview)) = true → opt_flag o troff = true;
  ok_findall : opt_flag o regex_opt || opt_flag o wildcard = true → opt_flag o findall = true;
  ok_recode : is_Some (opt_str o recode) → Z.land (opt_ult_flags o) SO_LINK = 0%Z;
  ok_device : ∀ e, opt_str o want_encoding = Some e → is_roff_device HEIRLOOM_NROFF e = true → is_Some (opt_str o roff_device);
  ok_html : is_Some (opt_str o html_pager);
  ok_external : ∀ e, opt_str o external = Some e →
    e = WHATIS ∧ opt_flag o whatis = true ∨ e = APROPOS ∧ opt_flag o apropos = true;
}.

Lemma land_cleared x : Z.land (Z.land x (Z.lnot SO_LINK)) SO_LINK = 0%Z.
Proof. rewrite <-Z.land_assoc. change (Z.land (Z.lnot SO_LINK) SO_LINK) with 0%Z. apply Z.land_0_r. Qed.

Lemma initial_ok : options_ok initial.
Proof. split; [done|done|by intros []|done|by eexists|done]. Qed.

(** Look the variables up in a state that was just written. *)
Ltac var_simpl :=
  repeat match goal with
  | |- context [if decide (?a = ?b) then ?x else ?y] => first [rewrite (decide_True (P := a = b) x y) by done|rewrite (decide_False (P := a = b) x y) by done]
  end.
Ltac solve_ok := split; cbn [set_flag set_str add_warnings clear_flags opt_flag opt_str opt_ult_flags]; var_simpl; try done; eauto;
  try (intros _; apply land_cleared); try (intros ? [= <-]; auto; congruence).

Lemma parse_opt_ok k a o o' : options_ok o → parse k a o = Ret (Some o') → options_ok o'.
Proof.
  intros Hok Hp. destruct (decide (k = Short "D")) as [->|Hk].
  { destruct (parse_D a o) as (o'' & HD & Hf & Hs & _ & Hu). rewrite HD in Hp. injection Hp as <-.
    split; rewrite ?Hu, ?Hf, ?Hs; [done|done|apply Hok|done|by eexists|done]. }
  destruct Hok as [H1 H2 H3 H4 H5 H6].
  destruct k as [c| | | | | | | | |]; cbn [parse_opt] in Hp; try (injection Hp as <-; solve_ok).
  - destruct c as [b0 b1 b2 b3 b4 b5 b6 b7]. destruct b0, b1, b2, b3, b4, b5, b6, b7; try discriminate Hp; try done;
      try (injection Hp as <-; solve [solve_ok|destruct a; solve_ok]);
      (destruct a as [a|]; [|discriminate Hp]; injection Hp as <-; case_match; solve_ok).
  - by destruct (options_compatible o); [injection Hp as <-|].
  - discriminate Hp.
Qed.

Lemma parse_opts_ok keys o o' : options_ok o → parse_opts HEIRLOOM_NROFF BROWSER PROG_BROWSER keys o = Ret o' → options_ok o'.
Proof.
  revert o. induction keys as [|[k a] keys IH]; intros o Ho Hp; [by injection Hp as <-|].
  cbn [parse_opts] in Hp. apply bind_Ret_inv in Hp as ([o1|] & Hr & Hp); [|done]. eauto using parse_opt_ok.
Qed.

Lemma parse_opts_app keys1 keys2 o :
  parse_opts HEIRLOOM_NROFF BROWSER PROG_BROWSER (keys1 ++ keys2) o =
    (o ← parse_opts HEIRLOOM_NROFF BROWSER PROG_BROWSER keys1 o; parse_opts HEIRLOOM_NROFF BROWSER PROG_BROWSER keys2 o).
Proof.
  revert o. induction keys1 as [|[k a] keys1 IH]; intros o; [done|]. cbn [app parse_opts].
  destruct (parse k a o) as [[o1|]| |]; cbn; [apply IH|done..].
Qed.

(** C14: whatever options man is given, those that want groff's own output have
    the formatting to it; a search by pattern shows all pages; the source that
    is to be recoded is not followed through .so requests; an output encoding
    that is a device is the device; and, once the options were accepted, a
    whatis or apropos search formats nothing, saves nothing and prints no
    places. *)
Theorem options_invariant keys o :
  parse_opts HEIRLOOM_NROFF BROWSER PROG_BROWSER (keys ++ [(ARGP_KEY_SUCCESS, None)]) initial = Ret o →
  options_ok o ∧
  (is_Some (opt_str o external) →
    opt_flag o troff = false ∧ opt_flag o catman = false ∧ opt_flag o print_where = false ∧ opt_flag o print_where_cat = false).
Proof.
  intros Hp. pose proof (parse_opts_ok _ _ _ initial_ok Hp) as Hok. split; [done|]. intros [e He].
  rewrite parse_opts_app in Hp. apply bind_Ret_inv in Hp as (o1 & _ & Hp). cbn [parse_opts parse_opt] in Hp.
  destruct (options_compatible o1) eqn:Ec; [|done]. injection Hp as ->.
  unfold options_compatible in Ec. apply andb_true_iff in Ec as [Ec%bool_decide_eq_true _].
  assert (opt_flag o whatis = true ∨ opt_flag o apropos = true) as Hwa by (destruct (ok_external o Hok e He); naive_solver).
  destruct (opt_flag o troff), (opt_flag o whatis), (opt_flag o apropos), (opt_flag o catman), (opt_flag o print_where), (opt_flag o print_where_cat);
    simpl in Ec; (done || exfalso; clear -Ec Hwa; unfold count_true in Ec; simpl in Ec; (lia || by destruct Hwa)).
Qed.
End theorems.

(** ** Evaluation *)

Definition opts_of (keys : list (opt_key * option cstr)) : outcome options :=
  parse_opts false None (lit "exec firefox") keys (initial_options None (lit "exec firefox")).

Lemma default_option_resets_witness :
  let keys := [(Short "k", None); (Short "R", Some (lit "UTF-8")); (Short "t", None)]%char in
  match opts_of keys with
  | Ret o =>
    ∃ o', opts_of (keys ++ [(Short "D"%char, None)]) = Ret o' ∧
      (∀ v, opt_flag o' v = if decide (v ∈ kept_flags) then opt_flag o v else opt_flag (initial_options None (lit "exec firefox")) v) ∧
      (∀ v, opt_str o' v = if decide (v ∈ kept_strs) then opt_str o v else opt_str (initial_options None (lit "exec firefox")) v) ∧
      opt_warnings o' = opt_warnings o ∧ opt_ult_flags o' = opt_ult_flags o
  | _ => False
  end.
Proof.
  exact (default_option_resets false None (lit "exec firefox") [(Short "k", None); (Short "R", Some (lit "UTF-8")); (Short "t", None)]%char None _ eq_refl).
Defined.

Lemma options_invariant_witness :
  match opts_of [(Short "k", None); (Short "a", None); (ARGP_KEY_SUCCESS, None)]%char with
  | Ret o => options_ok false o ∧ (is_Some (opt_str o external) →
      opt_flag o troff = false ∧ opt_flag o catman = false ∧ opt_flag o print_where = false ∧ opt_flag o print_where_cat = false)
  | _ => False
  end.
Proof. exact (options_invariant false None (lit "exec firefox") [(Short "k", None); (Short "a", None)]%char _ eq_refl). Defined.

(** An option in [MANOPT] that [-D] forgets to reset. *)
Example apropos_survives_default :
  opts_of [(Short "k", None); (Short "D", None); (Short "t", None); (ARGP_KEY_SUCCESS, None)]%char = Fatal "incompatible options" ∧
  is_ret (opts_of [(Short "D", None); (Short "t", None); (ARGP_KEY_SUCCESS, None)]%char) = true.
Proof. by vm_compute. Qed.

Definition words_of (c : outcome pipecmd) : option (list arg) := match c with Ret c => Some (cmd_args c) | _ => None end.

Example apropos_command :
  words_of (o ← opts_of [(Short "k", None); (Short "s", Some (lit "3:2")); (OPT_WILDCARD, None); (Short "l", None)]%char;
            do_extern o [lit "x*"; lit "y"]) =
  Some (Word ∘ lit <$> ["apropos"; "-w"; "-l"; "-s"; "3:2"; "x*"; "y"]).
Proof. by vm_compute. Qed.
