(* ===== verification/Roff.v ===== *)
(** * src/man.c: the pipeline that formats a page

    [make_roff_command] and what it is made of: the encodings along the
    pipeline, the preprocessors, the formatter and its arguments.  Built with
    groff ([TROFF_IS_GROFF], [NROFF_WARNINGS], [HAS_TROFF]). *)

From S2P Require Import Prelude CStr StateM Util Encodings Manconv Manp Pipe Decompress ManconvClient ManOpts.

(** ** Definitions *)

(** The static variables formatting changes, with the environment, the locale
    of [LC_CTYPE], and what [get_groff_preconv] and [get_line_length] remember. *)
Record fmt_state := FmtState {
  fs_roff_device : option cstr;
  fs_save_cat : bool;
  fs_lang : option cstr;
  fs_env : gmap cstr cstr;
  fs_ctype : cstr;
  fs_groff_preconv : option cstr;
  fs_line_length : Z;
}.

Definition set_roff_device x s := FmtState x (fs_save_cat s) (fs_lang s) (fs_env s) (fs_ctype s) (fs_groff_preconv s) (fs_line_length s).
Definition set_save_cat x s := FmtState (fs_roff_device s) x (fs_lang s) (fs_env s) (fs_ctype s) (fs_groff_preconv s) (fs_line_length s).
Definition set_env x s := FmtState (fs_roff_device s) (fs_save_cat s) (fs_lang s) x (fs_ctype s) (fs_groff_preconv s) (fs_line_length s).
Definition set_ctype x s := FmtState (fs_roff_device s) (fs_save_cat s) (fs_lang s) (fs_env s) x (fs_groff_preconv s) (fs_line_length s).
Definition set_groff_preconv x s := FmtState (fs_roff_device s) (fs_save_cat s) (fs_lang s) (fs_env s) (fs_ctype s) x (fs_line_length s).
Definition set_line_length x s := FmtState (fs_roff_device s) (fs_save_cat s) (fs_lang s) (fs_env s) (fs_ctype s) (fs_groff_preconv s) x.

Definition fmt : Type → Type := stateM fmt_state.

(** What does not change while pages are formatted. *)
Class FormatEnv := {
  fe_opts : options;
  fe_conf : config_state;
  fe_setuid : bool;                    (* [running_setuid ()] *)
  fe_quiet : Z;
  fe_isatty : bool;                    (* [isatty (STDOUT_FILENO)] *)
  fe_messages : option cstr;           (* the locale of [LC_MESSAGES] *)
  fe_locale : locale_env;
  fe_supported : option (list cstr);   (* the lines of the list of locales *)
  fe_found : cstr → bool;              (* [pathsearch_executable] *)
  fe_access_X : cstr → bool;           (* [CAN_ACCESS (file, X_OK)] *)
  fe_ws_col : option Z;                (* the width of the terminal *)
  fe_manpathlist : list cstr;
  HEIRLOOM_NROFF : bool;
  GNU_NROFF : bool;
  ZSOELIM : cstr;
  PROG_REFER : cstr; PROG_GRAP : cstr; PROG_PIC : cstr; PROG_TBL : cstr; PROG_EQN : cstr; PROG_NEQN : cstr; PROG_VGRIND : cstr;
  PROG_TROFF : cstr; PROG_NROFF : cstr; PROG_COL : cstr;
}.

Definition TFMT_PROG : cstr := lit "mandb_tfmt".
Definition NFMT_PROG : cstr := lit "mandb_nfmt".

Section roff.
Context `{FormatEnv} `{PipelineLib}.
Abbreviation on v := (opt_flag fe_opts v).
Abbreviation opt v := (opt_str fe_opts v).

Definition getenv (name : cstr) : fmt (option cstr) := s ← get; mret (fs_env s !! name).
Definition setenv (name value : cstr) : fmt unit := modify (λ s, set_env (<[name := value]> (fs_env s)) s).

(** The static variable of encodings.c. *)
Definition groff_preconv : fmt (option cstr) :=
  s ← get;
  let '(v, r) := get_groff_preconv fe_found (fs_groff_preconv s) in
  _ ← modify (set_groff_preconv v);
  mret r.

Definition locale_charset : fmt cstr :=
  s ← get;
  let '(charset, ctype) := get_locale_charset fe_locale (fs_ctype s) in
  _ ← modify (set_ctype ctype);
  mret charset.

Definition my_locale_charset : fmt cstr :=
  match opt want_encoding with
  | Some e => if is_roff_device HEIRLOOM_NROFF e then locale_charset else mret e
  | None => locale_charset
  end.

Definition terminal_width : fmt Z :=
  manwidth ← getenv (lit "MANWIDTH");
  columns ← getenv (lit "COLUMNS");
  s ← get;
  n ← lift (get_line_length manwidth columns fe_ws_col (fs_line_length s));
  _ ← modify (set_line_length n);
  mret n.

(** *** The line length *)

Definition get_roff_line_length : fmt Z :=
  line_length ← (if bool_decide (cat_width fe_conf = 0)%Z then terminal_width else mret (cat_width fe_conf));
  if negb (on troff) || on ditroff then
    if bool_decide (line_length = - 2 ^ 31)%Z then lift (Undef "get_roff_line_length: overflow") else mret (line_length - 1)%Z
  else mret 0%Z.

(** The command with its arguments; pages whose width is not that of cat pages
    are not saved. *)
Definition add_roff_line_length (cmd : pipecmd) : fmt pipecmd :=
  _ ← (if on catman then mret tt
       else if negb (bool_decide (cat_width fe_conf = 0)%Z) then mret tt
       else
         line_length ← terminal_width;
         when (negb ((min_cat_width fe_conf <=? line_length)%Z && (line_length <=? max_cat_width fe_conf)%Z)) (modify (set_save_cat false)));
  length ← get_roff_line_length;
  mret (if bool_decide (length = 0)%Z then cmd
        else pipecmd_arg (lit "-rLT=" ++ print_ld length ++ lit "n") (pipecmd_arg (lit "-rLL=" ++ print_ld length ++ lit "n") cmd)).

(** *** Filters *)

Definition add_col (locale_charset : option cstr) (args : list cstr) (p : pipeline) : fmt pipeline :=
  let cmd := sandboxed (pipecmd_args args (pipecmd_new PROG_COL)) in
  match locale_charset with
  | None => mret (pipeline_command cmd p)
  | Some charset =>
    s ← get;
    let '(col_locale, ctype) := find_charset_locale fe_locale fe_supported charset (fs_ctype s) in
    _ ← modify (set_ctype ctype);
    mret (pipeline_command (match col_locale with Some l => pipecmd_setenv (lit "LC_CTYPE") l cmd | None => cmd end) p)
  end.

(** The arguments of [add_filter]; [dev] is [roff_device]. *)
Definition device_args (dev : option cstr) : list cstr :=
  match dev with
  | Some d => [lit "-T" ++ d]
  | None =>
    match opt gxditview with
    | Some g => (lit "-TX" ++ g) :: (if bool_decide (is_Some (strstr g (lit "-12"))) then [lit "-rS12"] else [])
    | None => []
    end
  end.
Definition post_args (dev : option cstr) : list cstr :=
  (if bool_decide (is_Some (opt gxditview)) then [lit "-X"; lit "-Z"] else []) ++
  (if bool_decide (dev = Some (lit "ps")) then [lit "-P-g"] else []).
Definition add_filter (dev : option cstr) (cmd : pipecmd) (wants_dev wants_post : bool) (p : pipeline) : pipeline :=
  let cmd := if wants_dev then pipecmd_args (device_args dev) cmd else cmd in
  let cmd := if wants_post then pipecmd_args (post_args dev) cmd else cmd in
  pipeline_command (pipecmd_pre_exec sandbox_load_permissive cmd) p.

Definition program (name : string) (PROG : cstr) : cstr := default PROG (get_def fe_setuid fe_conf (lit name) (Some PROG)).

(** The preprocessors in the string: those before a blank or a dash. *)
Definition pp_initial (pp_string : cstr) : cstr := take (strcspn (one_of (lit " -")) pp_string) pp_string.
Definition asks (pp : cstr) (c : ascii) : bool := bool_decide (is_Some (strchr pp c)).

Definition add_preprocessors (dev : option cstr) (pp : cstr) (p : pipeline) : pipeline :=
  let filter c cmd wants_dev p := if asks pp c then add_filter dev (pipecmd_new_argstr cmd) wants_dev false p else p in
  let p := filter "r"%char (program "refer" PROG_REFER) false p in
  let p := filter "g"%char (program "grap" PROG_GRAP) false p in
  let p := filter "p"%char (program "pic" PROG_PIC) false p in
  let p := filter "t"%char (program "tbl" PROG_TBL) false p in
  let p := filter "e"%char (if on troff then program "eqn" PROG_EQN else program "neqn" PROG_NEQN) true p in
  filter "v"%char (program "vgrind" PROG_VGRIND) false p.

(** *** make_roff_command *)

Definition find_formatter (dir : option cstr) : option cstr :=
  match dir, opt recode with
  | Some d, None =>
    let fmt_prog := appendstr None [d; lit "/"; if on troff then TFMT_PROG else NFMT_PROG] in
    if fe_access_X fmt_prog then Some fmt_prog else None
  | _, _ => None
  end.

Definition manconv_to (p : pipeline) (from to : cstr) : pipeline := add_manconv fe_quiet fe_setuid p from to.

(** The variables of the pager are set unless the user did. *)
Definition set_charset_vars (charset : option cstr) : fmt unit :=
  lesscharset ← getenv (lit "LESSCHARSET");
  _ ← when (bool_decide (lesscharset = None)) (setenv (lit "LESSCHARSET") (get_less_charset charset));
  jlesscharset ← getenv (lit "JLESSCHARSET");
  when (bool_decide (jlesscharset = None))
    (match get_jless_charset charset with Some j => setenv (lit "JLESSCHARSET") j | None => mret tt end).

(** The device, unless one was selected: that of the locale. *)
Definition choose_device (charset source_encoding : cstr) : fmt unit :=
  s ← get;
  match fs_roff_device s with
  | Some _ => mret tt
  | None =>
    preconv ← groff_preconv;
    modify (set_roff_device (Some (get_default_device HEIRLOOM_NROFF preconv (Some charset) source_encoding)))
  end.

Definition convert_input (p : pipeline) (page_encoding roff_encoding : cstr) : fmt pipeline :=
  preconv ← groff_preconv;
  mret (match opt recode, preconv with
        | Some target, _ => manconv_to p page_encoding target
        | None, Some preconv =>
          pipeline_command (sandboxed (pipecmd_new_args [preconv; lit "-e"; UTF_8])) (manconv_to p page_encoding UTF_8)
        | None, None => manconv_to p page_encoding roff_encoding
        end).

(** The stages before the preprocessors: the pipeline, the encoding of the
    result, the charset of the locale when it was looked up, the decompressor. *)
Definition encoding_stages (dir : option cstr) (decomp : decompress) : fmt (pipeline * cstr * option cstr * decompress) :=
  let p := match opt recode with
           | None => pipeline_command (sandboxed (pipecmd_new_function ZSOELIM (zsoelim_stdin dir fe_manpathlist))) pipeline_new
           | Some _ => pipeline_new
           end in
  let '(line, decomp) := decompress_peekline decomp in
  s ← get;
  let page_encoding :=
    match (check_preprocessor_encoding line None false).1 with
    | Some e => e
    | None => get_page_encoding fe_messages (fs_lang s)
    end in
  let source_encoding := if STREQ page_encoding UTF_8 then get_source_encoding fe_messages (fs_lang s) else page_encoding in
  charset ←
    (if on troff then mret None
     else charset ← my_locale_charset; _ ← choose_device charset source_encoding; mret (Some charset));
  s ← get;
  p ← convert_input p page_encoding (get_roff_encoding HEIRLOOM_NROFF (fs_roff_device s) source_encoding);
  if negb (on troff) && bool_decide (opt recode = None) then
    dev ← lift (or_undef "get_output_encoding: no device" (fs_roff_device s));
    let output_encoding := default source_encoding (get_output_encoding HEIRLOOM_NROFF dev) in
    _ ← set_charset_vars charset;
    mret (p, output_encoding, charset, decomp)
  else mret (p, UTF_8, charset, decomp).

Definition warning_arg (warning : cstr) : cstr :=
  match warning with "!"%char :: w => lit "-W" ++ w | _ => lit "-w" ++ warning end.

Definition roff_stages (pp_string roff_opt : cstr) (charset : option cstr) (p : pipeline) : fmt pipeline :=
  s ← get;
  let dev := fs_roff_device s in
  let pp := pp_initial pp_string in
  let p := add_preprocessors dev pp p in
  let using_tbl := asks pp "t"%char in
  cmd ← (if on troff then _ ← modify (set_save_cat false); mret (pipecmd_new_argstr (program "troff" PROG_TROFF))
         else mret (pipecmd_new_argstr (program "nroff" PROG_NROFF)));
  cmd ← add_roff_line_length (if on troff && on ditroff then pipecmd_arg (lit "-Z") cmd else cmd);
  let cmd := if bool_decide (opt recode = None) && on no_hyphenation then pipecmd_arg (lit "-rHY=0") cmd else cmd in
  let cmd := pipecmd_args (warning_arg <$> opt_warnings fe_opts) cmd in
  let cmd := pipecmd_argstr roff_opt cmd in
  let p := add_filter dev cmd true true p in
  if negb (on troff) && negb (bool_decide (PROG_COL = [])) then
    man_keep_formatting ← getenv (lit "MAN_KEEP_FORMATTING");
    if bool_decide (default [] man_keep_formatting = []) && negb fe_isatty then _ ← setenv (lit "GROFF_NO_SGR") (lit "1"); mret p
    else if negb GNU_NROFF && using_tbl then add_col charset [] p
    else mret p
  else mret p.

(** The pipeline, the encoding of what it writes, and the decompressor. *)
Definition make_roff_command (dir : option cstr) (file : cstr) (decomp : decompress) (pp_string : cstr) : fmt (pipeline * cstr * decompress) :=
  roff_opt ← getenv (lit "MANROFFOPT");
  match find_formatter dir with
  | Some fmt_prog =>
    s ← get;
    let cmd := pipecmd_new_args [fmt_prog; file; pp_string] in
    let cmd := match fs_roff_device s with Some d => pipecmd_arg d cmd | None => cmd end in
    mret (pipeline_command cmd pipeline_new, UTF_8, decomp)
  | None =>
    '(p, result_encoding, charset, decomp) ← encoding_stages dir decomp;
    p ← (match opt recode with
         | Some _ => mret p
         | None => roff_stages pp_string (default [] roff_opt) charset p
         end);
    mret (p, result_encoding, decomp)
  end.
End roff.

(** ** What formatting keeps *)

(** A selected device stays, no cat file is to be saved that was not before,
    and of the environment only GROFF_NO_SGR may be changed. *)
Record fmt_kept (s s' : fmt_state) : Prop := FmtKept {
  kept_device d : fs_roff_device s = Some d → fs_roff_device s' = Some d;
  kept_save : fs_save_cat s' = true → fs_save_cat s = true;
  kept_lang : fs_lang s' = fs_lang s;
  kept_env k v : fs_env s !! k = Some v → k ≠ lit "GROFF_NO_SGR" → fs_env s' !! k = Some v;
}.
#[export] Instance fmt_kept_preorder : PreOrder fmt_kept.
Proof.
  split; [by intros s|]. intros s1 s2 s3 [D1 S1 L1 E1] [D2 S2 L2 E2]. split; [auto|auto|congruence|auto].
Qed.

Ltac kept_state := keeps_state; try by split.

Section kept.
Context `{FormatEnv} `{PipelineLib}.

Lemma getenv_kept k : keeps fmt_kept (getenv k).
Proof. unfold getenv. kept_state. Qed.
Lemma setenv_new k v s u s' : fs_env s !! k = None ∨ k = lit "GROFF_NO_SGR" → setenv k v s = Ret (u, s') → fmt_kept s s'.
Proof.
  intros Hk [= _ <-]. split; [done..|]. intros k' v' Hv Hne. cbn. rewrite lookup_insert_ne; [done|]. intros ->. destruct Hk; congruence.
Qed.
Lemma groff_preconv_kept : keeps fmt_kept groff_preconv.
Proof. unfold groff_preconv. kept_state. Qed.
Lemma locale_charset_kept : keeps fmt_kept locale_charset.
Proof. unfold locale_charset. kept_state. Qed.
Lemma terminal_width_kept : keeps fmt_kept terminal_width.
Proof. unfold terminal_width, getenv. kept_state. Qed.
#[local] Hint Resolve getenv_kept groff_preconv_kept locale_charset_kept terminal_width_kept : state_keeps.

Lemma my_locale_charset_kept : keeps fmt_kept my_locale_charset.
Proof. unfold my_locale_charset. kept_state. Qed.
Lemma get_roff_line_length_kept : keeps fmt_kept get_roff_line_length.
Proof. unfold get_roff_line_length. kept_state. Qed.
#[local] Hint Resolve my_locale_charset_kept get_roff_line_length_kept : state_keeps.
Lemma add_roff_line_length_kept cmd : keeps fmt_kept (add_roff_line_length cmd).
Proof. unfold add_roff_line_length. kept_state. Qed.
Lemma add_col_kept charset args p : keeps fmt_kept (add_col charset args p).
Proof. unfold add_col. kept_state. Qed.
Lemma choose_device_kept charset enc : keeps fmt_kept (choose_device charset enc).
Proof.
  intros s u s' Hr. unfold choose_device in Hr. run_inv Hr s0 s1 Hg. injection Hg as <- <-.
  destruct (fs_roff_device s) as [d|] eqn:Ed; [by injection Hr as _ <-|].
  run_inv Hr preconv s1 Hp. apply groff_preconv_kept in Hp. injection Hr as _ <-.
  destruct Hp as [Hd Hs Hl He]. split; [congruence|done..].
Qed.
Lemma set_charset_vars_kept charset : keeps fmt_kept (set_charset_vars charset).
Proof.
  intros s u s' Hr. unfold set_charset_vars in Hr. run_inv Hr l s1 Hl. injection Hl as <- <-.
  run_inv Hr v s2 Hv. transitivity s2.
  - unfold when in Hv. case_bool_decide; [eapply setenv_new; [by left|done]|by injection Hv as _ <-].
  - run_inv Hr j s3 Hj. injection Hj as <- <-. unfold when in Hr. case_bool_decide; [|by injection Hr as _ <-].
    destruct (get_jless_charset charset); [eapply setenv_new; [by left|done]|by injection Hr as _ <-].
Qed.
Lemma setenv_sgr_kept v : keeps fmt_kept (setenv (lit "GROFF_NO_SGR") v).
Proof. intros s u s' Hr. eapply setenv_new; [by right|done]. Qed.
#[local] Hint Resolve setenv_sgr_kept add_roff_line_length_kept add_col_kept choose_device_kept set_charset_vars_kept : state_keeps.

Lemma encoding_stages_kept dir decomp : keeps fmt_kept (encoding_stages dir decomp).
Proof. unfold encoding_stages, convert_input. destruct (decompress_peekline decomp). kept_state. Qed.
Lemma roff_stages_kept pp opt charset p : keeps fmt_kept (roff_stages pp opt charset p).
Proof.
  unfold roff_stages. kept_state.
Qed.
#[local] Hint Resolve encoding_stages_kept roff_stages_kept : state_keeps.
Lemma make_roff_command_kept dir file decomp pp : keeps fmt_kept (make_roff_command dir file decomp pp).
Proof. unfold make_roff_command. kept_state. Qed.
End kept.

(** ** What the pipeline consists of *)

Section shape.
Context `{FormatEnv} `{PipelineLib}.
Abbreviation on v := (opt_flag fe_opts v).
Abbreviation opt v := (opt_str fe_opts v).

(** The command enters a sandbox, or is a manconv of its own that gives up the
    privileges of a setuid man. *)
Definition confined (c : pipecmd) : Prop :=
  cmd_pre c = Some sandbox_load ∨ cmd_pre c = Some sandbox_load_permissive ∨ fe_setuid = true ∧ cmd_pre c = Some manconv_pre_exec.
Definition all_confined (p : pipeline) : Prop := Forall confined (pl_cmds p).

Lemma confined_command c p : all_confined p → confined c → all_confined (pipeline_command c p).
Proof. intros Hp Hc. unfold all_confined. cbn. by apply Forall_app_2; [|apply Forall_singleton]. Qed.
Lemma confined_sandboxed c : confined (sandboxed c).
Proof. destruct c. by left. Qed.
Lemma confined_filter dev cmd d w p : all_confined p → all_confined (add_filter dev cmd d w p).
Proof. intros Hp. unfold add_filter. apply confined_command; [done|]. right. left. by destruct d, w, cmd. Qed.
Lemma confined_setenv k v c : confined c → confined (pipecmd_setenv k v c).
Proof. by destruct c. Qed.
Lemma confined_manconv p from to : all_confined p → all_confined (manconv_to p from to).
Proof.
  intros Hp. unfold manconv_to, add_manconv. destruct (STREQ from to); [done|]. apply confined_command; [done|].
  destruct fe_setuid eqn:Es; [|apply confined_sandboxed]. right. right. split; [done|]. by destruct (2 <=? fe_quiet)%Z.
Qed.

Lemma add_preprocessors_confined dev pp p : all_confined p → all_confined (add_preprocessors dev pp p).
Proof. intros Hp. unfold add_preprocessors. repeat (case_match || apply confined_filter); done. Qed.

Lemma add_col_shape charset args p s p' s' :
  add_col charset args p s = Ret (p', s') →
  (∃ c, pl_cmds p' = pl_cmds p ++ [c] ∧ confined c) ∧ fs_save_cat s' = fs_save_cat s ∧ fs_line_length s' = fs_line_length s.
Proof.
  intros Hr. unfold add_col in Hr. set (cmd := sandboxed _) in Hr.
  assert (confined cmd) as Hc by apply confined_sandboxed. clearbody cmd.
  destruct charset; [|by injection Hr as <- <-; eauto].
  run_inv Hr s0 s1 Hg. injection Hg as <- <-. destruct (find_charset_locale _ _ _ _) as [loc ctype]. injection Hr as <- <-.
  split; [|done]. eexists. split; [done|]. destruct loc; [by apply confined_setenv|done].
Qed.

(** The shape of what [roff_stages] adds. *)
Definition preprocessor_cmd (dev : option cstr) (c : ascii) : pipecmd :=
  pipecmd_pre_exec sandbox_load_permissive
    (if bool_decide (c = "r"%char) then pipecmd_new_argstr (program "refer" PROG_REFER)
     else if bool_decide (c = "g"%char) then pipecmd_new_argstr (program "grap" PROG_GRAP)
     else if bool_decide (c = "p"%char) then pipecmd_new_argstr (program "pic" PROG_PIC)
     else if bool_decide (c = "t"%char) then pipecmd_new_argstr (program "tbl" PROG_TBL)
     else if bool_decide (c = "e"%char) then
       pipecmd_args (device_args dev) (pipecmd_new_argstr (if on troff then program "eqn" PROG_EQN else program "neqn" PROG_NEQN))
     else pipecmd_new_argstr (program "vgrind" PROG_VGRIND)).

(** The order groff wants the preprocessors in. *)
Definition preprocessor_order : cstr := lit "rgptev".

Lemma asks_spec pp c : c ≠ NUL → asks pp c = bool_decide (c ∈ pp).
Proof.
  intros Hc. unfold asks. apply bool_decide_ext. destruct (strchr pp c) eqn:E.
  - split; [|by eexists]. intros _. destruct (decide (c ∈ pp)) as [|Hn]; [done|]. apply strchr_None in Hn; congruence.
  - apply strchr_None in E; [|done]. split; [by intros []|done].
Qed.

Lemma add_preprocessors_cmds dev pp p :
  pl_cmds (add_preprocessors dev pp p) =
    pl_cmds p ++ (preprocessor_cmd dev <$> filter (λ c, c ∈ pp) preprocessor_order).
Proof.
  unfold add_preprocessors, add_filter, preprocessor_order, lit. cbn [String.list_ascii_of_string]. rewrite !asks_spec by done.
  rewrite !filter_cons, filter_nil.
  repeat match goal with |- context [bool_decide ?P] => destruct (decide P); [rewrite (bool_decide_true P) by done|rewrite (bool_decide_false P) by done] end;
    cbn; rewrite <-?app_assoc, ?app_nil_r; reflexivity.
Qed.

Lemma convert_input_confined p page roff s p' s' :
  all_confined p → convert_input p page roff s = Ret (p', s') → all_confined p'.
Proof.
  intros Hp Hr. unfold convert_input in Hr. run_inv Hr preconv s1 Hg. injection Hr as <- _.
  destruct (opt recode); [by apply confined_manconv|]. destruct preconv; [|by apply confined_manconv].
  apply confined_command; [by apply confined_manconv|by left].
Qed.

Lemma encoding_stages_confined dir decomp s p enc charset d s' :
  encoding_stages dir decomp s = Ret ((p, enc, charset, d), s') → all_confined p.
Proof.
  intros Hr. unfold encoding_stages in Hr.
  set (p0 := match opt recode with Some _ => pipeline_new | None => pipeline_command _ _ end) in Hr.
  assert (all_confined p0) as Hp0.
  { unfold p0. destruct (opt recode); [by apply Forall_nil_2|]. apply confined_command; [by apply Forall_nil_2|apply confined_sandboxed]. }
  clearbody p0. destruct (decompress_peekline decomp) as [line decomp'].
  run_inv Hr s0 s1 Hg. run_inv Hr cs s2 Hcs. run_inv Hr s3 s4 Hg2. run_inv Hr p1 s5 Hp1.
  apply convert_input_confined in Hp1; [|done].
  destruct (negb (on troff) && _); [|by injection Hr as <- _ _ _ _].
  run_inv Hr dev s6 Hdev. run_inv Hr u s7 Hu. by injection Hr as <- _ _ _ _.
Qed.

(** The width suits cat pages. *)
Definition cat_page_width (s : fmt_state) : Prop :=
  on catman = true ∨ cat_width fe_conf ≠ 0%Z ∨ (min_cat_width fe_conf ≤ fs_line_length s ≤ max_cat_width fe_conf)%Z.

Lemma terminal_width_eq s :
  terminal_width s = (n ← get_line_length (fs_env s !! lit "MANWIDTH") (fs_env s !! lit "COLUMNS") fe_ws_col (fs_line_length s);
                      Ret (n, set_line_length n s)).
Proof.
  cbv [terminal_width getenv mbind stateM_bind get lift modify mret stateM_ret outcome_bind].
  by destruct (get_line_length _ _ _ _).
Qed.

(** Asking again gives the same width. *)
Lemma terminal_width_again s n s1 s2 :
  terminal_width s = Ret (n, s1) → fs_env s2 = fs_env s1 → fs_line_length s2 = fs_line_length s1 →
  terminal_width s2 = Ret (n, s2) ∧ fs_line_length s1 = n.
Proof.
  rewrite !terminal_width_eq. intros Hr He Hl. apply bind_Ret_inv in Hr as (m & Hm & [= <- <-]). cbn in He, Hl. rewrite He, Hl.
  split; [|done].
  assert (get_line_length (fs_env s !! lit "MANWIDTH") (fs_env s !! lit "COLUMNS") fe_ws_col m = Ret m) as ->.
  { unfold get_line_length in *. destruct (decide (m = -1)%Z) as [->|Hne].
    - destruct (decide (fs_line_length s = -1)%Z) as [E|E]; [by rewrite E in Hm|].
      rewrite bool_decide_false in Hm by done. simpl in Hm. congruence.
    - by rewrite bool_decide_false by done. }
  rewrite bind_Ret. f_equal. f_equal. destruct s2; cbn in *. by subst.
Qed.

Lemma add_roff_line_length_save cmd s c s' :
  add_roff_line_length cmd s = Ret (c, s') → fs_save_cat s' = true → fs_save_cat s = true ∧ cat_page_width s'.
Proof.
  intros Hr Hs. split; [by apply (add_roff_line_length_kept _ _ _ _ Hr)|]. unfold cat_page_width.
  unfold add_roff_line_length in Hr. run_inv Hr u s1 Hu. destruct (on catman); [by left|right].
  destruct (decide (cat_width fe_conf = 0)%Z) as [E|E]; [|by left]. right. rewrite (bool_decide_true _ E) in Hu. cbn [negb] in Hu.
  run_inv Hu n s2 Hn. run_inv Hr len s3 Hlen. injection Hr as _ <-.
  unfold get_roff_line_length in Hlen. rewrite (bool_decide_true _ E) in Hlen. run_inv Hlen m s4 Hm.
  assert (fs_env s1 = fs_env s2 ∧ fs_line_length s1 = fs_line_length s2) as [He Hl].
  { unfold when in Hu. destruct (negb _); by injection Hu as _ <-. }
  destruct (terminal_width_again s n s2 s1 Hn He Hl) as [Ht Hw]. rewrite Ht in Hm. injection Hm as <- <-.
  assert (s3 = s1) as ->.
  { destruct (negb (on troff) || on ditroff); [case_bool_decide; [discriminate Hlen|]|]; by injection Hlen as _ <-. }
  rewrite Hl, Hw. unfold when in Hu. destruct (negb _) eqn:En.
  - injection Hu as _ <-. done.
  - apply negb_false_iff, andb_true_iff in En as [?%Z.leb_le ?%Z.leb_le]. done.
Qed.

Lemma roff_stages_shape pp roff_opt charset p s p' s' :
  roff_stages pp roff_opt charset p s = Ret (p', s') →
  (∃ formatter tail, pl_cmds p' =
     pl_cmds p ++ (preprocessor_cmd (fs_roff_device s) <$> filter (λ c, c ∈ pp_initial pp) preprocessor_order) ++ formatter :: tail ∧
     length tail ≤ 1) ∧
  (all_confined p → all_confined p') ∧
  (fs_save_cat s' = true → fs_save_cat s = true ∧ on troff = false ∧ cat_page_width s').
Proof.
  intros Hr. unfold roff_stages in Hr. run_inv Hr s0 s1 Hg. injection Hg as <- <-.
  set (p1 := add_preprocessors _ _ _) in Hr. pose proof (add_preprocessors_cmds (fs_roff_device s) (pp_initial pp) p) as Hcmds.
  assert (all_confined p → all_confined p1) as Hconf by apply add_preprocessors_confined. fold p1 in Hcmds. clearbody p1.
  run_inv Hr cmd s1 Hcmd. run_inv Hr cmd2 s2 Hlen.
  match type of Hr with context [add_filter _ ?c _ _ _] => set (formatter := c) in Hr end.
  set (p2 := add_filter _ _ _ _ _) in Hr.
  assert (all_confined p → all_confined p2) as Hconf2 by (intros ?; apply confined_filter; auto).
  assert (∃ f, pl_cmds p2 = pl_cmds p1 ++ [f]) as [f Hf] by (by eexists). clearbody p2 formatter.
  set (P := pl_cmds p ++ _) in Hcmds. 
  assert ((∃ tail, pl_cmds p' = pl_cmds p2 ++ tail ∧ length tail ≤ 1) ∧ (all_confined p2 → all_confined p') ∧
    (fs_save_cat s' = true → fs_save_cat s2 = true) ∧ fs_line_length s' = fs_line_length s2) as ((tail & Ht & Hlt) & Hc & Hs & Hl).
  { destruct (negb (on troff) && _); [|injection Hr as <- <-; split_and!; [exists []; rewrite app_nil_r; simpl; auto|done..]].
    run_inv Hr keep s3 Hk. injection Hk as <- <-. destruct (bool_decide _ && _).
    { run_inv Hr u s3 Hu. injection Hu as _ <-. injection Hr as <- <-. split_and!; [exists []; rewrite app_nil_r; simpl; auto|done..]. }
    destruct (negb GNU_NROFF && _); [|injection Hr as <- <-; split_and!; [exists []; rewrite app_nil_r; simpl; auto|done..]].
    apply add_col_shape in Hr as ((c & Hc & Hcc) & Hs & Hl). split_and!; [exists [c]; simpl; auto|..|congruence|done].
    intros Hp2. unfold all_confined. rewrite Hc. by apply Forall_app_2; [|apply Forall_singleton]. }
  split_and!.
  - exists f, tail. split; [|done]. rewrite Ht, Hf, Hcmds. unfold P. by rewrite <-!app_assoc.
  - auto.
  - intros Hs'. apply Hs in Hs'. apply (add_roff_line_length_save _ _ _ _ Hlen) in Hs' as [Hs1 Hw].
    assert (fs_save_cat s = true ∧ on troff = false) as [? ?].
    { destruct (on troff); [|by injection Hcmd as _ <-]. run_inv Hcmd u s3 Hu. injection Hu as _ <-. by injection Hcmd as _ <-. }
    split; [done|]. split; [done|]. unfold cat_page_width in *. by rewrite Hl.
Qed.

(** Without an external formatter: the stages up to the conversion, then those of groff. *)
Lemma make_roff_command_stages dir file decomp pp s p enc d s' :
  make_roff_command dir file decomp pp s = Ret ((p, enc, d), s') → find_formatter dir = None →
  ∃ roff_opt charset p0 s1, all_confined p0 ∧ (fs_save_cat s1 = true → fs_save_cat s = true) ∧
    if opt recode is Some _ then p = p0 ∧ s' = s1 else roff_stages pp roff_opt charset p0 s1 = Ret (p, s').
Proof.
  intros Hr Hf. unfold make_roff_command in Hr. rewrite Hf in Hr. run_inv Hr roff_opt s1 Ho. injection Ho as <- <-.
  run_inv Hr r s1 He. destruct r as [[[p0 enc0] charset] d0]. pose proof (encoding_stages_confined _ _ _ _ _ _ _ _ He) as Hc.
  apply encoding_stages_kept in He. run_inv Hr p1 s2 Hp1. injection Hr as <- <- <- <-.
  eexists _, charset, p0, s1. split; [done|]. split; [by apply (kept_save _ _ He)|].
  destruct (opt recode); [by injection Hp1 as <- <-|exact Hp1].
Qed.

Lemma make_roff_command_save dir file decomp pp s p enc d s' :
  make_roff_command dir file decomp pp s = Ret ((p, enc, d), s') → find_formatter dir = None → opt recode = None →
  fs_save_cat s' = true → on troff = false ∧ cat_page_width s'.
Proof.
  intros Hr Hf Hrec Hs. apply make_roff_command_stages in Hr as (? & ? & p0 & s1 & _ & _ & Hr); [|done]. rewrite Hrec in Hr.
  apply roff_stages_shape in Hr as (_ & _ & Hsave). by destruct (Hsave Hs) as (_ & ? & ?).
Qed.

(** C13: without an external formatter, every program the page passes through
    enters a sandbox or gives up the privileges of a setuid man; the
    preprocessors its letters ask for run, once each, in the order groff wants
    and right before the formatter; and a page that may still be saved is not
    formatted by troff and has the width of cat pages. *)
Theorem roff_pipeline dir file decomp pp s p enc d s' :
  make_roff_command dir file decomp pp s = Ret ((p, enc, d), s') → find_formatter dir = None →
  all_confined p ∧
  (opt recode = None →
    (∃ input dev formatter tail, pl_cmds p =
       input ++ (preprocessor_cmd dev <$> filter (λ c, c ∈ pp_initial pp) preprocessor_order) ++ formatter :: tail ∧ length tail ≤ 1) ∧
    (fs_save_cat s' = true → fs_save_cat s = true ∧ on troff = false ∧ cat_page_width s')).
Proof.
  intros Hr Hf. apply make_roff_command_stages in Hr as (roff_opt & charset & p0 & s1 & Hc & Hs1 & Hr); [|done].
  destruct (opt recode); [by destruct Hr as [-> _]|].
  apply roff_stages_shape in Hr as ((formatter & tail & Hcmds & Hlt) & Hconf & Hsave).
  split; [by apply Hconf|]. intros _. split; [by eexists _, _, formatter, tail|].
  intros Hs. destruct (Hsave Hs) as (? & ? & ?). split; [by apply Hs1|done].
Qed.

(** The order of the letters, and how often they appear, makes no difference. *)
Theorem preprocessor_letters dir file decomp pp1 pp2 s :
  (∀ c, c ∈ pp_initial pp1 ↔ c ∈ pp_initial pp2) → find_formatter dir = None →
  make_roff_command dir file decomp pp1 s = make_roff_command dir file decomp pp2 s.
Proof.
  intros Hpp Hf. unfold make_roff_command. rewrite Hf. unfold roff_stages, add_preprocessors.
  assert (∀ c, c ≠ NUL → asks (pp_initial pp1) c = asks (pp_initial pp2) c) as Ha.
  { intros c Hc. rewrite !asks_spec by done. by apply bool_decide_ext. }
  by rewrite !Ha.
Qed.
End shape.

(** ** Evaluation *)

Definition no_options : options := initial_options None [].
(** groff's programs, on a terminal whose locales all have the given charset. *)
Definition groff_env (keys : list (opt_key * option cstr)) (charset : string) (preconv isatty : bool) : FormatEnv := {|
  fe_opts := match parse_opts false None [] keys no_options with Ret o => o | _ => no_options end;
  fe_conf := no_config; fe_setuid := false; fe_quiet := 1; fe_isatty := isatty; fe_messages := None;
  fe_locale := LocaleEnv (Some (lit "xx")) (λ _, true) (λ _, Some (lit charset)); fe_supported := None;
  fe_found := λ name, preconv && STREQ name (lit "preconv"); fe_access_X := λ _, false; fe_ws_col := Some 80%Z; fe_manpathlist := [lit "/m"];
  HEIRLOOM_NROFF := false; GNU_NROFF := true; ZSOELIM := lit "zsoelim";
  PROG_REFER := lit "refer"; PROG_GRAP := lit "grap"; PROG_PIC := lit "pic"; PROG_TBL := lit "tbl"; PROG_EQN := lit "eqn";
  PROG_NEQN := lit "neqn"; PROG_VGRIND := lit "vgrind"; PROG_TROFF := lit "groff -mandoc"; PROG_NROFF := lit "nroff -mandoc";
  PROG_COL := lit "col";
|}.
Definition fresh (lang : string) : fmt_state := FmtState None true (Some (lit lang)) ∅ (lit "C") None (-1).
Definition page : decompress := decompress_new_inprocess (lit ".TH X 1" ++ [NL]) 8.

Definition names_of (p : pipeline) : list cstr :=
  (λ c, match cmd_kind c with
        | Process l => concat ((λ a, match a with Word s | Words s => s ++ lit " " end) <$> l)
        | Function name _ | Sequence name _ => name
        | Passthrough => [] end) <$> pl_cmds p.

Lemma roff_pipeline_witness :
  match @make_roff_command (groff_env [] "UTF-8" true true) no_lib (Some (lit "/m")) (lit "/m/man1/x.1") page (lit "etp") (fresh "de") with
  | Ret (p, _, _, s') =>
    @all_confined (groff_env [] "UTF-8" true true) p ∧
    (opt_str (@fe_opts (groff_env [] "UTF-8" true true)) recode = None →
      (∃ input dev formatter tail, pl_cmds p =
         input ++ (@preprocessor_cmd (groff_env [] "UTF-8" true true) dev <$> filter (λ c, c ∈ pp_initial (lit "etp")) preprocessor_order) ++
         formatter :: tail ∧ length tail ≤ 1) ∧
      (fs_save_cat s' = true → fs_save_cat (fresh "de") = true ∧ opt_flag (@fe_opts (groff_env [] "UTF-8" true true)) troff = false ∧
        @cat_page_width (groff_env [] "UTF-8" true true) s'))
  | _ => False
  end.
Proof.
  destruct (make_roff_command _ _ _ _ _) as [[[[p enc] d] s']|e|e] eqn:E.
  - exact (@roff_pipeline (groff_env [] "UTF-8" true true) no_lib (Some (lit "/m")) (lit "/m/man1/x.1") page (lit "etp") (fresh "de") p enc d s' E eq_refl).
  - apply (f_equal is_ret) in E. vm_compute in E. discriminate E.
  - apply (f_equal is_ret) in E. vm_compute in E. discriminate E.
Defined.

Definition names_for (env : FormatEnv) (pp lang : string) : option (list cstr) :=
  match @make_roff_command env no_lib (Some (lit "/m")) (lit "/m/man1/x.1") page (lit pp) (fresh lang) with
  | Ret (p, _, _, _) => Some (names_of p)
  | _ => None
  end.

Example german_page :
  names_for (groff_env [] "UTF-8" true true) "etp" "de" =
    Some (lit <$> ["zsoelim"; "manconv -f UTF-8:ISO-8859-1 -t UTF-8//IGNORE"; "preconv -e UTF-8 "; "pic "; "tbl "; "neqn -Tutf8 ";
                   "nroff -mandoc -rLL=79n -rLT=79n  -Tutf8 "]).
Proof. by vm_compute. Qed.

(** Without preconv the device depends on the page; but the device chosen for
    the first page serves for all that follow. *)
Definition device_after (langs : list string) : option cstr :=
  let step r lang := s ← r; '(_, s) ← @make_roff_command (groff_env [] "ISO-8859-1" false true) no_lib None (lit "x.1") page [] 
                                        (FmtState (fs_roff_device s) true (Some (lit lang)) (fs_env s) (fs_ctype s) (fs_groff_preconv s) (fs_line_length s)); Ret s in
  match fold_left step langs (Ret (fresh "")) with Ret s => fs_roff_device s | _ => None end.

Example first_page_decides_device :
  device_after ["en"] = Some (lit "latin1") ∧ device_after ["pl"] = Some (lit "ascii") ∧ device_after ["pl"; "en"] = Some (lit "ascii").
Proof. by vm_compute. Qed.

Lemma preprocessor_letters_witness :
  @make_roff_command (groff_env [] "UTF-8" true true) no_lib None (lit "x.1") page (lit "tep") (fresh "de") =
  @make_roff_command (groff_env [] "UTF-8" true true) no_lib None (lit "x.1") page (lit "pett -v") (fresh "de").
Proof.
  apply (@preprocessor_letters (groff_env [] "UTF-8" true true) no_lib); [|reflexivity].
  intros c. change (pp_initial (lit "tep")) with (lit "tep"). change (pp_initial (lit "pett -v")) with (lit "pett").
  unfold lit. simpl. set_solver.
Defined.
