(* ===== verification/Pager.v ===== *)
(** * src/man.c: showing what was formatted

    The command of a browser, the environment of the pager, the filter that
    squeezes blank lines, and the pipeline that displays a page. *)

From S2P Require Import Prelude CStr StateM Util Encodings Manp Pipe Decompress ManArgs ManOpts Roff.

(** ** Definitions *)

(** *** make_browser *)

(** The command the pattern stands for, and whether it named the file. *)
Fixpoint expand_browser (esc_file : cstr) (pattern : cstr) : cstr * bool :=
  match pattern with
  | [] => ([], false)
  | c :: rest =>
    if bool_decide (c = "%"%char) then
      match rest with
      | [] => (["%"%char], false)
      | d :: rest =>
        let '(browser, found) := expand_browser esc_file rest in
        if bool_decide (d = "%"%char) then ("%"%char :: browser, found)
        else if bool_decide (d = "c"%char) then (":"%char :: browser, found)
        else if bool_decide (d = "s"%char) then (esc_file ++ browser, true)
        else ("%"%char :: d :: browser, found)
      end
    else let '(browser, found) := expand_browser esc_file rest in (c :: browser, found)
  end.

Definition browser_command (pattern file : cstr) : cstr :=
  let esc_file := default [] (escape_shell (Some file)) in
  let '(browser, found) := expand_browser esc_file pattern in
  if (found : bool) then browser else browser ++ lit " " ++ esc_file.

Definition make_browser (pattern file : cstr) : pipeline :=
  pipeline_ignore_signals (pipeline_new_commands
    [pipecmd_pre_exec pre_drop_privs (pipecmd_new_args [lit "/bin/sh"; lit "-c"; browser_command pattern file])]).

(** *** setenv_less *)

Definition MAN_PN : cstr := lit "$MAN_PN".
Definition less_opts (prompt_string : cstr) (less : option cstr) : cstr :=
  appendstr (Some (lit "-ix8RmPm" ++ prompt_string ++ lit "$PM" ++ prompt_string ++ lit "$")) (match less with Some l => [l] | None => [] end).

(** The loop that replaces the placeholder; [None] when the fuel runs out. *)
Fixpoint subst_title (fuel : nat) (esc_title opts : cstr) : option cstr :=
  match strstr opts MAN_PN with
  | None => Some opts
  | Some man_pn =>
    match fuel with
    | 0 => None
    | S fuel => subst_title fuel esc_title (take man_pn opts ++ esc_title ++ drop (man_pn + length MAN_PN) opts)
    end
  end.

Definition dollars (s : cstr) : nat := length (filter (λ c, c = "$"%char) s).

(** The placeholder has a dollar sign, which an escaped title has not: as many
    turns as there are dollar signs are enough. *)
Definition setenv_less (prompt_string : cstr) (less : option cstr) (title : cstr) (cmd : pipecmd) : outcome pipecmd :=
  let esc_title := escape_less title in
  let opts := less_opts prompt_string less in
  opts ← or_undef "setenv_less: no end" (subst_title (dollars opts) esc_title opts);
  Ret (pipecmd_setenv (lit "MAN_PN") esc_title (pipecmd_setenv (lit "LESS") opts cmd)).

(** *** squeeze_blank_lines *)

(** The lines [getline] delivers, each with its newline if it has one. *)
Fixpoint input_lines (text : list ascii) : list (list ascii) :=
  match text with
  | [] => []
  | c :: text =>
    if bool_decide (c = NL) then [c] :: input_lines text
    else match input_lines text with
         | [] => [[c]]
         | l :: ls => (c :: l) :: ls
         end
  end.

(** A line up to its first NUL. *)
Definition blank_line (line : list ascii) : bool := forallb isspace (xstrndup line).

(** [in_blanks]: the inner loop has met a blank line; what it writes for the
    blank lines it has read comes when they end. *)
Fixpoint squeeze (in_blanks : bool) (ls : list (list ascii)) : list ascii :=
  match ls with
  | [] => if in_blanks then [NL] else []
  | line :: ls =>
    if blank_line line then squeeze true ls
    else (if in_blanks then [NL] else []) ++ xstrndup line ++ squeeze false ls
  end.
Definition squeeze_blank_lines (text : list ascii) : list ascii := squeeze false (input_lines text).

(** *** make_display_command *)

Class PagerEnv := {
  pe_pager : cstr;                 (* the pager [main] chose *)
  pe_prompt_string : cstr;
  pe_less : option cstr;
  PROG_TR : cstr;
}.

Definition add_output_iconv (source target : option cstr) (p : pipeline) : pipeline :=
  match source, target with
  | Some source, Some target =>
    if STREQ source target then p
    else pipeline_command (sandboxed (pipecmd_new_args [lit "iconv"; lit "-c"; lit "-f"; source; lit "-t"; target ++ lit "//TRANSLIT"])) p
  | _, _ => p
  end.

Definition squeeze_name : cstr :=
  lit "sed -e '/^[[:space:]]*$/{ N; /^[[:space:]]*\n[[:space:]]*$/D; }'".
Definition TR_SETS : cstr := lit " '\255\267\264\327' '\055\157\047\170'".

Section display.
Context `{FormatEnv} `{PagerEnv}.
Abbreviation on v := (opt_flag fe_opts v).
Abbreviation opt v := (opt_str fe_opts v).

Definition make_display_command (encoding : option cstr) (title : cstr) : fmt pipeline :=
  charset ← my_locale_charset;
  let p := pipeline_new in
  let p := if negb (on troff) && negb (from_option (is_roff_device HEIRLOOM_NROFF) false (opt want_encoding))
           then add_output_iconv encoding (Some charset) p else p in
  p ← (if negb (on troff) && negb (bool_decide (PROG_COL = [])) then
         keep ← getenv (lit "MAN_KEEP_FORMATTING");
         if bool_decide (default [] keep = []) && negb fe_isatty
         then add_col (Some charset) [lit "-b"; lit "-p"; lit "-x"] p else mret p
       else mret p);
  match opt gxditview with
  | Some _ =>
    mret (pipeline_command (pipecmd_new_args
      [lit "gxditview"; lit "-title"; title; lit "-xrm"; lit "*iconName:" ++ title; lit "-"]) p)
  | None =>
    let p := pipeline_command (pipecmd_new_function squeeze_name Pipe.squeeze_blank_lines) p in
    let '(p, pager_cmd) :=
      if fe_isatty then
        if on ascii_out then
          (pipeline_command (sandboxed (pipecmd_new_argstr (default [] (get_def_user fe_conf (lit "tr") (Some (PROG_TR ++ TR_SETS)))))) p,
           Some (pipecmd_new_argstr pe_pager))
        else if negb (on htmlout) then (p, Some (pipecmd_new_argstr pe_pager))
        else (p, None)
      else (p, None) in
    p ← (match pager_cmd with
         | Some cmd => cmd ← lift (setenv_less pe_prompt_string pe_less title cmd); mret (pipeline_command cmd p)
         | None => mret p
         end);
    let p := pipeline_ignore_signals p in
    mret (if bool_decide (pl_cmds p = []) then pipeline_command pipecmd_new_passthrough p else p)
  end.
End display.

(** ** The pager's options *)

Lemma dollars_app a b : dollars (a ++ b) = dollars a + dollars b.
Proof. unfold dollars. by rewrite filter_app, length_app. Qed.
Lemma dollars_none s : "$"%char ∉ s → dollars s = 0.
Proof. intros Hs. unfold dollars. by rewrite filter_none by (intros c Hc ->; done). Qed.

Lemma escape_less_no_dollar s : "$"%char ∉ escape_less s.
Proof.
  induction s as [|c s IH]; cbn [escape_less]; [not_in|].
  set (d := if bool_decide (c = "$"%char) then "?"%char else c).
  assert (d ≠ "$"%char) as Hd by (unfold d; case_bool_decide; done). rewrite not_elem_of_app. split; [|done].
  destruct (less_special d); not_in.
Qed.

Lemma strstr_parts s p n : strstr s p = Some n → s = take n s ++ p ++ drop (n + length p) s.
Proof.
  intros Hn. apply strstr_prefix in Hn as [x Hx]. rewrite <-(take_drop n s) at 1. f_equal. rewrite Hx. f_equal.
  rewrite <-drop_drop, Hx. by rewrite drop_app_length.
Qed.

(** Each turn takes a dollar sign away. *)
Lemma subst_title_ends fuel esc opts :
  "$"%char ∉ esc → dollars opts ≤ fuel → ∃ r, subst_title fuel esc opts = Some r ∧ strstr r MAN_PN = None ∧ dollars r ≤ dollars opts.
Proof.
  intros Hesc. revert opts. induction fuel as [|fuel IH]; intros opts Hf; cbn [subst_title];
    destruct (strstr opts MAN_PN) as [k|] eqn:Ek; [| |..]; try (eexists; split_and!; [done|done|lia]).
  - exfalso. apply strstr_parts in Ek. rewrite Ek, !dollars_app in Hf. unfold dollars at 2 in Hf. simpl in Hf. lia.
  - assert (dollars (take k opts ++ esc ++ drop (k + length MAN_PN) opts) < dollars opts) as Hlt.
    { apply strstr_parts in Ek. rewrite Ek at 3. rewrite !dollars_app, (dollars_none esc Hesc).
      assert (dollars MAN_PN = 1) as -> by done. lia. }
    destruct (IH (take k opts ++ esc ++ drop (k + length MAN_PN) opts)) as (r & Hr & Hn & Hd); [lia|]. exists r. split_and!; [done|done|lia].
Qed.

Lemma subst_title_at fuel esc pre rest :
  strstr (pre ++ MAN_PN ++ rest) MAN_PN = Some (length pre) →
  subst_title (S fuel) esc (pre ++ MAN_PN ++ rest) = subst_title fuel esc (pre ++ esc ++ rest).
Proof.
  intros Hs. cbn [subst_title]. rewrite Hs. rewrite take_app_length. f_equal. f_equal. f_equal.
  rewrite app_assoc. apply drop_app_length'. by rewrite length_app.
Qed.
Lemma subst_title_done fuel esc opts : strstr opts MAN_PN = None → subst_title fuel esc opts = Some opts.
Proof. intros Hs. destruct fuel; cbn [subst_title]; by rewrite Hs. Qed.

Lemma placeholder_skip a s : "$"%char ∉ a → strstr (a ++ s) MAN_PN = (λ n, length a + n) <$> strstr s MAN_PN.
Proof. apply (strstr_skip "$"%char (lit "MAN_PN")). Qed.
Lemma placeholder_other s : ¬ (lit "MAN_PN" `prefix_of` s) → strstr ("$"%char :: s) MAN_PN = S <$> strstr s MAN_PN.
Proof. intros Hs. apply strstr_next. intros [x Hx]. injection Hx as Hx. apply Hs. by exists x. Qed.
Lemma placeholder_none s : "$"%char ∉ s → strstr s MAN_PN = None.
Proof. intros Hs. rewrite <-(app_nil_r s), placeholder_skip by done. done. Qed.

(** The loop that puts the title into the options of less ends, and leaves
    no placeholder behind; with a prompt that mentions the title once, and no
    other dollar sign, the title appears, escaped, exactly where the prompt
    has its placeholder, so that it can neither end the prompt nor add options. *)
Theorem setenv_less_prompt prompt less title cmd :
  (∃ opts, subst_title (dollars (less_opts prompt less)) (escape_less title) (less_opts prompt less) = Some opts ∧
    strstr opts MAN_PN = None ∧
    setenv_less prompt less title cmd = Ret (pipecmd_setenv (lit "MAN_PN") (escape_less title) (pipecmd_setenv (lit "LESS") opts cmd))) ∧
  (∀ a b, prompt = a ++ MAN_PN ++ b → "$"%char ∉ a → "$"%char ∉ b → "$"%char ∉ default [] less → ¬ (lit "MAN_PN" `prefix_of` default [] less) →
    let shown := a ++ escape_less title ++ b in
    setenv_less prompt less title cmd =
      Ret (pipecmd_setenv (lit "MAN_PN") (escape_less title)
             (pipecmd_setenv (lit "LESS") (lit "-ix8RmPm" ++ shown ++ lit "$PM" ++ shown ++ lit "$" ++ default [] less) cmd))).
Proof.
  split.
  { destruct (subst_title_ends (dollars (less_opts prompt less)) (escape_less title) (less_opts prompt less)) as (r & Hr & Hn & _);
      [apply escape_less_no_dollar|done|]. exists r. split_and!; [done|done|]. unfold setenv_less. by rewrite Hr. }
  intros a b -> Ha Hb Hl Hpre. cbv zeta. unfold setenv_less. set (l := default [] less) in *. set (t := escape_less title).
  assert ("$"%char ∉ t) as Ht by apply escape_less_no_dollar.
  assert (less_opts (a ++ MAN_PN ++ b) less =
    (lit "-ix8RmPm" ++ a) ++ MAN_PN ++ b ++ lit "$PM" ++ (a ++ MAN_PN ++ b) ++ lit "$" ++ l) as E.
  { unfold less_opts, appendstr, l. destruct less; cbn [default fold_left from_option id]; by rewrite <-!app_assoc, ?app_nil_r. }
  assert (dollars (less_opts (a ++ MAN_PN ++ b) less) = 4) as ->.
  { rewrite E, !dollars_app, !(dollars_none a), !(dollars_none b), !(dollars_none l) by done. done. }
  rewrite E, subst_title_at.
  2: { rewrite placeholder_skip by (rewrite not_elem_of_app; split; [not_in|done]). rewrite strstr_here by by eexists. simpl. by rewrite Nat.add_0_r. }
  replace ((lit "-ix8RmPm" ++ a) ++ t ++ b ++ lit "$PM" ++ (a ++ MAN_PN ++ b) ++ lit "$" ++ l)
    with ((lit "-ix8RmPm" ++ a ++ t ++ b ++ lit "$PM" ++ a) ++ MAN_PN ++ b ++ lit "$" ++ l) by by rewrite <-!app_assoc.
  assert ("$"%char ∉ lit "-ix8RmPm" ++ a ++ t ++ b) as Hpre1 by (rewrite !not_elem_of_app; split_and!; [not_in|done..]).
  rewrite subst_title_at.
  2: { replace (lit "-ix8RmPm" ++ a ++ t ++ b ++ lit "$PM" ++ a) with ((lit "-ix8RmPm" ++ a ++ t ++ b) ++ "$"%char :: lit "PM" ++ a)
         by by rewrite <-!app_assoc.
       rewrite <-app_assoc, placeholder_skip by done. cbn [app]. rewrite placeholder_other by (intros [x Hx]; discriminate Hx).
       rewrite <-app_assoc, placeholder_skip by not_in. rewrite placeholder_skip by done. rewrite strstr_here by by eexists.
       simpl. f_equal. repeat (progress (rewrite ?length_app; simpl)). lia. }
  rewrite subst_title_done; [cbn; rewrite <-!app_assoc; done|].
  replace ((lit "-ix8RmPm" ++ a ++ t ++ b ++ lit "$PM" ++ a) ++ t ++ b ++ lit "$" ++ l)
    with ((lit "-ix8RmPm" ++ a ++ t ++ b) ++ "$"%char :: (lit "PM" ++ a ++ t ++ b) ++ "$"%char :: l) by (rewrite <-!app_assoc; done).
  rewrite placeholder_skip by done. rewrite placeholder_other by (intros [x Hx]; discriminate Hx).
  rewrite placeholder_skip by (rewrite !not_elem_of_app; split_and!; [not_in|done..]).
  by rewrite placeholder_other, placeholder_none.
Qed.

(** ** Blank lines *)

(** A line that [getline] delivers, with its newline. *)
Definition full_line (l : list ascii) : Prop := ∃ s, l = s ++ [NL] ∧ NL ∉ s.
(** Lines of a text: only the last may lack its newline. *)
Fixpoint proper (ls : list (list ascii)) : Prop :=
  match ls with
  | [] => True
  | [l] => full_line l ∨ l ≠ [] ∧ NL ∉ l
  | l :: ls => full_line l ∧ proper ls
  end.

Lemma input_lines_full s text : NL ∉ s → input_lines (s ++ NL :: text) = (s ++ [NL]) :: input_lines text.
Proof.
  induction s as [|c s IH]; intros Hs; cbn [app input_lines]; [by rewrite bool_decide_true|].
  apply not_elem_of_cons in Hs as [Hc Hs]. rewrite bool_decide_false by congruence. by rewrite IH.
Qed.
Lemma input_lines_last s : s ≠ [] → NL ∉ s → input_lines s = [s].
Proof.
  induction s as [|c s IH]; intros Hne Hs; [done|]. apply not_elem_of_cons in Hs as [Hc Hs]. cbn [input_lines].
  rewrite bool_decide_false by congruence. destruct s as [|d s]; [done|]. by rewrite IH.
Qed.

Lemma proper_tail l ls : proper (l :: ls) → proper ls.
Proof. destruct ls; [done|]. by intros []. Qed.

Lemma input_lines_concat ls : proper ls → input_lines (concat ls) = ls.
Proof.
  induction ls as [|l ls IH]; intros Hp; [done|]. pose proof (IH (proper_tail _ _ Hp)) as Hl. cbn [concat].
  assert (full_line l ∨ ls = [] ∧ l ≠ [] ∧ NL ∉ l) as [(s & -> & Hs)|(-> & Hne & Hnl)].
  { destruct ls; cbn [proper] in Hp; [destruct Hp; auto|left; apply Hp]. }
  - rewrite <-app_assoc. cbn [app]. by rewrite input_lines_full, Hl.
  - cbn [concat]. rewrite app_nil_r. by apply input_lines_last.
Qed.

Lemma input_lines_proper text : proper (input_lines text) ∧ concat (input_lines text) = text.
Proof.
  induction text as [|c text [IHp IHc]]; [done|]. cbn [input_lines]. case_bool_decide as Hc.
  - subst c. split; [|by cbn; rewrite IHc]. assert (full_line [NL]) as Hf by (exists []; split; [done|not_in]).
    destruct (input_lines text); cbn; [by left|done].
  - destruct (input_lines text) as [|l ls] eqn:E; cbn in IHc; subst text; [split; [right; split; [done|not_in]|done]|]. split; [|done].
    assert (full_line l → full_line (c :: l)) as Hf by (intros (s & -> & Hs); exists (c :: s); split; [done|not_in]).
    destruct ls; cbn in *; [destruct IHp as [?|[? ?]]; [by left; auto|right; split; [done|not_in]]|].
    destruct IHp. split; [auto|done].
Qed.

(** The lines that are written. *)
Fixpoint squeeze_lines (in_blanks : bool) (ls : list (list ascii)) : list (list ascii) :=
  match ls with
  | [] => if in_blanks then [[NL]] else []
  | line :: ls =>
    if blank_line line then squeeze_lines true ls
    else (if in_blanks then [[NL]] else []) ++ line :: squeeze_lines false ls
  end.

Lemma squeeze_concat b ls : Forall (λ l, NUL ∉ l) ls → squeeze b ls = concat (squeeze_lines b ls).
Proof.
  revert b. induction ls as [|l ls IH]; intros b Hls; [by destruct b|]. apply Forall_cons in Hls as [Hl Hls].
  cbn [squeeze squeeze_lines]. destruct (blank_line l); [by apply IH|]. rewrite xstrndup_id by done.
  rewrite concat_app. cbn [concat]. rewrite <-IH by done. by destruct b.
Qed.

(** The paragraphs of a text: its lines, cut at blank ones. *)
Definition flush (cur : list (list ascii)) : list (list (list ascii)) := match cur with [] => [] | _ => [cur] end.
Fixpoint paragraphs (cur : list (list ascii)) (ls : list (list ascii)) : list (list (list ascii)) :=
  match ls with
  | [] => flush cur
  | l :: ls => if blank_line l then flush cur ++ paragraphs [] ls else paragraphs (cur ++ [l]) ls
  end.

(** Blank lines are empty, and followed by a line that is not blank. *)
Fixpoint squeezed (ls : list (list ascii)) : Prop :=
  match ls with
  | [] => True
  | l :: ls => (blank_line l = true → l = [NL] ∧ from_option (λ l, blank_line l = false) True (head ls)) ∧ squeezed ls
  end.

Lemma squeeze_paragraphs ls : ∀ cur,
  paragraphs cur (squeeze_lines false ls) = paragraphs cur ls ∧
  paragraphs cur (squeeze_lines true ls) = flush cur ++ paragraphs [] ls.
Proof.
  induction ls as [|l ls IH]; intros cur; [done|]. cbn [squeeze_lines paragraphs].
  destruct (blank_line l) eqn:El; cbn [app paragraphs]; rewrite ?El.
  - split; [apply IH|]. cbn. apply IH.
  - split; [apply IH|]. change (blank_line [NL]) with true. cbn [app]. f_equal. apply IH.
Qed.

Lemma squeeze_squeezed ls : squeezed (squeeze_lines false ls) ∧ squeezed (squeeze_lines true ls) ∧
  ∃ t, squeeze_lines true ls = [NL] :: t.
Proof.
  induction ls as [|l ls (IH1 & IH2 & IH3)]; [split; [done|]; split; [done|by exists []]|]. cbn [squeeze_lines].
  destruct (blank_line l) eqn:El; [done|]. split; [by cbn; rewrite El|]. split; [by cbn; rewrite El|by eexists].
Qed.

Lemma squeezed_fixed ls : squeezed ls → squeeze_lines false ls = ls.
Proof.
  induction ls as [|l ls IH]; [done|]. cbn [squeezed squeeze_lines]. intros [Hl Hls]. specialize (IH Hls).
  destruct (blank_line l) eqn:El; [|cbn; by rewrite IH]. destruct (Hl eq_refl) as [-> Hh].
  destruct ls as [|m ls]; [done|]. cbn in Hh, IH |- *. rewrite Hh in IH |- *. cbn in IH |- *. congruence.
Qed.

Lemma squeeze_proper b ls : proper ls → proper (squeeze_lines b ls).
Proof.
  assert (full_line [NL]) as Hnl by (exists []; split; [done|not_in]).
  revert b. induction ls as [|l ls IH]; intros b Hp; [destruct b; cbn; auto|]. pose proof (λ b, IH b (proper_tail _ _ Hp)) as IHt.
  cbn [squeeze_lines]. destruct (blank_line l); [done|].
  assert (proper (l :: squeeze_lines false ls)) as Hq.
  { destruct ls as [|m ls]; [done|]. destruct Hp as [Hl _]. specialize (IHt false). destruct (squeeze_lines false (m :: ls)); cbn; auto. }
  destruct b; [|done]. split; [done|exact Hq].
Qed.

Lemma input_lines_nonul text : NUL ∉ text → Forall (λ l, NUL ∉ l) (input_lines text).
Proof.
  intros Ht. pose proof (input_lines_proper text) as [_ Hc]. rewrite <-Hc in Ht. clear Hc.
  induction (input_lines text) as [|l ls IH]; [done|]. cbn in Ht. rewrite not_elem_of_app in Ht. destruct Ht. constructor; auto.
Qed.

(** Squeezing blank lines keeps the paragraphs of a page, separates them
    by single empty lines, and is done once and for all: a second pass changes
    nothing. *)
Theorem squeeze_blank_lines_correct text :
  NUL ∉ text →
  let out := squeeze_blank_lines text in
  paragraphs [] (input_lines out) = paragraphs [] (input_lines text) ∧ squeezed (input_lines out) ∧ squeeze_blank_lines out = out.
Proof.
  intros Ht. cbv zeta. pose proof (input_lines_nonul text Ht) as Hn. pose proof (input_lines_proper text) as [Hp _].
  assert (input_lines (squeeze_blank_lines text) = squeeze_lines false (input_lines text)) as E.
  { unfold squeeze_blank_lines. rewrite squeeze_concat by done. by apply input_lines_concat, squeeze_proper. }
  rewrite E. split; [by apply squeeze_paragraphs|]. destruct (squeeze_squeezed (input_lines text)) as (Hs & _). split; [done|].
  unfold squeeze_blank_lines at 1. rewrite E, squeeze_concat.
  - rewrite squeezed_fixed by done. unfold squeeze_blank_lines. by rewrite squeeze_concat.
  - clear -Hn. assert (∀ b, Forall (λ l, NUL ∉ l) (squeeze_lines b (input_lines text))) as Ha; [|done].
    induction Hn as [|l ls Hl Hls IH]; intros b; cbn [squeeze_lines].
    + destruct b; repeat constructor; not_in.
    + destruct (blank_line l); [done|]. apply Forall_app_2; [destruct b; repeat constructor; not_in|by constructor].
Qed.

(** ** The command of a browser *)

Inductive browser_item := Text (s : cstr) | Percent | Colon | File | Kept (c : ascii).
Definition item_ok (i : browser_item) : Prop :=
  match i with Text s => "%"%char ∉ s | Kept c => c ∉ lit "%cs" | _ => True end.
Definition item_text (i : browser_item) : cstr :=
  match i with Text s => s | Percent => lit "%%" | Colon => lit "%c" | File => lit "%s" | Kept c => ["%"%char; c] end.
Definition item_value (file : cstr) (i : browser_item) : cstr :=
  match i with Text s => s | Percent => lit "%" | Colon => lit ":" | File => file | Kept c => ["%"%char; c] end.
Definition is_file (i : browser_item) : bool := match i with File => true | _ => false end.

Lemma expand_text esc s rest : "%"%char ∉ s →
  expand_browser esc (s ++ rest) = let '(b, f) := expand_browser esc rest in (s ++ b, f).
Proof.
  induction s as [|c s IH]; intros Hs; cbn [app expand_browser]; [by destruct (expand_browser esc rest)|].
  apply not_elem_of_cons in Hs as [Hc Hs]. rewrite bool_decide_false by congruence. rewrite IH by done. by destruct (expand_browser esc rest).
Qed.

Lemma expand_items esc items : Forall item_ok items →
  expand_browser esc (concat (item_text <$> items)) = (concat (item_value esc <$> items), existsb is_file items).
Proof.
  induction 1 as [|i items Hi _ IH]; [done|]. cbn [fmap list_fmap concat existsb].
  destruct i as [s| | | |c]; cbn [item_text item_value is_file orb].
  - rewrite expand_text by done. by rewrite IH.
  - unfold lit. cbn [String.list_ascii_of_string app expand_browser]. by rewrite IH.
  - unfold lit. cbn [String.list_ascii_of_string app expand_browser]. by rewrite IH.
  - unfold lit. cbn [String.list_ascii_of_string app expand_browser]. by rewrite IH.
  - unfold item_ok, lit in Hi. cbn [String.list_ascii_of_string] in Hi. rewrite !not_elem_of_cons in Hi.
    cbn [app expand_browser]. rewrite IH. rewrite bool_decide_true, !bool_decide_false by naive_solver. done.
Qed.

(** The command of a browser is its pattern with %s replaced by the file,
    %c by a colon and %% by a percent sign, the file being appended when the
    pattern does not mention it; and what stands for the file is a single word
    to the shell, that file's name. *)
Theorem browser_command_items items file :
  Forall item_ok items →
  ∃ esc, sh_word esc = Some (filter (λ c, c ≠ NL) file) ∧
    browser_command (concat (item_text <$> items)) file =
      concat (item_value esc <$> items) ++ (if existsb is_file items then [] else lit " " ++ esc).
Proof.
  intros Hi. destruct (escape_shell_word file) as (esc & He & _ & Hw). exists esc. split; [done|]. unfold browser_command.
  rewrite He. cbn [default from_option id]. rewrite (expand_items esc items Hi). destruct (existsb is_file items); by rewrite ?app_nil_r.
Qed.

(** ** Evaluation *)

Lemma browser_command_items_witness :
  Forall item_ok [Text (lit "lynx "); File; Kept "x"%char; Percent] ∧
  ∃ esc, sh_word esc = Some (filter (λ c, c ≠ NL) (lit "/tmp/a b.html")) ∧
    browser_command (lit "lynx %s%x%%") (lit "/tmp/a b.html") =
      concat (item_value esc <$> [Text (lit "lynx "); File; Kept "x"%char; Percent]) ++ [].
Proof.
  assert (Forall item_ok [Text (lit "lynx "); File; Kept "x"%char; Percent]) as Hi by (repeat constructor; cbn; not_in).
  split; [exact Hi|]. exact (browser_command_items [Text (lit "lynx "); File; Kept "x"%char; Percent] (lit "/tmp/a b.html") Hi).
Defined.

Definition three_paragraphs : list ascii :=
  concat ((λ l, lit l ++ [NL]) <$> ["NAME"; ""; "  "; "x"; ""; ""; ""; "y"; " "]%string).
Lemma squeeze_blank_lines_correct_witness :
  let out := squeeze_blank_lines three_paragraphs in
  paragraphs [] (input_lines out) = paragraphs [] (input_lines three_paragraphs) ∧ squeezed (input_lines out) ∧ squeeze_blank_lines out = out.
Proof. apply (squeeze_blank_lines_correct three_paragraphs). by apply (bool_decide_unpack (NUL ∉ three_paragraphs)). Defined.

Example squeeze_value :
  squeeze_blank_lines three_paragraphs = concat ((λ l, lit l ++ [NL]) <$> ["NAME"; ""; "x"; ""; "y"; ""]%string).
Proof. by vm_compute. Qed.

Example less_value :
  setenv_less (lit "page $MAN_PN.") (Some (lit "-R")) (lit "a.b$(1)") (pipecmd_new (lit "less")) =
    Ret (pipecmd_setenv (lit "MAN_PN") (lit "a\.b\?(1)")
          (pipecmd_setenv (lit "LESS") (lit "-ix8RmPmpage a\.b\?(1).$PMpage a\.b\?(1).$-R") (pipecmd_new (lit "less")))).
Proof. by vm_compute. Qed.
