(* ===== verification/ManStart.v ===== *)
(** * src/man.c: the start of main

    What happens before the first page is looked for: the terminal attributes
    saved, the locales, the options of [MANOPT] and of the command line, the
    pager, its prompt and its options; and the help text. *)

From S2P Require Import Prelude CStr StateM Fs Util Filenames Mydbm Wordfnmatch Security Globbing UltSrc Pipe Manp Manpath CheckMandirs Candidates ManArgs ManSearch ManMain ManOpts Pager.

(** ** The terminal

    The attributes belong to the terminal, which all processes share; the
    variables belong to a process, and a child has a copy of them. *)

Section terminal.
(** [zero]: the attributes of a variable never written.  The functions of the
    library work on standard input, and fail when it is not the terminal. *)
Context {termios : Type} (zero : termios) (stdin_tty : bool).

Record term_vars := TermVars { tms : termios; tms_set : Z; tms_pid : Z }.
Definition no_term : term_vars := TermVars zero 0 0.

(** [set_term] in the process [pid]: the attributes it leaves. *)
Definition set_term (pid : Z) (v : term_vars) (attrs : termios) : termios :=
  if negb (bool_decide (tms_set v = 0%Z)) && bool_decide (pid = tms_pid v)
  then if stdin_tty then tms v else attrs
  else attrs.

(** The boolean: [set_term] was registered with [atexit]. *)
Definition get_term (stdout_tty : bool) (pid : Z) (attrs : termios) (v : term_vars) : bool * term_vars :=
  if stdout_tty then
    let t := if stdin_tty then attrs else tms v in
    if bool_decide (tms_set v = 0%Z) then (true, TermVars t (tms_set v + 1) pid)
    else (false, TermVars t (tms_set v + 1) (tms_pid v))
  else (false, v).

(** While man runs: a process that inherited the variables calls [exit], or
    a program such as the pager sets the attributes. *)
Inductive term_event := Exits (pid : Z) | Sets (attrs : termios).
Definition term_step (registered : bool) (v : term_vars) (attrs : termios) (e : term_event) : termios :=
  match e with
  | Exits pid => if registered then set_term pid v attrs else attrs
  | Sets attrs => attrs
  end.
Definition term_run (registered : bool) (v : term_vars) : termios → list term_event → termios :=
  foldl (term_step registered v).

(** What the programs leave, without man's processes. *)
Definition programs_leave : termios → list term_event → termios :=
  foldl (λ attrs e, match e with Sets a => a | Exits _ => attrs end).
End terminal.

Arguments Exits {termios}.

(** Saving the attributes of a terminal and restoring them at the exit: no
    child of man touches the attributes when it exits, so that the programs on
    the terminal are not disturbed, and when man itself exits the terminal is
    as man found it; when output does not go to a terminal, or input does not
    come from one, man touches nothing. *)
Theorem terminal_restored {termios} (zero : termios) stdin_tty stdout_tty pid attrs es :
  Exits pid ∉ es →
  let '(registered, v) := get_term stdin_tty stdout_tty pid attrs (no_term zero) in
  term_run stdin_tty registered v attrs es = programs_leave attrs es ∧
  term_run stdin_tty registered v attrs (es ++ [Exits pid]) =
    if stdin_tty && stdout_tty then attrs else programs_leave attrs es.
Proof.
  intros Hes. destruct (get_term stdin_tty stdout_tty pid attrs (no_term zero)) as [registered v] eqn:Eg.
  assert (∀ a, term_run stdin_tty registered v a es = programs_leave a es) as Hrun.
  { induction es as [|e es IH]; intros a; [done|]. rewrite not_elem_of_cons in Hes. destruct Hes as [He Hes].
    cbn [term_run programs_leave foldl]. destruct e as [p|b]; [|by apply IH].
    assert (term_step stdin_tty registered v a (Exits p) = a) as ->; [|by apply IH].
    unfold get_term in Eg. destruct stdout_tty; injection Eg as <- <-; [|done].
    unfold term_step, set_term. cbn. rewrite (bool_decide_eq_false_2 (p = pid)) by congruence. done. }
  split; [apply Hrun|]. unfold term_run in *. rewrite foldl_app, Hrun. cbn [foldl].
  unfold get_term in Eg. destruct stdout_tty; injection Eg as <- <-; [|by rewrite andb_false_r].
  unfold term_step, set_term. cbn. rewrite (bool_decide_eq_true_2 (pid = pid)) by done. by destruct stdin_tty.
Qed.

Lemma terminal_restored_witness :
  let es := [Exits 101; Sets 7; Exits 102; Exits 101]%Z in
  let '(registered, v) := get_term true true 100 3%Z (no_term 0%Z) in
  term_run true registered v 3%Z es = programs_leave 3%Z es ∧ term_run true registered v 3%Z (es ++ [Exits 100]) = 3%Z.
Proof. apply (terminal_restored 0%Z true true 100 3%Z [Exits 101; Sets 7; Exits 102; Exits 101]%Z). rewrite !not_elem_of_cons. split_and!; [done..|apply not_elem_of_nil]. Defined.

(** ** The help text *)

(** [xasprintf] with a text that has at most one [%s]. *)
Definition put_name (text name : cstr) : cstr :=
  match strstr text (lit "%s") with
  | Some k => take k text ++ name ++ drop (k + 2) text
  | None => text
  end.

(** [help_filter]: the text for an option. *)
Definition help_filter (html_pager : option cstr) (key : opt_key) (text : cstr) : outcome cstr :=
  match key with
  | Short "t" | Short "T" => Ret (put_name text (lit "groff"))
  | Short "H" =>
    match html_pager with
    | None => Fatal "assertion: browser"
    | Some browser => Ret (put_name text (if STRNEQ browser (lit "exec ") 5 then drop 5 browser else browser))
    end
  | _ => Ret text
  end%char.

(** ** Locales *)

(** [multiple_locale] and [internal_locale] at first: [LANGUAGE] counts only
    when the locale of the messages is a real one. *)
Definition initial_locales (lc_messages LANGUAGE : option cstr) : option cstr * cstr :=
  (match lc_messages with
   | Some l => if negb (STREQ l (lit "C")) && negb (STREQ l (lit "POSIX")) then LANGUAGE else None
   | None => None
   end,
   match lc_messages with Some l => l | None => lit "C" end).

(** The locale of [-L]; [setlocale] may not know it. *)
Definition change_locale (setlocale_all : cstr → option cstr) (locale : option cstr) (env : string → option cstr)
    (ls : option cstr * cstr) : (string → option cstr) * (option cstr * cstr) :=
  match locale with
  | None => (env, ls)
  | Some l =>
    let internal := match setlocale_all l with Some i => i | None => l end in
    (setenv "LANGUAGE" internal env, (None, internal))
  end.

(** ** The prompt and the options of less *)

Definition default_prompt : cstr :=
  lit " Manual page " ++ MAN_PN ++ lit " ?ltline %lt?L/%L.:byte %bB?s/%s..?e (END):?pB %pB\%.. (press h for help or q to quit)".

Definition choose_prompt (getenv : string → option cstr) (prompt : option cstr) : cstr :=
  match prompt with
  | Some p => p
  | None => match getenv "MANLESS"%string with Some p => p | None => default_prompt end
  end.

(** [less], and the environment with [MAN_ORIG_LESS]. *)
Definition original_less (getenv : string → option cstr) : option cstr * (string → option cstr) :=
  let less := match getenv "MAN_ORIG_LESS"%string with Some l => Some l | None => getenv "LESS"%string end in
  (less, setenv "MAN_ORIG_LESS" (default [] less) getenv).

(** A man that runs under the pager of another one gives its pager the options
    the user has in LESS, not those the first man put there. *)
Theorem nested_less getenv opts :
  default [] (original_less (setenv "LESS" opts (original_less getenv).2)).1 = default [] (original_less getenv).1.
Proof. unfold original_less, setenv. cbn [fst snd]. rewrite (decide_False (P := "MAN_ORIG_LESS"%string = "LESS"%string)) by done. by rewrite decide_True. Qed.

(** ** The whole of main *)

Section start.
Context {db : Type} `{Mydbm db} `{IdPriv} `{FileSystem} `{Dirname} `{PageText} `{Matcher} `{OrderFiles}.
(** What is read once the options are known, the configuration file among it. *)
Context (base : options → ManEnv db).
(** The answers of [setlocale], argp's reading of a command line into options
    and the arguments after them, and the settings of configure. *)
Context (setlocale_ok : bool) (lc_messages : option cstr) (setlocale_all : cstr → option cstr).
Context (argp_options : list cstr → list (opt_key * option cstr)) (argp_rest : list cstr → list cstr).
Context (HEIRLOOM_NROFF : bool) (PROG_BROWSER PROG_PAGER PROG_CAT : cstr).

Record settings := Settings {
  st_options : options;
  st_locales : option cstr * cstr;     (* [multiple_locale], [internal_locale] *)
  st_sec : sec_state;
  st_pager : cstr;
  st_prompt : cstr;
  st_less : option cstr;
  st_env : string → option cstr;
}.

(** whatis or apropos takes the place of man, or man goes on. *)
Inductive started := Replaced_by (cmd : pipecmd) (sec : sec_state) | Started (s : settings).

(** From the beginning of [main] to the choice of the pager and its options;
    [get_term], which is called in between, has no effect on the rest. *)
Definition start (getenv : string → option cstr) (p0 : process) (program : cstr) (argv : list cstr) : outcome started :=
  let debug := init_debug getenv false in
  let getenv := (init_locale setlocale_ok getenv).2 in
  let locales := initial_locales lc_messages (getenv "LANGUAGE"%string) in
  let parse_opts := parse_opts HEIRLOOM_NROFF (getenv "BROWSER"%string) PROG_BROWSER in
  let o := set_flag debug_level debug (initial_options (getenv "BROWSER"%string) PROG_BROWSER) in
  o ← (match manopt_to_env program (getenv "MANOPT"%string) with
       | Some argv_env => parse_opts (argp_options argv_env) o
       | None => Ret o
       end);
  o ← parse_opts (argp_options argv) o;
  sec ← init_security p0;
  match opt_str o external with
  | Some _ => cmd ← do_extern o (argp_rest argv); Ret (Replaced_by cmd sec)
  | None =>
    let '(getenv, locales) := change_locale setlocale_all (opt_str o locale) getenv locales in
    let pager := if opt_flag o htmlout then opt_str o html_pager else opt_str o pager in
    pager ← choose_pager (ManEnv0 := base o) getenv PROG_PAGER PROG_CAT pager;
    let prompt := choose_prompt getenv (opt_str o prompt_string) in
    let '(less, getenv) := original_less getenv in
    Ret (Started (Settings o locales sec pager prompt less getenv))
  end.

(** The variables the search reads. *)
Definition search_options (o : options) : man_options := {|
  mo_match_case := opt_flag o match_case; mo_regex := opt_flag o regex_opt; mo_wildcard := opt_flag o wildcard;
  mo_names_only := opt_flag o names_only; mo_findall := opt_flag o findall; mo_global_apropos := opt_flag o global_apropos;
  mo_catman := opt_flag o catman; mo_troff := opt_flag o troff;
  mo_want_encoding := bool_decide (is_Some (opt_str o want_encoding)); mo_recode := bool_decide (is_Some (opt_str o recode));
  mo_update := opt_flag o update; mo_extension := opt_str o extension; mo_ult_flags := opt_ult_flags o;
|}.

Definition env_of (s : settings) : ManEnv db :=
  let e := base (st_options s) in
  {| comp_cfg := @comp_cfg _ e; COMP_CAT := @COMP_CAT _ e; MAN_DB := @MAN_DB _ e; MAN_DB_CREATES := @MAN_DB_CREATES _ e;
     MAN_DB_UPDATES := @MAN_DB_UPDATES _ e; conf := @conf _ e; dir_layout := @dir_layout _ e; OVERRIDE_DIR := @OVERRIDE_DIR _ e;
     env_PATH := @env_PATH _ e; env_cwd := @env_cwd _ e;
     multiple_locale := (st_locales s).1; internal_locale := Some (st_locales s).2;
     man_opts := search_options (st_options s);
     section_list := get_section_list (@conf _ e) (opt_str (st_options s) colon_sep_section_list) (st_env s "MANSECT"%string);
     display_page := @display_page _ e; run_mandb := @run_mandb _ e; can_write := @can_write _ e; regcomp_ok := @regcomp_ok _ e |}.

Definition initial_state (dbs : cstr → option db) (s : settings) : man_state db :=
  ManState (st_sec s) ∅ (CandState [] 0 no_cache) None dbs false None [] (opt_flag (st_options s) local_man_file) false None [].

(** [main]: the program that replaces man, or the exit status and what was
    printed. *)
Definition main (dbs : cstr → option db) (getenv : string → option cstr) (p0 : process) (program : cstr) (argv : list cstr)
    : outcome (pipecmd + Z * list cstr * list cstr * man_state db) :=
  st ← start getenv p0 program argv;
  match st with
  | Replaced_by cmd _ => Ret (inl cmd)
  | Started s =>
    let o := st_options s in
    '(r, st) ← man_main (ManEnv0 := env_of s) (st_env s) (opt_flag o subpages) (opt_flag o print_where)
                 (opt_str o manp) (opt_str o alt_system_name) None (argp_rest argv) (initial_state dbs s);
    Ret (inr (r, st))
  end.
End start.

(** ** What the start establishes *)

Section start_theorems.
Context {db : Type} `{Mydbm db} `{IdPriv} `{FileSystem} `{Dirname} `{PageText} `{Matcher} `{OrderFiles}.
Context (base : options → ManEnv db).
Context (setlocale_ok : bool) (lc_messages : option cstr) (setlocale_all : cstr → option cstr).
Context (argp_options : list cstr → list (opt_key * option cstr)) (argp_rest : list cstr → list cstr).
Context (HEIRLOOM_NROFF : bool) (PROG_BROWSER PROG_PAGER PROG_CAT : cstr).
#[local] Abbreviation start := (start base setlocale_ok lc_messages setlocale_all argp_options argp_rest HEIRLOOM_NROFF PROG_BROWSER PROG_PAGER PROG_CAT).

Lemma debug_ok b o : options_ok HEIRLOOM_NROFF o → options_ok HEIRLOOM_NROFF (set_flag debug_level b o).
Proof. intros []. split; eauto. Qed.

(** However man is called, when it goes on to the search it runs with the
    user's ids, a search by pattern shows all matches, a page to be recoded is
    not followed to another one, and a locale asked for is the only one that
    pages are looked for in; a program that takes its place is whatis or
    apropos, and is started with the user's ids too. *)
Theorem start_correct getenv p0 program argv st :
  start getenv p0 program argv = Ret st →
  match st with
  | Replaced_by cmd sec =>
    Security.reachable p0 1 sec ∧ ∃ o, do_extern o (argp_rest argv) = Ret cmd ∧
      (opt_str o external = Some WHATIS ∨ opt_str o external = Some APROPOS)
  | Started s =>
    Security.reachable p0 1 (st_sec s) ∧ options_ok HEIRLOOM_NROFF (st_options s) ∧ opt_str (st_options s) external = None ∧
    (let so := search_options (st_options s) in
     (mo_regex so || mo_wildcard so = true → mo_findall so = true) ∧
     (mo_recode so = true → Z.land (mo_ult_flags so) SO_LINK = 0%Z)) ∧
    (∀ l, opt_str (st_options s) locale = Some l →
      st_locales s = (None, default l (setlocale_all l)) ∧ st_env s "LANGUAGE"%string = Some (default l (setlocale_all l)))
  end.
Proof.
  unfold ManStart.start. set (env := (init_locale setlocale_ok getenv).2).
  intros (o1 & Ho1 & (o & Ho & (sec & Hsec & Hst)%bind_Ret_inv)%bind_Ret_inv)%bind_Ret_inv.
  assert (options_ok HEIRLOOM_NROFF o) as Hok.
  { eapply parse_opts_ok, Ho. destruct (manopt_to_env program (env "MANOPT"%string)).
    - eapply parse_opts_ok, Ho1. apply debug_ok, initial_ok.
    - injection Ho1 as <-. apply debug_ok, initial_ok. }
  assert (Security.reachable p0 1 sec) as Hr by by constructor.
  destruct (opt_str o external) as [ext|] eqn:Ee.
  - apply bind_Ret_inv in Hst as (cmd & Hc & [= <-]). split; [done|]. exists o. split; [done|].
    destruct (ok_external _ o Hok ext Ee) as [[-> _]|[-> _]]; auto.
  - destruct (change_locale _ _ _ _) as [env' ls] eqn:El. apply bind_Ret_inv in Hst as (pg & _ & Hst).
    destruct (original_less env') as [less env''] eqn:Eo. injection Hst as <-. cbn [st_sec st_options st_locales st_env].
    split_and!; [done|done|done|apply Hok|..].
    + cbn [search_options mo_recode mo_ult_flags]. intros Hre%bool_decide_eq_true. by apply Hok.
    + intros l Hl. rewrite Hl in El. cbn [change_locale] in El. injection El as <- <-.
      split; [by destruct (setlocale_all l)|]. injection Eo as <- <-. unfold setenv. by destruct (setlocale_all l).
Qed.
End start_theorems.

(** ** Evaluation *)

(** A setuid man, called by a user whose pager is [more], with the options that
    argp reads in [keys]. *)
Definition demo_start (keys : list (opt_key * option cstr)) : outcome started :=
  start (H0 := able_idpriv) (H1 := demo_fs) (λ _, demo_env) true (Some (lit "en_GB.UTF-8")) (λ _, None) (λ _, keys) (drop 1)
    false (lit "exec firefox") (lit "less") (lit "cat")
    (λ v, if decide (v = "PAGER"%string) then Some (lit "more") else None) setuid_man (lit "man") [lit "man"; lit "ls"].

Lemma start_correct_witness :
  match demo_start [(Short "L", Some (lit "de")); (OPT_REGEX, None); (ARGP_KEY_SUCCESS, None)]%char with
  | Ret (Started s) =>
    Security.reachable (H := able_idpriv) setuid_man 1 (st_sec s) ∧ st_locales s = (None, lit "de") ∧ mo_findall (search_options (st_options s)) = true
  | _ => False
  end.
Proof.
  pose proof (start_correct (H0 := able_idpriv) (H1 := demo_fs) (λ _, demo_env) true (Some (lit "en_GB.UTF-8")) (λ _, None)
    (λ _, [(Short "L", Some (lit "de")); (OPT_REGEX, None); (ARGP_KEY_SUCCESS, None)]%char) (drop 1)
    false (lit "exec firefox") (lit "less") (lit "cat")
    (λ v, if decide (v = "PAGER"%string) then Some (lit "more") else None) setuid_man (lit "man") [lit "man"; lit "ls"] _ eq_refl) as Hs.
  destruct Hs as (Hr & _ & _ & (Hf & _) & Hl). split_and!; [exact Hr|apply (Hl (lit "de")); reflexivity|apply Hf; reflexivity].
Defined.

Example apropos_replaces_man :
  match demo_start [(Short "k", None); (ARGP_KEY_SUCCESS, None)]%char with
  | Ret (Replaced_by cmd sec) => cmd_args cmd = Word ∘ lit <$> ["apropos"; "ls"] ∧ sec = Security.started
  | _ => False
  end.
Proof. by vm_compute. Qed.

Example help_names : help_filter (Some (lit "exec firefox")) (Short "H"%char) (lit "use %s or BROWSER") = Ret (lit "use firefox or BROWSER").
Proof. by vm_compute. Qed.
