(* ===== verification/CatFile.v ===== *)
(** * src/man.c: saving cat files

    A formatted page is saved by writing it to a temporary file in the
    directory of the cat file and renaming that.  The files are a store, whose
    earlier contents are kept: the theorems are about every store that another
    process can see. *)

From S2P Require Import Prelude CStr StateM Fs Security Pipe Decompress.

(** ** Definitions *)

Record cat_entry := CatEntry { ce_data : list ascii; ce_mode : Z; ce_owner : option (Z * Z); ce_mtime : option timespec }.
Abbreviation cat_store := (gmap cstr cat_entry).

(** [ct_seen]: the stores before this one; [ct_cleanup]: the temporary files
    that the cleanup functions will unlink; [ct_runs]: the pipelines that were
    run together, and the ids of the process then. *)
Record cat_state := CatState {
  ct_files : cat_store;
  ct_seen : list cat_store;
  ct_cleanup : list cstr;
  ct_sec : sec_state;
  ct_runs : list (list pipeline * sec_state);
}.

Abbreviation catM := (exitM cat_state).

Definition cat_write (f : cat_store → cat_store) : catM unit :=
  λ s, (Ret tt, CatState (f (ct_files s)) (ct_seen s ++ [ct_files s]) (ct_cleanup s) (ct_sec s) (ct_runs s)).
(** The stack of cleanup functions: all entries here unlink a file. *)
Fixpoint remove_top_file (tmp : cstr) (l : list cstr) : list cstr :=
  match l with
  | [] => []
  | x :: l => if bool_decide (x = tmp) then l else x :: remove_top_file tmp l
  end.
Definition set_cleanup (f : list cstr → list cstr) : catM unit :=
  λ s, (Ret tt, CatState (ct_files s) (ct_seen s) (f (ct_cleanup s)) (ct_sec s) (ct_runs s)).
Definition push_unlink (tmp : cstr) : catM unit := set_cleanup (cons tmp).
Definition pop_unlink (tmp : cstr) : catM unit := set_cleanup (remove_top_file tmp).

Definition CATMODE : Z := 420. (* 0644 *)

(** The system calls: a temporary file's name, or the errno; whether a call on
    a file succeeds; and the pipelines that were run as the [n]th: the exit
    status of each, and what they write to the descriptor of the last. *)
Inductive errno := EACCES_or_EROFS | Other_errno.
Class CatEnv := {
  mkstemp : cat_store → cstr → errno + cstr;
  chown_ok : cstr → bool;
  chmod_ok : cstr → bool;
  rename_ok : cstr → cstr → bool;
  utimens_ok : cstr → bool;
  unlink_ok : cstr → bool;
  man_owner : option (Z * Z);
  debug : bool;                     (* [debug_level] *)
  keep_stderr : bool;               (* what [maybe_discard_stderr] finds *)
  run_status : nat → list pipeline → nat → Z;
  run_data : nat → list pipeline → list ascii;
}.

Section cat.
Context `{CatEnv} `{IdPriv}.
(** The global variables of man.c. *)
Context (global_manpath : bool) (man_modtime : timespec) (COMP_CAT : option cstr).

Definition drop_privs_in_cat : catM unit := λ s,
  match drop_effective_privs (ct_sec s) with
  | Ret sec => (Ret tt, CatState (ct_files s) (ct_seen s) (ct_cleanup s) sec (ct_runs s))
  | Fatal e => (Fatal e, s) | Undef e => (Undef e, s)
  end.
Definition regain_privs_in_cat : catM unit := λ s,
  match regain_effective_privs (ct_sec s) with
  | Ret sec => (Ret tt, CatState (ct_files s) (ct_seen s) (ct_cleanup s) sec (ct_runs s))
  | Fatal e => (Fatal e, s) | Undef e => (Undef e, s)
  end.

(** Run pipelines together; the last writes to the file named, if one is. *)
Definition run_pipelines (ps : list pipeline) (file : option cstr) : catM (nat → Z) :=
  s ← exit_get;
  let n := length (ct_runs s) in
  _ ← (λ s, (Ret tt, CatState (ct_files s) (ct_seen s) (ct_cleanup s) (ct_sec s) (ct_runs s ++ [(ps, ct_sec s)])));
  _ ← (match file with
       | Some f => cat_write (alter (λ e, CatEntry (ce_data e ++ run_data n ps) (ce_mode e) (ce_owner e) (ce_mtime e)) f)
       | None => mret tt
       end);
  mret (run_status n ps).

(** *** The temporary file *)

Definition tmp_template (cat_file : cstr) : cstr :=
  (match strrchr cat_file "/"%char with Some slash => take (S slash) cat_file | None => [] end) ++ lit "catXXXXXX".

(** The file, with mode 0600; the errno when it cannot be created. *)
Definition tmp_cat_filename (cat_file : cstr) : catM (errno + cstr) :=
  if debug then mret (inr (lit "/dev/null"))
  else
    s ← exit_get;
    match mkstemp (ct_files s) (tmp_template cat_file) with
    | inl e => mret (inl e)
    | inr name => _ ← cat_write (<[name := CatEntry [] 384 None None]>); mret (inr name)
    end.

(** One step of [commit_tmp_cat]: a system call on a file, done only when
    nothing failed before. *)
Definition commit_step (skip : bool) (status : Z) (ok : bool) (f : cat_store → cat_store) : catM Z :=
  if skip || negb (status =? 0)%Z then mret status
  else if debug then mret 0%Z
  else if ok then _ ← cat_write f; mret 0%Z
  else mret (-1)%Z.

Definition rename_file (from to : cstr) (m : cat_store) : cat_store :=
  match m !! from with Some e => <[to := e]> (delete from m) | None => m end.

Definition commit_tmp_cat (cat_file tmp_cat : cstr) (del : bool) : catM Z :=
  s ← exit_get;
  let status := 0%Z in
  status ←
    (if negb del && global_manpath && bool_decide (euid (ct_sec s) = 0)%Z && negb debug then
       match man_owner with
       | None => exit_lift (Fatal "the setuid man user does not exist")
       | Some ids => commit_step del status (chown_ok tmp_cat) (alter (λ e, CatEntry (ce_data e) (ce_mode e) (Some ids) (ce_mtime e)) tmp_cat)
       end
     else mret status);
  status ← commit_step del status (chmod_ok tmp_cat) (alter (λ e, CatEntry (ce_data e) CATMODE (ce_owner e) (ce_mtime e)) tmp_cat);
  status ← commit_step del status (rename_ok tmp_cat cat_file) (rename_file tmp_cat cat_file);
  status ← commit_step del status (utimens_ok cat_file)
             (alter (λ e, CatEntry (ce_data e) (ce_mode e) (ce_owner e) (Some man_modtime)) cat_file);
  _ ← (if (del || negb (status =? 0)%Z) && negb debug && unlink_ok tmp_cat then cat_write (delete tmp_cat) else mret tt);
  mret status.

(** *** Saving while displaying *)

Definition output_iconv (source target : cstr) (p : pipeline) : pipeline :=
  if STREQ source target then p
  else pipeline_command (sandboxed (pipecmd_new_args [lit "iconv"; lit "-c"; lit "-f"; source; lit "-t"; target ++ lit "//TRANSLIT"])) p.
Definition compressor (nice : Z) (p : pipeline) : pipeline :=
  match COMP_CAT with
  | Some c => pipeline_command (sandboxed (pipecmd_nice nice (pipecmd_new_argstr c))) p
  | None => p
  end.

(** The pipeline that writes the temporary file, and the file; [None] when
    there is no permission to write one. *)
Definition open_cat_stream (cat_file encoding : cstr) : catM (option (pipeline * cstr)) :=
  tmp ← tmp_cat_filename cat_file;
  match tmp with
  | inl EACCES_or_EROFS => if debug then exit_lift (Fatal "can't create temporary cat") else mret None
  | inl Other_errno => exit_lift (Fatal "can't create temporary cat")
  | inr tmp =>
    _ ← (if debug then mret tt else push_unlink tmp);
    mret (Some (compressor 10 (output_iconv encoding (lit "UTF-8") pipeline_new), tmp))
  end.

Definition close_cat_stream (cat_file tmp : cstr) (wait_status : Z) (del : bool) : catM Z :=
  c ← commit_tmp_cat cat_file tmp (del || negb (wait_status =? 0)%Z);
  _ ← (if debug then mret tt else pop_unlink tmp);
  mret (Z.lor wait_status c).

Definition maybe_discard_stderr (p : pipeline) : pipeline :=
  if keep_stderr then p else set_cmds (pipecmd_discard_err <$> pl_cmds p) p.

Definition format_display_and_save (decomp format_cmd disp_cmd : pipeline) (cat_file encoding : cstr) : catM Z :=
  sav ← open_cat_stream cat_file encoding;
  _ ← (if global_manpath then drop_privs_in_cat else mret tt);
  let format_cmd := maybe_discard_stderr format_cmd in
  status ←
    (match sav with
     | Some (sav_p, tmp) => run_pipelines [decomp; format_cmd; disp_cmd; sav_p] (if debug then None else Some tmp)
     | None => run_pipelines [decomp; format_cmd; disp_cmd] None
     end);
  _ ← (if global_manpath then regain_privs_in_cat else mret tt);
  let instat := status 1 in
  _ ← (match sav with
       | Some (_, tmp) => close_cat_stream cat_file tmp (status 3) (negb (instat =? 0)%Z)
       | None => mret 0%Z
       end);
  mret instat.

(** *** Saving without displaying *)

Definition display_catman (cat_file : cstr) (decomp format_cmd : pipeline) (encoding : cstr) : catM unit :=
  tmpcat ← tmp_cat_filename cat_file;
  match tmpcat with
  | inl _ => exit_lift (Undef "display_catman: no temporary file")
  | inr tmpcat =>
    let format_cmd := maybe_discard_stderr (compressor 0 (output_iconv encoding (lit "UTF-8") format_cmd)) in
    _ ← push_unlink tmpcat;
    _ ← drop_privs_in_cat;
    status ← run_pipelines [decomp; format_cmd] (if debug then None else Some tmpcat);
    _ ← regain_privs_in_cat;
    if negb (status 1%nat =? 0)%Z then exit_lift (Fatal "command exited with status")
    else
      _ ← commit_tmp_cat cat_file tmpcat false;
      pop_unlink tmpcat
  end.

(** When the program ends the cleanup functions run, the last pushed first. *)
Definition exit_cleanup (s : cat_state) : cat_state :=
  fold_left (λ s tmp, if unlink_ok tmp then CatState (delete tmp (ct_files s)) (ct_seen s ++ [ct_files s]) [] (ct_sec s) (ct_runs s) else s)
    (ct_cleanup s) s.
End cat.

(** ** Cat files are published at once *)

(** The template's last six characters are replaced, and the name is new. *)
Class MkstempLaws `{CatEnv} : Prop := {
  mkstemp_fresh m t name : mkstemp m t = inr name → m !! name = None;
  mkstemp_name m t name : mkstemp m t = inr name → ∃ six, length six = 6 ∧ name = take (length t - 6) t ++ six;
}.

(** [cat_file] is not itself called like a temporary file. *)
Definition not_temporary (cat_file : cstr) : Prop :=
  ∀ six, length six = 6 → cat_file ≠ take (length (tmp_template cat_file) - 6) (tmp_template cat_file) ++ six.

Section publish.
Context `{MkstempLaws} `{IdPriv}.
Context (global_manpath : bool) (man_modtime : timespec) (COMP_CAT : option cstr).
(** The store before, the name of the cat file, and what is written when it is
    all right ([ok]). *)
Context (m0 : cat_store) (cat_file tmp : cstr) (ok : Prop) (data : list ascii).

Definition complete (e : cat_entry) : Prop := ce_data e = data ∧ ce_mode e = CATMODE.

(** What another process may see: the cat file as it was or complete, and no
    other file changed but the temporary one. *)
Record visible (m : cat_store) : Prop := Visible {
  vi_cat : m !! cat_file = m0 !! cat_file ∨ ok ∧ ∃ e, m !! cat_file = Some e ∧ complete e;
  vi_other f : f ≠ cat_file → f ≠ tmp → m !! f = m0 !! f;
}.
Context (Htmp : tmp ≠ cat_file).

Lemma visible_tmp m f : visible m → (∀ g, g ≠ tmp → f m !! g = m !! g) → visible (f m).
Proof. intros [Hc Ho] Hf. split; [rewrite Hf by done; exact Hc|]. intros g Hg Hgt. by rewrite Hf, Ho. Qed.
Lemma visible_alter m h : visible m → visible (alter h tmp m).
Proof. intros Hm. apply (visible_tmp m (alter h tmp)); [done|]. intros g Hg. by apply lookup_alter_ne. Qed.
Lemma visible_delete m : visible m → visible (delete tmp m).
Proof. intros Hm. apply (visible_tmp m (delete tmp)); [done|]. intros g Hg. by apply lookup_delete_ne. Qed.
Lemma visible_rename m e : visible m → m !! tmp = Some e → ok → complete e → visible (rename_file tmp cat_file m).
Proof.
  intros [Hc Ho] He Hok Hce. unfold rename_file. rewrite He. split.
  - right. split; [done|]. exists e. by rewrite lookup_insert_eq.
  - intros f Hf Hft. by rewrite lookup_insert_ne, lookup_delete_ne by done; auto.
Qed.
Lemma visible_times m e t : visible m → m !! cat_file = Some e → ok → complete e →
  visible (alter (λ e, CatEntry (ce_data e) (ce_mode e) (ce_owner e) t) cat_file m).
Proof.
  intros [Hc Ho] He Hok [Hd Hm]. split.
  - right. split; [done|]. eexists. rewrite lookup_alter_eq, He. by split.
  - intros f Hf Hft. rewrite lookup_alter_ne by done. by apply Ho.
Qed.

(** The stores since [seen0]. *)
Context (seen0 : list cat_store).
Definition all_visible (s : cat_state) : Prop :=
  ∃ l, ct_seen s = seen0 ++ l ∧ Forall visible l ∧ visible (ct_files s).

Lemma write_visible f s r s' :
  all_visible s → visible (f (ct_files s)) → cat_write f s = (r, s') →
  r = Ret tt ∧ all_visible s' ∧ ct_files s' = f (ct_files s) ∧ ct_cleanup s' = ct_cleanup s ∧ ct_sec s' = ct_sec s.
Proof.
  intros (l & Hl & Hv & Hm) Hf [= <- <-]. split_and!; [done| |done..]. exists (l ++ [ct_files s]). cbn.
  rewrite Hl, <-app_assoc. split_and!; [done|by apply Forall_app_2; [|apply Forall_singleton]|done].
Qed.

(** A step that is not skipped does its work or fails. *)
Lemma commit_step_run skip status success f s r s' :
  debug = false → commit_step skip status success f s = (r, s') →
  if skip || negb (status =? 0)%Z || negb success then
    r = Ret (if skip || negb (status =? 0)%Z then status else (-1)%Z) ∧ s' = s
  else r = Ret 0%Z ∧ cat_write f s = (Ret tt, s').
Proof.
  intros Hd. unfold commit_step. rewrite Hd. destruct (skip || negb (status =? 0)%Z); cbn [orb]; [by intros [= <- <-]|].
  destruct success; cbn [negb]; [|by intros [= <- <-]]. unfold mbind, exitM_bind, cat_write, mret, exitM_ret. by intros [= <- <-].
Qed.

Lemma commit_step_ret skip status success f s r s' : commit_step skip status success f s = (r, s') → is_ret r = true.
Proof. unfold commit_step. repeat case_match; by intros [= <- _]. Qed.

(** What an operation of [commit_tmp_cat] leaves alone. *)
Definition same_rest (s s' : cat_state) : Prop := ct_cleanup s' = ct_cleanup s ∧ ct_sec s' = ct_sec s.

Lemma step_visible status success f s r s' :
  debug = false → all_visible s → (status = 0%Z → visible (f (ct_files s))) →
  commit_step false status success f s = (r, s') →
  ∃ st, r = Ret st ∧ all_visible s' ∧ same_rest s s' ∧
    (st = 0%Z ∧ status = 0%Z ∧ success = true ∧ ct_files s' = f (ct_files s) ∨ st ≠ 0%Z ∧ ct_files s' = ct_files s).
Proof.
  intros Hd Hs Hf Hr. apply commit_step_run in Hr; [|done]. cbn [orb] in Hr. destruct (Z.eqb_spec status 0) as [->|Hne]; cbn [negb orb] in Hr.
  - destruct success; cbn [negb] in Hr; destruct Hr as [-> Hr].
    + eapply write_visible in Hr as (_ & Hv & Hfl & Hcl & Hse); [|done|by apply Hf]. eexists. split_and!; [done|done|done|left; done].
    + subst s'. eexists. split_and!; [done|done|done|by right].
  - destruct Hr as [-> ->]. eexists. split_and!; [done|done|done|by right].
Qed.

(** The unlink at the end. *)
Lemma unlink_visible del status s s1 r s' :
  debug = false → all_visible s1 → same_rest s s1 → (status = 0%Z → del = false → ct_files s1 !! tmp = None) →
  (_ ← (if (del || negb (status =? 0)%Z) && negb debug && unlink_ok tmp then cat_write (delete tmp) else mret tt); mret (M := catM) status) s1 = (r, s') →
  all_visible s' ∧ same_rest s s' ∧
  ((∃ st, r = Ret st ∧ (unlink_ok tmp = true → ct_files s' !! tmp = None)) ∨ (∃ e, r = Fatal e ∧ s' = s)).
Proof.
  intros Hd Hv1 Hs1 Hg Hr. rewrite Hd in Hr. cbn [negb andb] in Hr. rewrite andb_true_r in Hr.
  destruct (del || negb (status =? 0)%Z) eqn:Edel; cbn [andb] in Hr.
  - destruct (unlink_ok tmp) eqn:Eu.
    + exit_step Hr u s2 Hw; [|discriminate Hw..].
      injection Hr as <- <-. eapply write_visible in Hw as (_ & Hv & Hfl & Hcl & Hse); [|done|destruct Hv1 as (? & _ & _ & ?); by apply visible_delete].
      destruct Hs1. split_and!; [done|split; congruence|]. left. eexists. split; [done|]. intros _. by rewrite Hfl, lookup_delete_eq.
    + injection Hr as <- <-. split_and!; [done|done|]. left. by eexists.
  - injection Hr as <- <-. split_and!; [done|done|]. left. eexists. split; [done|]. intros _.
    apply orb_false_iff in Edel as [-> Hst]. apply Hg; [|done]. apply negb_false_iff in Hst. by apply Z.eqb_eq.
Qed.

Lemma commit_visible del s e r s' :
  debug = false → all_visible s → ct_files s !! tmp = Some e → (del = false → ok ∧ ce_data e = data) →
  commit_tmp_cat global_manpath man_modtime cat_file tmp del s = (r, s') →
  all_visible s' ∧ same_rest s s' ∧
  ((∃ st, r = Ret st ∧ (unlink_ok tmp = true → ct_files s' !! tmp = None)) ∨ (∃ e, r = Fatal e ∧ s' = s)).
Proof.
  intros Hd Hs He Hdel Hr. unfold commit_tmp_cat in Hr.
  exit_step Hr s0 s1 Hg; [|discriminate Hg..]. injection Hg as <- <-. exit_step Hr st1 s1 Hst1.
  2: { subst r. destruct (_ && _); [|discriminate Hst1]. destruct man_owner; [|injection Hst1 as _ <-; split_and!; [done|done|right; by eexists]].
       unfold commit_step in Hst1. repeat case_match; try discriminate Hst1. }
  2: { exfalso. destruct (_ && _); [|discriminate Hst1]. destruct man_owner; [|discriminate Hst1]. unfold commit_step in Hst1. repeat case_match; discriminate Hst1. }
  destruct del.
  { (* nothing is done but the unlink *)
    cbn [negb andb] in Hst1. injection Hst1 as <- <-. unfold commit_step in Hr. cbn [orb] in Hr.
    exit_step Hr st2 s2 Hst2; [|discriminate Hst2..]. injection Hst2 as <- <-. exit_step Hr st3 s3 Hst3; [|discriminate Hst3..]. injection Hst3 as <- <-.
    exit_step Hr st4 s4 Hst4; [|discriminate Hst4..]. injection Hst4 as <- <-. by eapply (unlink_visible true 0%Z); [..|exact Hr]. }
  destruct (Hdel eq_refl) as [Hok Hdata].
  assert (all_visible s1 ∧ same_rest s s1 ∧ (st1 = 0%Z → ∃ e1, ct_files s1 !! tmp = Some e1 ∧ ce_data e1 = data)) as (Hv1 & Hs1 & He1).
  { destruct (_ && _); [|injection Hst1 as <- <-; split_and!; [done|done|intros _; by exists e]]. destruct man_owner as [ids|]; [|discriminate Hst1].
    apply step_visible in Hst1 as (st & [= ->] & Hv & Hsr & Hc); [|done|done|intros _; destruct Hs as (? & _ & _ & ?); by apply visible_alter].
    split_and!; [done|done|]. intros ->. destruct Hc as [(_ & _ & _ & ->)|[[] _]]; [|done]. rewrite lookup_alter_eq, He. by eexists. }
  assert (∀ sk st b f sa x sb, commit_step sk st b f sa = (Fatal x, sb) → False) as Hnf by (intros * Hx; by apply commit_step_ret in Hx).
  assert (∀ sk st b f sa x sb, commit_step sk st b f sa = (Undef x, sb) → False) as Hnu by (intros * Hx; by apply commit_step_ret in Hx).
  exit_step Hr st2 s2 Hst2; [|by apply Hnf in Hst2|by apply Hnu in Hst2].
  apply step_visible in Hst2 as (st & [= ->] & Hv2 & Hs2 & Hc2); [|done|done|intros _; destruct Hv1 as (? & _ & _ & ?); by apply visible_alter].
  exit_step Hr st3 s3 Hst3; [|by apply Hnf in Hst3|by apply Hnu in Hst3].
  assert (st = 0%Z → ∃ e2, ct_files s2 !! tmp = Some e2 ∧ complete e2) as He2.
  { intros ->. destruct Hc2 as [(_ & -> & _ & ->)|[[] _]]; [|done]. destruct (He1 eq_refl) as (e1 & He1' & Hd1).
    rewrite lookup_alter_eq, He1'. by eexists. }
  apply step_visible in Hst3 as (st3' & [= ->] & Hv3 & Hs3 & Hc3); [|done|done|].
  2: { intros ->. destruct (He2 eq_refl) as (e2 & He2' & Hce). destruct Hv2 as (? & _ & _ & ?). by eapply visible_rename. }
  assert (st3' = 0%Z → ct_files s3 !! tmp = None ∧ ∃ e3, ct_files s3 !! cat_file = Some e3 ∧ complete e3) as He3.
  { intros ->. destruct Hc3 as [(_ & -> & _ & ->)|[[] _]]; [|done]. destruct (He2 eq_refl) as (e2 & He2' & Hce). unfold rename_file. rewrite He2'.
    split; [by rewrite lookup_insert_ne, lookup_delete_eq by done|]. exists e2. by rewrite lookup_insert_eq. }
  exit_step Hr st4 s4 Hst4; [|by apply Hnf in Hst4|by apply Hnu in Hst4].
  apply step_visible in Hst4 as (st4' & [= ->] & Hv4 & Hs4 & Hc4); [|done|done|].
  2: { intros ->. destruct (He3 eq_refl) as (_ & e3 & He3' & Hce). destruct Hv3 as (? & _ & _ & ?). by eapply visible_times. }
  eapply (unlink_visible false st4'); [done|exact Hv4| | |exact Hr].
  - destruct Hs1, Hs2, Hs3, Hs4. split; congruence.
  - intros -> _. destruct Hc4 as [(_ & -> & _ & ->)|[[] _]]; [|done]. rewrite lookup_alter_ne by done. by apply He3.
Qed.
End publish.

Section save.
Context `{MkstempLaws} `{IdPriv}.
Context (global_manpath : bool) (man_modtime : timespec) (COMP_CAT : option cstr).

(** What another process may see of the files that existed: the cat file as it
    was, or (when all is well) complete; the others as they were. *)
Record published (m0 : cat_store) (cat_file : cstr) (ok : Prop) (data : list ascii) (m : cat_store) : Prop := Published {
  pu_cat : m !! cat_file = m0 !! cat_file ∨ ok ∧ ∃ e, m !! cat_file = Some e ∧ complete data e;
  pu_other f : f ≠ cat_file → is_Some (m0 !! f) → m !! f = m0 !! f;
}.

(** The stores an operation goes through, and the one it leaves when it
    returns, or ends the program. *)
Definition later_stores (s s' : cat_state) : list cat_store := drop (length (ct_seen s)) (ct_seen s') ++ [ct_files s'].
Definition final_store {A} (r : outcome A) (s' : cat_state) : cat_store :=
  match r with Ret _ => ct_files s' | _ => ct_files (exit_cleanup s') end.

Lemma visible_published m0 cat_file tmp ok data m :
  m0 !! tmp = None → visible m0 cat_file tmp ok data m → published m0 cat_file ok data m.
Proof. intros Ht [Hc Ho]. split; [done|]. intros f Hf [e He]. apply Ho; [done|]. congruence. Qed.

Lemma all_visible_later m0 cat_file tmp ok data s s' :
  m0 !! tmp = None → all_visible m0 cat_file tmp ok data (ct_seen s) s' → Forall (published m0 cat_file ok data) (later_stores s s').
Proof.
  intros Ht (l & Hl & Hv & Hm). unfold later_stores. rewrite Hl, drop_app_length. apply Forall_app_2.
  - eapply Forall_impl; [done|]. intros m. by apply visible_published.
  - apply Forall_singleton. by eapply visible_published.
Qed.

(** The temporary file, when one can be created. *)
Lemma tmp_cat_filename_new cat_file s r s' :
  debug = false → not_temporary cat_file → tmp_cat_filename cat_file s = (r, s') →
  (∃ e, r = Ret (inl e) ∧ s' = s) ∨
  (∃ tmp, r = Ret (inr tmp) ∧ ct_files s !! tmp = None ∧ tmp ≠ cat_file ∧ ct_files s' !! tmp = Some (CatEntry [] 384 None None) ∧
    ct_cleanup s' = ct_cleanup s ∧ ct_sec s' = ct_sec s ∧ ct_runs s' = ct_runs s ∧
    ∀ ok data, all_visible (ct_files s) cat_file tmp ok data (ct_seen s) s').
Proof.
  intros Hd Hcat Hr. unfold tmp_cat_filename in Hr. rewrite Hd in Hr. exit_step Hr s0 s1 Hg; [|discriminate Hg..]. injection Hg as <- <-.
  destruct (mkstemp _ _) as [e|tmp] eqn:Em; [injection Hr as <- <-; left; by exists e|]. right. exists tmp.
  apply mkstemp_fresh in Em as Hfresh. apply mkstemp_name in Em as (six & Hsix & Hname).
  assert (tmp ≠ cat_file) as Hne by (intros ->; by apply (Hcat six)).
  exit_step Hr u s1 Hw; [|discriminate Hw..]. injection Hr as <- <-. injection Hw as _ <-. cbn.
  split_and!; [done|done|done|by rewrite lookup_insert_eq|done|done|done|]. intros ok data.
  exists [ct_files s]. split; [done|]. split; [apply Forall_singleton; split; [by left|done]|]. cbn. split; [left; by rewrite lookup_insert_ne|].
  intros f Hf Hft. by apply lookup_insert_ne.
Qed.

(** Operations that touch no file. *)
Definition same_files (s s' : cat_state) : Prop :=
  ct_files s' = ct_files s ∧ ct_seen s' = ct_seen s ∧ ct_cleanup s' = ct_cleanup s.
Lemma drop_privs_same s r s' : drop_privs_in_cat s = (r, s') → same_files s s' ∧ ct_runs s' = ct_runs s.
Proof. unfold drop_privs_in_cat. destruct (drop_effective_privs _); by intros [= <- <-]. Qed.
Lemma regain_privs_same s r s' : regain_privs_in_cat s = (r, s') → same_files s s'.
Proof. unfold regain_privs_in_cat. destruct (regain_effective_privs _); by intros [= <- <-]. Qed.

Lemma all_visible_same m0 cat_file tmp ok data seen0 s s' :
  ct_files s' = ct_files s → ct_seen s' = ct_seen s →
  all_visible m0 cat_file tmp ok data seen0 s → all_visible m0 cat_file tmp ok data seen0 s'.
Proof. intros Hf Hs (l & Hl & Hv & Hm). exists l. by rewrite Hf, Hs. Qed.

Lemma exit_cleanup_one s tmp : ct_cleanup s = [tmp] → unlink_ok tmp = true → ct_files (exit_cleanup s) = delete tmp (ct_files s).
Proof. intros Hc Hu. unfold exit_cleanup. rewrite Hc. cbn. by rewrite Hu. Qed.
Lemma exit_cleanup_none s : ct_cleanup s = [] → exit_cleanup s = s.
Proof. intros Hc. unfold exit_cleanup. by rewrite Hc. Qed.

Lemma remove_top_file_here tmp l : remove_top_file tmp (tmp :: l) = l.
Proof. cbn. by rewrite bool_decide_true. Qed.

(** What is left of the temporary file, for any way the operation ends. *)
Lemma clean_returned m0 cat_file tmp ok data m :
  m0 !! tmp = None → tmp ≠ cat_file → visible m0 cat_file tmp ok data m → m !! tmp = None → ∀ f, f ≠ cat_file → m !! f = m0 !! f.
Proof. intros Hm0 Hne [_ Ho] Hm f Hf. destruct (decide (f = tmp)) as [->|]; [congruence|by apply Ho]. Qed.
Lemma clean_exit m0 cat_file tmp ok data seen0 s :
  m0 !! tmp = None → tmp ≠ cat_file → all_visible m0 cat_file tmp ok data seen0 s → ct_cleanup s = [tmp] → unlink_ok tmp = true →
  ∀ f, f ≠ cat_file → ct_files (exit_cleanup s) !! f = m0 !! f.
Proof.
  intros Hm0 Hne (? & _ & _ & Hm) Hc Hu. rewrite (exit_cleanup_one s tmp Hc Hu).
  eapply clean_returned; [done|done|by apply visible_delete|by rewrite lookup_delete_eq].
Qed.

(** Running the pipelines writes to the temporary file only. *)
Lemma run_pipelines_tmp m0 cat_file tmp ok data seen0 ps s r s' d :
  all_visible m0 cat_file tmp ok data seen0 s → tmp ≠ cat_file → ct_files s !! tmp = Some (CatEntry d 384 None None) →
  run_pipelines ps (Some tmp) s = (r, s') →
  r = Ret (run_status (length (ct_runs s)) ps) ∧ all_visible m0 cat_file tmp ok data seen0 s' ∧
  (∃ e, ct_files s' !! tmp = Some e ∧ ce_data e = d ++ run_data (length (ct_runs s)) ps) ∧
  ct_cleanup s' = ct_cleanup s ∧ ct_runs s' = ct_runs s ++ [(ps, ct_sec s)].
Proof.
  intros (l & Hl & Hv & Hm) Hne Ht Hr. unfold run_pipelines in Hr. cbn in Hr. unfold exitM_bind, cat_write, exit_get, mret, exitM_ret in Hr. cbn in Hr.
  injection Hr as <- <-. cbn. split; [done|]. split.
  - exists (l ++ [ct_files s]). cbn. rewrite Hl, <-app_assoc. split; [done|]. split; [by apply Forall_app_2; [|apply Forall_singleton]|].
    by apply visible_alter.
  - split; [|done]. rewrite lookup_alter_eq, Ht. by eexists.
Qed.

Lemma close_cat_stream_visible m0 cat_file tmp ok data seen0 wait_status del s e r s' :
  debug = false → tmp ≠ cat_file → all_visible m0 cat_file tmp ok data seen0 s → ct_files s !! tmp = Some e → ce_data e = data →
  (wait_status = 0%Z → del = false → ok) → ct_cleanup s = [tmp] → unlink_ok tmp = true → m0 !! tmp = None →
  close_cat_stream global_manpath man_modtime cat_file tmp wait_status del s = (r, s') →
  all_visible m0 cat_file tmp ok data seen0 s' ∧ ∀ f, f ≠ cat_file → final_store r s' !! f = m0 !! f.
Proof.
  intros Hd Hne Hv He Hdata Hok Hc Hu Hm0 Hr. unfold close_cat_stream in Hr. rewrite Hd in Hr.
  assert (del || negb (wait_status =? 0)%Z = false → ok ∧ ce_data e = data) as Hdel.
  { intros [-> Hw%negb_false_iff%Z.eqb_eq]%orb_false_iff. auto. }
  exit_step Hr st s1 Hcm; (eapply commit_visible in Hcm as (Hv1 & [Hc1 _] & Hend); [|done..]).
  - exit_step Hr u s2 Hp; [|discriminate Hp..]. injection Hp as _ <-. injection Hr as <- <-. cbn.
    destruct Hend as [(st' & _ & Ht)|(x & [=] & _)]. split; [by apply (all_visible_same _ _ _ _ _ _ s1)|].
    destruct Hv1 as (? & _ & _ & Hm). by eapply clean_returned; [| |done|apply Ht].
  - subst r. split; [done|]. eapply clean_exit; [done|done|done| |done]. congruence.
  - by destruct Hend as [(? & [=] & _)|(? & [=] & _)].
Qed.

(** Nothing was touched at all. *)
Lemma untouched {A} cat_file ok data s (r : outcome A) s' :
  same_files s s' → ct_cleanup s = [] →
  Forall (published (ct_files s) cat_file ok data) (later_stores s s') ∧ ∀ f, f ≠ cat_file → final_store r s' !! f = ct_files s !! f.
Proof.
  intros (Hf & Hs & Hc) Hcl. split.
  - unfold later_stores. rewrite Hs, Hf, drop_all. apply Forall_singleton. split; [by left|done].
  - intros f _. unfold final_store. rewrite exit_cleanup_none by congruence. destruct r; by rewrite Hf.
Qed.
(** Everything was visible, and the temporary file is to be removed at exit. *)
Lemma ended_with_tmp {A} cat_file tmp ok data s (r : outcome A) s' :
  is_ret r = false → ct_files s !! tmp = None → tmp ≠ cat_file → unlink_ok tmp = true →
  all_visible (ct_files s) cat_file tmp ok data (ct_seen s) s' → ct_cleanup s' = [tmp] →
  Forall (published (ct_files s) cat_file ok data) (later_stores s s') ∧ ∀ f, f ≠ cat_file → final_store r s' !! f = ct_files s !! f.
Proof.
  intros Hr Hm0 Hne Hu Hv Hc. split; [by eapply all_visible_later|]. destruct r; [done|..]; by eapply clean_exit.
Qed.

(** The pipelines run to save a page while it is shown. *)
Definition saving_pipelines (decomp format_cmd disp_cmd : pipeline) (encoding : cstr) : list pipeline :=
  [decomp; maybe_discard_stderr format_cmd; disp_cmd; compressor COMP_CAT 10 (output_iconv encoding (lit "UTF-8") pipeline_new)].

Lemma open_cat_stream_cases cat_file encoding s r s' :
  debug = false → not_temporary cat_file → open_cat_stream COMP_CAT cat_file encoding s = (r, s') →
  ((r = Ret None ∨ ∃ e, r = Fatal e) ∧ s' = s) ∨
  (∃ tmp, r = Ret (Some (compressor COMP_CAT 10 (output_iconv encoding (lit "UTF-8") pipeline_new), tmp)) ∧
    ct_files s !! tmp = None ∧ tmp ≠ cat_file ∧ ct_files s' !! tmp = Some (CatEntry [] 384 None None) ∧
    ct_cleanup s' = tmp :: ct_cleanup s ∧ ct_sec s' = ct_sec s ∧ ct_runs s' = ct_runs s ∧
    ∀ ok data, all_visible (ct_files s) cat_file tmp ok data (ct_seen s) s').
Proof.
  intros Hd Hcat Hr. unfold open_cat_stream in Hr.
  exit_step Hr o s1 Ht; apply tmp_cat_filename_new in Ht as [(e & He & Hs)|(tmp & Htmp & Hrest)]; try done; try discriminate.
  - injection He as ->. subst s1. left. destruct e; rewrite ?Hd in Hr; injection Hr as <- <-; eauto.
  - injection Htmp as ->. rewrite Hd in Hr. right. exists tmp. exit_step Hr u s2 Hp; [|discriminate Hp..]. injection Hp as _ <-. injection Hr as <- <-.
    destruct Hrest as (? & ? & ? & Hc & ? & ? & Hv). cbn. split_and!; try done; congruence.
Qed.

Lemma drop_if_same s r s' :
  (if global_manpath then drop_privs_in_cat else mret tt) s = (r, s') → same_files s s' ∧ ct_runs s' = ct_runs s.
Proof. destruct global_manpath; [apply drop_privs_same|by intros [= _ <-]]. Qed.
Lemma regain_if_same s r s' : (if global_manpath then regain_privs_in_cat else mret tt) s = (r, s') → same_files s s'.
Proof. destruct global_manpath; [apply regain_privs_same|by intros [= _ <-]]. Qed.
Lemma same_files_trans s1 s2 s3 : same_files s1 s2 → same_files s2 s3 → same_files s1 s3.
Proof. intros (?&?&?) (?&?&?). split_and!; congruence. Qed.

(** Showing without saving. *)
Lemma display_only_same ps s r s' :
  (_ ← (if global_manpath then drop_privs_in_cat else mret tt);
   status ← run_pipelines ps None;
   _ ← (if global_manpath then regain_privs_in_cat else mret tt);
   _ ← mret (M := catM) 0%Z; mret (M := catM) (status 1)) s = (r, s') → same_files s s'.
Proof.
  intros Hr. exit_step Hr u s1 Hd; apply drop_if_same in Hd as [Hd _]; [|done..]. eapply same_files_trans; [done|].
  exit_step Hr st s2 Hp; [|discriminate Hp..]. assert (same_files s1 s2) as Hs by (by injection Hp as _ <-). eapply same_files_trans; [done|].
  exit_step Hr v s3 Hg; apply regain_if_same in Hg; [|done..]. eapply same_files_trans; [done|]. by injection Hr as _ <-.
Qed.

(** What the other processes see of the stores between [s] and [s'], and what
    is left at the end. *)
Definition saved_atomically {A} (cat_file : cstr) (ok : Prop) (data : list ascii) (s : cat_state) (r : outcome A) (s' : cat_state) : Prop :=
  Forall (published (ct_files s) cat_file ok data) (later_stores s s') ∧ ∀ f, f ≠ cat_file → final_store r s' !! f = ct_files s !! f.

Lemma format_save_ends decomp format_cmd disp_cmd cat_file encoding s r s' :
  debug = false → not_temporary cat_file → ct_cleanup s = [] → (∀ f, unlink_ok f = true) →
  format_display_and_save global_manpath man_modtime COMP_CAT decomp format_cmd disp_cmd cat_file encoding s = (r, s') →
  let ps := saving_pipelines decomp format_cmd disp_cmd encoding in
  let n := length (ct_runs s) in
  saved_atomically cat_file (run_status n ps 1 = 0%Z ∧ run_status n ps 3 = 0%Z) (run_data n ps) s r s'.
Proof.
  intros Hd Hcat Hcl Hu Hr ps n. unfold format_display_and_save in Hr. unfold saved_atomically.
  set (ok := run_status n ps 1 = 0%Z ∧ run_status n ps 3 = 0%Z). set (data := run_data n ps).
  exit_step Hr o s1 Ho; apply open_cat_stream_cases in Ho as [(Hcases & ->)|(tmp & Htmp & Hm0 & Hne & Hent & Hc1 & _ & Hruns & Hv)]; try done;
    try (subst r; by apply untouched).
  { destruct Hcases as [[= ->]|(? & [=])]. apply untouched; [|done]. by eapply display_only_same. }
  injection Htmp as ->. rewrite Hcl in Hc1.
  exit_step Hr u s2 Hdrop; apply drop_if_same in Hdrop as [(Hf2 & Hs2 & Hc2) Hr2];
    (pose proof (all_visible_same _ _ _ _ _ _ _ _ Hf2 Hs2 (Hv ok data)) as Hv2);
    [|subst r; by eapply (ended_with_tmp cat_file tmp); [..|congruence]..].
  exit_step Hr status s3 Hrun; (rewrite Hd in Hrun;
    eapply run_pipelines_tmp in Hrun as (Hst & Hv3 & (e & He & Hdata) & Hc3 & Hr3); [|done|done|by rewrite Hf2]); try discriminate Hst.
  injection Hst as ->. rewrite Hr2, Hruns in *. fold ps n data in Hdata.
  exit_step Hr v s4 Hreg; apply regain_if_same in Hreg as (Hf4 & Hs4 & Hc4);
    (pose proof (all_visible_same _ _ _ _ _ _ _ _ Hf4 Hs4 Hv3) as Hv4);
    [|subst r; by eapply (ended_with_tmp cat_file tmp); [..|congruence]..].
  assert (ct_cleanup s4 = [tmp]) as Hc by congruence.
  exit_step Hr c s5 Hclose;
    (eapply close_cat_stream_visible in Hclose as [Hv5 Hfin];
      [|done|done|exact Hv4|by rewrite Hf4|done| |done|done|done]);
    try (intros Hw Hi; split; [by apply negb_false_iff, Z.eqb_eq in Hi|done]).
  - injection Hr as <- <-. split; [by eapply all_visible_later|exact Hfin].
  - subst r. split; [by eapply all_visible_later|exact Hfin].
  - subst r. split; [by eapply all_visible_later|exact Hfin].
Qed.

(** C12: while a page is shown and saved, another process sees the cat file as
    it was until it sees the whole new one, with the mode of cat files, and
    the new one only when the formatter and the compressor succeeded; and in
    whatever way this ends (a failed system call, the end of the program), no
    temporary file is left and no other file is changed. *)
Theorem format_save_atomic decomp format_cmd disp_cmd cat_file encoding s r s' :
  debug = false → not_temporary cat_file → ct_cleanup s = [] → (∀ f, unlink_ok f = true) →
  format_display_and_save global_manpath man_modtime COMP_CAT decomp format_cmd disp_cmd cat_file encoding s = (r, s') →
  let ps := saving_pipelines decomp format_cmd disp_cmd encoding in
  let n := length (ct_runs s) in
  Forall (published (ct_files s) cat_file (run_status n ps 1 = 0%Z ∧ run_status n ps 3 = 0%Z) (run_data n ps)) (later_stores s s') ∧
  ∀ f, f ≠ cat_file → final_store r s' !! f = ct_files s !! f.
Proof. intros Hd Hcat Hcl Hu Hr. by eapply format_save_ends. Qed.

(** The same for catman's saving of a page, in every case but one: the
    temporary file must have been created. *)
Theorem catman_atomic decomp format_cmd cat_file encoding s r s' :
  debug = false → not_temporary cat_file → ct_cleanup s = [] → (∀ f, unlink_ok f = true) →
  display_catman global_manpath man_modtime COMP_CAT cat_file decomp format_cmd encoding s = (r, s') →
  let ps := [decomp; maybe_discard_stderr (compressor COMP_CAT 0 (output_iconv encoding (lit "UTF-8") format_cmd))] in
  let n := length (ct_runs s) in
  Forall (published (ct_files s) cat_file (run_status n ps 1 = 0%Z) (run_data n ps)) (later_stores s s') ∧
  ∀ f, f ≠ cat_file → final_store r s' !! f = ct_files s !! f.
Proof.
  intros Hd Hcat Hcl Hu Hr ps n. unfold display_catman in Hr.
  set (ok := run_status n ps 1 = 0%Z). set (data := run_data n ps).
  exit_step Hr o s1 Ho; apply tmp_cat_filename_new in Ho as [(e & He & ->)|(tmp & Htmp & Hm0 & Hne & Hent & Hc1 & _ & Hruns & Hv)];
    try done; try discriminate.
  { injection He as ->. injection Hr as <- <-. by apply untouched. }
  injection Htmp as ->. exit_step Hr u s2 Hpush; [|discriminate Hpush..]. injection Hpush as _ <-. cbn in Hr.
  match type of Hr with mbind _ _ ?sp = _ => set (s2 := sp) in Hr end.
  assert (ct_cleanup s2 = [tmp]) as Hc2 by (cbn; congruence).
  exit_step Hr v s3 Hdrop; apply drop_privs_same in Hdrop as [(Hf3 & Hs3 & Hc3) Hr3];
    (pose proof (all_visible_same _ _ _ _ _ _ s2 _ Hf3 Hs3 (Hv ok data)) as Hv3);
    [|subst r; by eapply (ended_with_tmp cat_file tmp); [..|congruence]..].
  exit_step Hr status s4 Hrun; (rewrite Hd in Hrun;
    eapply run_pipelines_tmp in Hrun as (Hst & Hv4 & (e & He & Hdata) & Hc4 & Hr4); [|done|done|by rewrite Hf3]); try discriminate Hst.
  assert (status = run_status (length (ct_runs s3)) ps) as ->.
  { by apply (f_equal (λ o, match o with Ret f => f | _ => λ _, 0%Z end)) in Hst. }
  rewrite Hr3 in Hdata, Hr. change (ct_runs s2) with (ct_runs s1) in Hdata, Hr. rewrite Hruns in Hdata, Hr. fold ps n data in Hdata.
  exit_step Hr w s5 Hreg; apply regain_privs_same in Hreg as (Hf5 & Hs5 & Hc5);
    (pose proof (all_visible_same _ _ _ _ _ _ _ _ Hf5 Hs5 Hv4) as Hv5);
    [|subst r; by eapply (ended_with_tmp cat_file tmp); [..|congruence]..].
  assert (ct_cleanup s5 = [tmp]) as Hc by congruence. change (run_status (length (ct_runs s)) ps 1) with (run_status n ps 1) in Hr.
  destruct (Z.eqb_spec (run_status n ps 1) 0) as [Hok|Hok]; cbn [negb] in Hr.
  2: { injection Hr as <- <-. by eapply (ended_with_tmp cat_file tmp). }
  exit_step Hr c s6 Hcm; (eapply commit_visible in Hcm as (Hv6 & [Hc6 _] & Hend); [|done|done|exact Hv5|by rewrite Hf5|done]).
  - injection Hr as <- <-. destruct Hend as [(st & _ & Ht)|(x & [=] & _)].
    split; [eapply all_visible_later; [done|]; by apply (all_visible_same _ _ _ _ _ _ s6)|].
    destruct Hv6 as (? & _ & _ & Hm). eapply clean_returned; [exact Hm0|exact Hne|exact Hm|by apply Ht].
  - subst r. by eapply (ended_with_tmp cat_file tmp); [..|congruence].
  - by destruct Hend as [(? & [=] & _)|(? & [=] & _)].
Qed.
End save.

(** ** Evaluation *)

(** One temporary name; every system call succeeds; the formatter ends with
    the given status, and "new" is written. *)
Definition cat_env (dbg : bool) (status : Z) : CatEnv := {|
  mkstemp m t := let name := take (length t - 6) t ++ lit "AAAAAA" in
                 match m !! name with None => inr name | Some _ => inl Other_errno end;
  chown_ok _ := true; chmod_ok _ := true; rename_ok _ _ := true; utimens_ok _ := true; unlink_ok _ := true;
  man_owner := Some (6, 12)%Z; debug := dbg; keep_stderr := false;
  run_status _ _ i := if decide (i = 1) then status else 0%Z; run_data _ _ := lit "new";
|}.
#[local] Instance cat_env_laws dbg status : MkstempLaws (H := cat_env dbg status).
Proof.
  split; cbn; intros m t name Hn; destruct (m !! _) eqn:E; try discriminate; injection Hn as <-.
  - done.
  - exists (lit "AAAAAA"). done.
Qed.
#[local] Instance plain_ids : IdPriv := {|
  idpriv_temp_drop p := Some (dropped p); idpriv_temp_restore p := Some (restored p); idpriv_drop p := Some (dropped p);
|}.
Definition ls_cat : cstr := lit "/c/cat1/ls.1".
Definition before_save : cat_state :=
  CatState {[ ls_cat := CatEntry (lit "old") CATMODE None None; lit "/dev/null" := CatEntry [] 438 None None ]} [] []
    (Sec 0 0 0 0 0 0 0 (Security.Process (Ids 0 0 0) (Ids 0 0 0))) [].
Definition run_save (status : Z) : outcome Z * cat_state :=
  @format_display_and_save (cat_env false status) plain_ids true (Timespec 5 0) None pipeline_new pipeline_new pipeline_new ls_cat (lit "UTF-8") before_save.
Definition run_catman (dbg : bool) (status : Z) : outcome unit * cat_state :=
  @display_catman (cat_env dbg status) plain_ids true (Timespec 5 0) None ls_cat pipeline_new pipeline_new (lit "UTF-8") before_save.

Lemma ls_cat_not_temporary : not_temporary ls_cat.
Proof. intros six Hsix E. apply (f_equal length) in E. rewrite length_app, Hsix in E. vm_compute in E. discriminate E. Qed.

Lemma format_save_atomic_witness :
  let ps := @saving_pipelines (cat_env false 0) None pipeline_new pipeline_new pipeline_new (lit "UTF-8") in
  Forall (published (ct_files before_save) ls_cat (@run_status (cat_env false 0) 0 ps 1 = 0%Z ∧ @run_status (cat_env false 0) 0 ps 3 = 0%Z)
    (@run_data (cat_env false 0) 0 ps)) (later_stores before_save (run_save 0).2) ∧
  ∀ f, f ≠ ls_cat → @final_store (cat_env false 0) Z (run_save 0).1 (run_save 0).2 !! f = ct_files before_save !! f.
Proof.
  apply (@format_save_atomic (cat_env false 0) (cat_env_laws false 0) plain_ids true (Timespec 5 0) None pipeline_new pipeline_new pipeline_new
    ls_cat (lit "UTF-8") before_save (run_save 0).1 (run_save 0).2); [reflexivity|apply ls_cat_not_temporary|reflexivity|done|apply surjective_pairing].
Defined.

Lemma catman_atomic_witness :
  let ps := [pipeline_new; @maybe_discard_stderr (cat_env false 1) (compressor None 0 (output_iconv (lit "UTF-8") (lit "UTF-8") pipeline_new))] in
  Forall (published (ct_files before_save) ls_cat (@run_status (cat_env false 1) 0 ps 1 = 0%Z) (@run_data (cat_env false 1) 0 ps))
    (later_stores before_save (run_catman false 1).2) ∧
  ∀ f, f ≠ ls_cat → @final_store (cat_env false 1) unit (run_catman false 1).1 (run_catman false 1).2 !! f = ct_files before_save !! f.
Proof.
  apply (@catman_atomic (cat_env false 1) (cat_env_laws false 1) plain_ids true (Timespec 5 0) None pipeline_new pipeline_new
    ls_cat (lit "UTF-8") before_save (run_catman false 1).1 (run_catman false 1).2); [reflexivity|apply ls_cat_not_temporary|reflexivity|done|apply surjective_pairing].
Defined.

(** The new cat file; and the old one when the formatter failed. *)
Example save_values :
  ct_files (run_save 0).2 !! ls_cat = Some (CatEntry (lit "new") CATMODE (Some (6, 12)%Z) (Some (Timespec 5 0))) ∧
  ct_files (run_save 1).2 !! ls_cat = Some (CatEntry (lit "old") CATMODE None None) ∧ is_ret (run_save 1).1 = true.
Proof. split_and!; by vm_compute. Qed.

(** In debug mode the temporary file is /dev/null: saving while displaying
    leaves it alone, but when catman's formatter fails it is unlinked. *)
Example catman_debug_unlinks_dev_null :
  @final_store (cat_env true 1) unit (run_catman true 1).1 (run_catman true 1).2 !! lit "/dev/null" = None.
Proof. by vm_compute. Qed.
