(* ===== verification/Display.v ===== *)
(** * src/man.c: displaying a page

    [display] decides whether a page is formatted or its cat file is shown,
    and whether what was formatted is saved; [format_display] runs the
    pipelines when nothing is saved.  lib/tempfile.c finds the directory for
    HTML output. *)

From S2P Require Import Prelude CStr StateM Fs Compression Filenames Util Encodings Manp Manpath Security Pipe Decompress Preproc ManArgs ManOpts Roff Pager CatFile.

(** ** Definitions *)

(** *** lib/tempfile.c *)

Section tempfile.
Context (getenv : cstr → option cstr) (setid : bool) (P_tmpdir : option cstr) (access_W : cstr → bool).

(** The directory, if it can be written to. *)
Definition writable (dir : option cstr) : option cstr :=
  match dir with Some d => if access_W d then Some d else None | None => None end.
Definition or_dir (a b : option cstr) : option cstr := match a with Some d => Some d | None => b end.

(** [setid]: the result of [running_setid ()]. *)
Definition path_search : option cstr :=
  let dir := if setid then or_dir (writable (getenv (lit "TMPDIR"))) (writable (getenv (lit "TMP"))) else None in
  or_dir dir (or_dir (writable P_tmpdir) (writable (Some (lit "/tmp")))).

(** [mkdtemp] is given the template. *)
Definition create_tempdir (mkdtemp : cstr → option cstr) (template : cstr) : option cstr :=
  dir ← path_search; mkdtemp (dir ++ lit "/" ++ template ++ lit "XXXXXX").
End tempfile.

(** *** The state and the environment *)

(** [ds_prompt]: whether the variable is not zero; [ds_prompts]: how often the
    user was asked; [ds_out]: what was printed; [ds_temp]: the temporary
    directories there are, with their entries. *)
Record disp_state := DispState {
  ds_fmt : fmt_state;
  ds_cat : cat_state;
  ds_prompt : bool;
  ds_skip : bool;
  ds_prompts : nat;
  ds_out : list cstr;
  ds_temp : gmap cstr (list (cstr * node));
}.
Abbreviation disp := (exitM disp_state).

Definition fmt_op {A} (m : fmt A) : disp A := λ s,
  match m (ds_fmt s) with
  | Ret (a, f) => (Ret a, DispState f (ds_cat s) (ds_prompt s) (ds_skip s) (ds_prompts s) (ds_out s) (ds_temp s))
  | Fatal e => (Fatal e, s)
  | Undef e => (Undef e, s)
  end.
Definition cat_op {A} (m : exitM cat_state A) : disp A := λ s,
  let '(r, c) := m (ds_cat s) in (r, DispState (ds_fmt s) c (ds_prompt s) (ds_skip s) (ds_prompts s) (ds_out s) (ds_temp s)).
Definition set_prompt (b : bool) (s : disp_state) : disp_state := DispState (ds_fmt s) (ds_cat s) b (ds_skip s) (ds_prompts s) (ds_out s) (ds_temp s).
Definition set_skip (b : bool) (s : disp_state) : disp_state := DispState (ds_fmt s) (ds_cat s) (ds_prompt s) b (ds_prompts s) (ds_out s) (ds_temp s).
Definition asked (s : disp_state) : disp_state := DispState (ds_fmt s) (ds_cat s) (ds_prompt s) (ds_skip s) (S (ds_prompts s)) (ds_out s) (ds_temp s).
Definition printed (l : cstr) (s : disp_state) : disp_state := DispState (ds_fmt s) (ds_cat s) (ds_prompt s) (ds_skip s) (ds_prompts s) (ds_out s ++ [l]) (ds_temp s).
Definition on_temp (f : gmap cstr (list (cstr * node)) → gmap cstr (list (cstr * node))) (s : disp_state) : disp_state :=
  DispState (ds_fmt s) (ds_cat s) (ds_prompt s) (ds_skip s) (ds_prompts s) (ds_out s) (f (ds_temp s)).

Class DisplayEnv := {
  de_comp : comp_config;
  de_stdin : Z;                         (* [dup (STDIN_FILENO)] *)
  de_stdin_tty : bool;
  de_tty : nat → option (list ascii);   (* what the user answers; [None] without a terminal *)
  de_P_tmpdir : option cstr;
  de_setid : bool;
  de_access_W : cstr → bool;
  de_mkdtemp : cstr → option cstr;
  de_create : cstr → bool;              (* whether the HTML file can be created *)
  de_images : list cstr;                (* files the formatter makes in its directory *)
  de_unlink : cstr → bool;
  de_COMP_CAT : option cstr;            (* the compressor of cat files *)
  de_fuel : nat;                        (* blocks of a page that are looked at *)
}.

Section display.
Context `{FormatEnv} `{PipelineLib} `{PagerEnv} `{CatEnv} `{IdPriv} `{FileSystem} `{Dirname} `{Zlib} `{DisplayEnv}.
Context (global_manpath : bool).
Abbreviation on v := (opt_flag fe_opts v).
Abbreviation opt v := (opt_str fe_opts v).

Definition do_prompt (name : cstr) : disp bool :=
  _ ← exit_modify (set_skip false);
  if negb fe_isatty || negb de_stdin_tty then mret false
  else
    s ← exit_get;
    match de_tty (ds_prompts s) with
    | None => mret false
    | Some input =>
      _ ← exit_modify asked;
      if bool_decide (NL ∈ input) then mret false
      else _ ← exit_modify (set_skip true); mret true
    end.

Definition ask_if (b : bool) (name : cstr) : disp bool := if b then do_prompt name else mret false.

(** *** format_display *)

Definition SIGPIPE_status : Z := (13 + 128) * 256.
(** [gripe_system], unless the reader of the output went away. *)
Definition gripe_status (status : Z) : disp unit :=
  if (status =? 0)%Z || (status =? SIGPIPE_status)%Z then mret tt else exit_lift (Fatal "command exited with status").

Definition chdir_commands (dir : cstr) (p : pipeline) : pipeline := set_cmds (pipecmd_chdir dir <$> pl_cmds p) p.

(** Try the browsers in turn: whether one succeeded. *)
Fixpoint try_browsers (candidates : list cstr) (htmlfile : cstr) : disp bool :=
  match candidates with
  | [] => mret false
  | candidate :: candidates =>
    status ← cat_op (run_pipelines [make_browser candidate htmlfile] None);
    if (status 0%nat =? 0)%Z then mret true else try_browsers candidates htmlfile
  end.

(** [remove_directory (htmldir, false)]; what it cannot remove stays. *)
Definition remove_htmldir (htmldir : cstr) (temp : gmap cstr (list (cstr * node))) : gmap cstr (list (cstr * node)) :=
  match temp !! htmldir with
  | None => temp
  | Some entries =>
    match (remove_directory (λ name, de_unlink (htmldir ++ lit "/" ++ name)) false entries).2 with
    | None => delete htmldir temp
    | Some rest => <[htmldir:=rest]> temp
    end
  end.

Definition display_html (decomp format_cmd : pipeline) (man_file : cstr) : disp unit :=
  s ← exit_get;
  htmldir ← exit_lift (match create_tempdir (λ v, fs_env (ds_fmt s) !! v) de_setid de_P_tmpdir de_access_W de_mkdtemp (lit "hman") with
                       | Some d => Ret d | None => Fatal "can't create temporary directory" end);
  let man_base := base_name man_file in
  let man_base := match strchr man_base "."%char with Some e => take e man_base | None => man_base end in
  let htmlfile := htmldir ++ lit "/" ++ man_base ++ lit ".html" in
  _ ← exit_modify (on_temp (<[htmldir:=[]]>));
  if negb (de_create htmlfile) then exit_lift (Fatal "can't open temporary file")
  else
    _ ← exit_modify (on_temp (<[htmldir:=[(man_base ++ lit ".html", Reg)]]>));
    status ← cat_op (run_pipelines [decomp; chdir_commands htmldir format_cmd] None);
    _ ← exit_modify (on_temp (alter (λ es, es ++ ((λ name, (name, Reg)) <$> de_images)) htmldir));
    if negb (status 1%nat =? 0)%Z then
      _ ← exit_modify (on_temp (remove_htmldir htmldir)); exit_lift (Fatal "command exited with status")
    else
      html ← exit_lift (or_undef "format_display: no browser" (opt html_pager));
      shown ← try_browsers (strtok (λ c, bool_decide (c = ":"%char)) html) htmlfile;
      if (shown : bool) then exit_modify (on_temp (remove_htmldir htmldir))
      else exit_lift (Fatal "couldn't execute any browser").

Definition format_display (decomp : pipeline) (format_cmd : option pipeline) (disp_cmd : pipeline) (man_file : cstr) : disp unit :=
  let format_cmd := maybe_discard_stderr <$> format_cmd in
  _ ← cat_op drop_privs_in_cat;
  _ ← (match format_cmd with
       | Some format_cmd =>
         if on htmlout then display_html decomp format_cmd man_file
         else
           status ← cat_op (run_pipelines [decomp; format_cmd; disp_cmd] None);
           _ ← gripe_status (status 1%nat);
           gripe_status (status 2%nat)
       | None =>
         status ← cat_op (run_pipelines [decomp; disp_cmd] None);
         gripe_status (status 1%nat)
       end);
  cat_op regain_privs_in_cat.

(** *** display *)

(** The functions that put something in front of the page. *)
Definition prefix_cmds (man_file : cstr) : fmt (list pipecmd) :=
  let no_recode := bool_decide (opt recode = None) in
  let jcmd := if no_recode && on no_justification
              then [pipecmd_new_function (lit "echo .ds AD l && echo .lf 1") disable_justification] else [] in
  if no_recode && negb (bool_decide (man_file = [])) then
    preconv ← groff_preconv;
    match preconv with
    | None => mret jcmd
    | Some _ =>
      page_lang ← lift (lang_dir (Some man_file));
      if bool_decide (page_lang = []) || STREQ page_lang (lit "C") then mret jcmd
      else
        let language := lb_language (unpack_locale_bits page_lang) in
        mret (jcmd ++ [pipecmd_new_function (lit "echo .mso " ++ language ++ lit ".tmac && echo .lf 1") (Pipe.locale_macros language)])
    end
  else mret jcmd.

(** They run before the decompressor, as one command. *)
Definition insert_prefixes (prefixes : list pipecmd) (decomp : option decompress) : outcome (option decompress) :=
  if bool_decide (prefixes = []) then Ret decomp
  else
    d ← or_undef "display: the page was not opened" decomp;
    p ← decompress_get_pipeline d;
    let seq := pipecmd_new_sequence (lit "decompressor") prefixes in
    match pl_cmds p with
    | [] => Ret (Some (DECOMPRESS_PIPELINE (pipeline_command (pipecmd_sequence_command pipecmd_new_passthrough seq) p)))
    | [c] => Ret (Some (DECOMPRESS_PIPELINE (set_cmds [pipecmd_sequence_command c seq] p)))
    | _ => Fatal "assertion: pipeline_get_ncommands (decomp_p) <= 1"
    end.

Definition open_page (man_file : cstr) : option decompress :=
  match man_file with [] => Some (decompress_fdopen de_stdin) | _ => decompress_open de_comp man_file 0 end.

(** The formatter for an opened page: the decompressor, the command, the
    encoding of its output. *)
Definition format_command (dir : option cstr) (man_file : cstr) (dbfilters : option cstr) (prefixes : nat) (d : decompress)
    : fmt (decompress * pipeline * cstr) :=
  MANROFFSEQ ← getenv (lit "MANROFFSEQ");
  r ← lift (or_undef "get_preprocessors: does not end"
              (get_preprocessors de_fuel (opt preprocessors) MANROFFSEQ (Some d) dbfilters prefixes));
  let '(pp_string, save_cat, d) := r in
  d ← lift (or_undef "get_preprocessors: no page" d);
  _ ← modify (set_save_cat save_cat);
  '(p, enc, d) ← make_roff_command dir man_file d pp_string;
  mret (d, match dir with Some dir => chdir_commands dir p | None => p end, enc).

Definition modtime (man_file : cstr) : timespec :=
  match fs_stat man_file with Some st => st_mtim st | None => Timespec 0 0 end.

Definition display_to_stdout : bool :=
  (on troff && negb (on htmlout || bool_decide (is_Some (opt gxditview)))) || bool_decide (is_Some (opt recode)).

(** Options under which nothing is saved. *)
Definition never_saved : bool :=
  bool_decide (is_Some (opt want_encoding)) || on htmlout || bool_decide (is_Some (opt gxditview)) || on local_man_file
  || bool_decide (is_Some (opt recode)) || disable_cache fe_conf || on no_hyphenation || on no_justification.

(** Whether to format, and whether to save. *)
Definition format_and_save (man_file cat_file : option cstr) (save_cat : bool) : outcome (bool * bool) :=
  let save_cat := if never_saved then false else save_cat in
  match man_file, cat_file with
  | None, None => Fatal "assertion: cat_file"
  | None, Some _ => Ret (false, save_cat)
  | Some _, None => Ret (true, false)
  | Some man_file, Some cat_file =>
    if (save_cat : bool) then
      let status := is_changed man_file cat_file in
      let cat_dir := match strrchr cat_file "/"%char with Some slash => take slash cat_file | None => cat_file end in
      Ret ((status =? -2)%Z || (Z.land status 1 =? 1)%Z, bool_decide (is_directory cat_dir = 1%Z))
    else Ret (true, save_cat)
  end.

(** Where the page is, for -w and -W. *)
Definition where_line (man_file cat_file : option cstr) (format : bool) : option cstr :=
  let m := if on print_where then man_file else None in
  let c := if on print_where_cat && negb format then cat_file else None in
  match m, c with
  | Some m, Some c => Some (m ++ lit " " ++ c)
  | Some m, None => Some m
  | None, Some c => Some c
  | None, None => None
  end.

(** The outcome of [display]: [Finish found], which sets the prompt for the
    pages to come, or [Leave n] without doing so. *)
Inductive finish := Finish (found : Z) | Leave (n : Z).

Definition display_formatted (man_file cat_file : option cstr) (title : cstr) (decomp : option (pipeline * pipeline * cstr))
    : disp finish :=
  s ← exit_get;
  '(format, save_cat) ← exit_lift (format_and_save man_file cat_file (fs_save_cat (ds_fmt s)));
  _ ← fmt_op (modify (Roff.set_save_cat save_cat));
  if (format : bool) && bool_decide (decomp = None) then mret (Leave 0)
  else
    let m := default [] man_file in
    let c := default [] cat_file in
    let found := if format && bool_decide (m = []) then true else fs_access_R (if format then m else c) in
    if negb found then mret (Leave 0)
    else if on print_where || on print_where_cat then
      _ ← (match where_line man_file cat_file format with Some l => exit_modify (printed l) | None => mret tt end);
      mret (Finish 1)
    else if on catman then
      match (format : bool), decomp with
      | true, Some (decomp, format_cmd, encoding) =>
        if (save_cat : bool) then
          _ ← cat_op (display_catman global_manpath (modtime m) de_COMP_CAT c decomp format_cmd encoding); mret (Finish 1)
        else mret (Finish 1)
      | _, _ => mret (Finish 1)
      end
    else
      skipped ← ask_if (ds_prompt s) title;
      match (format : bool), decomp with
      | true, Some (decomp, format_cmd, encoding) =>
        if (skipped : bool) then mret (Leave (if on local_man_file then 1 else 0))
        else
          disp_cmd ← fmt_op (make_display_command (Some encoding) title);
          if (save_cat : bool) then
            _ ← cat_op (format_display_and_save global_manpath (modtime m) de_COMP_CAT decomp format_cmd disp_cmd c encoding);
            mret (Finish 1)
          else _ ← format_display decomp (Some format_cmd) disp_cmd m; mret (Finish 1)
      | _, _ =>
        if (skipped : bool) then mret (Leave 0)
        else
          match decompress_open de_comp c 0 with
          | None => mret (Leave 0)
          | Some decomp_cat =>
            disp_cmd ← fmt_op (make_display_command (Some (lit "UTF-8")) title);
            cat_p ← exit_lift (decompress_get_pipeline decomp_cat);
            _ ← format_display cat_p None disp_cmd m;
            mret (Finish 1)
          end
      end.

Definition show_source (man_file : option cstr) (title : cstr) (decomp : option (pipeline * pipeline * cstr)) : disp finish :=
  match man_file, decomp with
  | None, _ => exit_lift (Fatal "assertion: man_file")
  | Some _, None => mret (Leave 0)
  | Some m, Some (decomp, format_cmd, _) =>
    let found := if bool_decide (m = []) then true else fs_access_R m in
    if (found : bool) then
      s ← exit_get;
      skipped ← ask_if (ds_prompt s) title;
      if (skipped : bool) then mret (Leave 0)
      else
        _ ← cat_op drop_privs_in_cat;
        status ← cat_op (run_pipelines [decomp; format_cmd] None);
        _ ← cat_op regain_privs_in_cat;
        if (status 1%nat =? 0)%Z then mret (Finish 1) else exit_lift (Fatal "command exited with status")
    else mret (Finish 0)
  end.

(** The page is opened, and the command that formats it made. *)
Definition prepare_page (dir man_file : option cstr) (dbfilters : option cstr) : disp (option (pipeline * pipeline * cstr)) :=
  match man_file with
  | None => mret None
  | Some m =>
    let decomp := open_page m in
    prefixes ← fmt_op (prefix_cmds m);
    decomp ← exit_lift (insert_prefixes prefixes decomp);
    match decomp with
    | None => mret None
    | Some d =>
      '(d, format_cmd, enc) ← fmt_op (format_command dir m dbfilters (length prefixes) d);
      p ← exit_lift (decompress_get_pipeline d);
      mret (Some (p, format_cmd, enc))
    end
  end.

Definition display_man_page (dir man_file cat_file : option cstr) (title : cstr) (dbfilters : option cstr) : disp Z :=
  decomp ← prepare_page dir man_file dbfilters;
  r ← (if display_to_stdout then show_source man_file title decomp else display_formatted man_file cat_file title decomp);
  match r with
  | Leave n => mret n
  | Finish found =>
    s ← exit_get;
    _ ← (if ds_prompt s then mret tt else exit_modify (set_prompt (negb (found =? 0)%Z)));
    mret found
  end.
End display.

(** ** What display does to the files *)

Section theorems.
Context `{FormatEnv} `{PipelineLib} `{PagerEnv} `{MkstempLaws} `{IdPriv} `{FileSystem} `{Dirname} `{Zlib} `{DisplayEnv}.
Context (global_manpath : bool).
Abbreviation on v := (opt_flag fe_opts v).
Abbreviation opt v := (opt_str fe_opts v).

Definition files_kept (s s' : disp_state) : Prop := same_files (ds_cat s) (ds_cat s').
#[local] Instance files_kept_preorder : PreOrder files_kept.
Proof. split; [by intros s|]. intros s1 s2 s3. apply same_files_trans. Qed.

Lemma fmt_op_kept {A} (m : fmt A) : exit_keeps files_kept (fmt_op m).
Proof. intros s r s'. unfold fmt_op. destruct (m (ds_fmt s)) as [[a f]|e|e]; by intros [= _ <-]. Qed.
Lemma cat_op_kept {A} (m : exitM cat_state A) : exit_keeps same_files m → exit_keeps files_kept (cat_op m).
Proof. intros Hm s r s'. unfold cat_op. destruct (m (ds_cat s)) as [r' c] eqn:E. intros [= _ <-]. by apply Hm in E. Qed.
Lemma run_kept ps : exit_keeps files_kept (cat_op (run_pipelines ps None)).
Proof. apply cat_op_kept. intros s r s' Hr. unfold run_pipelines in Hr. by injection Hr as _ <-. Qed.
Lemma drop_kept : exit_keeps files_kept (cat_op drop_privs_in_cat).
Proof. apply cat_op_kept. intros s r s' Hr. by apply drop_privs_same in Hr as [? _]. Qed.
Lemma regain_kept : exit_keeps files_kept (cat_op regain_privs_in_cat).
Proof. apply cat_op_kept. intros s r s' Hr. by apply regain_privs_same in Hr. Qed.
#[local] Hint Resolve fmt_op_kept run_kept drop_kept regain_kept : state_keeps.

Lemma ask_if_kept b name : exit_keeps files_kept (ask_if b name).
Proof. unfold ask_if, do_prompt. exit_keeps_auto; by repeat split. Qed.
Lemma gripe_status_kept st : exit_keeps files_kept (gripe_status st).
Proof. unfold gripe_status. exit_keeps_auto. Qed.
Lemma try_browsers_kept l file : exit_keeps files_kept (try_browsers l file).
Proof. induction l as [|c l IH]; cbn [try_browsers]; exit_keeps_auto. Qed.
#[local] Hint Resolve ask_if_kept gripe_status_kept try_browsers_kept : state_keeps.
Lemma display_html_kept d f m : exit_keeps files_kept (display_html d f m).
Proof. unfold display_html. exit_keeps_auto; by repeat split. Qed.
#[local] Hint Resolve display_html_kept : state_keeps.
Lemma format_display_kept d f c m : exit_keeps files_kept (format_display d f c m).
Proof. unfold format_display. exit_keeps_auto. Qed.
Lemma show_source_kept m title d : exit_keeps files_kept (show_source m title d).
Proof. unfold show_source. exit_keeps_auto. Qed.
Lemma prepare_page_kept dir m filters : exit_keeps files_kept (prepare_page dir m filters).
Proof. unfold prepare_page. exit_keeps_auto. Qed.
#[local] Hint Resolve format_display_kept show_source_kept prepare_page_kept : state_keeps.

(** *** Before the page is shown, nothing is run *)

Definition cat_kept (s s' : disp_state) : Prop := ds_cat s' = ds_cat s.
#[local] Instance cat_kept_preorder : PreOrder cat_kept.
Proof. split; [by intros s|]. intros s1 s2 s3. unfold cat_kept. congruence. Qed.
Lemma fmt_op_cat {A} (m : fmt A) : exit_keeps cat_kept (fmt_op m).
Proof. intros s r s'. unfold fmt_op. destruct (m (ds_fmt s)) as [[a f]|e|e]; by intros [= _ <-]. Qed.
#[local] Hint Resolve fmt_op_cat : state_keeps.
Lemma ask_if_cat b name : exit_keeps cat_kept (ask_if b name).
Proof. unfold ask_if, do_prompt. exit_keeps_auto; by repeat split. Qed.
Lemma prepare_page_cat dir m filters : exit_keeps cat_kept (prepare_page dir m filters).
Proof. unfold prepare_page. exit_keeps_auto. Qed.
Lemma cat_kept_files s s' : cat_kept s s' → files_kept s s'.
Proof. intros Hk. unfold files_kept. by rewrite Hk. Qed.

(** *** When a page may be saved *)

Lemma get_preprocessors_save fuel pp env d filters n x d' :
  get_preprocessors fuel pp env d filters n = Some (x, true, d') → pp = None.
Proof. unfold get_preprocessors. intros Hg. repeat case_match; simplify_eq; done. Qed.

(** What [save_cat] means once the command is made. *)
Definition may_save (dir : option cstr) (f : fmt_state) : Prop :=
  opt preprocessors = None ∧ (find_formatter dir = None → opt recode = None → on troff = false ∧ cat_page_width f).

Lemma format_command_save dir m filters n d s x s' :
  format_command dir m filters n d s = Ret (x, s') → fs_save_cat s' = true → may_save dir s'.
Proof.
  intros Hr Hs. unfold format_command in Hr. run_inv Hr env s1 He. injection He as <- <-. run_inv Hr g s1 Hg.
  unfold lift in Hg. apply bind_Ret_inv in Hg as (g' & Hg & [= -> <-]).
  destruct (get_preprocessors _ _ _ _ _ _) as [[[pp sc] d1]|] eqn:Eg; [|discriminate Hg]. injection Hg as <-.
  run_inv Hr d2 s1 Hd2. assert (s1 = s) as -> by (destruct d1; [by injection Hd2 as _ <-|discriminate Hd2]).
  run_inv Hr u s1 Hu. injection Hu as _ <-. run_inv Hr y s2 Hy. destruct y as [[p enc] d3]. injection Hr as _ <-.
  pose proof (kept_save _ _ (make_roff_command_kept _ _ _ _ _ _ _ Hy) Hs) as Hsc. cbn in Hsc. subst sc.
  split; [by eapply get_preprocessors_save|]. intros Hf Hrec. by eapply make_roff_command_save.
Qed.

Lemma prepare_page_save dir man filters s x s' :
  prepare_page dir man filters s = (Ret (Some x), s') → fs_save_cat (ds_fmt s') = true → may_save dir (ds_fmt s').
Proof.
  intros Hr Hs. unfold prepare_page in Hr. destruct man as [m|]; [|discriminate Hr].
  exit_step Hr pre s1 Hp; [|discriminate..]. exit_step Hr d s2 Hd; [|discriminate..]. destruct d as [d|]; [|discriminate Hr].
  exit_step Hr y s3 Hy; [|discriminate..]. destruct y as [[d' f] enc]. exit_step Hr p s4 Hp4; [|discriminate..]. injection Hr as _ <-.
  injection Hp4 as _ <-. unfold fmt_op in Hy. destruct (format_command _ _ _ _ _ _) as [[y fs]|e|e] eqn:Ef; try discriminate Hy.
  injection Hy as -> <-. by eapply format_command_save.
Qed.

(** The options and settings that change what a page looks like are not used. *)
Record plain_cat : Prop := PlainCat {
  pc_encoding : opt want_encoding = None;
  pc_html : on htmlout = false;
  pc_gxditview : opt gxditview = None;
  pc_file : on local_man_file = false;
  pc_recode : opt recode = None;
  pc_cache : disable_cache fe_conf = false;
  pc_hyphens : on no_hyphenation = false;
  pc_justified : on no_justification = false;
}.

Lemma never_saved_false : never_saved = false → plain_cat.
Proof.
  unfold never_saved. intros Hn. rewrite !orb_false_iff, !bool_decide_eq_false in Hn.
  split; try apply eq_None_not_Some; tauto.
Qed.

(** The one place where something is saved. *)
Record saving (man_file cat_file : option cstr) (m c : cstr) : Prop := Saving {
  sv_man : man_file = Some m;
  sv_cat : cat_file = Some c;
  sv_options : plain_cat ∧ on print_where = false ∧ on print_where_cat = false;
  sv_stale : is_changed m c = (-2)%Z ∨ Z.land (is_changed m c) 1 = 1%Z;
  sv_dir : is_directory (match strrchr c "/"%char with Some slash => take slash c | None => c end) = 1%Z;
}.

Lemma format_and_save_true man_file cat_file sc :
  format_and_save man_file cat_file sc = Ret (true, true) →
  plain_cat ∧ sc = true ∧ ∃ m c, man_file = Some m ∧ cat_file = Some c ∧
    (is_changed m c = (-2)%Z ∨ Z.land (is_changed m c) 1 = 1%Z) ∧
    is_directory (match strrchr c "/"%char with Some slash => take slash c | None => c end) = 1%Z.
Proof.
  unfold format_and_save. destruct man_file as [m|], cat_file as [c|]; try discriminate.
  destruct never_saved eqn:Hn; [discriminate|]. apply never_saved_false in Hn. destruct sc; [|discriminate]. intros [= Hf Hd]. split_and!; [done|done|].
  exists m, c. apply bool_decide_eq_true in Hd. apply orb_true_iff in Hf as [?%Z.eqb_eq|?%Z.eqb_eq]; eauto 10.
Qed.

Lemma display_formatted_cases man_file cat_file title decomp s r s' :
  display_formatted global_manpath man_file cat_file title decomp s = (r, s') →
  files_kept s s' ∨
  (fs_save_cat (ds_fmt s) = true ∧ ∃ m c p f enc, saving man_file cat_file m c ∧ decomp = Some (p, f, enc) ∧
    ((on catman = true ∧ ∃ r1, display_catman global_manpath (modtime m) de_COMP_CAT c p f enc (ds_cat s) = (r1, ds_cat s') ∧
        is_ret r1 = is_ret r) ∨
     (on catman = false ∧ ∃ disp_cmd r1,
        format_display_and_save global_manpath (modtime m) de_COMP_CAT p f disp_cmd c enc (ds_cat s) = (r1, ds_cat s') ∧
        is_ret r1 = is_ret r))).
Proof.
  intros Hr. unfold display_formatted in Hr. exit_step Hr s0 s1 Hg; [|discriminate..]. injection Hg as <- <-.
  exit_step Hr fs s1 Hfs; [|injection Hfs as _ <-; by left..]. injection Hfs as Hfs <-. destruct fs as [format sc].
  exit_step Hr u s1 Hu; [|by apply fmt_op_kept in Hu; left..]. pose proof (fmt_op_cat _ _ _ _ Hu) as Hk1. clear Hu.
  apply cat_kept_files in Hk1 as Hf1.
  assert (format && sc = false → files_kept s1 s') as Hno.
  { intros Hn. match type of Hr with ?body s1 = _ => assert (exit_keeps files_kept body) as Hx end; [|by eapply Hx].
    destruct format, sc; try discriminate Hn; exit_keeps_auto; by repeat split. }
  destruct (format && sc) eqn:Efs; [|left; etrans; eauto]. clear Hno. apply andb_true_iff in Efs as [-> ->].
  apply format_and_save_true in Hfs as (Hnever & Hsave & m & c & -> & -> & Hst & Hdir). cbn [default from_option id andb] in Hr.
  destruct decomp as [[[p f] enc]|]; [|left; injection Hr as _ <-; done]. rewrite bool_decide_false in Hr by done.
  destruct (if bool_decide (m = []) then true else fs_access_R m); cbn [negb] in Hr; [|left; by injection Hr as _ <-].
  destruct (on print_where || on print_where_cat) eqn:Ew.
  { left. etrans; [exact Hf1|]. match type of Hr with ?body s1 = _ => assert (exit_keeps files_kept body) as Hx end; [|by eapply Hx].
    exit_keeps_auto; by repeat split. }
  apply orb_false_iff in Ew as [Hw1 Hw2].
  assert (saving (Some m) (Some c) m c) as Hsv by by split.
  destruct (on catman).
  - right. split; [done|]. exists m, c, p, f, enc. split_and!; [done|done|]. left. split; [done|].
    unfold mbind, exitM_bind, cat_op in Hr. rewrite Hk1 in Hr. destruct (display_catman _ _ _ _ _ _ _ (ds_cat s)) as [r1 s2]. exists r1.
    destruct r1; injection Hr as <- <-; done.
  - exit_step Hr sk s2 Hask; (pose proof (ask_if_cat _ _ _ _ _ Hask) as Hk2); [|by left; etrans; [exact Hf1|apply cat_kept_files]..].
    assert (cat_kept s s2) as Hc2 by by etrans. apply cat_kept_files in Hc2 as Hf2.
    destruct sk; [left; by injection Hr as _ <-|].
    exit_step Hr disp_cmd s3 Hdisp; (pose proof (fmt_op_cat _ _ _ _ Hdisp) as Hk3); [|left; apply cat_kept_files; by etrans..].
    assert (cat_kept s s3) as Hc3 by by etrans.
    right. split; [done|]. exists m, c, p, f, enc. split_and!; [done|done|]. right. split; [done|]. exists disp_cmd.
    unfold mbind, exitM_bind, cat_op in Hr. rewrite Hc3 in Hr.
    destruct (format_display_and_save _ _ _ _ _ _ _ _ (ds_cat s)) as [r1 s4]. exists r1.
    destruct r1; injection Hr as <- <-; done.
Qed.

Lemma published_weaken m0 c (ok ok' : Prop) data m : (ok → ok') → published m0 c ok data m → published m0 c ok' data m.
Proof. intros Hok [[Hc|[? He]] Ho]; split; auto. Qed.

Lemma final_store_ext {A B} (r1 : outcome A) (r2 : outcome B) c : is_ret r1 = is_ret r2 → final_store r1 c = final_store r2 c.
Proof. by destruct r1, r2. Qed.

(** The end of [display] touches no file, and returns when the rest did. *)
Lemma display_end (m : disp finish) s r s' :
  (r ← m; match r with
          | Leave n => mret (M := disp) n
          | Finish found =>
            s ← exit_get;
            _ ← (if ds_prompt s then mret tt else exit_modify (set_prompt (negb (found =? 0)%Z)));
            mret found
          end) s = (r, s') →
  ∃ r1 s1, m s = (r1, s1) ∧ ds_cat s' = ds_cat s1 ∧ is_ret r1 = is_ret r.
Proof.
  intros Hr. exit_step Hr f s1 Hm; [|subst r; by eexists _, _..]. exists (Ret f), s1. split; [done|].
  destruct f as [found|n]; [|by injection Hr as <- <-]. exit_step Hr s2 s3 Hg; [|discriminate..]. injection Hg as <- <-.
  destruct (ds_prompt s1); by injection Hr as <- <-.
Qed.

(** *** The directory for HTML output *)

Definition temp_kept (s s' : disp_state) : Prop := ds_temp s' = ds_temp s.
#[local] Instance temp_kept_preorder : PreOrder temp_kept.
Proof. split; [by intros s|]. intros s1 s2 s3. unfold temp_kept. congruence. Qed.
Lemma fmt_op_temp {A} (m : fmt A) : exit_keeps temp_kept (fmt_op m).
Proof. intros s r s'. unfold fmt_op. destruct (m (ds_fmt s)) as [[a f]|e|e]; by intros [= _ <-]. Qed.
Lemma cat_op_temp {A} (m : exitM cat_state A) : exit_keeps temp_kept (cat_op m).
Proof. intros s r s'. unfold cat_op. destruct (m (ds_cat s)) as [r' c]. by intros [= _ <-]. Qed.
#[local] Hint Resolve fmt_op_temp cat_op_temp : state_keeps.
Lemma ask_if_temp b name : exit_keeps temp_kept (ask_if b name).
Proof. unfold ask_if, do_prompt. exit_keeps_auto; by repeat split. Qed.
Lemma gripe_status_temp st : exit_keeps temp_kept (gripe_status st).
Proof. unfold gripe_status. exit_keeps_auto. Qed.
Lemma try_browsers_temp l file : exit_keeps temp_kept (try_browsers l file).
Proof. induction l as [|c l IH]; cbn [try_browsers]; exit_keeps_auto. Qed.
#[local] Hint Resolve ask_if_temp gripe_status_temp try_browsers_temp : state_keeps.
Lemma show_source_temp m title d : exit_keeps temp_kept (show_source m title d).
Proof. unfold show_source. exit_keeps_auto. Qed.
Lemma prepare_page_temp dir m filters : exit_keeps temp_kept (prepare_page dir m filters).
Proof. unfold prepare_page. exit_keeps_auto. Qed.
#[local] Hint Resolve show_source_temp prepare_page_temp : state_keeps.

(** A directory of regular files. *)
Lemma remove_htmldir_insert (htmldir : cstr) (entries : list (cstr * node)) temp :
  (∀ f, de_unlink f = true) → Forall (λ e, e.2 = Reg) entries → temp !! htmldir = None →
  remove_htmldir htmldir (<[htmldir:=entries]> temp) = temp.
Proof.
  intros Hu Hreg Hno. unfold remove_htmldir. rewrite lookup_insert_eq.
  pose proof (remove_directory_spec (λ name, de_unlink (htmldir ++ lit "/" ++ name)) false entries) as Hrm.
  assert (removable (λ name, de_unlink (htmldir ++ lit "/" ++ name)) false (Dir entries) = true) as Hall.
  { change (forallb (entry_removable (λ name, de_unlink (htmldir ++ lit "/" ++ name)) false) entries = true).
    clear Hrm. induction Hreg as [|[name nd] es Hnd Hes IH]; [done|]. cbn in Hnd. subst nd. cbn. rewrite Hu. exact IH. }
  rewrite Hall in Hrm. rewrite Hrm. by apply delete_insert_id.
Qed.

Lemma try_browsers_returns l file : ∀ s, ∃ b s', try_browsers l file s = (Ret b, s') ∧ ds_temp s' = ds_temp s.
Proof.
  induction l as [|c l IH]; intros s; cbn [try_browsers]; [by do 2 eexists|].
  assert (∃ f s1, cat_op (run_pipelines [make_browser c file] None) s = (Ret f, s1) ∧ ds_temp s1 = ds_temp s) as (f & s1 & E & Ht1)
    by (do 2 eexists; split; reflexivity).
  unfold mbind at 1, exitM_bind. rewrite E. destruct (f 0%nat =? 0)%Z; [by do 2 eexists|].
  destruct (IH s1) as (b & s' & -> & Ht). exists b, s'. by rewrite Ht.
Qed.

(** The exits that leave the directory behind: the HTML file cannot be created,
    or no browser shows it. *)
Definition html_failure {A} (r : outcome A) : Prop :=
  r = Fatal "can't open temporary file" ∨ r = Fatal "couldn't execute any browser" ∨ r = Undef "format_display: no browser".

(** No temporary directory is left, or the one of a failure. *)
Definition html_left (temp : gmap cstr (list (cstr * node))) {A} (r : outcome A) (s' : disp_state) : Prop :=
  ds_temp s' = temp ∨
  (on htmlout = true ∧ html_failure r ∧ ∃ htmldir rest, temp !! htmldir = None ∧ ds_temp s' = <[htmldir:=rest]> temp).

Section html.
Context (temp : gmap cstr (list (cstr * node))).

Definition html_ok {A} (m : disp A) : Prop := ∀ s r s', m s = (r, s') → ds_temp s = temp → html_left temp r s'.

Lemma html_ok_kept {A} (m : disp A) : exit_keeps temp_kept m → html_ok m.
Proof. intros Hk s r s' Hr <-. left. by eapply Hk. Qed.
Lemma html_ok_after {A B} (m : disp A) (k : A → disp B) : exit_keeps temp_kept m → (∀ a, html_ok (k a)) → html_ok (m ≫= k).
Proof.
  intros Hm Hk s r s' Hr Hs. exit_step Hr a s1 Ha; (pose proof (Hm _ _ _ Ha) as Ht); unfold temp_kept in Ht; rewrite Hs in Ht;
    [by eapply Hk|by left..].
Qed.
Lemma html_ok_before {A B} (m : disp A) (k : A → disp B) : html_ok m → (∀ a, exit_keeps temp_kept (k a)) → html_ok (m ≫= k).
Proof.
  intros Hm Hk s r s' Hr Ht. exit_step Hr a s1 Ha; destruct (Hm _ _ _ Ha Ht) as [Hl|(Hon & Hf & Hd)].
  - left. rewrite <-Hl. by eapply Hk.
  - by destruct Hf as [|[|]].
  - subst r. by left.
  - subst r. right. split; [done|]. split; [|done]. destruct Hf as [[= ->]|[[= ->]|[=]]]; [by left|by right; left].
  - subst r. by left.
  - subst r. right. split; [done|]. split; [|done]. destruct Hf as [[=]|[[=]|[= ->]]]. by right; right.
Qed.

Lemma html_left_failure {A} (s : disp_state) (r : outcome A) htmldir rest :
  on htmlout = true → html_failure r → temp !! htmldir = None → ds_temp s = <[htmldir:=rest]> temp → html_left temp r s.
Proof. intros ????. right. split; [done|]. split; [done|]. by exists htmldir, rest. Qed.

Context (Hnew : ∀ t d, de_mkdtemp t = Some d → temp !! d = None).
Context (Hunlink : ∀ f, de_unlink f = true).

Lemma display_html_ok decomp format_cmd man_file : on htmlout = true → html_ok (display_html decomp format_cmd man_file).
Proof using All.
  intros Hon s r s' Hr Ht. unfold display_html in Hr. exit_step Hr s0 s1 Hg; [|discriminate..]. injection Hg as <- <-.
  exit_step Hr d s1 Hd; [|injection Hd as _ <-; by left..]. injection Hd as Hd <-.
  destruct (create_tempdir _ _ _ _ _ _) as [d'|] eqn:Etemp; [|discriminate Hd]. injection Hd as ->.
  assert (temp !! d = None) as Hno.
  { unfold create_tempdir in Etemp. destruct (path_search _ _ _ _) as [dir|]; [|discriminate Etemp]. by eapply Hnew. }
  exit_step Hr u s1 Hu; [|discriminate..]. injection Hu as _ <-. destruct (de_create _); cbn [negb] in Hr.
  2: { injection Hr as <- <-. eapply html_left_failure; [done|by left|done|]. cbn. by rewrite Ht. }
  exit_step Hr u2 s1 Hu2; [|discriminate..]. injection Hu2 as _ <-.
  exit_step Hr status s1 Hrun; [|discriminate..]. pose proof (cat_op_temp _ _ _ _ Hrun) as Ht1. clear Hrun.
  exit_step Hr u3 s2 Hu3; [|discriminate..]. injection Hu3 as _ <-.
  set (images := (λ name, (name, Reg)) <$> de_images) in *.
  assert (∃ rest, alter (λ es, es ++ images) d (ds_temp s1) = <[d:=rest]> temp ∧ Forall (λ e, e.2 = Reg) rest) as (rest & Hleft & Hreg).
  { unfold temp_kept in Ht1. rewrite Ht1. cbn. rewrite Ht, insert_insert_eq, alter_insert_eq. eexists. split; [done|].
    constructor; [done|]. apply Forall_fmap, Forall_true. by intros. }
  destruct (negb (status 1%nat =? 0)%Z).
  { exit_step Hr u4 s2 Hu4; [|discriminate..]. injection Hu4 as _ <-. injection Hr as <- <-. left. cbn.
    rewrite Hleft. by apply remove_htmldir_insert. }
  exit_step Hr html s2 Hh; [|subst r; injection Hh as Hh <-..]; [|destruct (opt html_pager); discriminate Hh|].
  2: { eapply html_left_failure; [done| |done|exact Hleft]. destruct (opt html_pager); [discriminate Hh|]. injection Hh as <-. by right; right. }
  injection Hh as _ <-. destruct (try_browsers_returns (strtok (λ c, bool_decide (c = ":"%char)) html)
    (d ++ lit "/" ++ (match strchr (base_name man_file) "."%char with Some e => take e (base_name man_file) | None => base_name man_file end) ++ lit ".html")
    (on_temp (alter (λ es, es ++ images) d) s1)) as (b & s2 & Hb & Ht2).
  unfold mbind at 1, exitM_bind in Hr. rewrite Hb in Hr. cbn in Ht2. rewrite Hleft in Ht2. destruct b; injection Hr as <- <-.
  - left. cbn. rewrite Ht2. by apply remove_htmldir_insert.
  - eapply html_left_failure; [done|by right; left|done|exact Ht2].
Qed.

Lemma format_display_ok decomp format_cmd disp_cmd man_file : html_ok (format_display decomp format_cmd disp_cmd man_file).
Proof using All.
  unfold format_display. apply html_ok_after; [apply cat_op_temp|]. intros _. apply html_ok_before; [|intros; apply cat_op_temp].
  destruct format_cmd as [f|]; cbn [fmap option_fmap option_map]; [|apply html_ok_kept; exit_keeps_auto].
  destruct (on htmlout) eqn:Eh; [by apply display_html_ok|]. apply html_ok_kept. exit_keeps_auto.
Qed.

Ltac html_ok_step :=
  first [solve [apply html_ok_kept; exit_keeps_auto; by repeat split]
        |apply format_display_ok
        |apply html_ok_before; [|intros; exit_keeps_auto; by repeat split]
        |apply html_ok_after; [exit_keeps_auto; by repeat split|intros]
        |match goal with |- html_ok (match ?x with _ => _ end) => destruct x end].
Lemma display_ok dir man_file cat_file title filters : html_ok (display_man_page global_manpath dir man_file cat_file title filters).
Proof using All. unfold display_man_page, display_formatted. repeat html_ok_step. Qed.
End html.

(** The pipelines that are run together to save a page: [p] reads it, [f]
    formats it, in the encoding [enc]. *)
Definition run_to_save (p f : pipeline) (enc : cstr) (ps : list pipeline) : Prop :=
  if on catman then ps = [p; maybe_discard_stderr (compressor de_COMP_CAT 0 (output_iconv enc (lit "UTF-8") f))]
  else ∃ disp_cmd, ps = saving_pipelines de_COMP_CAT p f disp_cmd enc.

(** The formatter succeeded, and so did the compressor, which catman runs in
    the same pipeline as the formatter. *)
Definition saved_well (n : nat) (ps : list pipeline) : Prop :=
  run_status n ps 1 = 0%Z ∧ (on catman = false → run_status n ps 3 = 0%Z).

Lemma saving_run man_file cat_file title decomp s r s' :
  debug = false → (∀ c, cat_file = Some c → not_temporary c) → ct_cleanup (ds_cat s) = [] → (∀ f, unlink_ok f = true) →
  display_formatted global_manpath man_file cat_file title decomp s = (r, s') →
  files_kept s s' ∨
  (fs_save_cat (ds_fmt s) = true ∧ ∃ m c p f enc ps, saving man_file cat_file m c ∧ decomp = Some (p, f, enc) ∧ run_to_save p f enc ps ∧
    let n := length (ct_runs (ds_cat s)) in
    saved_atomically c (saved_well n ps) (run_data n ps) (ds_cat s) r (ds_cat s')).
Proof using H3.
  intros Hd Hcat Hcl Hu [Hk|(Hsave & m & c & p & f & enc & Hsv & -> & Hcases)]%display_formatted_cases; [by left|right].
  split; [done|]. assert (not_temporary c) as Hc by (apply Hcat, Hsv). unfold run_to_save, saved_well, saved_atomically.
  exists m, c, p, f, enc. destruct Hcases as [(-> & r1 & Hrun & Hr1)|(-> & disp_cmd & r1 & Hrun & Hr1)].
  - apply catman_atomic in Hrun as [Hpub Hfin]; [|done..]. eexists. split_and!; [done|done|done|..].
    + eapply Forall_impl; [exact Hpub|]. intros store. by apply published_weaken.
    + intros g Hg. rewrite (final_store_ext r r1) by congruence. by apply Hfin.
  - apply format_save_ends in Hrun as [Hpub Hfin]; [|done..]. eexists. split_and!; [done|done|by exists disp_cmd|..].
    + eapply Forall_impl; [exact Hpub|]. intros store. apply published_weaken. intros [? ?]; by split.
    + intros g Hg. rewrite (final_store_ext r r1) by congruence. by apply Hfin.
Qed.

(** C11: whatever page is displayed, and however that ends, no file but its cat
    file is changed.  No temporary file or directory is left either, except
    the directory of HTML output when the HTML file could not be created in it
    or no browser showed it.  What another process sees of the cat files never
    changes at all, unless a page whose cat file is missing or older is
    formatted under options and for a width that make no difference to how cat
    pages look; and then the cat file changes only to the whole output of the
    formatter of this page, when the formatter and the compressor succeeded. *)
Theorem display_saves dir man_file cat_file title filters s r s' :
  debug = false → (∀ c, cat_file = Some c → not_temporary c) → ct_cleanup (ds_cat s) = [] → (∀ f, unlink_ok f = true) →
  (∀ t d, de_mkdtemp t = Some d → ds_temp s !! d = None) → (∀ f, de_unlink f = true) →
  display_man_page global_manpath dir man_file cat_file title filters s = (r, s') →
  (∀ f, cat_file ≠ Some f → final_store r (ds_cat s') !! f = ct_files (ds_cat s) !! f) ∧
  html_left (ds_temp s) r s' ∧
  (later_stores (ds_cat s) (ds_cat s') = [ct_files (ds_cat s)] ∨
   ∃ m c p f enc ps s1, saving man_file cat_file m c ∧ display_to_stdout = false ∧
     prepare_page dir man_file filters s = (Ret (Some (p, f, enc)), s1) ∧ may_save dir (ds_fmt s1) ∧ run_to_save p f enc ps ∧
     let n := length (ct_runs (ds_cat s)) in
     Forall (published (ct_files (ds_cat s)) c (saved_well n ps) (run_data n ps)) (later_stores (ds_cat s) (ds_cat s'))).
Proof using H3.
  intros Hd Hcat Hcl Hu Hnew Hul Hr.
  assert (html_left (ds_temp s) r s') as Htemp by by eapply (display_ok (ds_temp s) Hnew Hul).
  unfold display_man_page in Hr.
  assert (∀ s1, files_kept s s1 → ds_cat s' = ds_cat s1 →
    (∀ f, cat_file ≠ Some f → final_store r (ds_cat s') !! f = ct_files (ds_cat s) !! f) ∧
    later_stores (ds_cat s) (ds_cat s') = [ct_files (ds_cat s)]) as Hkept.
  { intros s1 (Hf & Hs & Hc) ->. split; [|by unfold later_stores; rewrite Hs, Hf, drop_all].
    intros f _. unfold final_store. rewrite exit_cleanup_none by congruence. destruct r; by rewrite Hf. }
  exit_step Hr decomp s1 Hprep; (pose proof (prepare_page_cat _ _ _ _ _ _ Hprep) as Hc1);
    (pose proof (cat_kept_files _ _ Hc1) as Hk1); [|by destruct (Hkept s' Hk1 eq_refl) as [? ?]; auto..].
  apply display_end in Hr as (r1 & s2 & Hr & Hs2 & Hret). destruct display_to_stdout eqn:Eout.
  { apply show_source_kept in Hr. destruct (Hkept s2) as [? ?]; [by etrans|done|]. by auto. }
  apply saving_run in Hr as [Hk2|(Hsave & m & c & p & f & enc & ps & Hsv & -> & Hps & Hpub & Hfin)];
    [|clear Hkept|done..|by rewrite Hc1|done].
  { destruct (Hkept s2) as [? ?]; [by etrans|done|]. by auto. }
  rewrite Hc1 in Hpub, Hfin. rewrite Hs2. split.
  { intros f' Hf'. rewrite (final_store_ext r r1) by congruence. apply Hfin. intros ->. apply Hf', Hsv. }
  split; [done|]. right. exists m, c, p, f, enc, ps, s1. split_and!; [done|done|done|by eapply prepare_page_save|done|done].
Qed.
End theorems.

(** ** Evaluation *)

(** A page, an older cat file, and the directory of that. *)
#[local] Instance page_fs : FileSystem := {|
  fs_stat f :=
    if STREQ f (lit "/m/man1/ls.1") then Some (Stat (S_IFREG + 420) 10 1 1 (Timespec 5 0))
    else if STREQ f ls_cat then Some (Stat (S_IFREG + 420) 10 1 2 (Timespec 4 0))
    else if STREQ f (lit "/c/cat1") then Some (Stat (S_IFDIR + 493) 10 2 3 (Timespec 4 0))
    else None;
  fs_lstat _ := None; fs_readdir _ := None; fs_access_R _ := true; fs_access_F _ := true;
  fs_canonicalize _ := None; fs_glob _ := None;
|}.
Definition no_zlib : Zlib := {| gzFile := unit; gzopen _ := None; gzread f _ := (None, f) |}.
Definition less_env : PagerEnv := {| pe_pager := lit "less"; pe_prompt_string := lit " $MAN_PN "; pe_less := None; PROG_TR := lit "tr" |}.
Definition tty_env (answers : list ascii) : DisplayEnv := {|
  de_comp := all_comp; de_stdin := 3; de_stdin_tty := true; de_tty _ := Some answers; de_P_tmpdir := None; de_setid := false;
  de_access_W _ := true; de_mkdtemp t := Some t; de_create _ := true; de_images := [lit "grohtml-1.png"];
  de_unlink _ := true; de_COMP_CAT := None; de_fuel := 2;
|}.
Definition before_display : disp_state := DispState (fresh "") before_save false false 0 [] ∅.
Definition show_ls (keys : list (opt_key * option cstr)) (status : Z) : outcome Z * disp_state :=
  @display_man_page (groff_env keys "UTF-8" true true) no_lib less_env (cat_env false status) plain_ids page_fs simple_dirname no_zlib
    (tty_env [NL]) true (Some (lit "/m")) (Some (lit "/m/man1/ls.1")) (Some ls_cat) (lit "ls(1)") None before_display.

Definition shown_ls : outcome Z * disp_state := show_ls [] 0.

Lemma display_saves_witness :
  (∀ f, Some ls_cat ≠ Some f →
    @final_store (cat_env false 0) Z shown_ls.1 (ds_cat shown_ls.2) !! f = ct_files (ds_cat before_display) !! f) ∧
  @html_left (groff_env [] "UTF-8" true true) ∅ Z shown_ls.1 shown_ls.2 ∧
  (later_stores (ds_cat before_display) (ds_cat shown_ls.2) = [ct_files (ds_cat before_display)] ∨
   ∃ m c p f enc ps s1, @saving (groff_env [] "UTF-8" true true) page_fs (Some (lit "/m/man1/ls.1")) (Some ls_cat) m c ∧
     @display_to_stdout (groff_env [] "UTF-8" true true) = false ∧
     @prepare_page (groff_env [] "UTF-8" true true) no_lib page_fs no_zlib (tty_env [NL]) (Some (lit "/m"))
       (Some (lit "/m/man1/ls.1")) None before_display = (Ret (Some (p, f, enc)), s1) ∧
     @may_save (groff_env [] "UTF-8" true true) (Some (lit "/m")) (ds_fmt s1) ∧
     @run_to_save (groff_env [] "UTF-8" true true) (cat_env false 0) (tty_env [NL]) p f enc ps ∧
     let n := length (ct_runs (ds_cat before_display)) in
     Forall (published (ct_files (ds_cat before_display)) c (@saved_well (groff_env [] "UTF-8" true true) (cat_env false 0) n ps)
       (@run_data (cat_env false 0) n ps)) (later_stores (ds_cat before_display) (ds_cat shown_ls.2))).
Proof.
  apply (@display_saves (groff_env [] "UTF-8" true true) no_lib less_env (cat_env false 0) (cat_env_laws false 0) plain_ids page_fs simple_dirname
    no_zlib (tty_env [NL]) true (Some (lit "/m")) (Some (lit "/m/man1/ls.1")) (Some ls_cat) (lit "ls(1)") None before_display).
  - reflexivity.
  - intros c [= <-]. apply ls_cat_not_temporary.
  - reflexivity.
  - done.
  - intros t d _. apply lookup_empty.
  - done.
  - apply surjective_pairing.
Defined.
(** The cat file is out of date: it is replaced, unless the formatter fails or
    an option makes the output special. *)
Example display_values :
  (ct_files (ds_cat shown_ls.2) !! ls_cat = Some (CatEntry (lit "new") CATMODE (Some (6, 12)%Z) (Some (Timespec 5 0)))) ∧
  (ct_files (ds_cat (show_ls [] 1).2) !! ls_cat = Some (CatEntry (lit "old") CATMODE None None)) ∧
  (ct_files (ds_cat (show_ls [(Short "p"%char, Some (lit "t"))] 0).2) !! ls_cat = Some (CatEntry (lit "old") CATMODE None None)) ∧
  (ct_files (ds_cat (show_ls [(Short "E"%char, Some (lit "latin1"))] 0).2) !! ls_cat = Some (CatEntry (lit "old") CATMODE None None)).
Proof. split_and!; by vm_compute. Qed.

Definition run_names (r : outcome Z * disp_state) : list (list (list cstr)) := (λ x : list pipeline * sec_state, names_of <$> x.1) <$> ct_runs (ds_cat r.2).

(** The four pipelines that are run together. *)
Example display_runs :
  run_names shown_ls =
    [[[]; lit <$> ["zsoelim"; "manconv -f UTF-8:ISO-8859-1 -t UTF-8//IGNORE"; "preconv -e UTF-8 "; "nroff -mandoc -rLL=79n -rLT=79n  -Tutf8 "];
      [squeeze_name; lit "less "]; []]].
Proof. by vm_compute. Qed.

(** HTML output: the directory is removed at the end, but stays when the file
    in it cannot be created, and when there is no browser to show it. *)
Definition show_html (html : cstr) (creates : bool) : outcome Z * disp_state :=
  @display_man_page (groff_env [(Short "H"%char, Some html)] "UTF-8" true true) no_lib less_env (cat_env false 0) plain_ids page_fs
    simple_dirname no_zlib
    {| de_comp := all_comp; de_stdin := 3; de_stdin_tty := true; de_tty _ := Some [NL]; de_P_tmpdir := None; de_setid := false;
       de_access_W _ := true; de_mkdtemp t := Some t; de_create _ := creates; de_images := [lit "grohtml-1.png"];
       de_unlink _ := true; de_COMP_CAT := None; de_fuel := 2 |}
    true (Some (lit "/m")) (Some (lit "/m/man1/ls.1")) (Some ls_cat) (lit "ls(1)") None before_display.
Definition temp_left (r : outcome Z * disp_state) : outcome Z * list (cstr * list cstr) :=
  (r.1, (λ d, (d.1, d.2.*1)) <$> map_to_list (ds_temp r.2)).

Example html_directory_left :
  temp_left (show_html (lit "lynx") true) = (Ret 1%Z, []) ∧
  temp_left (show_html (lit "lynx") false) = (Fatal "can't open temporary file", [(lit "/tmp/hmanXXXXXX", [])]) ∧
  temp_left (show_html [] true) =
    (Fatal "couldn't execute any browser", [(lit "/tmp/hmanXXXXXX", [lit "ls.html"; lit "grohtml-1.png"])]).
Proof. split_and!; by vm_compute. Qed.

(** A page that cannot be opened, when something is to be put before it: the
    null pointer is used. *)
Example missing_page_with_prefix :
  (@display_man_page (groff_env [(OPT_NO_JUSTIFICATION, None)] "UTF-8" true true) no_lib less_env (cat_env false 0) plain_ids page_fs
    simple_dirname no_zlib (tty_env [NL]) true (Some (lit "/m")) (Some (lit "/m/man1/gone.1")) None (lit "gone(1)") None before_display).1 =
  Undef "display: the page was not opened".
Proof. by vm_compute. Qed.

(** TMPDIR counts only when the program is setuid. *)
Example tmpdir_only_when_setuid :
  let env v := if STREQ v (lit "TMPDIR") then Some (lit "/home/u/tmp") else None in
  path_search env false None (λ _, true) = Some (lit "/tmp") ∧ path_search env true None (λ _, true) = Some (lit "/home/u/tmp").
Proof. by vm_compute. Qed.
