(* ===== verification/IndexFiles.v ===== *)
(** * src/mandb.c: the files of an index

    mandb works on a copy of the index of a hierarchy, named after the process,
    and renames it over the index when something changed ([dbpaths]); then it
    writes the index out again in the order of its keys ([reorganize]).  The
    build modelled has one file per index (GNU dbm).  The index files are a
    finite map from names to databases; an open database is the value read
    from the map, written back when it is closed. *)

From S2P Require Import Prelude CStr Fs Mydbm DbContent DbLookup DbDelete.

(** How creating a database can end: created, refused with [EACCES] or
    [EROFS], or another error. *)
Inductive creation := Created | CreateReadOnly | CreateError.

(** System calls on index files.  [fopen_r] fails with an error other than
    [ENOENT]; [copy_data] is the loop over the blocks together with the times
    set afterwards, and whether reading and writing succeeded; [chmod_ok] is
    asked for files that exist; [index_create] is also told whether the handle
    is already open. *)
Class IndexIO (db : Type) := {
  fopen_r : cstr → bool;
  fopen_w : cstr → bool;
  copy_data : db → db * bool;
  rename_ok : cstr → cstr → bool;
  remove_ok : cstr → bool;
  chmod_ok : cstr → bool;
  open_rw : cstr → bool;
  open_rd : cstr → bool;
  index_create : cstr → bool → creation;
  empty_index : db;
  get_time : db → timespec;
}.

(** The build: [DB_EXT]. *)
Definition DB_EXT : cstr := lit ".db".
Definition mkdbname (path : cstr) : cstr := path ++ lit "/index" ++ DB_EXT.

(** [struct dbpaths]: null before [dbpaths_init] and once freed. *)
Record dbpaths := Dbpaths { xfile : option cstr; xtmpfile : option cstr }.
Definition no_dbpaths : dbpaths := Dbpaths None None.

Section files.
Context {db : Type} `{Mydbm db} `{!IndexIO db}.
Abbreviation files := (gmap cstr db).

Definition check_remove (path : cstr) (fs : files) : files :=
  if remove_ok path then delete path fs else fs.

Definition check_rename (from to : cstr) (fs : files) : files :=
  match fs !! from with
  | None => fs
  | Some d => if rename_ok from to then <[to:=d]> (delete from fs) else check_remove from fs
  end.

Definition check_chmod (path : cstr) (fs : files) : files :=
  if bool_decide (is_Some (fs !! path)) && chmod_ok path then fs else check_remove path fs.

(** [true]: the result is not negative. *)
Definition xcopy (from to : cstr) (fs : files) : bool * files :=
  if negb (fopen_r from) then (false, fs)
  else
    match fs !! from with
    | None => (true, fs)
    | Some d =>
      if negb (fopen_w to) then (false, fs)
      else
        let '(d', ok) := copy_data d in
        let fs := <[to:=d']> fs in
        if ok then (true, check_chmod to fs) else (false, check_remove to fs)
    end.

Definition dbpaths_init (base tmpbase : cstr) : dbpaths := Dbpaths (Some base) (Some tmpbase).

Definition dbpaths_copy_to_tmp (p : dbpaths) (fs : files) : outcome (bool * files) :=
  from ← or_undef "dbpaths_copy_to_tmp: xfile" (xfile p);
  to ← or_undef "dbpaths_copy_to_tmp: xtmpfile" (xtmpfile p);
  Ret (xcopy from to fs).

Definition dbpaths_remove_tmp (p : dbpaths) (fs : files) : outcome files :=
  tmp ← or_undef "dbpaths_remove_tmp: xtmpfile" (xtmpfile p);
  Ret (check_remove tmp fs).

Definition dbpaths_rename_from_tmp (p : dbpaths) (fs : files) : outcome (dbpaths * files) :=
  tmp ← or_undef "dbpaths_rename_from_tmp: xtmpfile" (xtmpfile p);
  file ← or_undef "dbpaths_rename_from_tmp: xfile" (xfile p);
  Ret (Dbpaths (Some file) None, check_chmod file (check_rename tmp file fs)).

(** Safe in a signal handler. *)
Definition dbpaths_unlink_tmp (p : dbpaths) (fs : files) : files :=
  match xtmpfile p with
  | Some tmp => check_remove tmp fs
  | None => fs
  end.

Definition dbpaths_free_elements (p : dbpaths) : dbpaths := no_dbpaths.

(** [MYDBM_RWOPEN], [MYDBM_RDOPEN], and what [MYDBM_FREE] leaves on disk. *)
Definition rwopen (name : cstr) (fs : files) : option db := if open_rw name then fs !! name else None.
Definition rdopen (name : cstr) (fs : files) : option db := if open_rd name then fs !! name else None.
Definition close_index (name : cstr) (opened : option db) (fs : files) : files :=
  match opened with Some d => <[name:=d]> fs | None => fs end.

(** The loop of [reorganize]: [false] when an insertion fails. *)
Fixpoint copy_keys (dbf tmpdbf : db) (keys : list cstr) : outcome (bool * db) :=
  match keys with
  | [] => Ret (true, tmpdbf)
  | key :: keys =>
    content ← or_undef "reorganize: content" (MYDBM_FETCH dbf key);
    match MYDBM_INSERT tmpdbf key content with
    | (true, tmpdbf) => Ret (false, tmpdbf)
    | (false, tmpdbf) => copy_keys dbf tmpdbf keys
    end
  end.

(** [true]: the new index was renamed over the old one. *)
Definition reorganize (dbname tmpdbname : cstr) (fs : files) : outcome (bool * files) :=
  let paths := dbpaths_init dbname tmpdbname in
  match rdopen dbname fs with
  | None => Ret (false, dbpaths_unlink_tmp paths fs)
  | Some dbf =>
    if negb (bool_decide (dbver_rd dbf = 0%Z)) then Ret (false, dbpaths_unlink_tmp paths fs)
    else
      match index_create tmpdbname false with
      | Created =>
        '(ok, tmpdbf) ← copy_keys dbf empty_index (db_keys dbf);
        let fs := close_index tmpdbname (Some tmpdbf) fs in
        if ok : bool then
          '(paths, fs) ← dbpaths_rename_from_tmp paths fs;
          Ret (true, dbpaths_unlink_tmp paths fs)
        else Ret (false, dbpaths_unlink_tmp paths fs)
      | _ => Ret (false, dbpaths_unlink_tmp paths fs)
      end
  end.
End files.

(** ** Rewriting an index *)

(** What the library and the file system promise. *)
Class IndexIOLaws (db : Type) `{MydbmLaws db} `{!IndexIO db} : Prop := {
  empty_view : db_view empty_index = ∅;
  copy_data_view d d' : copy_data d = (d', true) → db_view d' = db_view d ∧ get_time d' = get_time d;
}.

Section theorems.
Context {db : Type} `{MydbmReliable db} `{!IndexIO db} `{!IndexIOLaws db}.
Abbreviation files := (gmap cstr db).
Implicit Types fs : files.

Lemma check_remove_ne path name fs : name ≠ path → check_remove path fs !! name = fs !! name.
Proof. intros. unfold check_remove. destruct (remove_ok path); [by apply lookup_delete_ne|done]. Qed.
Lemma check_remove_eq path fs : remove_ok path = true → check_remove path fs !! path = None.
Proof. intros Hr. unfold check_remove. rewrite Hr. apply lookup_delete_eq. Qed.

Lemma check_rename_ne from to name fs : name ≠ from → name ≠ to → check_rename from to fs !! name = fs !! name.
Proof.
  intros. unfold check_rename. destruct (fs !! from); [|done]. destruct (rename_ok from to).
  - by rewrite lookup_insert_ne, lookup_delete_ne.
  - by apply check_remove_ne.
Qed.
Lemma check_rename_from from to fs :
  from ≠ to → remove_ok from = true → check_rename from to fs !! from = None.
Proof.
  intros Hne Hr. unfold check_rename. destruct (fs !! from) eqn:E; [|done]. destruct (rename_ok from to).
  - rewrite lookup_insert_ne by done. apply lookup_delete_eq.
  - by apply check_remove_eq.
Qed.
Lemma check_rename_to from to fs :
  from ≠ to →
  check_rename from to fs !! to = fs !! to ∨
  rename_ok from to = true ∧ is_Some (fs !! from) ∧ check_rename from to fs !! to = fs !! from.
Proof.
  intros Hne. unfold check_rename. destruct (fs !! from) eqn:E; [|by left]. destruct (rename_ok from to).
  - right. by rewrite lookup_insert_eq.
  - left. by apply check_remove_ne.
Qed.

Lemma check_chmod_ne path name fs : name ≠ path → check_chmod path fs !! name = fs !! name.
Proof. intros. unfold check_chmod. destruct (_ && _); [done|by apply check_remove_ne]. Qed.
Lemma check_chmod_eq path fs : chmod_ok path = true → check_chmod path fs !! path = fs !! path.
Proof.
  intros Hc. unfold check_chmod, check_remove. rewrite Hc. destruct (fs !! path) eqn:E; simpl; [done|].
  destruct (remove_ok path); [apply lookup_delete_eq|done].
Qed.

Lemma copy_keys_spec (d : db) keys : ∀ t : db,
  (∀ k, k ∈ keys → is_Some (db_view d !! k)) →
  ∃ ok t', copy_keys d t keys = Ret (ok, t') ∧
    (ok = true → ∀ k, db_view t' !! k = if decide (k ∈ keys) then db_view d !! k else db_view t !! k) ∧
    (NoDup keys → (∀ k, k ∈ keys → db_view t !! k = None) → ok = true).
Proof.
  induction keys as [|key keys IH]; intros t Hk; simpl.
  { exists true, t. split; [done|]. split; [|done]. by intros _ k. }
  destruct (Hk key) as [c Hc]; [by left|]. rewrite fetch_view, Hc. simpl.
  pose proof (insert_absent t key c) as Hab.
  destruct (MYDBM_INSERT t key c) as [b t1] eqn:Ei. destruct b.
  { exists false, t1. split; [done|]. split; [done|]. intros _ Ht. destruct (Hab (Ht key ltac:(by left))) as (? & ? & _). congruence. }
  destruct (insert_false t key c t1 Ei) as [Hkey Hv].
  destruct (IH t1) as (ok & t' & -> & Hok & Hlive); [intros; apply Hk; by right|]. exists ok, t'. split; [done|]. split.
  - intros Ht k. rewrite (Hok Ht k), Hv. destruct (decide (k = key)) as [->|Hne].
    + rewrite lookup_insert_eq, <-Hc. destruct (decide (key ∈ keys)), (decide (key ∈ key :: keys)) as [|Hno]; try done.
      all: destruct Hno; by left.
    + rewrite lookup_insert_ne by done. destruct (decide (k ∈ keys)), (decide (k ∈ key :: keys)); set_solver.
  - intros [Hnot Hnd]%NoDup_cons Ht. apply Hlive; [done|]. intros k Hin. rewrite Hv.
    rewrite lookup_insert_ne by (by intros ->). apply Ht. by right.
Qed.

(** The whole index is copied. *)
Lemma copy_index (d : db) : ∃ t, copy_keys d empty_index (db_keys d) = Ret (true, t) ∧ db_view t = db_view d.
Proof.
  destruct (copy_keys_spec d (db_keys d) empty_index) as (ok & t & Hc & Hok & Hlive).
  { intros k. apply elem_of_db_keys. }
  assert (ok = true) as ->.
  { apply Hlive; [apply db_keys_NoDup|]. intros. by rewrite empty_view. }
  exists t. split; [done|]. apply map_eq. intros k. rewrite (Hok eq_refl k). case_decide as Hk; [done|].
  rewrite empty_view, lookup_empty. rewrite elem_of_db_keys in Hk. by apply eq_None_not_Some in Hk.
Qed.

(** What the renaming leaves, whether or not it succeeds. *)
Lemma rename_from_tmp_spec name tmp fs :
  name ≠ tmp → remove_ok tmp = true → chmod_ok name = true →
  ∃ fs', dbpaths_rename_from_tmp (dbpaths_init name tmp) fs = Ret (Dbpaths (Some name) None, fs') ∧
    fs' !! tmp = None ∧ (∀ f, f ≠ name → f ≠ tmp → fs' !! f = fs !! f) ∧
    (fs' !! name = fs !! name ∨ is_Some (fs !! tmp) ∧ fs' !! name = fs !! tmp) ∧
    (rename_ok tmp name = true → is_Some (fs !! tmp) → fs' !! name = fs !! tmp).
Proof.
  intros Hne Hr Hc. eexists. split; [done|]. split_and!.
  - rewrite check_chmod_ne by done. by apply check_rename_from.
  - intros f Hn Ht. rewrite check_chmod_ne by done. by apply check_rename_ne.
  - rewrite check_chmod_eq by done. destruct (check_rename_to tmp name fs) as [?|(? & ? & ?)]; auto.
  - intros Hrn [d Hd]. rewrite check_chmod_eq by done. unfold check_rename. rewrite Hd, Hrn. apply lookup_insert_eq.
Qed.

Lemma reorganize_spec name tmp fs :
  name ≠ tmp → remove_ok tmp = true → chmod_ok name = true →
  ∃ done_ fs', reorganize name tmp fs = Ret (done_, fs') ∧
    fs' !! tmp = None ∧ (∀ f, f ≠ name → f ≠ tmp → fs' !! f = fs !! f) ∧
    db_view <$> fs' !! name = db_view <$> fs !! name ∧
    (∀ d, rdopen name fs = Some d → dbver_rd d = 0%Z → index_create tmp false = Created → done_ = true).
Proof.
  intros Hne Hr Hc. unfold reorganize.
  assert (∀ fs, dbpaths_unlink_tmp (dbpaths_init name tmp) fs = check_remove tmp fs) as Hun by done.
  destruct (rdopen name fs) as [d|] eqn:Ed.
  2: { do 2 eexists. split; [done|]. rewrite Hun, check_remove_eq, check_remove_ne by done. split_and!; try done.
       intros. by apply check_remove_ne. }
  assert (fs !! name = Some d) as Hd by (unfold rdopen in Ed; by destruct (open_rd name)).
  assert (∀ d', db_view d' = db_view d → ∀ x, Some d' = x → db_view <$> x = db_view <$> fs !! name) as Hview
    by (intros d' Hd' x <-; rewrite Hd; simpl; by rewrite Hd').
  case_bool_decide as Hver; cbn [negb].
  2: { do 2 eexists. split; [done|]. rewrite Hun, check_remove_eq, check_remove_ne by done. split_and!; try done.
       - intros. by apply check_remove_ne.
       - intros ? [= <-] ?. congruence. }
  destruct (index_create tmp false) eqn:Ecr.
  2,3: do 2 eexists; split; [done|]; rewrite Hun, check_remove_eq, check_remove_ne by done; split_and!; try done;
       intros; by apply check_remove_ne.
  destruct (copy_index d) as (t & -> & Ht). rewrite bind_Ret. cbn [close_index].
  destruct (rename_from_tmp_spec name tmp (<[tmp:=t]> fs) Hne Hr Hc) as (fs' & Hfs & Htmp & Hoth & Hn & _).
  rewrite Hfs, bind_Ret. cbn [dbpaths_unlink_tmp xtmpfile]. do 2 eexists. split; [done|]. split_and!; try done.
  - intros f ??. rewrite Hoth by done. by apply lookup_insert_ne.
  - destruct Hn as [Hn|[_ Hn]]; rewrite Hn.
    + by rewrite lookup_insert_ne.
    + rewrite lookup_insert_eq. by apply (Hview t Ht).
Qed.

(** Rewriting an index keeps what it holds and touches no other file: the
    file under the name of the index holds the same entries before and after,
    whichever step fails, and the temporary file is gone; when the index can be
    read and the new file created, the rewriting goes through to the end. *)
Theorem reorganize_keeps name tmp fs :
  name ≠ tmp → remove_ok tmp = true → chmod_ok name = true →
  ∃ done_ fs', reorganize name tmp fs = Ret (done_, fs') ∧
    fs' !! tmp = None ∧ (∀ f, f ≠ name → f ≠ tmp → fs' !! f = fs !! f) ∧
    db_view <$> fs' !! name = db_view <$> fs !! name ∧
    (∀ d, rdopen name fs = Some d → dbver_rd d = 0%Z → index_create tmp false = Created → done_ = true).
Proof. apply reorganize_spec. Qed.
End theorems.

(** ** Evaluation *)

(** A file system where everything succeeds but what is said otherwise. *)
Definition index_io (no_chmod : list cstr) : IndexIO (gmap cstr cstr) := {|
  fopen_r _ := true; fopen_w _ := true; copy_data d := (d, true); rename_ok _ _ := true; remove_ok _ := true;
  chmod_ok p := bool_decide (p ∉ no_chmod); open_rw _ := true; open_rd _ := true;
  index_create _ opened := if opened then CreateError else Created;
  empty_index := ∅; get_time _ := Timespec 100 0;
|}.
#[export] Instance index_io_laws no_chmod : @IndexIOLaws _ _ _ (index_io no_chmod).
Proof. split; [done|]. by intros d d' [= <-]. Qed.

Definition one_index : gmap cstr cstr := {[ VER_KEY := VER_ID; lit "ls" := lit "x" ]}.

Lemma reorganize_keeps_witness :
  let fs : gmap cstr (gmap cstr cstr) := {[ lit "/m/index.db" := one_index ]} in
  ∃ done_ fs', @reorganize _ _ (index_io []) (lit "/m/index.db") (lit "/m/7") fs = Ret (done_, fs') ∧
    fs' !! lit "/m/7" = None ∧ (∀ f, f ≠ lit "/m/index.db" → f ≠ lit "/m/7" → fs' !! f = fs !! f) ∧
    db_view <$> fs' !! lit "/m/index.db" = db_view <$> fs !! lit "/m/index.db" ∧
    (∀ d, @rdopen _ (index_io []) (lit "/m/index.db") fs = Some d → dbver_rd d = 0%Z →
      @index_create _ (index_io []) (lit "/m/7") false = Created → done_ = true).
Proof.
  refine (@reorganize_keeps (gmap cstr cstr) _ _ _ (index_io []) _ (lit "/m/index.db") (lit "/m/7") _ _ _ _);
    [by vm_compute|done|done].
Defined.

(** When the mode of the new index cannot be set, the index is removed. *)
Example reorganize_chmod :
  match @reorganize _ _ (index_io [lit "/m/index.db"]) (lit "/m/index.db") (lit "/m/7")
    ({[ lit "/m/index.db" := one_index ]} : gmap cstr (gmap cstr cstr)) with
  | Ret (done_, fs) => bool_decide (fs = ∅) && done_
  | _ => false
  end = true.
Proof. by vm_compute. Qed.
