(* ===== verification/Mandb.v ===== *)
(** * src/mandb.c: bringing the index of one hierarchy up to date

    [mandb] works on a temporary copy of an index: it purges the pages that are
    gone, scans the directories that changed, and looks for stray cats.
    [process_manpath] renames the copy over the index when something changed.
    The walk over the hierarchies is in the file [MandbMain]. *)

From S2P Require Import Prelude CStr Fs Util Compression Filenames Mydbm DbContent Wordfnmatch DbLookup DbGroup DbKeys DbStore DbDelete Globbing Descriptions UltSrc Purge CheckMandirs Manp Straycats Cleanup Security IndexFiles.

(** The command line. *)
Record mandb_opts := MandbOpts {
  o_debug : bool;
  o_quiet : Z;
  o_strays : bool;
  o_purge : bool;
  o_user : bool;
  o_create : bool;
  o_test : bool;
  o_filename : option cstr;
  o_config : option cstr;
  o_manp : option cstr;
}.

(** [struct tried_catdirs_entry], the functions pushed on the cleanup stack,
    and [gl_hash_map]'s own order. *)
Record tried := Tried { td_manpath : cstr; td_seen : bool }.
Inductive cleanup_fn := FreeElements | UnlinkTmp.
#[export] Instance cleanup_fn_eq_dec : EqDecision cleanup_fn.
Proof. solve_decision. Defined.

(** Calls of the system and of other processes.  [stat_missing]: [stat] fails
    with [ENOENT]; [pid]: the process id in decimal; [tag_readable]: an existing
    CACHEDIR.TAG can be opened. *)
Class MandbEnv := {
  chdir_ok : cstr → bool;
  owner : cstr → option (Z * Z);
  lchown_ok : cstr → bool;
  man_owner_ids : Z * Z;
  pid : cstr;
  stat_missing : cstr → bool;
  tag_readable : cstr → bool;
  cat_opens : cstr → bool;
  cat_name : cstr → cstr → option cstr;
  sigaction_works : signo → bool;
  atexit_works : bool;
  map_order : list (cstr * tried) → list (cstr * tried);
}.

(** The index files, the CACHEDIR.TAG files, the files given to the owner of
    man's files, and the variables of the program; [mb_scan] holds the caches
    and the count of pages of the scan, with no database open. *)
Record mandb_state (db : Type) := MandbState {
  mb_files : gmap cstr db;
  mb_tags : gset cstr;
  mb_chowned : list cstr;
  mb_sec : sec_state;
  mb_cleanups : state (fn:=cleanup_fn) (arg:=unit);
  mb_dirs : dirent_map;
  mb_scan : scan_state db;
  mb_purged : nat;
  mb_strays : nat;
  mb_force : bool;
  mb_tried : gmap cstr tried;
}.
Arguments MandbState {db}.
Arguments mb_files {db}. Arguments mb_tags {db}. Arguments mb_chowned {db}. Arguments mb_sec {db}. Arguments mb_cleanups {db}.
Arguments mb_dirs {db}. Arguments mb_scan {db}. Arguments mb_purged {db}. Arguments mb_strays {db}. Arguments mb_force {db}.
Arguments mb_tried {db}.

Section setters.
Context {db : Type}.
Implicit Types s : mandb_state db.
Definition set_files x s : mandb_state db := MandbState x (mb_tags s) (mb_chowned s) (mb_sec s) (mb_cleanups s) (mb_dirs s)
  (mb_scan s) (mb_purged s) (mb_strays s) (mb_force s) (mb_tried s).
Definition set_tags x s : mandb_state db := MandbState (mb_files s) x (mb_chowned s) (mb_sec s) (mb_cleanups s) (mb_dirs s)
  (mb_scan s) (mb_purged s) (mb_strays s) (mb_force s) (mb_tried s).
Definition set_chowned x s : mandb_state db := MandbState (mb_files s) (mb_tags s) x (mb_sec s) (mb_cleanups s) (mb_dirs s)
  (mb_scan s) (mb_purged s) (mb_strays s) (mb_force s) (mb_tried s).
Definition set_privs x s : mandb_state db := MandbState (mb_files s) (mb_tags s) (mb_chowned s) x (mb_cleanups s) (mb_dirs s)
  (mb_scan s) (mb_purged s) (mb_strays s) (mb_force s) (mb_tried s).
Definition set_cleanups x s : mandb_state db := MandbState (mb_files s) (mb_tags s) (mb_chowned s) (mb_sec s) x (mb_dirs s)
  (mb_scan s) (mb_purged s) (mb_strays s) (mb_force s) (mb_tried s).
Definition set_cached x s : mandb_state db := MandbState (mb_files s) (mb_tags s) (mb_chowned s) (mb_sec s) (mb_cleanups s) x
  (mb_scan s) (mb_purged s) (mb_strays s) (mb_force s) (mb_tried s).
Definition set_scan x s : mandb_state db := MandbState (mb_files s) (mb_tags s) (mb_chowned s) (mb_sec s) (mb_cleanups s)
  (mb_dirs s) x (mb_purged s) (mb_strays s) (mb_force s) (mb_tried s).
Definition set_purged x s : mandb_state db := MandbState (mb_files s) (mb_tags s) (mb_chowned s) (mb_sec s) (mb_cleanups s)
  (mb_dirs s) (mb_scan s) x (mb_strays s) (mb_force s) (mb_tried s).
Definition set_strays x s : mandb_state db := MandbState (mb_files s) (mb_tags s) (mb_chowned s) (mb_sec s) (mb_cleanups s)
  (mb_dirs s) (mb_scan s) (mb_purged s) x (mb_force s) (mb_tried s).
Definition set_force x s : mandb_state db := MandbState (mb_files s) (mb_tags s) (mb_chowned s) (mb_sec s) (mb_cleanups s)
  (mb_dirs s) (mb_scan s) (mb_purged s) (mb_strays s) x (mb_tried s).
Definition set_tried x s : mandb_state db := MandbState (mb_files s) (mb_tags s) (mb_chowned s) (mb_sec s) (mb_cleanups s)
  (mb_dirs s) (mb_scan s) (mb_purged s) (mb_strays s) (mb_force s) x.

(** The scan with a database, and its caches without. *)
Definition scan_with (opened : option db) (c : scan_state db) : scan_state db :=
  Scan opened (sc_ult c) (sc_whatis c) (sc_pages c).
End setters.

Section mandb.
Context (cfg : comp_config) `{FileSystem} `{Dirname} `{Matcher} `{PageText} `{Lexgrog} `{OrderFiles}.
Context {db : Type} `{Mydbm db} `{!IndexIO db} `{!MandbEnv}.
Context (layout : Z) (extension : option cstr) (conf : config_state) (opts : mandb_opts).
Abbreviation mstate := (mandb_state db).

(** src/check_mandirs.c: the files of man belong to its owner. *)
Definition chown_if_possible (path : cstr) (s : mstate) : outcome (mandb_state db) :=
  let '(pw_uid, pw_gid) := man_owner_ids in
  match owner path with
  | None => Ret s
  | Some (st_uid, st_gid) =>
    if ((uid (mb_sec s) =? 0)%Z
        || ((uid (mb_sec s) =? pw_uid)%Z && (st_uid =? pw_uid)%Z && (gid (mb_sec s) =? pw_gid)%Z))
       && (negb (st_uid =? pw_uid)%Z || negb (st_gid =? pw_gid)%Z)
    then if lchown_ok path then Ret (set_chowned (path :: mb_chowned s) s) else Fatal "can't chown"
    else Ret s
  end.

Definition chown_global (global_manpath : bool) (path : cstr) (s : mstate) : outcome (mandb_state db) :=
  if global_manpath then chown_if_possible path s else Ret s.

(** The tag of a cache directory. *)
Definition cachedir_tag (tag : cstr) (global_manpath : bool) (s : mstate) : outcome (mandb_state db) :=
  let unless_remove tags := if remove_ok tag then tags ∖ {[tag]} else tags in
  let present := bool_decide (tag ∈ mb_tags s) in
  let '(cachedir_tag_exists, s) :=
    if present && tag_readable tag then (true, s)
    else
      let s := if present then set_tags (unless_remove (mb_tags s)) s else s in
      if fopen_w tag then (true, set_tags (mb_tags s ∪ {[tag]}) s) else (false, s) in
  if cachedir_tag_exists then
    s ← chown_global global_manpath tag s;
    Ret (if chmod_ok tag then s else set_tags (unless_remove (mb_tags s)) s)
  else Ret s.

(** [MYDBM_CTRWOPEN] as [testmandirs] sees it. *)
Definition ctrwopen (database : cstr) (opened : bool) : opening (db:=db) :=
  match index_create database opened with
  | Created => Opened empty_index
  | CreateReadOnly => ReadOnly
  | CreateError => OpenError
  end.

Definition is_open (c : scan_state db) : bool := bool_decide (is_Some (sc_db c)).

Definition create (database manpath : cstr) (c : scan_state db) : outcome (Z * bool * scan_state db) :=
  create_db cfg (o_test opts) (ctrwopen database (is_open c)) None (chdir_ok manpath) c manpath.

(** The time of the index is read once, when it has been opened. *)
Definition update (rw : option db) (mtime : timespec) (manpath : cstr) (c : scan_state db)
    : outcome (Z * bool * scan_state db) :=
  update_db cfg (o_test opts) OpenError rw (chdir_ok manpath) (λ _, mtime) c manpath.

(** One file: the page it is, the entries that point at it, and what it
    describes. *)
Definition update_one_file (rw : option db) (manpath filename : cstr) (c : scan_state db)
    : outcome (Z * bool * scan_state db) :=
  match (match sc_db c with Some d => Some d | None => rw end) with
  | None => Ret (1%Z, true, c)
  | Some dbf =>
    info ← filename_info cfg filename;
    dbf ← match info with
          | None => Ret dbf
          | Some i =>
            name ← or_undef "update_one_file: name" (md_name i);
            '(_, dbf) ← dbdelete dbf name i;
            purge_pointers (o_test opts) dbf name
          end;
    '(ok, c) ← test_manfile cfg (o_test opts) dbf c filename manpath;
    Ret (1%Z, ok, c)
  end.

Definition update_db_wrapper (database : cstr) (rw : option db) (mtime : timespec) (manpath : cstr) (c : scan_state db)
    : outcome (Z * bool * scan_state db) :=
  match o_filename opts with
  | Some filename => update_one_file rw manpath filename c
  | None =>
    '(amount, ok, c) ← update rw mtime manpath c;
    if (0 <=? amount)%Z then Ret (amount, ok, c)
    else
      '(amount, ok', c) ← create database manpath c;
      Ret (amount, ok && ok', c)
  end.

(** Purging the copy: the database that is left open. *)
Definition purge_copy (rw : option db) (mtime : timespec) (database manpath catpath : cstr) (s : mstate)
    : outcome (option db * mandb_state db) :=
  let db_exists := bool_decide (is_Some (mb_files s !! database)) in
  '(n, result) ← purge_missing cfg layout extension (o_test opts) db_exists rw mtime manpath catpath (mb_dirs s) (mb_force s);
  match result with
  | Some p => Ret (Some (ps_db p), set_cached (ps_cache p) (set_force (ps_force p) (set_purged (mb_purged s + n) s)))
  | None => Ret (if db_exists then rw else None, s)
  end.

(** The existing copy, given up when it is inconsistent: whether the index is
    still to be created, the database that is left open, and its time. *)
Definition existing_copy (paths : dbpaths) (database manpath catpath : cstr) (s : mstate)
    : outcome (bool * option db * timespec * mandb_state db) :=
  let rw := rwopen database (mb_files s) in
  let mtime := match rw with Some d => get_time d | None => no_time end in
  let s := set_force false s in
  '(opened, s) ← (if o_purge opts then purge_copy rw mtime database manpath catpath s else Ret (None, s));
  if mb_force s then
    fs ← dbpaths_remove_tmp paths (close_index database opened (mb_files s));
    Ret (true, None, mtime, set_files fs s)
  else Ret (false, opened, mtime, s).

(** The number of directories scanned, [-1] for a failure, and whether every
    store succeeded. *)
Definition mandb (catpath manpath : cstr) (global_manpath : bool) (s : mstate)
    : outcome (Z * bool * dbpaths * mandb_state db) :=
  let dbname := mkdbname catpath in
  let database := catpath ++ lit "/" ++ pid in
  s ← if STREQ catpath manpath then Ret s
      else cachedir_tag (catpath ++ lit "/CACHEDIR.TAG") global_manpath s;
  let should_create := o_create opts || o_test opts in
  let paths := dbpaths_init dbname database in
  '(should_create, fs) ←
    if should_create then Ret (true, mb_files s)
    else
      '(copied, fs) ← dbpaths_copy_to_tmp paths (mb_files s);
      Ret (negb copied, fs);
  fs ← if should_create : bool then dbpaths_remove_tmp paths fs else Ret fs;
  let s := set_files fs s in
  '(should_create, opened, mtime, s) ←
    if should_create : bool then Ret (true, None, no_time, s)
    else existing_copy paths database manpath catpath s;
  let c := scan_with opened (mb_scan s) in
  '(amount, ok, c) ←
    if should_create : bool then create database manpath c
    else update_db_wrapper database (rwopen database (mb_files s)) mtime manpath c;
  '(ok, n, opened) ←
    match sc_db c with
    | Some dbf =>
      if o_strays opts then
        '(n, ok', dbf) ← straycats cfg conf cat_opens cat_name dbf manpath;
        Ret (ok && ok', n, Some dbf)
      else Ret (ok, 0, Some dbf)
    | None => Ret (ok, 0, None)
    end;
  let s := set_scan (scan_with None c) (set_strays (mb_strays s + n) s) in
  Ret (amount, ok, paths, set_files (close_index database opened (mb_files s)) s).

(** [reorganize] on a hierarchy. *)
Definition reorganize_index (catpath : cstr) (global_manpath : bool) (s : mstate) : outcome (mandb_state db) :=
  '(done_, fs) ← reorganize (mkdbname catpath) (catpath ++ lit "/" ++ pid) (mb_files s);
  let s := set_files fs s in
  if done_ : bool then chown_global global_manpath (mkdbname catpath) s else Ret s.

Definition process_catpath (manpath : cstr) (global_manpath : bool) : outcome cstr :=
  if global_manpath then
    match get_catpath conf manpath SYSTEM_CAT with
    | Some catpath => Ret catpath
    | None => Fatal "assertion: catpath"
    end
  else Ret (default manpath (get_catpath conf manpath USER_CAT)).

Definition try_catdir (catpath manpath : cstr) (seen : bool) (s : mstate) : mandb_state db :=
  set_tried (<[catpath:=Tried manpath seen]> (mb_tried s)) s.

(** The two cleanups, pushed before the work and popped after it. *)
Definition push_cleanups (s : mstate) : outcome (mandb_state db) :=
  '(_, k) ← push_cleanup sigaction_works atexit_works FreeElements tt false (mb_cleanups s);
  '(_, k) ← push_cleanup sigaction_works atexit_works UnlinkTmp tt true k;
  Ret (set_cleanups k s).

Definition finish (paths : dbpaths) (s : mstate) : outcome (mandb_state db) :=
  let s := set_files (dbpaths_unlink_tmp paths (mb_files s)) s in
  k ← pop_cleanup sigaction_works UnlinkTmp tt (mb_cleanups s);
  k ← pop_cleanup sigaction_works FreeElements tt k;
  Ret (set_cleanups k s).

(** Is the index of this hierarchy to be looked at? *)
Definition wants_mandb (manpath : cstr) : bool :=
  match o_filename opts with
  | Some filename =>
    let manpath_prefix := manpath ++ lit "/man" in
    STRNEQ manpath_prefix filename (length manpath_prefix)
  | None => true
  end.

(** The new index replaces the old one. *)
Definition install (paths : dbpaths) (catpath : cstr) (global_manpath : bool) (s : mstate)
    : outcome (dbpaths * mandb_state db) :=
  '(paths, fs) ← dbpaths_rename_from_tmp paths (mb_files s);
  file ← or_undef "dbpaths_chown_if_possible: xfile" (xfile paths);
  s ← chown_global global_manpath file (set_files fs s);
  s ← reorganize_index catpath global_manpath s;
  Ret (paths, s).

Definition process_manpath (manpath : cstr) (global_manpath : bool) (s : mstate) : outcome (Z * mandb_state db) :=
  catpath ← process_catpath manpath global_manpath;
  let s := try_catdir catpath manpath false s in
  match fs_stat manpath with
  | None => Ret (0%Z, s)
  | Some st =>
    if negb (S_ISDIR (st_mode st)) then Ret (0%Z, s)
    else
      let s := try_catdir catpath manpath true s in
      let run_mandb := wants_mandb manpath in
      s ← push_cleanups s;
      if run_mandb then
        let purged_before := mb_purged s in
        let strays_before := mb_strays s in
        '(ret, _, paths, s) ← mandb catpath manpath global_manpath s;
        if (ret <? 0)%Z then s ← finish paths s; Ret (ret, s)
        else
          let new_purged := negb (bool_decide (mb_purged s = purged_before)) in
          let new_strays := negb (bool_decide (mb_strays s = strays_before)) in
          '(paths, s) ←
            if negb (o_test opts) && (negb (ret =? 0)%Z || new_purged || new_strays)
            then install paths catpath global_manpath s
            else Ret (paths, s);
          s ← finish paths s;
          Ret (ret, s)
      else
        s ← finish no_dbpaths s;
        Ret (0%Z, s)
  end.
End mandb.
