(* ===== verification/MandbIndex.v ===== *)
(** * src/mandb.c: what a run of mandb leaves of an index

    Whatever happens, the temporary file is gone afterwards, of the files only
    the index of the hierarchy and the tag of its cat directory can differ, and
    the index differs only when something changed; a run
    over a hierarchy without new pages leaves the pages that are still there. *)

From S2P Require Import Prelude CStr Fs Util Compression Filenames Mydbm DbContent Wordfnmatch DbLookup DbGroup DbKeys DbStore DbDelete Globbing Descriptions UltSrc Purge CheckMandirs Manp Straycats Cleanup Security IndexFiles Mandb.

Section frames.
Context (cfg : comp_config) `{FileSystem} `{Dirname} `{Matcher} `{PageText} `{Lexgrog} `{OrderFiles}.
Context {db : Type} `{MydbmReliable db} `{!IndexIO db} `{!IndexIOLaws db} `{!MandbEnv}.
Context (layout : Z) (extension : option cstr) (conf : config_state) (opts : mandb_opts).
Abbreviation mstate := (mandb_state db).
Implicit Types s : mandb_state db.

(** The tags of cache directories and the owners: only tags in [T] come and
    go, and only files in [C] are given to the owner of man's files. *)
Record side_frame (T C : cstr → Prop) (s s' : mstate) : Prop := SideFrame {
  sf_tags t : ¬ T t → (t ∈ mb_tags s' ↔ t ∈ mb_tags s);
  sf_chowned : ∃ l, mb_chowned s' = l ++ mb_chowned s ∧ Forall C l;
}.
#[export] Instance side_frame_preorder T C : PreOrder (side_frame T C).
Proof.
  split; [intros s; split; [done|by exists []]|]. intros a b c [T1 (l1 & C1 & F1)] [T2 (l2 & C2 & F2)]. split.
  - intros t Ht. by rewrite T2, T1.
  - exists (l2 ++ l1). rewrite C2, C1, app_assoc. split; [done|by apply Forall_app].
Qed.
Lemma side_frame_mono (T C T' C' : cstr → Prop) s s' :
  (∀ t, T t → T' t) → (∀ f, C f → C' f) → side_frame T C s s' → side_frame T' C' s s'.
Proof.
  intros HT HC [Ht (l & El & Hl)]. split; [intros t Hn; apply Ht; auto|].
  exists l. split; [done|]. by eapply Forall_impl.
Qed.
Lemma side_frame_same T C s s' : mb_tags s' = mb_tags s → mb_chowned s' = mb_chowned s → side_frame T C s s'.
Proof. intros Et Ec. split; [by rewrite Et|]. exists []. by rewrite Ec. Qed.

(** The tag of a cat directory that is not the directory of its pages, and
    what the owner of man's files is given of a hierarchy of the system. *)
Definition tag_of (catpath : cstr) : cstr := catpath ++ lit "/CACHEDIR.TAG".
Definition tag_made (manpath catpath t : cstr) : Prop := catpath ≠ manpath ∧ t = tag_of catpath.
Definition given (catpath : cstr) (g : bool) (f : cstr) : Prop := g = true ∧ (f = mkdbname catpath ∨ f = tag_of catpath).
Abbreviation hier_side manpath catpath g := (side_frame (tag_made manpath catpath) (given catpath g)).

(** What the work on an index keeps: every file but the temporary one, the
    privileges, the cleanup stack and the table of hierarchies. *)
Record work_frame (tmp : cstr) (T C : cstr → Prop) (s s' : mstate) : Prop := WorkFrame {
  wf_files : ∀ f, f ≠ tmp → mb_files s' !! f = mb_files s !! f;
  wf_sec : mb_sec s' = mb_sec s;
  wf_cleanups : mb_cleanups s' = mb_cleanups s;
  wf_tried : mb_tried s' = mb_tried s;
  wf_side : side_frame T C s s';
}.
#[local] Instance work_frame_preorder tmp T C : PreOrder (work_frame tmp T C).
Proof.
  split; [done|]. intros a b c [F1 ? ? ? S1] [F2 ? ? ? S2]. split; [|congruence..|by etrans].
  intros f Hf. rewrite F2, F1 by done. done.
Qed.
#[local] Hint Extern 0 (work_frame _ _ _ _ _) => split; [reflexivity..|by apply side_frame_same] : core.

Lemma chown_global_inv g path s s' :
  chown_global g path s = Ret s' →
  ∃ l, s' = set_chowned (l ++ mb_chowned s) s ∧ Forall (λ f, g = true ∧ f = path) l.
Proof.
  assert (∀ s, ∃ l, s = set_chowned (l ++ mb_chowned s) s ∧ Forall (λ f, g = true ∧ f = path) l) as Hid.
  { intros [] ; by exists []. }
  unfold chown_global, chown_if_possible. destruct g; [|intros [= <-]; eauto].
  destruct man_owner_ids as [u g]. destruct (owner path) as [[u' g']|]; [|intros [= <-]; eauto].
  destruct (_ && _); [|intros [= <-]; eauto]. destruct (lchown_ok path); [|done]. intros [= <-].
  exists [path]. by repeat constructor.
Qed.

Lemma cachedir_tag_inv tag g s s' :
  cachedir_tag tag g s = Ret s' →
  s' = set_tags (mb_tags s') (set_chowned (mb_chowned s') s) ∧
  side_frame (λ t, t = tag) (λ f, g = true ∧ f = tag) s s'.
Proof.
  assert (∀ (b : bool) (X : gset cstr) t, ¬ t = tag → (t ∈ (if b then X ∖ {[tag]} else X) ↔ t ∈ X)) as Hrm
    by (intros [] X t Ht; set_solver).
  assert (∀ (X : gset cstr) t, ¬ t = tag → (t ∈ X ∪ {[tag]} ↔ t ∈ X)) as Hadd by set_solver.
  unfold cachedir_tag.
  destruct (bool_decide (tag ∈ mb_tags s)), (tag_readable tag), (fopen_w tag); intros Hs; cbn [andb] in Hs;
    first [injection Hs as <-|apply bind_Ret_inv in Hs as (s1 & (l & -> & Hl)%chown_global_inv & [= <-])];
    (split; [by destruct s, (chmod_ok tag)|]);
    (split; [intros t Ht; destruct (chmod_ok tag); simpl; rewrite ?Hrm, ?Hadd, ?Hrm by done; done|]);
    first [by exists []|exists l; by destruct (chmod_ok tag)].
Qed.

Lemma xcopy_ne (from to : cstr) (fs : gmap cstr db) ok fs' f : xcopy from to fs = (ok, fs') → f ≠ to → fs' !! f = fs !! f.
Proof.
  unfold xcopy. intros Hx Hf. destruct (fopen_r from); simpl in Hx; [|by injection Hx as _ <-].
  destruct (fs !! from) as [d|]; [|by injection Hx as _ <-].
  destruct (fopen_w to); simpl in Hx; [|by injection Hx as _ <-].
  destruct (copy_data d) as [d' [|]]; injection Hx as _ <-;
    [rewrite check_chmod_ne by done|rewrite check_remove_ne by done]; by apply lookup_insert_ne.
Qed.

Lemma close_index_ne (name : cstr) (opened : option db) (fs : gmap cstr db) f : f ≠ name → close_index name opened fs !! f = fs !! f.
Proof. intros. destruct opened; simpl; [by apply lookup_insert_ne|done]. Qed.

Lemma existing_copy_frame name tmp T C manpath catpath s r :
  existing_copy cfg layout extension opts (dbpaths_init name tmp) tmp manpath catpath s = Ret r →
  work_frame tmp T C s r.2.
Proof.
  unfold existing_copy. intros Hs. apply bind_Ret_inv in Hs as ([opened s1] & Hp & Hs).
  assert (work_frame tmp T C s s1) as Hf.
  { destruct (o_purge opts); [|by injection Hp as _ <-]. unfold purge_copy in Hp.
    apply bind_Ret_inv in Hp as ([n [p|]] & _ & Hp); by injection Hp as _ <-. }
  etrans; [exact Hf|]. destruct (mb_force s1).
  - simpl in Hs. injection Hs as <-. simpl. split; [|done..|by apply side_frame_same]. intros f Hne. simpl.
    rewrite check_remove_ne by done. by apply close_index_ne.
  - by injection Hs as <-.
Qed.

Lemma mandb_frame catpath manpath g s r ok paths s' :
  mandb cfg layout extension conf opts catpath manpath g s = Ret (r, ok, paths, s') →
  paths = dbpaths_init (mkdbname catpath) (catpath ++ lit "/" ++ pid) ∧
  work_frame (catpath ++ lit "/" ++ pid) (tag_made manpath catpath) (given catpath g) s s'.
Proof.
  unfold mandb. set (tmp := catpath ++ lit "/" ++ pid). set (wf := work_frame tmp (tag_made manpath catpath) (given catpath g)).
  intros Hs.
  apply bind_Ret_inv in Hs as (s1 & Hm1 & Hs).
  assert (wf s s1) as F1.
  { destruct (STREQ catpath manpath) eqn:Eq; [by injection Hm1 as <-|]. apply STREQ_false in Eq.
    apply cachedir_tag_inv in Hm1 as [Hs1 Hside].
    split; [by rewrite Hs1..|]. eapply side_frame_mono; [| |exact Hside]; [intros t ->; by split|intros f [? ->]; by split; [|right]]. }
  apply bind_Ret_inv in Hs as ([c1 fs1] & Hm2 & Hs).
  assert (∀ f, f ≠ tmp → fs1 !! f = mb_files s1 !! f) as F2.
  { destruct (_ || _); [by injection Hm2 as _ <-|]. apply bind_Ret_inv in Hm2 as ([cp fs] & Hm2 & Hm2').
    injection Hm2' as _ <-. simpl in Hm2. injection Hm2 as Hm2. intros f. by eapply xcopy_ne. }
  apply bind_Ret_inv in Hs as (fs2 & Hm3 & Hs).
  assert (∀ f, f ≠ tmp → fs2 !! f = fs1 !! f) as F3.
  { destruct c1; [|by injection Hm3 as <-]. simpl in Hm3. injection Hm3 as <-. intros. by apply check_remove_ne. }
  apply bind_Ret_inv in Hs as ([[[c2 opened] mtime] s2] & Hm4 & Hs).
  assert (wf s1 s2) as F4.
  { trans (set_files fs2 s1); [split; [|done..|by apply side_frame_same]; intros f Hf; simpl; by rewrite F3, F2|].
    destruct c1; [by injection Hm4 as _ _ _ <-|]. by eapply existing_copy_frame in Hm4. }
  apply bind_Ret_inv in Hs as ([[amount ok1] c] & _ & Hs).
  apply bind_Ret_inv in Hs as ([[ok2 n] opened2] & _ & Hs). injection Hs as _ _ <- <-.
  split; [done|]. etrans; [exact F1|]. etrans; [exact F4|].
  split; [|done..|by apply side_frame_same]. intros f Hf. simpl. by apply close_index_ne.
Qed.

(** ** The cleanup stack *)

Lemma push_cleanups_live s :
  inv (mb_cleanups s) → handler_installed (mb_cleanups s) = true ∨ atexit_works = true →
  ∃ k, push_cleanups s = Ret (set_cleanups k s) ∧ inv k ∧
    live k = Slot UnlinkTmp tt true :: Slot FreeElements tt false :: live (mb_cleanups s).
Proof.
  intros Hi Ha. unfold push_cleanups.
  destruct (push_live sigaction_works atexit_works FreeElements tt false _ Hi Ha) as (k1 & -> & Hi1 & Hl1 & Hh1).
  rewrite bind_Ret.
  destruct (push_live sigaction_works atexit_works UnlinkTmp tt true k1 Hi1) as (k2 & -> & Hi2 & Hl2 & _); [by left|].
  rewrite bind_Ret. exists k2. split; [done|]. split; [done|]. by rewrite Hl2, Hl1.
Qed.

Lemma finish_live paths s l :
  inv (mb_cleanups s) → live (mb_cleanups s) = Slot UnlinkTmp tt true :: Slot FreeElements tt false :: l →
  ∃ k, finish paths s = Ret (set_cleanups k (set_files (dbpaths_unlink_tmp paths (mb_files s)) s)) ∧ inv k ∧ live k = l.
Proof.
  intros Hi Hl. unfold finish. cbn [mb_cleanups set_files].
  pose proof (live_tos _ Hi) as Ht. rewrite Hl in Ht. simpl in Ht.
  destruct (pop_live sigaction_works UnlinkTmp tt _ Hi) as (k1 & -> & Hi1 & Hl1); [lia|].
  rewrite bind_Ret. rewrite Hl in Hl1. simpl in Hl1.
  pose proof (live_tos _ Hi1) as Ht1. rewrite Hl1 in Ht1. simpl in Ht1.
  destruct (pop_live sigaction_works FreeElements tt _ Hi1) as (k2 & -> & Hi2 & Hl2); [lia|].
  rewrite bind_Ret. rewrite Hl1 in Hl2. simpl in Hl2. by exists k2.
Qed.

(** ** One hierarchy *)

Abbreviation tmp_of catpath := (catpath ++ lit "/" ++ pid).

Lemma index_not_tmp catpath : pid ≠ lit "index.db" → mkdbname catpath ≠ tmp_of catpath.
Proof.
  intros Hpid Heq. apply app_inv_head in Heq. apply Hpid. change (lit "/index" ++ DB_EXT) with (lit "/" ++ lit "index.db") in Heq.
  by apply app_inv_head in Heq.
Qed.

(** Whatever fails, only the index and the temporary file are touched, the tag
    of the cat directory and the owners of the index and the tag. *)
Record others_same (name tmp : cstr) (T C : cstr → Prop) (s s' : mstate) : Prop := OthersSame {
  os_files f : f ≠ name → f ≠ tmp → mb_files s' !! f = mb_files s !! f;
  os_sec : mb_sec s' = mb_sec s;
  os_tried : mb_tried s' = mb_tried s;
  os_side : side_frame T C s s';
}.
#[local] Instance others_same_preorder name tmp T C : PreOrder (others_same name tmp T C).
Proof.
  split; [done|]. intros a b c [Fa ???] [Fb ???]. split; [|congruence..|by etrans]. intros f ??. by rewrite Fb, Fa.
Qed.
#[local] Hint Extern 0 (others_same _ _ _ _ _ _) => split; [reflexivity..|by apply side_frame_same] : core.
Abbreviation hier_same manpath catpath g :=
  (others_same (mkdbname catpath) (tmp_of catpath) (tag_made manpath catpath) (given catpath g)).

Lemma others_same_files name tmp T C s fs :
  (∀ f, f ≠ name → f ≠ tmp → fs !! f = mb_files s !! f) → others_same name tmp T C s (set_files fs s).
Proof. intros Hf. split; [done..|by apply side_frame_same]. Qed.

Lemma unlink_tmp_ne p name tmp fs f :
  (xtmpfile p = None ∨ xtmpfile p = Some tmp) → f ≠ name → f ≠ tmp → dbpaths_unlink_tmp p fs !! f = (fs : gmap cstr db) !! f.
Proof. unfold dbpaths_unlink_tmp. intros [-> | ->] ??; [done|by apply check_remove_ne]. Qed.

Lemma chown_global_same g path name tmp T (C : cstr → Prop) s s' :
  (g = true → C path) → chown_global g path s = Ret s' → others_same name tmp T C s s'.
Proof.
  intros HC (l & -> & Hl)%chown_global_inv. split; [done..|]. split; [done|]. exists l. split; [done|].
  eapply Forall_impl; [exact Hl|]. intros f [Hg ->]. by apply HC.
Qed.

Lemma rename_from_tmp_same name tmp T C s p fs :
  dbpaths_rename_from_tmp (dbpaths_init name tmp) (mb_files s) = Ret (p, fs) →
  p = Dbpaths (Some name) None ∧ others_same name tmp T C s (set_files fs s).
Proof.
  intros [= <- <-]. split; [done|]. apply others_same_files. intros f ??.
  by rewrite check_chmod_ne, check_rename_ne.
Qed.

Lemma reorganize_same manpath catpath g s s' : reorganize_index catpath g s = Ret s' → hier_same manpath catpath g s s'.
Proof.
  unfold reorganize_index. set (name := mkdbname catpath). set (tmp := tmp_of catpath). intros Hs.
  apply bind_Ret_inv in Hs as ([b fs] & Hre & Hs). trans (set_files fs s).
  2: { destruct b; [|by injection Hs as <-]. eapply chown_global_same; [|exact Hs]. intros Hg. by split; [|left]. }
  apply others_same_files. intros f Hn Ht. unfold reorganize in Hre.
  assert (∀ fs', (∀ g, g ≠ name → g ≠ tmp → fs' !! g = mb_files s !! g) →
    dbpaths_unlink_tmp (dbpaths_init name tmp) fs' !! f = mb_files s !! f) as Hun.
  { intros fs' Hg. rewrite (unlink_tmp_ne _ name tmp) by auto. by apply Hg. }
  destruct (rdopen name (mb_files s)) as [d|]; [|injection Hre as _ <-; by apply Hun].
  destruct (negb _); [injection Hre as _ <-; by apply Hun|].
  destruct (index_create tmp false); [|injection Hre as _ <-; by apply Hun..].
  apply bind_Ret_inv in Hre as ([[] t] & _ & Hre); cbn [close_index] in Hre.
  - apply bind_Ret_inv in Hre as ([p fs1] & Hren & Hre). injection Hre as _ <-.
    injection Hren as <- <-. unfold dbpaths_unlink_tmp. cbn [xtmpfile].
    rewrite check_chmod_ne, check_rename_ne by done. by apply lookup_insert_ne.
  - injection Hre as _ <-. apply Hun. intros g' ??. by apply lookup_insert_ne.
Qed.

Lemma install_same manpath catpath g s paths s' :
  install (dbpaths_init (mkdbname catpath) (tmp_of catpath)) catpath g s = Ret (paths, s') →
  xtmpfile paths = None ∧ hier_same manpath catpath g s s'.
Proof.
  unfold install. intros Hs. apply bind_Ret_inv in Hs as ([p fs] & Hren & Hs).
  eapply rename_from_tmp_same in Hren as [-> Hf].
  cbn [xfile or_undef] in Hs. rewrite bind_Ret in Hs.
  apply bind_Ret_inv in Hs as (s1 & Hc1 & Hs). apply bind_Ret_inv in Hs as (s2 & Hre & [= <- <-]). split; [done|].
  etrans; [exact Hf|]. etrans; [|by eapply reorganize_same].
  eapply chown_global_same; [|exact Hc1]. intros Hg. by split; [|left].
Qed.

Lemma finish_same p name tmp T C s s' :
  (xtmpfile p = None ∨ xtmpfile p = Some tmp) → finish p s = Ret s' → others_same name tmp T C s s'.
Proof.
  intros Hp. unfold finish. intros Hs. apply bind_Ret_inv in Hs as (k1 & _ & Hs).
  apply bind_Ret_inv in Hs as (k2 & _ & [= <-]).
  split; [|done..|by apply side_frame_same]. intros f ??. simpl. by eapply unlink_tmp_ne.
Qed.

Lemma process_manpath_same manpath g s ret s' :
  process_manpath cfg layout extension conf opts manpath g s = Ret (ret, s') →
  ∃ catpath seen, process_catpath conf manpath g = Ret catpath ∧
    hier_same manpath catpath g (try_catdir catpath manpath seen s) s'.
Proof.
  unfold process_manpath. intros Hs. apply bind_Ret_inv in Hs as (catpath & Hcat & Hs).
  exists catpath. destruct (fs_stat manpath) as [st|]; [|by injection Hs as _ <-; exists false].
  destruct (S_ISDIR (st_mode st)); [|by injection Hs as _ <-; exists false]. cbn [negb] in Hs. exists true. split; [done|].
  set (s1 := try_catdir catpath manpath true s).
  assert (try_catdir catpath manpath true (try_catdir catpath manpath false s) = s1) as Es1.
  { unfold s1, try_catdir, set_tried. cbn. by rewrite insert_insert_eq. }
  rewrite Es1 in Hs. apply bind_Ret_inv in Hs as (s2 & Hpush & Hs).
  assert (hier_same manpath catpath g s1 s2) as F2.
  { unfold push_cleanups in Hpush. apply bind_Ret_inv in Hpush as ([] & _ & Hpush).
    apply bind_Ret_inv in Hpush as ([] & _ & [= <-]). split; [done..|by apply side_frame_same]. }
  etrans; [exact F2|]. destruct (wants_mandb opts manpath).
  2: { apply bind_Ret_inv in Hs as (s3 & Hf & [= _ <-]). eapply finish_same; [|exact Hf]. by left. }
  apply bind_Ret_inv in Hs as ([[[r ok] paths] s3] & Hm & Hs). apply mandb_frame in Hm as [-> [F3 S3 _ T3 D3]].
  trans s3; [split; [intros f _; apply F3|done..]|].
  destruct (r <? 0)%Z.
  { apply bind_Ret_inv in Hs as (s4 & Hf & [= _ <-]). eapply finish_same; [|exact Hf]. by right. }
  apply bind_Ret_inv in Hs as ([paths s4] & Hin & Hs). apply bind_Ret_inv in Hs as (s5 & Hf & [= _ <-]).
  destruct (negb (o_test opts) && _).
  - eapply install_same in Hin as [Hx F4]. etrans; [exact F4|]. eapply finish_same; [|exact Hf]. by left.
  - injection Hin as <- <-. eapply finish_same; [|exact Hf]. by right.
Qed.

(** The state apart from the files and their owners. *)
Lemma install_spec catpath g s paths s' :
  pid ≠ lit "index.db" → (∀ f, remove_ok f = true) → (∀ f, chmod_ok f = true) →
  install (dbpaths_init (mkdbname catpath) (tmp_of catpath)) catpath g s = Ret (paths, s') →
  xtmpfile paths = None ∧ s' = set_chowned (mb_chowned s') (set_files (mb_files s') s) ∧
  mb_files s' !! tmp_of catpath = None ∧
  (∀ f, f ≠ mkdbname catpath → f ≠ tmp_of catpath → mb_files s' !! f = mb_files s !! f) ∧
  (rename_ok (tmp_of catpath) (mkdbname catpath) = true → is_Some (mb_files s !! tmp_of catpath) →
    db_view <$> mb_files s' !! mkdbname catpath = db_view <$> mb_files s !! tmp_of catpath).
Proof.
  intros Hpid Hr Hc. pose proof (index_not_tmp catpath Hpid) as Hne. unfold install. set (name := mkdbname catpath) in *.
  set (tmp := tmp_of catpath) in *.
  destruct (rename_from_tmp_spec name tmp (mb_files s) Hne (Hr _) (Hc _)) as (fs1 & -> & Htmp & Hoth & _ & Hren).
  rewrite bind_Ret. cbn [or_undef xfile]. rewrite bind_Ret. intros Hs.
  apply bind_Ret_inv in Hs as (s1 & (l1 & -> & _)%chown_global_inv & Hs).
  apply bind_Ret_inv in Hs as (s2 & Hs2 & [= <- <-]). split; [done|]. unfold reorganize_index in Hs2. fold name tmp in Hs2.
  cbn [mb_files set_chowned set_files] in Hs2.
  destruct (reorganize_spec name tmp fs1 Hne (Hr _) (Hc _)) as (b & fs2 & Hre & Htmp2 & Hoth2 & Hv & _).
  rewrite Hre, bind_Ret in Hs2.
  assert (mb_files s2 = fs2 ∧ s2 = set_chowned (mb_chowned s2) (set_files (mb_files s2) s)) as [Hfs2 Hs2'].
  { destruct b; [apply chown_global_inv in Hs2 as (l2 & -> & _)|injection Hs2 as <-]; by destruct s. }
  split; [done|]. rewrite Hfs2. split; [done|]. split; [intros; rewrite Hoth2, Hoth; done|].
  intros Hrn Hd. by rewrite Hv, Hren.
Qed.

(** Why an index is replaced. *)
Lemma change_reason (test : bool) (r : Z) (p p' st st' : nat) :
  (0 ≤ r)%Z → negb test && (negb (r =? 0)%Z || negb (bool_decide (p' = p)) || negb (bool_decide (st' = st))) = true →
  test = false ∧ ((0 < r)%Z ∨ p' ≠ p ∨ st' ≠ st).
Proof.
  intros Hr [Ht Hch]%andb_true_iff. split; [by destruct test|].
  apply orb_true_iff in Hch as [[Hz|Hp]%orb_true_iff|Hst].
  - left. apply negb_true_iff, Z.eqb_neq in Hz. lia.
  - right. left. apply negb_true_iff in Hp. by apply bool_decide_eq_false in Hp.
  - right. right. apply negb_true_iff in Hst. by apply bool_decide_eq_false in Hst.
Qed.

Lemma unlink_pending catpath s : 
  pid ≠ lit "index.db" → (∀ f, remove_ok f = true) →
  let fs := dbpaths_unlink_tmp (dbpaths_init (mkdbname catpath) (tmp_of catpath)) (mb_files s) in
  fs !! tmp_of catpath = None ∧ fs !! mkdbname catpath = mb_files s !! mkdbname catpath.
Proof.
  intros Hpid Hr. split; [by apply check_remove_eq|]. apply check_remove_ne. by apply index_not_tmp.
Qed.

Lemma process_manpath_frame manpath g s ret s' :
  pid ≠ lit "index.db" → (∀ f, remove_ok f = true) → (∀ f, chmod_ok f = true) →
  inv (mb_cleanups s) → handler_installed (mb_cleanups s) = true ∨ atexit_works = true →
  process_manpath cfg layout extension conf opts manpath g s = Ret (ret, s') →
  ∃ catpath, process_catpath conf manpath g = Ret catpath ∧
    (∀ f, f ≠ mkdbname catpath → f ≠ tmp_of catpath → mb_files s' !! f = mb_files s !! f) ∧
    (mb_files s' !! tmp_of catpath = None ∨ mb_files s' = mb_files s) ∧
    (mb_files s' !! mkdbname catpath ≠ mb_files s !! mkdbname catpath →
      o_test opts = false ∧ ((0 < ret)%Z ∨ mb_purged s' ≠ mb_purged s ∨ mb_strays s' ≠ mb_strays s)) ∧
    (∀ t, (catpath ≠ manpath → t ≠ tag_of catpath) → (t ∈ mb_tags s' ↔ t ∈ mb_tags s)) ∧
    (∃ l, mb_chowned s' = l ++ mb_chowned s ∧
      ∀ f, f ∈ l → g = true ∧ (f = mkdbname catpath ∨ f = tag_of catpath)) ∧
    mb_sec s' = mb_sec s ∧ inv (mb_cleanups s') ∧ live (mb_cleanups s') = live (mb_cleanups s).
Proof.
  intros Hpid Hr Hc Hi Ha Hs.
  destruct (process_manpath_same _ _ _ _ _ Hs) as (catpath & seen & Hcat & [Hsame Hsec _ [Htag (lc & Elc & Hlc)]]).
  exists catpath. split; [done|]. split; [done|].
  cut ((mb_files s' !! tmp_of catpath = None ∨ mb_files s' = mb_files s) ∧
    (mb_files s' !! mkdbname catpath ≠ mb_files s !! mkdbname catpath →
      o_test opts = false ∧ ((0 < ret)%Z ∨ mb_purged s' ≠ mb_purged s ∨ mb_strays s' ≠ mb_strays s)) ∧
    inv (mb_cleanups s') ∧ live (mb_cleanups s') = live (mb_cleanups s)).
  { intros (? & ? & ? & ?). split_and!; try done; [|by exists lc; split; [|by apply Forall_forall]].
    intros t Ht. apply Htag. intros [Hne ->]. by apply Ht. }
  clear Hsame Hsec Htag lc Elc Hlc.
  pose proof (index_not_tmp catpath Hpid) as Hne. unfold process_manpath in Hs. rewrite Hcat, bind_Ret in Hs.
  destruct (fs_stat manpath) as [st|]; [|injection Hs as <- <-; by split_and!; [right|..]].
  destruct (S_ISDIR (st_mode st)); [|injection Hs as <- <-; by split_and!; [right|..]]. cbn [negb] in Hs.
  set (s1 := try_catdir catpath manpath true _) in Hs.
  destruct (push_cleanups_live s1 Hi Ha) as (k & Hk & Hik & Hlk). rewrite Hk, bind_Ret in Hs.
  destruct (wants_mandb opts manpath).
  2: { apply bind_Ret_inv in Hs as (s2 & Hf & [= <- <-]).
       destruct (finish_live no_dbpaths (set_cleanups k s1) (live (mb_cleanups s))) as (k2 & Hk2 & Hi2 & Hl2); [done|done|].
       rewrite Hk2 in Hf. injection Hf as <-. by split_and!; [right|..]. }
  apply bind_Ret_inv in Hs as ([[[r ok] paths] s2] & Hm & Hs).
  apply mandb_frame in Hm as [-> [F1 F2 F3 _ _]]. cbn [mb_files mb_sec mb_cleanups set_cleanups] in F1, F2, F3.
  assert (∀ p s3, mb_cleanups s3 = mb_cleanups s2 → ∃ k, finish p s3 = Ret (set_cleanups k (set_files (dbpaths_unlink_tmp p (mb_files s3)) s3)) ∧
    inv k ∧ live k = live (mb_cleanups s)) as Hfin.
  { intros p s3 Hc3. apply finish_live; by rewrite Hc3, F3. }
  destruct (unlink_pending catpath s2 Hpid Hr) as [Hu1 Hu2]. rewrite (F1 _ Hne) in Hu2.
  destruct (Hfin (dbpaths_init (mkdbname catpath) (tmp_of catpath)) s2 eq_refl) as (k3 & Hk3 & Hi3 & Hl3).
  destruct (Z.ltb_spec r 0) as [Hneg|Hpos].
  { rewrite Hk3, bind_Ret in Hs. injection Hs as <- <-. cbn [mb_files mb_cleanups set_cleanups set_files].
    split_and!; [by left|by intros []; exact Hu2|done..]. }
  destruct (negb (o_test opts) && _) eqn:Ech.
  2: { rewrite bind_Ret, Hk3, bind_Ret in Hs. injection Hs as <- <-. cbn [mb_files mb_cleanups set_cleanups set_files].
       split_and!; [by left|by intros []; exact Hu2|done..]. }
  apply bind_Ret_inv in Hs as ([paths s3] & Hin & Hs).
  destruct (install_spec catpath g s2 paths s3 Hpid Hr Hc Hin) as (Hx & Hs3 & Htmp & _).
  destruct (Hfin paths s3) as (k4 & Hk4 & Hi4 & Hl4); [by rewrite Hs3|]. rewrite Hk4, bind_Ret in Hs. injection Hs as <- <-.
  unfold dbpaths_unlink_tmp. rewrite Hx. cbn [mb_files mb_cleanups mb_purged mb_strays set_cleanups set_files].
  split_and!; [by left| |done..]. intros _. rewrite Hs3. by apply change_reason.
Qed.

(** C7: processing a hierarchy is a transaction on its index.  Afterwards no
    temporary file is left, and no other index, the cleanup stack and the
    privileges are what they were; the index itself is unchanged unless this
    is no test run and directories were scanned, entries purged or stray cats
    found.  Beside the index, only the CACHEDIR.TAG file of a cat directory
    that is not the directory of the pages itself can be made or removed, and
    only the index and that tag, of a hierarchy of the system, are given to
    the owner of man's files.  (The cat directories that are made and repaired
    before a scan are not in this state; they are the subject of the file
    CatDirs.) *)
Theorem process_manpath_transaction manpath g s ret s' :
  pid ≠ lit "index.db" → (∀ f, remove_ok f = true) → (∀ f, chmod_ok f = true) →
  inv (mb_cleanups s) → handler_installed (mb_cleanups s) = true ∨ atexit_works = true →
  process_manpath cfg layout extension conf opts manpath g s = Ret (ret, s') →
  ∃ catpath, process_catpath conf manpath g = Ret catpath ∧
    (∀ f, f ≠ mkdbname catpath → f ≠ tmp_of catpath → mb_files s' !! f = mb_files s !! f) ∧
    (mb_files s' !! tmp_of catpath = None ∨ mb_files s' = mb_files s) ∧
    (mb_files s' !! mkdbname catpath ≠ mb_files s !! mkdbname catpath →
      o_test opts = false ∧ ((0 < ret)%Z ∨ mb_purged s' ≠ mb_purged s ∨ mb_strays s' ≠ mb_strays s)) ∧
    (∀ t, (catpath ≠ manpath → t ≠ tag_of catpath) → (t ∈ mb_tags s' ↔ t ∈ mb_tags s)) ∧
    (∃ l, mb_chowned s' = l ++ mb_chowned s ∧
      ∀ f, f ∈ l → g = true ∧ (f = mkdbname catpath ∨ f = tag_of catpath)) ∧
    mb_sec s' = mb_sec s ∧ inv (mb_cleanups s') ∧ live (mb_cleanups s') = live (mb_cleanups s).
Proof. apply process_manpath_frame. Qed.

(** ** A hierarchy without new pages *)

(** No call on the index files fails. *)
Record io_ok : Prop := IoOk {
  io_read f : fopen_r f = true;
  io_write f : fopen_w f = true;
  io_open f : open_rw f = true;
  io_copy d : ∃ d', copy_data d = (d', true);
  io_rename f f' : rename_ok f f' = true;
  io_remove f : remove_ok f = true;
  io_chmod f : chmod_ok f = true;
  io_chown f : lchown_ok f = true;
}.

(** A plain update of the hierarchy, whose index [d0] is well-formed and newer
    than its directories; stray cats are not looked for. *)
Record unmodified (manpath catpath : cstr) (g : bool) s (d0 : db) : Prop := Unmodified {
  um_opts : o_create opts = false ∧ o_test opts = false ∧ o_filename opts = None ∧ o_purge opts = true ∧ o_strays opts = false;
  um_dir : ∃ st, fs_stat manpath = Some st ∧ S_ISDIR (st_mode st) = true;
  um_cat : process_catpath conf manpath g = Ret catpath;
  um_index : mb_files s !! mkdbname catpath = Some d0;
  um_wf : wf (db_view d0);
  um_ver : dbver_rd d0 = 0%Z;
  um_mod : modified_dirs manpath (get_time d0) = [];
  um_cache : cache_ok (mb_dirs s);
}.

Lemma chown_global_returns g path s : io_ok → ∃ l, chown_global g path s = Ret (set_chowned l s).
Proof.
  intros Hio. assert (s = set_chowned (mb_chowned s) s) as Hid by by destruct s.
  unfold chown_global, chown_if_possible. destruct g; [|by exists (mb_chowned s); rewrite <-Hid].
  destruct man_owner_ids as [u g]. destruct (owner path) as [[u' g']|]; [|by exists (mb_chowned s); rewrite <-Hid].
  destruct (_ && _); [|by exists (mb_chowned s); rewrite <-Hid]. rewrite (io_chown Hio). by eexists.
Qed.

Lemma cachedir_tag_returns tag g s :
  io_ok → ∃ t l, cachedir_tag tag g s = Ret (set_tags t (set_chowned l s)).
Proof.
  intros Hio.
  assert (∃ s', cachedir_tag tag g s = Ret s') as [s' Hs].
  { unfold cachedir_tag. rewrite (io_write Hio), (io_chmod Hio).
    destruct (_ && _); [|destruct (bool_decide (tag ∈ mb_tags s))]; edestruct chown_global_returns as [l Hl]; try done;
      rewrite Hl, bind_Ret; eauto. }
  exists (mb_tags s'), (mb_chowned s'). by rewrite Hs, <-(proj1 (cachedir_tag_inv _ _ _ _ Hs)).
Qed.

Lemma xcopy_ok (from to : cstr) (fs : gmap cstr db) d :
  io_ok → fs !! from = Some d →
  ∃ d', copy_data d = (d', true) ∧ xcopy from to fs = (true, <[to:=d']> fs) ∧ db_view d' = db_view d ∧ get_time d' = get_time d.
Proof.
  intros Hio Hd. unfold xcopy. rewrite (io_read Hio), Hd, (io_write Hio). cbn [negb].
  destruct (io_copy Hio d) as [d' Hc]. rewrite Hc. exists d'. split; [done|]. split; [|by apply copy_data_view]. f_equal.
  unfold check_chmod. by rewrite (io_chmod Hio), lookup_insert_eq, bool_decide_eq_true_2.
Qed.

Lemma dbver_view (d d' : db) : db_view d' = db_view d → dbver_rd d' = dbver_rd d.
Proof. intros Hv. unfold dbver_rd. by rewrite !fetch_view, Hv. Qed.

Context (Hfinder : finder_ok cfg layout extension).
Abbreviation survives := (survives cfg layout extension).

(** The purge of the index asks for no rescan. *)
Definition no_rescan (manpath catpath : cstr) s (d0 : db) : Prop :=
  ∀ d n p, copy_data d0 = (d, true) →
    purge_missing cfg layout extension false true (Some d) (get_time d0) manpath catpath (mb_dirs s) false = Ret (n, Some p) →
    ps_force p = false.

Lemma mandb_unmodified manpath catpath g s d0 :
  io_ok → unmodified manpath catpath g s d0 → no_rescan manpath catpath s d0 → pid ≠ lit "index.db" →
  ∃ n s' d,
    mandb cfg layout extension conf opts catpath manpath g s =
      Ret (0%Z, true, dbpaths_init (mkdbname catpath) (tmp_of catpath), s') ∧
    mb_files s' !! tmp_of catpath = Some d ∧ mb_purged s' = mb_purged s + n ∧ mb_strays s' = mb_strays s ∧
    wf (db_view d) ∧ dbver_rd d = 0%Z ∧ (n = 0 → db_view d = db_view d0) ∧
    ∀ r, good_ref r → page_at (db_view d) r =
      survives manpath catpath (get_time d0) r (page_at (db_view d0) r).
Proof using All.
  intros Hio [(Hoc & Hot & Hof & Hop & Hos) _ _ Hd0 Hwf Hver Hmod Hcache] Hnr Hpid.
  pose proof (index_not_tmp catpath Hpid) as Hne. unfold mandb.
  set (name := mkdbname catpath) in *. set (tmp := tmp_of catpath) in *.
  assert (∃ t l, (if STREQ catpath manpath then Ret s else cachedir_tag (catpath ++ lit "/CACHEDIR.TAG") g s) =
    Ret (set_tags t (set_chowned l s))) as (t & l & ->).
  { destruct (STREQ catpath manpath); [|by apply cachedir_tag_returns].
    exists (mb_tags s), (mb_chowned s). by destruct s. }
  rewrite bind_Ret, Hoc, Hot. cbn [orb mb_files set_tags set_chowned].
  change (dbpaths_copy_to_tmp (dbpaths_init name tmp) (mb_files s)) with (Ret (xcopy name tmp (mb_files s))).
  destruct (xcopy_ok name tmp (mb_files s) d0 Hio Hd0) as (d1 & Hcp & -> & Hv1 & Ht1). rewrite !bind_Ret. cbn [negb]. rewrite bind_Ret.
  unfold existing_copy. cbn [mb_files set_files]. unfold rwopen. rewrite (io_open Hio), lookup_insert_eq, Hop.
  unfold purge_copy. cbn [mb_files mb_dirs mb_force set_force set_files set_tags set_chowned].
  rewrite lookup_insert_eq, bool_decide_eq_true_2 by eauto. rewrite Hot, Ht1.
  destruct (purge_missing_spec cfg layout extension Hfinder d1 manpath catpath (get_time d0) (mb_dirs s) false)
    as (n & p & Hpm & Hwfp & Hn & _ & Hverp & Hpages); [by rewrite Hv1|by rewrite (dbver_view d0)|done|].
  pose proof (Hnr d1 n p Hcp Hpm) as Hforce. rewrite Hpm, !bind_Ret. cbn [mb_force set_cached set_force]. rewrite Hforce, bind_Ret.
  unfold update_db_wrapper, update, update_db, scan_with. rewrite Hof, Hot. cbn [sc_db].
  rewrite sanity_check_ok by done. cbn [negb]. rewrite testmandirs_unmodified by done. rewrite !bind_Ret.
  change (0 <=? 0)%Z with true. cbv iota. rewrite bind_Ret.
  cbn [sc_db set_db]. rewrite Hos, bind_Ret. exists n. do 2 eexists. split; [done|].
  cbn [mb_files set_files set_scan set_strays set_cached set_force set_purged set_tags set_chowned mb_purged mb_strays close_index].
  rewrite lookup_insert_eq, Nat.add_0_r. split_and!; try done.
  - intros ->. by rewrite Hn.
  - intros r Hr. by rewrite Hpages, Hv1.
Qed.

Lemma install_returns catpath g s d :
  io_ok → pid ≠ lit "index.db" → mb_files s !! tmp_of catpath = Some d →
  ∃ paths s' d', install (dbpaths_init (mkdbname catpath) (tmp_of catpath)) catpath g s = Ret (paths, s') ∧
    mb_cleanups s' = mb_cleanups s ∧ xtmpfile paths = None ∧
    mb_files s' !! mkdbname catpath = Some d' ∧ db_view d' = db_view d.
Proof using H7 IndexIOLaws0.
  intros Hio Hpid Hd.
  assert (∃ paths s', install (dbpaths_init (mkdbname catpath) (tmp_of catpath)) catpath g s = Ret (paths, s')) as (paths & s' & Hs).
  { unfold install. change (dbpaths_rename_from_tmp ?p ?fs) with (dbpaths_rename_from_tmp p fs).
    destruct (rename_from_tmp_spec (mkdbname catpath) (tmp_of catpath) (mb_files s) (index_not_tmp catpath Hpid)
      (io_remove Hio _) (io_chmod Hio _)) as (fs1 & -> & _). rewrite bind_Ret. cbn [or_undef xfile]. rewrite bind_Ret.
    edestruct chown_global_returns as [l1 ->]; [done|]. rewrite bind_Ret. unfold reorganize_index.
    cbn [mb_files set_chowned set_files].
    destruct (reorganize_spec (mkdbname catpath) (tmp_of catpath) fs1 (index_not_tmp catpath Hpid)
      (io_remove Hio _) (io_chmod Hio _)) as (b & fs2 & -> & _). rewrite bind_Ret.
    destruct b; [edestruct chown_global_returns as [l2 ->]; [done|]|]; rewrite bind_Ret; eauto. }
  destruct (install_spec catpath g s paths s' Hpid (io_remove Hio) (io_chmod Hio) Hs) as (Hx & Heq & _ & _ & Hv).
  specialize (Hv (io_rename Hio _ _) ltac:(eauto)). rewrite Hd in Hv.
  destruct (mb_files s' !! mkdbname catpath) as [d'|] eqn:Ed'; [|done]. injection Hv as Hv.
  exists paths, s', d'. split; [done|]. split; [by rewrite Heq|]. split; [done|]. split; [done|]. done.
Qed.

Lemma process_manpath_unmodified manpath catpath g s d0 :
  io_ok → unmodified manpath catpath g s d0 → no_rescan manpath catpath s d0 → pid ≠ lit "index.db" →
  inv (mb_cleanups s) → handler_installed (mb_cleanups s) = true ∨ atexit_works = true →
  ∃ s' d', process_manpath cfg layout extension conf opts manpath g s = Ret (0%Z, s') ∧
    mb_files s' !! mkdbname catpath = Some d' ∧ wf (db_view d') ∧ dbver_rd d' = 0%Z ∧
    ∀ r, good_ref r → page_at (db_view d') r =
      survives manpath catpath (get_time d0) r (page_at (db_view d0) r).
Proof using All.
  intros Hio Hum Hnr Hpid Hi Ha. pose proof Hum as [(_ & Hot & Hof & _ & _) (st & Hst & Hdir) Hcat Hd0 Hwf Hver _ Hcache].
  pose proof (index_not_tmp catpath Hpid) as Hne.
  unfold process_manpath. rewrite Hcat, bind_Ret, Hst, Hdir. cbn [negb]. set (s1 := try_catdir catpath manpath true _).
  destruct (push_cleanups_live s1 Hi Ha) as (k & -> & Hik & Hlk). rewrite bind_Ret. unfold wants_mandb. rewrite Hof.
  destruct (mandb_unmodified manpath catpath g (set_cleanups k s1) d0 Hio) as (n & s2 & d & Hm & Hd & Hp & Hst2 & Hwfd & Hverd & Hn & Hpg).
  { by destruct Hum. }
  { done. }
  { done. }
  rewrite Hm, bind_Ret. destruct (mandb_frame _ _ _ _ _ _ _ _ Hm) as [_ [F1 _ F3 _ _]]. cbn [mb_cleanups set_cleanups mb_files] in F1, F3.
  change (0 <? 0)%Z with false. cbv iota. rewrite Hot, Hst2. cbn [negb andb]. rewrite (bool_decide_eq_true_2 (mb_strays _ = _)) by done.
  change (0 =? 0)%Z with true. cbn [negb orb]. rewrite orb_false_r. destruct (decide (n = 0)) as [->|Hn0].
  - rewrite bool_decide_eq_true_2 by (rewrite Hp; cbn; lia). cbn [negb]. rewrite bind_Ret.
    destruct (finish_live (dbpaths_init (mkdbname catpath) (tmp_of catpath)) s2 (live (mb_cleanups s))) as (k2 & -> & _);
      [by rewrite F3|by rewrite F3|].
    rewrite bind_Ret. do 2 eexists. split; [done|].
    cbn [mb_files set_cleanups set_files dbpaths_unlink_tmp dbpaths_init xtmpfile].
    rewrite check_remove_ne, F1 by done. split; [exact Hd0|]. split; [done|]. split; [done|].
    intros r Hr. by rewrite <-Hpg, Hn.
  - rewrite bool_decide_eq_false_2 by (rewrite Hp; cbn; lia). cbn [negb].
    destruct (install_returns catpath g s2 d Hio Hpid Hd) as (paths & s3 & d' & -> & Hc3 & Hx & Hd' & Hv').
    rewrite bind_Ret. destruct (finish_live paths s3 (live (mb_cleanups s))) as (k2 & -> & _); [by rewrite Hc3, F3..|].
    rewrite bind_Ret. exists (set_cleanups k2 (set_files (dbpaths_unlink_tmp paths (mb_files s3)) s3)), d'. split; [done|].
    cbn [mb_files set_cleanups set_files]. unfold dbpaths_unlink_tmp. rewrite Hx. split; [done|]. rewrite Hv'.
    split; [done|]. split; [by rewrite (dbver_view d)|done].
Qed.

(** C8: a run of mandb over a hierarchy without new pages returns, and leaves
    an index of the current version that holds exactly the pages that are not
    gone: purging the temporary copy, putting it in the place of the index and
    writing it out again amount to taking the pages that are gone out of it. *)
Theorem process_manpath_purges manpath catpath g s d0 :
  io_ok → unmodified manpath catpath g s d0 → no_rescan manpath catpath s d0 → pid ≠ lit "index.db" →
  inv (mb_cleanups s) → handler_installed (mb_cleanups s) = true ∨ atexit_works = true →
  ∃ s' d', process_manpath cfg layout extension conf opts manpath g s = Ret (0%Z, s') ∧
    mb_files s' !! mkdbname catpath = Some d' ∧ wf (db_view d') ∧ dbver_rd d' = 0%Z ∧
    ∀ r, good_ref r → page_at (db_view d') r =
      survives manpath catpath (get_time d0) r (page_at (db_view d0) r).
Proof using All. apply process_manpath_unmodified. Qed.
End frames.

(** ** Evaluation *)

(** One hierarchy of a user, without any page. *)
Definition bare_fs : FileSystem := {|
  fs_stat p := if STREQ p (lit "/m") then Some (Stat S_IFDIR 10 1 1 (Timespec 50 0)) else None;
  fs_lstat _ := None; fs_readdir _ := None;
  fs_access_R _ := false; fs_access_F _ := false;
  fs_canonicalize _ := None; fs_glob _ := None;
|}.
Definition plain_env : MandbEnv := {|
  chdir_ok _ := true; owner _ := None; lchown_ok _ := true; man_owner_ids := (6, 12)%Z; pid := lit "7";
  stat_missing _ := true; tag_readable _ := true; cat_opens _ := false; cat_name _ _ := None;
  sigaction_works _ := true; atexit_works := true; map_order l := l;
|}.
Definition update_opts : mandb_opts := MandbOpts false 0 false true false false false None None None.

Definition no_cleanups : state (fn:=cleanup_fn) (arg:=unit) := State [] 0 false (λ _, SIG_DFL) (λ _, SIG_DFL).
Definition start (fs : gmap cstr (gmap cstr cstr)) : mandb_state (gmap cstr cstr) :=
  MandbState fs ∅ [] started no_cleanups ∅ (Scan None no_cache ∅ 0) 0 0 false ∅.
Definition one_file : gmap cstr (gmap cstr cstr) := {[ lit "/m/index.db" := versioned ]}.

Abbreviation process_demo :=
  (@process_manpath all_comp bare_fs simple_dirname literal_matcher plain_text (one_name "ls - list") same_order
     (gmap cstr cstr) _ (index_io []) plain_env 1 None no_config update_opts (lit "/m") false).

Lemma process_demo_returns : ∃ ret s', process_demo (start one_file) = Ret (ret, s').
Proof.
  assert (match process_demo (start one_file) with Ret _ => true | _ => false end = true) as Hret by (vm_compute; reflexivity).
  destruct (process_demo (start one_file)) as [[ret s']| |]; [by do 2 eexists|done..].
Qed.

Lemma process_manpath_transaction_witness : ∃ ret s',
  process_demo (start one_file) = Ret (ret, s') ∧
  ∃ catpath, process_catpath no_config (lit "/m") false = Ret catpath ∧
    (∀ f, f ≠ mkdbname catpath → f ≠ catpath ++ lit "/" ++ lit "7" → mb_files s' !! f = one_file !! f) ∧
    (mb_files s' !! (catpath ++ lit "/" ++ lit "7") = None ∨ mb_files s' = one_file) ∧
    (mb_files s' !! mkdbname catpath ≠ one_file !! mkdbname catpath →
      false = false ∧ ((0 < ret)%Z ∨ mb_purged s' ≠ 0 ∨ mb_strays s' ≠ 0)) ∧
    (∀ t, (catpath ≠ lit "/m" → t ≠ tag_of catpath) → (t ∈ mb_tags s' ↔ t ∈ (∅ : gset cstr))) ∧
    (∃ l, mb_chowned s' = l ++ [] ∧ ∀ f, f ∈ l → false = true ∧ (f = mkdbname catpath ∨ f = tag_of catpath)) ∧
    mb_sec s' = started ∧ inv (mb_cleanups s') ∧ live (mb_cleanups s') = [].
Proof.
  destruct process_demo_returns as (ret & s' & E). exists ret, s'. split; [exact E|]. revert E.
  refine (@process_manpath_transaction all_comp bare_fs simple_dirname literal_matcher plain_text (one_name "ls - list") same_order
    (gmap cstr cstr) _ _ _ (index_io []) _ plain_env 1 None no_config update_opts (lit "/m") false (start one_file) ret s' _ _ _ _ _).
  - by vm_compute.
  - done.
  - intros f. apply bool_decide_eq_true_2, not_elem_of_nil.
  - unfold inv, nslots. simpl. lia.
  - by right.
Defined.

Lemma process_manpath_purges_witness :
  ∃ s' d', process_demo (start one_file) = Ret (0%Z, s') ∧
    mb_files s' !! mkdbname (lit "/m") = Some d' ∧ wf (db_view d') ∧ dbver_rd d' = 0%Z ∧
    ∀ r, good_ref r → page_at (db_view d') r =
      @survives all_comp bare_fs simple_dirname literal_matcher 1 None (lit "/m") (lit "/m") (Timespec 100 0) r
        (page_at (db_view versioned) r).
Proof.
  refine (@process_manpath_purges all_comp bare_fs simple_dirname literal_matcher plain_text (one_name "ls - list") same_order
    (gmap cstr cstr) _ _ _ (index_io []) _ plain_env 1 None no_config update_opts _ (lit "/m") (lit "/m") false (start one_file)
    versioned _ _ _ _ _ _).
  - intros hier sec name cat p Hp. by apply elem_of_nil in Hp.
  - split; try done; [intros d; by exists d|..]. all: try (intros f; apply bool_decide_eq_true_2, not_elem_of_nil).
  - split; try done; [by eexists|exact versioned_wf].
  - intros d n p [= <-] Hp.
    match type of Hp with ?run = _ =>
      assert (match run with Ret (_, Some p) => ps_force p | _ => false end = false) as E by (vm_compute; reflexivity)
    end.
    by rewrite Hp in E.
  - by vm_compute.
  - unfold inv, nslots. simpl. lia.
  - by right.
Defined.

(** The page that is gone is purged from the index; its version stays. *)
Example purge_demo :
  ('(ret, s) ← process_demo (start one_file);
   Ret (ret, mb_purged s, (λ f, (f.1, db_keys f.2)) <$> map_to_list (mb_files s))) =
  Ret (0%Z, 1, [(lit "/m/index.db", [VER_KEY])]).
Proof. by vm_compute. Qed.
