(* ===== verification/MandbFile.v ===== *)
(** * src/mandb.c: updating the entry of one file

    [update_one_file] takes the entry of a file and the entries that point at
    it out of the index and scans the file again. *)

From S2P Require Import Prelude CStr Fs Util Compression Filenames Mydbm DbContent Wordfnmatch DbLookup DbGroup DbKeys DbStore DbDelete Globbing Descriptions UltSrc Purge CheckMandirs Manp Straycats Cleanup Security IndexFiles Mandb.

Section pointers.
Context {db : Type} `{MydbmReliable db}.

(** An entry that points at a page. *)
Definition points_at (name : cstr) (i : mandata) : Prop :=
  (md_id i = SO_MAN ∨ md_id i = WHATIS_MAN) ∧ md_pointer i = Some name.

(** The second index is the first one without some pages that satisfy [P]. *)
Definition only_drops (P : name_ext → mandata → Prop) (m m' : gmap cstr cstr) : Prop :=
  ∀ r, TAB ∉ ne_name r →
    page_at m' r = page_at m r ∨ page_at m' r = None ∧ ∃ i, page_at m r = Some i ∧ P r i.

Lemma only_drops_refl P m : only_drops P m m.
Proof. intros r _. by left. Qed.
Lemma only_drops_trans P m1 m2 m3 : only_drops P m1 m2 → only_drops P m2 m3 → only_drops P m1 m3.
Proof.
  intros H12 H23 r Hr. destruct (H12 r Hr) as [E12|[E12 Hi]], (H23 r Hr) as [E23|[E23 (i & Hi2 & HP)]].
  - left. congruence.
  - right. split; [done|]. exists i. split; [congruence|done].
  - right. split; [congruence|done].
  - congruence.
Qed.

Lemma purge_pointers_loop_spec name keys : ∀ d : db,
  wf (db_view d) → ∃ d', purge_pointers_loop false d name keys = Ret d' ∧ wf (db_view d') ∧
    only_drops (λ _, points_at name) (db_view d) (db_view d').
Proof.
  induction keys as [|x keys IH]; intros d Hwf; cbn [purge_pointers_loop].
  { exists d. split; [done|]. split; [done|apply only_drops_refl]. }
  case_bool_decide as Hd; [by apply IH|]. assert (x ≠ VER_KEY) as Hver by (intros ->; by apply Hd).
  rewrite fetch_view. destruct (db_view d !! x) as [c|] eqn:Hx.
  2: { exists d. split; [done|]. split; [done|apply only_drops_refl]. }
  case_bool_decide as Hh; [by apply IH|].
  destruct (page_entry_intro _ x c Hwf Hx Hver Hh) as (r & i & Hpe).
  pose proof Hpe as [[_ Hs _] Ht _ Hp _ _ _ _ _]. rewrite Hs, bind_Ret.
  destruct (negb (bool_decide (md_id i = SO_MAN)) && negb (bool_decide (md_id i = WHATIS_MAN))) eqn:Eid; [by apply IH|].
  assert (md_id i = SO_MAN ∨ md_id i = WHATIS_MAN) as Hid.
  { apply andb_false_iff in Eid as [Eid|Eid]; apply negb_false_iff, bool_decide_eq_true in Eid; auto. }
  clear Eid.
  destruct (md_pointer i) as [pointer|] eqn:Epo.
  2: { apply fill_unset_parsed in Hs. rewrite <-Hs in Epo. done. }
  cbn [or_undef]. rewrite bind_Ret, STREQ_spec. case_bool_decide as Hpt; cbn [andb negb]; [|by apply IH].
  destruct (dbdelete_entry d x c r i Hwf Hx Hpe) as (d1 & -> & Hwf1 & Hp1 & _). rewrite bind_Ret.
  destruct (IH d1 Hwf1) as (d2 & -> & Hwf2 & Hp2). exists d2. split; [done|]. split; [done|].
  eapply only_drops_trans; [|exact Hp2]. intros r' Hr'. rewrite Hp1 by done.
  destruct (decide (r' = r)) as [->|]; [|by left]. right. split; [done|]. exists (set_name None i). split; [done|].
  split; [done|by rewrite <-Hpt].
Qed.
End pointers.

Section update.
Context (cfg : comp_config) `{FileSystem} `{Dirname} `{PageText} `{Lexgrog}.
Context {db : Type} `{MydbmReliable db}.
Context (opts : mandb_opts) (Htest : o_test opts = false).

(** What [mandb -f] takes out of the index before it scans the file. *)
Definition replaced (base : cstr) (r : name_ext) (i : mandata) : Prop :=
  name_to_key (ne_name r) = name_to_key base ∨ points_at base i.

Lemma drop_entry (d : db) base i :
  wf (db_view d) → storable base →
  ∃ d1, (' (_, d) ← dbdelete d base i; purge_pointers false d base) = Ret d1 ∧ wf (db_view d1) ∧
    page_at (db_view d1) (NameExt base (md_ext i)) = None ∧
    only_drops (replaced base) (db_view d) (db_view d1).
Proof using H3 H4 H5.
  intros Hwf [[Ht _] Hv].
  destruct (dbdelete_returns d base i Hwf Ht Hv) as (ret & d0 & -> & Hwf0 & Hres). rewrite bind_Ret.
  destruct (purge_pointers_loop_spec base (db_keys d0) d0 Hwf0) as (d1 & Hd1 & Hwf1 & Hdrop).
  exists d1. split; [done|]. split; [done|].
  assert (page_at (db_view d0) (NameExt base (md_ext i)) = None ∧
    only_drops (λ r _, name_to_key (ne_name r) = name_to_key base) (db_view d) (db_view d0)) as [Hnone Hdel].
  { destruct Hres as [(_ & Hnone & ->)|[(_ & _ & Hp)|(_ & _ & Hp)]].
    - split; [done|apply only_drops_refl].
    - split; [rewrite Hp by done; by rewrite decide_True|]. intros r Hr. rewrite Hp by done. case_decide; [|by left].
      destruct (page_at (db_view d) r) as [j|] eqn:E; [|by left]. right. split; [done|]. by exists j.
    - split; [rewrite Hp by done; unfold del; by rewrite decide_True|]. intros r Hr. rewrite Hp by done. unfold del.
      case_decide as Hd; [|by left]. destruct (page_at (db_view d) r) as [j|] eqn:E; [|by left]. right. split; [done|].
      exists j. split; [done|]. by rewrite Hd. }
  split.
  - destruct (Hdrop (NameExt base (md_ext i)) Ht) as [E|[E _]]; by rewrite E.
  - eapply only_drops_trans; intros r Hr.
    + destruct (Hdel r Hr) as [?|(? & j & ? & ?)]; [by left|]. right. split; [done|]. exists j. split; [done|by left].
    + destruct (Hdrop r Hr) as [?|(? & j & ? & ?)]; [by left|]. right. split; [done|]. exists j. split; [done|by right].
Qed.

(** C26: updating the entry of one file of an open, well-formed index returns 1.
    First the index loses the entry of the file and nothing but entries under
    the same name or pointing at it; then the file is scanned, and unless a
    store fails the index is well-formed again and has the page, provided the
    file has a source with a NAME section and no other file is the same page. *)
Theorem update_one_file_correct (dbf : db) rw c manpath filename i base buf :
  times_ok → wf (db_view dbf) → (match sc_db c with Some d => Some d | None => rw end) = Some dbf →
  ult_cache_ok cfg (λ _, manpath) (sc_ult c) → map_Forall (λ _, lex_ok) (sc_whatis c) → (∀ p f, lex_ok (find_name p f)) →
  file_ok cfg manpath filename i base buf →
  ∃ d1 ok c' d', update_one_file cfg opts rw manpath filename c = Ret (1%Z, ok, c') ∧ sc_db c' = Some d' ∧
    page_at (db_view d1) (NameExt base (md_ext i)) = None ∧ only_drops (replaced base) (db_view dbf) (db_view d1) ∧
    test_manfile cfg false d1 c filename manpath = Ret (ok, c') ∧
    (ok = true → wf (db_view d') ∧
      ∀ v, ult_resolve cfg filename manpath None 7 = Ret (Some v) → st_size buf ≠ 0%Z →
        check_extensions false d1 manpath base i ≠ Ret None →
        is_Some (get_whatis (sc_whatis c) (uv_path v) filename).1.1 →
        is_Some (page_at (db_view d') (NameExt base (md_ext i)))).
Proof using All.
  intros Htimes Hwf Hopen Hcache Hmap Hlex Hfile. unfold update_one_file. rewrite Hopen, Htest.
  rewrite (fo_info _ _ _ _ _ _ Hfile), bind_Ret, (fo_name _ _ _ _ _ _ Hfile). cbn [or_undef].
  destruct (drop_entry dbf base i Hwf (fo_base _ _ _ _ _ _ Hfile)) as (d1 & Hd1 & Hwf1 & Hnone & Hdrop).
  rewrite bind_Ret, Hd1, bind_Ret.
  destruct (test_manfile_spec cfg manpath d1 c filename i base buf Htimes Hwf1 Hcache Hmap Hlex Hfile)
    as (ok & c' & d' & Ht & Hd' & _ & _ & Hok).
  rewrite Ht, bind_Ret. by exists d1, ok, c', d'.
Qed.
End update.

(** ** Evaluation *)

Definition file_opts : mandb_opts :=
  MandbOpts false 0 false false false false false (Some (lit "/usr/man/man1/ls.1")) None None.

Lemma update_one_file_correct_witness :
  ∃ d1 ok c' d', @update_one_file all_comp (pages_fs []) simple_dirname plain_text (one_name "ls - list") (gmap cstr cstr) _
      file_opts (Some one_page) (lit "/usr/man") (lit "/usr/man/man1/ls.1") (scan_with None (fresh ∅)) = Ret (1%Z, ok, c') ∧
    sc_db c' = Some d' ∧
    page_at (db_view d1) (NameExt (lit "ls") (md_ext ls_info)) = None ∧ only_drops (replaced (lit "ls")) (db_view one_page) (db_view d1) ∧
    @test_manfile all_comp (pages_fs []) simple_dirname plain_text (one_name "ls - list") (gmap cstr cstr) _ false d1
      (scan_with None (fresh ∅)) (lit "/usr/man/man1/ls.1") (lit "/usr/man") = Ret (ok, c') ∧
    (ok = true → wf (db_view d') ∧
      ∀ v, @ult_resolve all_comp (pages_fs []) simple_dirname plain_text (lit "/usr/man/man1/ls.1") (lit "/usr/man")
        None 7 = Ret (Some v) → 10%Z ≠ 0%Z →
        @check_extensions (pages_fs []) (gmap cstr cstr) map_db false d1 (lit "/usr/man") (lit "ls") ls_info ≠ Ret None →
        is_Some (@get_whatis simple_dirname (one_name "ls - list") ∅ (uv_path v) (lit "/usr/man/man1/ls.1")).1.1 →
        is_Some (page_at (db_view d') (NameExt (lit "ls") (md_ext ls_info)))).
Proof.
  exact (@update_one_file_correct all_comp (pages_fs []) simple_dirname plain_text (one_name "ls - list") (gmap cstr cstr) _ _ _
    file_opts eq_refl one_page (Some one_page) (scan_with None (fresh ∅)) (lit "/usr/man") (lit "/usr/man/man1/ls.1") ls_info (lit "ls")
    (Stat S_IFREG 10 1 1 (Timespec 1000 5)) (pages_times_ok []) one_page_wf eq_refl (map_Forall_empty _) (map_Forall_empty _)
    ls_lex_ok ls_file_ok).
Defined.

(** Updating the entry of ls(1) in an index that knows only ls(1x) takes
    ls(1x) out of it, whose file was not looked at: a single entry is deleted
    whatever its extension. *)
Theorem update_one_file_loses_page :
  (d ← after (dbstore (∅ : gmap cstr cstr) (page "A" "1x" None) (lit "ls"));
   '(_, _, c) ← @update_one_file all_comp (pages_fs []) simple_dirname plain_text (one_name "ls - list") (gmap cstr cstr) _
     file_opts (Some d) (lit "/usr/man") (lit "/usr/man/man1/ls.1") (scan_with None (fresh ∅));
   let d' := default ∅ (sc_db c) in
   Ret (md_id <$> page_at d (NameExt (lit "ls") (lit "1x")), md_id <$> page_at d' (NameExt (lit "ls") (lit "1x")),
        md_id <$> page_at d' (NameExt (lit "ls") (lit "1")))) = Ret (Some ULT_MAN, None, Some ULT_MAN).
Proof. by vm_compute. Qed.
