(* ===== verification/IndexSteps.v ===== *)
(** * libdb: the index as a state machine

    A program changes an index by storing pages, deleting them, purging links
    to a page and purging pages that are gone.  Every sequence of these
    operations that goes through keeps the index well-formed, and none of them,
    nor a lookup, ends the program. *)

From S2P Require Import Prelude CStr Fs Compression Filenames Mydbm DbContent Wordfnmatch DbLookup DbGroup DbKeys DbStore DbDelete Globbing Purge MandbFile.

Inductive index_op :=
| Store (i : mandata) (base : cstr)
| Delete (name : cstr) (i : mandata)
| PurgePointers (name : cstr)
| PurgeMissing (manpath catpath : cstr) (db_mtime : timespec).

Section steps.
Context (cfg : comp_config) `{FileSystem} `{Dirname} `{Matcher} (layout : Z) (extension : option cstr).
Context {db : Type} `{Mydbm db}.

(** The state: the index and the cache of directory listings. *)
Definition index_state : Type := db * dirent_map.

(** [None]: the store of a page was refused. *)
Definition run_op (s : index_state) (op : index_op) : outcome (option index_state) :=
  let '(dbf, cache) := s in
  match op with
  | Store i base =>
    '(ret, _, dbf) ← dbstore dbf i base;
    Ret (if (0 <? ret)%Z then None else Some (dbf, cache))
  | Delete name i =>
    '(_, dbf) ← dbdelete dbf name i;
    Ret (Some (dbf, cache))
  | PurgePointers name =>
    dbf ← purge_pointers false dbf name;
    Ret (Some (dbf, cache))
  | PurgeMissing manpath catpath db_mtime =>
    '(_, p) ← purge_missing cfg layout extension false true (Some dbf) db_mtime manpath catpath cache false;
    Ret (Some (match p with Some p => (ps_db p, ps_cache p) | None => (dbf, cache) end))
  end.

(** What the callers pass: parts of names without tabs and NULs, and no name
    that is the key of the version entry. *)
Definition op_ok (op : index_op) : Prop :=
  match op with
  | Store i base => entry_ok (set_name None i) ∧ field_ok base ∧ base ≠ [] ∧ name_to_key base ≠ VER_KEY
  | Delete name _ => (TAB ∉ name) ∧ name_to_key name ≠ VER_KEY
  | PurgePointers _ | PurgeMissing _ _ _ => True
  end.

Inductive reachable_index (s0 : index_state) : index_state → Prop :=
| reach_start : reachable_index s0 s0
| reach_op s op s' : reachable_index s0 s → op_ok op → run_op s op = Ret (Some s') → reachable_index s0 s'.
End steps.

Section theorems.
Context (cfg : comp_config) `{FileSystem} `{Dirname} `{Matcher} (layout : Z) (extension : option cstr).
Context {db : Type} `{MydbmReliable db}.
Context (Hfinder : finder_ok cfg layout extension).
Abbreviation run := (run_op cfg layout extension).

Definition state_ok (s : index_state (db:=db)) : Prop := wf (db_view s.1) ∧ cache_ok s.2.

(** Every operation on a good state returns, and leaves a good state. *)
Lemma run_op_ok s op :
  state_ok s → op_ok op → ∃ o, run s op = Ret o ∧ ∀ s', o = Some s' → state_ok s'.
Proof using Hfinder H4.
  destruct s as [d cache]. intros [Hwf Hc]. destruct op as [i base|name i|name|manpath catpath t]; simpl.
  - intros (Hi & Hb & Hne & Hv). destruct (dbstore_returns i base Hi Hb Hne Hv d Hwf) as (ret & d' & -> & Hst).
    rewrite bind_Ret. eexists. split; [done|]. destruct (Z.ltb_spec 0 ret); [done|]. intros s' [= <-]. split; [|done].
    destruct Hst as [[_ [Hw _]]|(_ & -> & _)]; [done|lia].
  - intros [Ht Hv]. destruct (dbdelete_returns d name i Hwf Ht Hv) as (ret & d' & -> & Hw & _). rewrite bind_Ret.
    eexists. split; [done|]. by intros s' [= <-].
  - intros _. destruct (purge_pointers_loop_spec name (db_keys d) d Hwf) as (d' & Hp & Hw & _). unfold purge_pointers.
    rewrite Hp, bind_Ret. eexists. split; [done|]. by intros s' [= <-].
  - intros _. destruct (decide (dbver_rd d = 0%Z)) as [Hver|Hver].
    + destruct (purge_missing_spec cfg layout extension Hfinder d manpath catpath t cache false Hwf Hver Hc)
        as (n & p & -> & Hw & _ & Hc' & _). rewrite bind_Ret. eexists. split; [done|]. by intros s' [= <-].
    + unfold purge_missing, ensure_db_open, sanity_check_db. rewrite bool_decide_eq_false_2 by done. cbn [negb].
      rewrite bind_Ret. eexists. split; [done|]. by intros s' [= <-].
Qed.

(** C6: the index as a state machine is safe.  In every state that can be
    reached from a well-formed index by storing and deleting pages and purging
    links and missing pages, as long as no store is refused, the index is
    well-formed; every further operation returns; and every lookup returns
    exactly the pages stored that suit it. *)
Theorem index_steps_safe s0 s :
  state_ok s0 → reachable_index cfg layout extension s0 s →
  state_ok s ∧
  (∀ op, op_ok op → is_ret (run s op) = true) ∧
  (∀ section exact match_case page, TAB ∉ page → name_to_key page ≠ VER_KEY →
     ∃ infos, dblookup s.1 page section exact match_case = Ret infos ∧
       ∀ i, i ∈ infos ↔ answers s.1 section exact match_case page i).
Proof using Hfinder H4.
  intros Hs0 Hr. assert (state_ok s) as Hs.
  { induction Hr as [|s op s' _ IH Hop Hrun]; [done|]. destruct (run_op_ok s op IH Hop) as (o & Ho & Hok).
    apply Hok. congruence. }
  split; [done|]. split.
  - intros op Hop. by destruct (run_op_ok s op Hs Hop) as (o & -> & _).
  - intros section exact match_case page Ht Hv.
    destruct (dblookup_returns s.1 section exact match_case page (proj1 Hs) Ht Hv) as (infos & Hi & Hin & _). by exists infos.
Qed.
End theorems.

(** ** Evaluation *)

(** A page is stored, a link to it, and the links are purged again. *)
Definition demo_ops : list index_op :=
  [Store (page "A" "1" None) (lit "ls"); Store (link_to "ls" "1") (lit "dir"); PurgePointers (lit "ls")].

Abbreviation demo_run := (@run_op all_comp empty_fs simple_dirname literal_matcher 1 None (gmap cstr cstr) _).

Fixpoint run_ops (s : index_state (db:=gmap cstr cstr)) (ops : list index_op) : index_state (db:=gmap cstr cstr) :=
  match ops with
  | [] => s
  | op :: ops => match demo_run s op with Ret (Some s) => run_ops s ops | _ => s end
  end.

Lemma run_ops_reachable s0 s ops :
  reachable_index all_comp (H:=empty_fs) (H1:=literal_matcher) 1 None s0 s → Forall op_ok ops →
  reachable_index all_comp (H:=empty_fs) (H1:=literal_matcher) 1 None s0 (run_ops s ops).
Proof.
  intros Hr Hops. revert s Hr. induction Hops as [|op ops Hop _ IH]; intros s Hr; simpl; [done|].
  destruct (demo_run s op) as [[s'|]| |] eqn:E; [|done..]. apply IH. by eapply reach_op.
Qed.

Lemma demo_ops_ok : Forall op_ok demo_ops.
Proof.
  repeat constructor; try done; compute_done.
Qed.

Lemma index_steps_safe_witness :
  let s := run_ops (∅, ∅) demo_ops in
  db_keys s.1 = [lit "ls"] ∧ state_ok (H:=empty_fs) s ∧
    (∀ op, op_ok op → is_ret (demo_run s op) = true) ∧
    (∀ section exact match_case page, TAB ∉ page → name_to_key page ≠ VER_KEY →
      ∃ infos, dblookup s.1 page section exact match_case = Ret infos ∧
        ∀ i, i ∈ infos ↔ answers s.1 section exact match_case page i).
Proof.
  split; [by vm_compute|].
  refine (@index_steps_safe all_comp empty_fs simple_dirname literal_matcher 1 None (gmap cstr cstr) _ _ _ _ (∅, ∅) _ _ _).
  - intros hier sec name cat p Hpp. by apply elem_of_nil in Hpp.
  - split; [exact wf_empty_db|apply map_Forall_empty].
  - apply run_ops_reachable; [constructor|exact demo_ops_ok].
Defined.
