(* ===== verification/MandbMain.v ===== *)
(** * src/mandb.c: options, all hierarchies, obsolete cat directories

    [mandb_main] brings the index of every hierarchy of the search path and of
    every directory of translated pages in it up to date, and removes the cat
    directories that belong to no hierarchy any more.  The directories it
    removes are a list: removing a directory and all it holds is taken not to
    change what the walk reads later. *)

From S2P Require Import Prelude CStr Fs Util Compression Filenames Mydbm DbContent Wordfnmatch DbLookup DbGroup DbKeys DbStore DbDelete Globbing Descriptions UltSrc Purge CheckMandirs Manp Manpath Straycats Cleanup Security IndexFiles Mandb MandbIndex.

(** ** The command line *)

(** What argp passes to [parse_opt]. *)
Inductive mandb_key :=
  Key_d | Key_q | Key_s | Key_p | Key_u | Key_c | Key_t | Key_f (arg : cstr) | Key_C (arg : cstr) | Key_h
  | ARGP_KEY_ARG (arg : cstr) | ARGP_KEY_SUCCESS.

(** The variables at the start; [o_quiet] counts the [-q] options until
    [ARGP_KEY_SUCCESS]. *)
Definition initial_opts : mandb_opts := MandbOpts false 0 true true false false false None None None.

Definition parse_opt (o : mandb_opts) (key : mandb_key) : outcome mandb_opts :=
  let '(MandbOpts debug quiet strays purge user create test filename config manp) := o in
  match key with
  | Key_d => Ret (MandbOpts true quiet strays purge user create test filename config manp)
  | Key_q => Ret (MandbOpts debug (quiet + 1) strays purge user create test filename config manp)
  | Key_s => Ret (MandbOpts debug quiet false purge user create test filename config manp)
  | Key_p => Ret (MandbOpts debug quiet strays false user create test filename config manp)
  | Key_u => Ret (MandbOpts debug quiet strays purge true create test filename config manp)
  | Key_c => Ret (MandbOpts debug quiet strays false user true test filename config manp)
  | Key_t => Ret (MandbOpts debug quiet strays purge user create true filename config manp)
  | Key_f arg => Ret (MandbOpts debug quiet false false user false test (Some arg) config manp)
  | Key_C arg => Ret (MandbOpts debug quiet strays purge user create test filename (Some arg) manp)
  | Key_h => Fatal "argp_state_help"
  | ARGP_KEY_ARG arg =>
    match manp with
    | Some _ => Fatal "argp_usage"
    | None => Ret (MandbOpts debug quiet strays purge user create test filename config (Some arg))
    end
  | ARGP_KEY_SUCCESS =>
    let quiet := if test && negb debug then 1%Z else if (quiet =? 1)%Z then 2%Z else quiet in
    Ret (MandbOpts debug quiet strays purge user create test filename config manp)
  end.

Fixpoint parse_opts (o : mandb_opts) (keys : list mandb_key) : outcome mandb_opts :=
  match keys with
  | [] => parse_opt o ARGP_KEY_SUCCESS
  | key :: keys => o ← parse_opt o key; parse_opts o keys
  end.

Definition set_user (user : bool) (o : mandb_opts) : mandb_opts :=
  MandbOpts (o_debug o) (o_quiet o) (o_strays o) (o_purge o) user (o_create o) (o_test o) (o_filename o) (o_config o) (o_manp o).

(** ** Obsolete cat directories *)

Definition a_to_z (c : option ascii) : bool :=
  match c with Some c => bool_decide (97 ≤ nat_of_ascii c ≤ 122) | None => false end.

Definition is_lang_dir (base : cstr) : bool :=
  bool_decide (2 ≤ length base) && a_to_z (base !! 0) && a_to_z (base !! 1) && negb (a_to_z (base !! 2)).

Section catdirs.
Context `{FileSystem} `{Dirname} `{!MandbEnv}.

(** The directory, when it is to be removed. *)
Definition purge_catdir (tried_catdirs : gmap cstr tried) (path : cstr) : list cstr :=
  match fs_stat path with
  | Some st => if S_ISDIR (st_mode st) && bool_decide (tried_catdirs !! path = None) then [path] else []
  | None => []
  end.

(** The subdirectories to be removed. *)
Definition purge_catsubdir (manpath catpath : cstr) (ent : dirent) : list cstr :=
  if negb (STRNEQ (d_name ent) (lit "cat") 3) then []
  else
    let mandir := manpath ++ lit "/man" ++ drop 3 (d_name ent) in
    let catdir := catpath ++ lit "/" ++ d_name ent in
    if bool_decide (fs_stat mandir = None) && stat_missing mandir then [catdir] else [].

Definition purge_catsubdirs (manpath catpath : cstr) : list cstr :=
  match fs_readdir catpath with
  | None => []
  | Some entries => entries ≫= purge_catsubdir manpath catpath
  end.

(** One entry of a cat directory. *)
Definition purge_subdirent (tried_catdirs : gmap cstr tried) (path : cstr) (subdirent : dirent) : list cstr :=
  let name := d_name subdirent in
  if STREQ name (lit ".") || STREQ name (lit "..") then []
  else if STRNEQ name (lit "cat") 3 then []
  else if negb (is_lang_dir name) then []
  else
    let subdirpath := path ++ lit "/" ++ name in
    match tried_catdirs !! subdirpath with
    | Some subtried =>
      if td_seen subtried then purge_catsubdirs (td_manpath subtried) subdirpath
      else purge_catdir tried_catdirs subdirpath
    | None => purge_catdir tried_catdirs subdirpath
    end.

Definition purge_tried (tried_catdirs : gmap cstr tried) (entry : cstr * tried) : list cstr :=
  let '(path, t) := entry in
  if is_lang_dir (base_name path) then []
  else
    purge_catsubdirs (td_manpath t) path ++
    match fs_readdir path with
    | None => []
    | Some entries => entries ≫= purge_subdirent tried_catdirs path
    end.

Definition purge_catdirs (tried_catdirs : gmap cstr tried) : list cstr :=
  map_order (map_to_list tried_catdirs) ≫= purge_tried tried_catdirs.
End catdirs.

(** ** main *)

Definition OK : Z := 0.
Definition FAIL : Z := 1.

Section main.
Context (cfg : comp_config) `{FileSystem} `{Dirname} `{Matcher} `{PageText} `{Lexgrog} `{OrderFiles} `{IdPriv}.
Context {db : Type} `{Mydbm db} `{!IndexIO db} `{!MandbEnv}.
Context (layout : Z) (extension : option cstr).
Abbreviation mstate := (mandb_state db).

Section hierarchies.
Context (conf : config_state) (opts : mandb_opts).
Abbreviation process := (process_manpath cfg layout extension conf opts).

(** One hierarchy; a negative result ends the program. *)
Definition process_or_exit (manpath : cstr) (global_manpath : bool) (amount : Z) (s : mstate) : outcome (Z * mstate) :=
  '(ret, s) ← process manpath global_manpath s;
  if (ret <? 0)%Z then Fatal "exit (FATAL)" else Ret ((amount + ret)%Z, s).

(** The directories of translated pages. *)
Definition subdir_names (entries : list dirent) : list cstr :=
  filter (λ n, negb (STREQ n (lit ".") || STREQ n (lit "..")) && negb (STRNEQ n (lit "man") 3) = true) (d_name <$> entries).

Fixpoint process_subdirs (mp : cstr) (global_manpath : bool) (names : list cstr) (amount : Z) (s : mstate) : outcome (Z * mstate) :=
  match names with
  | [] => Ret (amount, s)
  | name :: names =>
    '(amount, s) ← process_or_exit (mp ++ lit "/" ++ name) global_manpath amount s;
    process_subdirs mp global_manpath names amount s
  end.

Definition on_privs (f : sec_state → outcome sec_state) (s : mstate) : outcome mstate :=
  x ← f (mb_sec s); Ret (set_privs x s).

(** One element of the search path. *)
Definition process_hierarchy (mp : cstr) (amount : Z) (s : mstate) : outcome (Z * mstate) :=
  let global_manpath := is_global_mandir conf mp in
  if global_manpath && o_user opts then Ret (amount, s)
  else
    s ← if global_manpath then Ret s else on_privs drop_effective_privs s;
    '(amount, s) ← process_or_exit mp global_manpath amount s;
    '(amount, s) ←
      match fs_readdir mp with
      | None => Ret (amount, s)
      | Some entries => process_subdirs mp global_manpath (subdir_names entries) amount s
      end;
    s ← if global_manpath then Ret s else on_privs regain_effective_privs s;
    Ret (amount, s).

Fixpoint process_hierarchies (manpathlist : list cstr) (amount : Z) (s : mstate) : outcome (Z * mstate) :=
  match manpathlist with
  | [] => Ret (amount, s)
  | mp :: manpathlist =>
    '(amount, s) ← process_hierarchy mp amount s;
    process_hierarchies manpathlist amount s
  end.
End hierarchies.

Context (env : config_env) (CONFIG_FILE OVERRIDE_DIR : cstr) (cwd : option cstr).

(** Only root and the owner of man's files may touch the system's indexes. *)
Definition restrict_user (sec : sec_state) (opts : mandb_opts) : mandb_opts :=
  if negb (o_user opts) && negb (euid sec =? 0)%Z && negb (euid sec =? man_owner_ids.1)%Z then set_user true opts else opts.

Definition mandb_manpath (conf : config_state) (opts : mandb_opts) : outcome (list cstr) :=
  manp ← get_manpath conf (getenv env) None;
  manp ←
    match o_manp opts with
    | Some arg_manp => Ret arg_manp
    | None =>
      if o_user opts then Ret manp
      else
        sys_manp ← get_mandb_manpath conf;
        Ret (default manp sys_manp)
    end;
  create_pathlist OVERRIDE_DIR cwd manp.

(** The state of a program that has just started. *)
Definition initial_state (fs : gmap cstr db) (tags : gset cstr) (sec : sec_state) : mstate :=
  MandbState fs tags [] sec (State [] 0 false (λ _, SIG_DFL) (λ _, SIG_DFL)) ∅ (Scan None no_cache ∅ 0) 0 0 false ∅.

(** The exit status, the cat directories removed and the final state. *)
Definition mandb_main (keys : list mandb_key) (p : process) (fs : gmap cstr db) (tags : gset cstr)
    : outcome (Z * list cstr * mstate) :=
  opts ← parse_opts initial_opts keys;
  sec ← init_security p;
  let opts := restrict_user sec opts in
  conf ← read_config_file env CONFIG_FILE (o_config opts) (o_user opts);
  manpathlist ← mandb_manpath conf opts;
  sec ← regain_effective_privs sec;
  '(amount, s) ← process_hierarchies conf opts manpathlist 0 (initial_state fs tags sec);
  let removed := purge_catdirs (mb_tried s) in
  let status :=
    if o_create opts && (amount =? 0)%Z then
      match getenv env "MAN_MUST_CREATE" with
      | Some must_create => if STREQ must_create (lit "1") then FAIL else OK
      | None => OK
      end
    else OK in
  Ret (status, removed, s).
End main.

(** ** Which cat directories are removed *)

Section catdir_theorems.
Context `{FileSystem} `{Dirname} `{!MandbEnv}.

(** The directory has an entry of this name. *)
Definition listed (path name : cstr) : Prop :=
  ∃ entries ent, fs_readdir path = Some entries ∧ ent ∈ entries ∧ d_name ent = name.

(** A directory [cat...] of a cat directory for which [stat] says of the
    directory [man...] that it does not exist; any other failure of [stat] is
    not enough. *)
Definition cat_of_no_man (manpath path d : cstr) : Prop :=
  ∃ n, listed path (lit "cat" ++ n) ∧ d = path ++ lit "/cat" ++ n ∧
    fs_stat (manpath ++ lit "/man" ++ n) = None ∧ stat_missing (manpath ++ lit "/man" ++ n) = true.

(** A directory for a language that no directory of pages was looked at for. *)
Definition unknown_lang_dir (tried_catdirs : gmap cstr tried) (path d : cstr) : Prop :=
  ∃ n, listed path n ∧ is_lang_dir n = true ∧ d = path ++ lit "/" ++ n ∧ tried_catdirs !! d = None ∧
    ∃ st, fs_stat d = Some st ∧ S_ISDIR (st_mode st) = true.

Lemma listed_bind {A} path entries (f : dirent → list A) x :
  fs_readdir path = Some entries → x ∈ entries ≫= f ↔ ∃ ent, listed path (d_name ent) ∧ ent ∈ entries ∧ x ∈ f ent.
Proof.
  intros Hr. rewrite list_elem_of_bind. split; [|naive_solver].
  intros (ent & Hx & Hin). exists ent. split; [|done]. by exists entries, ent.
Qed.

Lemma elem_of_purge_catsubdirs manpath path d : d ∈ purge_catsubdirs manpath path ↔ cat_of_no_man manpath path d.
Proof.
  unfold purge_catsubdirs, purge_catsubdir. split.
  - destruct (fs_readdir path) as [entries|] eqn:Er; [|by intros ?%elem_of_nil].
    intros (ent & Hl & _ & Hd)%(listed_bind _ _ _ _ Er).
    destruct (STRNEQ (d_name ent) (lit "cat") 3) eqn:Ecat; cbn [negb] in Hd; [|by apply elem_of_nil in Hd].
    apply (STRNEQ_prefix_r (lit "cat")) in Ecat as [k Hk]. rewrite Hk in *.
    destruct (bool_decide _ && _) eqn:E; [|by apply elem_of_nil in Hd]. apply list_elem_of_singleton in Hd as ->.
    apply andb_true_iff in E as [E%bool_decide_eq_true Em]. by exists k.
  - intros (n & (entries & ent & Er & Hin & Hn) & -> & Hs & Hm). rewrite Er. apply list_elem_of_bind. exists ent. split; [|done].
    rewrite Hn. change (drop 3 (lit "cat" ++ n)) with n. rewrite (proj2 (STRNEQ_prefix_r (lit "cat") _)) by (by exists n). cbn [negb].
    rewrite bool_decide_eq_true_2, Hm by done. by apply list_elem_of_singleton.
Qed.

Lemma elem_of_purge_catdir tried_catdirs path d :
  d ∈ purge_catdir tried_catdirs path ↔
  d = path ∧ tried_catdirs !! d = None ∧ ∃ st, fs_stat d = Some st ∧ S_ISDIR (st_mode st) = true.
Proof.
  unfold purge_catdir. split.
  - destruct (fs_stat path) as [st|] eqn:Est; [|by intros ?%elem_of_nil].
    destruct (_ && _) eqn:E; [|by intros ?%elem_of_nil]. intros ->%list_elem_of_singleton.
    apply andb_true_iff in E as [Ed Et%bool_decide_eq_true]. eauto.
  - intros (-> & Ht & st & Est & Ed). rewrite Est, Ed, bool_decide_eq_true_2 by done. by apply list_elem_of_singleton.
Qed.

(** What is removed on account of one entry of a cat directory. *)
Definition lang_entry_removed (tried_catdirs : gmap cstr tried) (path n d : cstr) : Prop :=
  match tried_catdirs !! (path ++ lit "/" ++ n) with
  | Some sub => td_seen sub = true ∧ cat_of_no_man (td_manpath sub) (path ++ lit "/" ++ n) d
  | None => d = path ++ lit "/" ++ n ∧ ∃ st, fs_stat d = Some st ∧ S_ISDIR (st_mode st) = true
  end.

Lemma lang_dir_name n :
  is_lang_dir n = true → STREQ n (lit ".") || STREQ n (lit "..") = false ∧ STRNEQ n (lit "cat") 3 = false.
Proof.
  intros Hn. split.
  - apply orb_false_iff. split; apply STREQ_false; by intros ->.
  - apply not_true_is_false. by intros [k ->]%(STRNEQ_prefix_r (lit "cat")).
Qed.

Lemma elem_of_purge_subdirent tried_catdirs path ent d :
  d ∈ purge_subdirent tried_catdirs path ent ↔
  is_lang_dir (d_name ent) = true ∧ lang_entry_removed tried_catdirs path (d_name ent) d.
Proof.
  unfold purge_subdirent, lang_entry_removed. destruct (is_lang_dir (d_name ent)) eqn:El.
  2: { destruct (_ || _); [|destruct (STRNEQ _ _ _)]; rewrite elem_of_nil; naive_solver. }
  destruct (lang_dir_name _ El) as [-> ->]. cbn [negb].
  destruct (tried_catdirs !! (path ++ lit "/" ++ d_name ent)) as [[m []]|] eqn:Es; cbn [td_seen td_manpath].
  - rewrite elem_of_purge_catsubdirs. naive_solver.
  - rewrite elem_of_purge_catdir. split; [|naive_solver]. intros (-> & Hn & _). by rewrite Es in Hn.
  - rewrite elem_of_purge_catdir. split; [naive_solver|]. intros (_ & -> & Hst). by rewrite Es.
Qed.

Lemma elem_of_purge_tried tried_catdirs path t d :
  d ∈ purge_tried tried_catdirs (path, t) ↔
  is_lang_dir (base_name path) = false ∧
  (cat_of_no_man (td_manpath t) path d ∨ ∃ n, listed path n ∧ is_lang_dir n = true ∧ lang_entry_removed tried_catdirs path n d).
Proof.
  unfold purge_tried. destruct (is_lang_dir (base_name path)); [rewrite elem_of_nil; naive_solver|].
  rewrite elem_of_app, elem_of_purge_catsubdirs.
  assert (d ∈ match fs_readdir path with None => [] | Some entries => entries ≫= purge_subdirent tried_catdirs path end ↔
    ∃ n, listed path n ∧ is_lang_dir n = true ∧ lang_entry_removed tried_catdirs path n d) as ->; [|naive_solver].
  split.
  - destruct (fs_readdir path) as [entries|] eqn:Er; [|by intros ?%elem_of_nil].
    intros (ent & Hl & _ & [??]%elem_of_purge_subdirent)%(listed_bind _ _ _ _ Er). by exists (d_name ent).
  - intros (n & (entries & ent & Er & Hin & <-) & Hn & Hd). rewrite Er. apply list_elem_of_bind. exists ent.
    by rewrite elem_of_purge_subdirent.
Qed.

(** The removed directories, one by one. *)
Definition removable (tried_catdirs : gmap cstr tried) (d : cstr) : Prop :=
  ∃ path t, tried_catdirs !! path = Some t ∧ is_lang_dir (base_name path) = false ∧
    (cat_of_no_man (td_manpath t) path d ∨ unknown_lang_dir tried_catdirs path d ∨
     ∃ n sub, listed path n ∧ is_lang_dir n = true ∧ tried_catdirs !! (path ++ lit "/" ++ n) = Some sub ∧ td_seen sub = true ∧
       cat_of_no_man (td_manpath sub) (path ++ lit "/" ++ n) d).

Lemma elem_of_purge_catdirs tried_catdirs d :
  (∀ l, map_order l ≡ₚ l) → d ∈ purge_catdirs tried_catdirs ↔ removable tried_catdirs d.
Proof.
  intros Hmap. unfold purge_catdirs, removable. rewrite list_elem_of_bind. split.
  - intros ([path t] & Hd & Hin). rewrite Hmap in Hin. apply elem_of_map_to_list in Hin.
    apply elem_of_purge_tried in Hd as (Hb & Hd). exists path, t. split_and!; [done..|].
    destruct Hd as [Hd|(n & Hl & Hn & Hd)]; [by left|right]. unfold lang_entry_removed in Hd.
    destruct (tried_catdirs !! (path ++ lit "/" ++ n)) as [sub|] eqn:Es; [right; naive_solver|left].
    destruct Hd as [-> Hst]. by exists n.
  - intros (path & t & Ht & Hb & Hd). exists (path, t). rewrite Hmap, elem_of_map_to_list. split; [|done].
    apply elem_of_purge_tried. split; [done|]. destruct Hd as [Hd|[Hd|Hd]]; [by left|right..].
    + destruct Hd as (n & Hl & Hn & -> & Hno & Hst). exists n. split_and!; [done..|]. unfold lang_entry_removed. by rewrite Hno.
    + destruct Hd as (n & sub & Hl & Hn & Hs & Hseen & Hd). exists n. split_and!; [done..|]. unfold lang_entry_removed. by rewrite Hs.
Qed.

(** Names of directory entries hold no slash. *)
Definition entries_ok : Prop := ∀ path n, listed path n → "/"%char ∉ n.

Lemma last_component (p p' n n' : cstr) :
  "/"%char ∉ n → "/"%char ∉ n' → p ++ lit "/" ++ n = p' ++ lit "/" ++ n' → p = p' ∧ n = n'.
Proof.
  change (lit "/" ++ ?x) with ("/"%char :: x). intros Hn Hn'. revert p'.
  induction p as [|c p IH]; intros [|c' p'] Heq; cbn [app] in Heq.
  - by injection Heq as ->.
  - injection Heq as _ ->. destruct Hn. apply elem_of_app. right. by left.
  - injection Heq as _ <-. destruct Hn'. apply elem_of_app. right. by left.
  - injection Heq as -> Heq. by destruct (IH p' Heq) as [-> ->].
Qed.

(** C27: what is removed at the end is exactly this: in a cat directory of the
    run that is not itself one of a language, a directory [cat...] for whose
    directory [man...] of pages [stat] failed with [ENOENT], and a directory
    for a language that no directory of pages of the run belongs to; and in a
    directory for a language whose pages were seen, again a [cat...] without
    its [man...].  In particular the cat pages of a section go only when the
    directory of the section is known not to exist, and a cat directory of the
    run is never removed as one of a language. *)
Theorem purge_catdirs_safe (tried_catdirs : gmap cstr tried) :
  (∀ l, map_order l ≡ₚ l) → entries_ok →
  (∀ d, d ∈ purge_catdirs tried_catdirs ↔ removable tried_catdirs d) ∧
  (∀ catpath t sec, tried_catdirs !! catpath = Some t → "/"%char ∉ sec →
     catpath ++ lit "/cat" ++ sec ∈ purge_catdirs tried_catdirs →
     fs_stat (td_manpath t ++ lit "/man" ++ sec) = None ∧ stat_missing (td_manpath t ++ lit "/man" ++ sec) = true) ∧
  (∀ d, is_Some (tried_catdirs !! d) → d ∈ purge_catdirs tried_catdirs →
     ∃ catpath t, tried_catdirs !! catpath = Some t ∧ cat_of_no_man (td_manpath t) catpath d).
Proof.
  intros Hmap Hok. split; [intros d; by apply elem_of_purge_catdirs|]. split.
  - intros catpath t sec Ht Hsec. rewrite elem_of_purge_catdirs by done.
    assert ("/"%char ∉ lit "cat" ++ sec) as Hcat by (apply not_elem_of_app; split; [by apply (bool_decide_unpack _)|done]).
    assert (∀ m p, cat_of_no_man m p (catpath ++ lit "/cat" ++ sec) →
      p = catpath ∧ fs_stat (m ++ lit "/man" ++ sec) = None ∧ stat_missing (m ++ lit "/man" ++ sec) = true) as Hcase.
    { intros m p (n & Hl & Heq & Hs & Hm).
      apply (last_component catpath p (lit "cat" ++ sec) (lit "cat" ++ n)) in Heq as [<- Heq]; [|done|by apply (Hok p)].
      by apply app_inv_head in Heq as <-. }
    intros (path & t' & Ht' & _ & [Hd|[Hd|Hd]]).
    + apply Hcase in Hd as [-> Hd]. by simplify_eq.
    + destruct Hd as (n & Hl & Hn & Heq & _).
      apply (last_component catpath path (lit "cat" ++ sec) n) in Heq as [_ <-]; [|done|by apply (Hok path)].
      apply lang_dir_name in Hn as [_ Hn]. by rewrite (proj2 (STRNEQ_prefix_r (lit "cat") _)) in Hn by (by exists sec).
    + destruct Hd as (n & sub & _ & _ & Hs & _ & Hd). apply Hcase in Hd as [<- Hd]. by simplify_eq.
  - intros d [t Ht]. rewrite elem_of_purge_catdirs by done. intros (path & t' & Ht' & _ & [Hd|[Hd|Hd]]); [by eauto| |].
    + destruct Hd as (n & _ & _ & _ & Hno & _). by rewrite Ht in Hno.
    + destruct Hd as (n & sub & _ & _ & Hs & _ & Hd). eauto.
Qed.
End catdir_theorems.

(** ** What a run can touch *)

Section touch_theorems.
Context (cfg : comp_config) `{FileSystem} `{Dirname} `{Matcher} `{PageText} `{Lexgrog} `{OrderFiles} `{IdPriv} `{!IdPrivLaws}.
Context {db : Type} `{MydbmReliable db} `{!IndexIO db} `{!IndexIOLaws db} `{!MandbEnv}.
Context (layout : Z) (extension : option cstr).
Abbreviation mstate := (mandb_state db).

Section hierarchies.
Context (conf : config_state) (opts : mandb_opts).

(** [f] is the index of the directory, or the temporary file next to it. *)
Definition index_file (dir : cstr) (g : bool) (f : cstr) : Prop :=
  ∃ catpath, process_catpath conf dir g = Ret catpath ∧
    (f = mkdbname catpath ∨ f = catpath ++ lit "/" ++ pid).

(** [f] is the tag of the cat directory of the directory. *)
Definition tag_file (dir : cstr) (g : bool) (f : cstr) : Prop :=
  ∃ catpath, process_catpath conf dir g = Ret catpath ∧ tag_made dir catpath f.

(** [f] is a file of the system that may be given to the owner of man's files. *)
Definition given_file (dir : cstr) (g : bool) (f : cstr) : Prop :=
  ∃ catpath, process_catpath conf dir g = Ret catpath ∧ given catpath g f.

(** All that the work on the directories [W], each of the system or not, can
    change: their indexes and tags, the owners of these, and the table of cat
    directories. *)
Record touches (W : cstr → bool → Prop) (s s' : mstate) : Prop := Touches {
  to_files f : (∀ dir g, W dir g → ¬ index_file dir g f) → mb_files s' !! f = mb_files s !! f;
  to_side : side_frame (λ t, ∃ dir g, W dir g ∧ tag_file dir g t) (λ f, ∃ dir g, W dir g ∧ given_file dir g f) s s';
  to_tried c t : mb_tried s' !! c = Some t →
    mb_tried s !! c = Some t ∨ ∃ g, W (td_manpath t) g ∧ process_catpath conf (td_manpath t) g = Ret c;
}.
#[local] Instance touches_preorder W : PreOrder (touches W).
Proof.
  split; [split; [done|done|by left]|]. intros a b c [Fa Sa Ta] [Fb Sb Tb]. split; [|by etrans|].
  - intros f Hf. by rewrite Fb, Fa.
  - intros x t [Ht|?]%Tb; [by apply Ta|by right].
Qed.
Lemma touches_mono (W W' : cstr → bool → Prop) s s' : (∀ dir g, W dir g → W' dir g) → touches W s s' → touches W' s s'.
Proof.
  intros HW [Hf Hs Ht]. split.
  - intros f Hnot. apply Hf. intros dir g Hdir. by apply Hnot, HW.
  - eapply side_frame_mono; [| |exact Hs]; intros f (dir & g & ? & ?); eauto.
  - intros c t [?|(g & ? & ?)]%Ht; eauto.
Qed.

Lemma process_or_exit_touches dir g amount s amount' s' :
  process_or_exit cfg layout extension conf opts dir g amount s = Ret (amount', s') →
  touches (λ d b, d = dir ∧ b = g) s s' ∧ mb_sec s' = mb_sec s.
Proof.
  unfold process_or_exit. intros Hs. apply bind_Ret_inv in Hs as ([ret s1] & Hp & Hs).
  destruct (ret <? 0)%Z; [done|]. injection Hs as _ <-.
  destruct (process_manpath_same cfg layout extension conf opts _ _ _ _ _ Hp) as (catpath & seen & Hcat & [Hf Hsec Ht Hside]). split; [|done]. split.
  - intros f Hnot. apply Hf; intros ->; eapply (Hnot dir g); [done| |done|]; exists catpath; auto.
  - trans (try_catdir catpath dir seen s); [by apply side_frame_same|].
    eapply (side_frame_mono (tag_made dir catpath) (given catpath g)); [| |exact Hside]; intros f ?; exists dir, g; (split; [done|by exists catpath]).
  - intros c t. rewrite Ht. cbn [try_catdir set_tried mb_tried]. intros [[<- <-]|[_ ?]]%lookup_insert_Some; [right|by left].
    by exists g.
Qed.

(** The directories of the hierarchy [mp]; with [--user-db] the hierarchy is
    none of the system's. *)
Definition dir_of (mp dir : cstr) (g : bool) : Prop :=
  g = is_global_mandir conf mp ∧ (g = true → o_user opts = false) ∧ (dir = mp ∨ ∃ n, dir = mp ++ lit "/" ++ n).

Lemma process_subdirs_touches mp g names : ∀ amount s amount' s',
  g = is_global_mandir conf mp → (g = true → o_user opts = false) →
  process_subdirs cfg layout extension conf opts mp g names amount s = Ret (amount', s') →
  touches (dir_of mp) s s' ∧ mb_sec s' = mb_sec s.
Proof.
  induction names as [|n names IH]; intros amount s amount' s' Hg Hu; cbn [process_subdirs]; [by intros [= _ <-]|].
  intros Hs. apply bind_Ret_inv in Hs as ([a1 s1] & [Hp Hsec]%process_or_exit_touches & Hs).
  apply IH in Hs as [Hs ->]; [|done..]. split; [|done]. trans s1; [|done].
  eapply touches_mono; [|exact Hp]. intros dir b [-> ->]. split_and!; eauto.
Qed.

(** The work on one element of the search path, between dropping and
    regaining the privileges. *)
Lemma hierarchy_work mp g amount s r :
  g = is_global_mandir conf mp → (g = true → o_user opts = false) →
  (' (amount, s) ← process_or_exit cfg layout extension conf opts mp g amount s;
   match fs_readdir mp with
   | None => Ret (amount, s)
   | Some entries => process_subdirs cfg layout extension conf opts mp g (subdir_names entries) amount s
   end) = Ret r → touches (dir_of mp) s r.2 ∧ mb_sec r.2 = mb_sec s.
Proof.
  intros Hg Hu Hs. apply bind_Ret_inv in Hs as ([a1 s1] & [Hp Hsec]%process_or_exit_touches & Hs).
  assert (touches (dir_of mp) s s1) as Hmp.
  { eapply touches_mono; [|exact Hp]. intros dir b [-> ->]. split_and!; eauto. }
  destruct (fs_readdir mp) as [entries|]; [|by injection Hs as <-]. destruct r as [a2 s2].
  apply process_subdirs_touches in Hs as [Hs Hsec2]; [|done..]. cbn [snd]. split; [by etrans|congruence].
Qed.

(** What is touched, and the privileges given back. *)
Definition run_ok (p0 : process) (W : cstr → bool → Prop) (s s' : mstate) : Prop :=
  touches W s s' ∧ (reachable p0 0 (mb_sec s) → reachable p0 0 (mb_sec s')).

Lemma touches_privs W s s' x y : touches W (set_privs x s) s' → touches W s (set_privs y s').
Proof. intros [Hf [Ht Hc] Htr]. by split. Qed.

Lemma process_hierarchy_run p0 mp amount s amount' s' :
  process_hierarchy cfg layout extension conf opts mp amount s = Ret (amount', s') → run_ok p0 (dir_of mp) s s'.
Proof using All.
  unfold process_hierarchy. set (g := is_global_mandir conf mp) in *.
  destruct (g && o_user opts) eqn:Eg; [by intros [= _ <-]|].
  assert (g = true → o_user opts = false) as Hu by (intros Hg; by rewrite Hg in Eg).
  intros Hs. apply bind_Ret_inv in Hs as (s1 & Hdrop & Hs).
  apply bind_Ret_inv in Hs as ([a2 s2] & Hp & Hs). apply bind_Ret_inv in Hs as ([a3 s3] & Hsub & Hs).
  apply bind_Ret_inv in Hs as (s4 & Hregain & [= _ <-]).
  destruct (hierarchy_work mp g amount s1 (a3, s3) eq_refl Hu) as [Hf Hsec].
  { by rewrite Hp, bind_Ret. }
  simpl in Hf, Hsec. destruct g.
  - injection Hdrop as <-. injection Hregain as <-. split; [done|]. by rewrite Hsec.
  - apply bind_Ret_inv in Hdrop as (x1 & Hd & [= <-]). apply bind_Ret_inv in Hregain as (x2 & Hr & [= <-]).
    split; [by eapply touches_privs|]. intros Hreach. simpl in *. rewrite Hsec in Hr.
    exact (reach_regain p0 1 _ _ (reach_drop p0 0 _ _ Hreach Hd) Hr).
Qed.

Lemma process_hierarchies_run p0 manpathlist : ∀ amount s amount' s',
  process_hierarchies cfg layout extension conf opts manpathlist amount s = Ret (amount', s') →
  run_ok p0 (λ dir g, ∃ mp, mp ∈ manpathlist ∧ dir_of mp dir g) s s'.
Proof using All.
  induction manpathlist as [|mp l IH]; intros amount s amount' s'; cbn [process_hierarchies]; [by intros [= _ <-]|].
  intros Hs. apply bind_Ret_inv in Hs as ([a1 s1] & Hp & Hs).
  destruct (process_hierarchy_run p0 _ _ _ _ _ Hp) as [F1 R1], (IH _ _ _ _ Hs) as [F2 R2]. split; [|by auto].
  trans s1; eapply touches_mono; [|exact F1| |exact F2].
  - intros dir g Hd. exists mp. split; [by left|done].
  - intros dir g (mp' & Hin & Hd). exists mp'. split; [by right|done].
Qed.
End hierarchies.

Context (env : config_env) (CONFIG_FILE OVERRIDE_DIR : cstr) (cwd : option cstr).

Lemma restrict_user_spec sec opts :
  o_user (restrict_user sec opts) = false → (euid sec = 0 ∨ euid sec = man_owner_ids.1)%Z.
Proof.
  unfold restrict_user. destruct (o_user opts) eqn:Eu; cbn [negb andb]; [congruence|].
  destruct (Z.eqb_spec (euid sec) 0); cbn [negb andb]; [by left|].
  destruct (Z.eqb_spec (euid sec) man_owner_ids.1); cbn [negb]; [by right|done].
Qed.

(** The directories a process may work on: the hierarchies of the search path
    and the directories in them; those of the system only when the effective
    user is root or the owner of man's files. *)
Definition allowed (conf : config_state) (p : process) (manpathlist : list cstr) (dir : cstr) (g : bool) : Prop :=
  ∃ mp, mp ∈ manpathlist ∧ g = is_global_mandir conf mp ∧ (dir = mp ∨ ∃ n, dir = mp ++ lit "/" ++ n) ∧
    (g = true → id_eff (p_uid p) = 0 ∨ id_eff (p_uid p) = man_owner_ids.1)%Z.

(** A removed directory is an entry of a cat directory of the table. *)
Lemma removable_entry tried_catdirs d :
  removable tried_catdirs d →
  ∃ catpath t n, tried_catdirs !! catpath = Some t ∧ listed catpath n ∧ d = catpath ++ lit "/" ++ n.
Proof.
  intros (path & t & Ht & _ & [Hd|[Hd|Hd]]).
  - destruct Hd as (n & Hl & -> & _). by exists path, t, (lit "cat" ++ n).
  - destruct Hd as (n & Hl & _ & -> & _). by exists path, t, n.
  - destruct Hd as (n & sub & _ & _ & Hs & _ & (m & Hl & -> & _)). by exists (path ++ lit "/" ++ n), sub, (lit "cat" ++ m).
Qed.

(** C9: a run of mandb that returns has the privileges it was started with
    again, and all it has changed, apart from the cat directories that are made
    and repaired before a scan (the file CatDirs), belongs to the hierarchies on its search path
    and the directories in them, those of the system only when the effective
    user is root or the owner of man's files.  It has changed no file but
    their indexes (and the temporary files next to these); it has made or
    removed no CACHEDIR.TAG but those of their cat directories, apart from the
    pages; it has given the owner of man's files nothing but indexes and tags
    of hierarchies of the system; and every directory it has removed is an
    entry of one of their cat directories. *)
Theorem mandb_touches keys (p : process) fs tags status removed s' :
  setuid_process p → (∀ l, map_order l ≡ₚ l) →
  mandb_main cfg layout extension env CONFIG_FILE OVERRIDE_DIR cwd keys p fs tags = Ret (status, removed, s') →
  proc (mb_sec s') = p ∧
  ∃ opts sec conf (manpathlist : list cstr),
    parse_opts initial_opts keys = Ret opts ∧ init_security p = Ret sec ∧
    let o := restrict_user sec opts in
    read_config_file env CONFIG_FILE (o_config o) (o_user o) = Ret conf ∧
    mandb_manpath env OVERRIDE_DIR cwd conf o = Ret manpathlist ∧
    let W := allowed conf p manpathlist in
    (∀ f, (∀ dir g, W dir g → ¬ index_file conf dir g f) → mb_files s' !! f = fs !! f) ∧
    (∀ t, (∀ dir g, W dir g → ¬ tag_file conf dir g t) → (t ∈ mb_tags s' ↔ t ∈ tags)) ∧
    (∀ f, f ∈ mb_chowned s' → ∃ dir catpath, W dir true ∧ process_catpath conf dir true = Ret catpath ∧
       (f = mkdbname catpath ∨ f = tag_of catpath)) ∧
    (∀ d, d ∈ removed → ∃ dir g catpath n, W dir g ∧ process_catpath conf dir g = Ret catpath ∧
       listed catpath n ∧ d = catpath ++ lit "/" ++ n).
Proof using All.
  intros Hp Hmap. unfold mandb_main. intros Hs. apply bind_Ret_inv in Hs as (opts & Hopts & Hs).
  apply bind_Ret_inv in Hs as (sec & Hinit & Hs). apply bind_Ret_inv in Hs as (conf & Hconf & Hs).
  apply bind_Ret_inv in Hs as (manpathlist & Hlist & Hs). apply bind_Ret_inv in Hs as (sec1 & Hreg & Hs).
  apply bind_Ret_inv in Hs as ([amount s] & Hrun & [= _ <- <-]).
  destruct (process_hierarchies_run _ _ p _ _ _ _ _ Hrun) as [Hto Hr].
  pose proof (reach_init p sec Hinit) as H1r.
  pose proof (reach_regain p 1 _ _ H1r Hreg) as H0r. specialize (Hr H0r).
  pose proof (reachable_inv p 0 _ Hp Hr) as [_ _ _ _ _ _ Hproc Hsame]. split.
  { destruct (decide (ruid (mb_sec s) = euid (mb_sec s))); [by apply Hsame|by apply Hproc]. }
  eapply (touches_mono _ _ (allowed conf p manpathlist)) in Hto as [Hf [Ht (l & Hl & Hc)] Htr].
  2: { intros dir g (mp & Hin & Hg & Hu & Hdir). exists mp. split_and!; try done. intros Hgt. specialize (Hu Hgt).
       pose proof (reachable_inv p 1 _ Hp H1r) as [_ He _ _ _ _ _ _]. rewrite <-He. by eapply restrict_user_spec. }
  exists opts, sec, conf, manpathlist. split_and!; try done.
  - intros t Hnot. apply Ht. intros (dir & g & HW & Htag). by eapply Hnot.
  - intros f Hin. rewrite Hl in Hin. cbn [initial_state mb_chowned] in Hin. rewrite app_nil_r in Hin.
    rewrite Forall_forall in Hc. destruct (Hc f Hin) as (dir & g & HW & catpath & Hcat & -> & Hgiven). by exists dir, catpath.
  - intros d (catpath & t & n & Htried & Hn & ->)%(elem_of_purge_catdirs _ _ Hmap)%removable_entry.
    apply Htr in Htried as [Hno|(g & HW & Hcat)]; [by cbn in Hno; rewrite lookup_empty in Hno|]. by exists (td_manpath t), g, catpath, n.
Qed.
End touch_theorems.

(** ** Evaluation *)

(** The hierarchy [/m] of the environment variable, whose index names a page
    that is gone; cat directories are left in [/c]. *)
Definition run_fs : FileSystem := {|
  fs_stat p := if existsb (STREQ p) [lit "/m"; lit "/c/de"; lit "/c/cat1"] then Some (Stat S_IFDIR 10 1 1 (Timespec 50 0)) else None;
  fs_lstat _ := None;
  fs_readdir p :=
    if STREQ p (lit "/c") then Some (flip Dirent 1%Z <$> [lit "."; lit "cat1"; lit "de"; lit "README"]) else None;
  fs_access_R _ := false; fs_access_F _ := false;
  fs_canonicalize p := Some p; fs_glob _ := None;
|}.
Definition run_config : config_env := {|
  read_lines p := if STREQ p (lit "/etc/manpath.config") then Some [] else None;
  getenv v := if String.eqb v "MANPATH" then Some (lit "/m") else None;
|}.

Abbreviation main_demo keys p :=
  (@mandb_main all_comp run_fs simple_dirname literal_matcher plain_text (one_name "ls - list") same_order able_idpriv
     (gmap cstr cstr) _ (index_io []) plain_env 1 None run_config (lit "/etc/manpath.config") (lit "") (Some (lit "/")) keys p one_file ∅).

Definition summary (o : outcome (Z * list cstr * mandb_state (gmap cstr cstr)))
    : outcome (Z * nat * bool * list (cstr * list cstr)) :=
  '(status, _, s) ← o;
  Ret (status, mb_purged s, bool_decide (proc (mb_sec s) = setuid_man), (λ f, (f.1, db_keys f.2)) <$> map_to_list (mb_files s)).

Example main_purges : summary (main_demo [Key_q] setuid_man) = Ret (0%Z, 1, true, [(lit "/m/index.db", [VER_KEY])]).
Proof. by vm_compute. Qed.

Lemma mandb_touches_witness : ∃ status removed s',
  main_demo [Key_q] setuid_man = Ret (status, removed, s') ∧
  (proc (mb_sec s') = setuid_man ∧
   ∃ opts sec conf (manpathlist : list cstr),
     parse_opts initial_opts [Key_q] = Ret opts ∧ @init_security able_idpriv setuid_man = Ret sec ∧
     let o := @restrict_user plain_env sec opts in
     read_config_file run_config (lit "/etc/manpath.config") (o_config o) (o_user o) = Ret conf ∧
     @mandb_manpath run_fs run_config (lit "") (Some (lit "/")) conf o = Ret manpathlist ∧
     let W := @allowed plain_env conf setuid_man manpathlist in
     (∀ f, (∀ dir g, W dir g → ¬ @index_file plain_env conf dir g f) → mb_files s' !! f = one_file !! f) ∧
     (∀ t, (∀ dir g, W dir g → ¬ tag_file conf dir g t) → (t ∈ mb_tags s' ↔ t ∈ (∅ : gset cstr))) ∧
     (∀ f, f ∈ mb_chowned s' → ∃ dir catpath, W dir true ∧ process_catpath conf dir true = Ret catpath ∧
        (f = mkdbname catpath ∨ f = tag_of catpath)) ∧
     (∀ d, d ∈ removed → ∃ dir g catpath n, W dir g ∧ process_catpath conf dir g = Ret catpath ∧
        @listed run_fs catpath n ∧ d = catpath ++ lit "/" ++ n)).
Proof.
  assert (is_ret (main_demo [Key_q] setuid_man) = true) as Hret by by vm_compute.
  destruct (main_demo [Key_q] setuid_man) as [[[status removed] s']| |] eqn:E; [|discriminate..].
  exists status, removed, s'. split; [reflexivity|].
  exact (@mandb_touches all_comp run_fs simple_dirname literal_matcher plain_text (one_name "ls - list") same_order able_idpriv _
    (gmap cstr cstr) _ _ _ (index_io []) _ plain_env 1 None run_config (lit "/etc/manpath.config") (lit "") (Some (lit "/"))
    [Key_q] setuid_man one_file ∅ status removed s' (conj eq_refl eq_refl) (λ l, reflexivity l) E).
Defined.

Definition tried_demo : gmap cstr tried := {[ lit "/c" := Tried (lit "/m") true ]}.

Lemma run_fs_entries : @entries_ok run_fs.
Proof.
  intros path n (entries & ent & Hr & Hin & <-). unfold fs_readdir, run_fs in Hr.
  destruct (STREQ path (lit "/c")); [|done]. injection Hr as <-.
  revert ent Hin. apply Forall_forall. repeat constructor; by apply (bool_decide_unpack _).
Qed.

Lemma purge_catdirs_safe_witness :
  (∀ d, d ∈ @purge_catdirs run_fs simple_dirname plain_env tried_demo ↔
     @removable run_fs simple_dirname plain_env tried_demo d) ∧
  (∀ catpath t sec, tried_demo !! catpath = Some t → "/"%char ∉ sec →
     catpath ++ lit "/cat" ++ sec ∈ @purge_catdirs run_fs simple_dirname plain_env tried_demo →
     @fs_stat run_fs (td_manpath t ++ lit "/man" ++ sec) = None ∧ @stat_missing plain_env (td_manpath t ++ lit "/man" ++ sec) = true) ∧
  (∀ d, is_Some (tried_demo !! d) → d ∈ @purge_catdirs run_fs simple_dirname plain_env tried_demo →
     ∃ catpath t, tried_demo !! catpath = Some t ∧ @cat_of_no_man run_fs plain_env (td_manpath t) catpath d).
Proof. exact (@purge_catdirs_safe run_fs simple_dirname plain_env tried_demo (λ l, reflexivity l) run_fs_entries). Defined.

Example purge_catdirs_values :
  @purge_catdirs run_fs simple_dirname plain_env tried_demo = [lit "/c/cat1"; lit "/c/de"].
Proof. by vm_compute. Qed.

(** A directory for a language is removed when its pages were not looked for,
    and kept when they were looked for and not found. *)
Example lang_dir_not_seen :
  @purge_catdirs run_fs simple_dirname plain_env (<[lit "/c/de" := Tried (lit "/m/de") false]> tried_demo) = [lit "/c/cat1"].
Proof. by vm_compute. Qed.
